(* ===== verification/_CoqProject ===== *)
-Q . S2P
Prelude.v
CInt.v
Memory.v
Syscon.v
Clint.v
Plic.v
UnitTests.v
Uart.v
Bus.v
Csr.v
CsrProps.v
Mmu.v
Tlb.v
Alu.v
Decode.v
Cpu.v
CpuInv.v
CpuFrame.v
CpuProps.v
Isa.v
MemOps.v
Isolation.v
Paging.v
Exec.v
Progress.v
Arch.v
Simulation.v
Startup.v
Drivers.v
DriverProps.v
Guest.v
Printf.v
Coremark.v
Platform.v
Trace.v
Loader.v
Main.v
