(* ===== verification/Prelude.v ===== *)
(** * TinyLinuxRV: a verification library for the RISC-V emulator

    TinyLinuxRV emulates a single-hart RV64IMA machine with M, S and U mode, Sv39,
    a CLINT, a PLIC and a 16550 UART, precisely enough to boot OpenSBI and Linux.
    This library models the emulator (C, [src/emulator]) and the guest drivers
    written for it ([src/software]) as executable definitions, and proves what
    makes them correct.

    ** The program and its model

    [main.c] parses the command line, allocates the memory and the devices, loads
    the images and calls [cpu_exec], which repeats: [cpu_step], the power-off and
    reboot requests of syscon, the device update (stdin, clock), the interrupt
    lines.  [cpu_step] latches the lines into [mip], fetches through the MMU and the
    instruction TLB, takes an interrupt or decodes and executes one instruction,
    whose accesses go through the MMU, the data TLB and the bus to RAM or to a
    device, and ends with the trap or with the next pc.

    The files, in order of dependency; function and type names are those of the C
    sources wherever they exist there:

    - [Prelude]: record update ([p->f = v] is [p <| f := v |>]), the
      state-and-exception monad [exec] with its triples and the [keeps] logic,
      arrays as lists, and generic lemmas on lists and on the bits of integers;
    - [CInt] (helpers of [cpu.c] and [csr.c]): C integers of fixed width;
    - [Memory] ([memory.c], [bootROM.c], [address_range.h]), [Syscon] ([syscon.c]),
      [Clint] ([clint.c]), [Plic] ([plic.c]), [Uart] ([uart16550.c]): the memory
      and the devices, one record of state and one function per C function each;
      [UnitTests] ([plic_unit_test.c]): the unit tests of the PLIC, which pass;
    - [Bus] ([bus.c], [device.c], [addrmap.h]): the address map, and the classes
      [BusOps], [BusLaws] and [BusMem], through which every client sees a bus:
      its operations, what they keep, and the memory behind it; the instances for
      [bus_t] discharge them;
    - [Csr], [CsrProps] ([csr.c], [csr.h], [riscv.h]): registers, CSR instructions,
      traps, interrupts, counters;
    - [Mmu] ([mmu.c]) and [Tlb] ([tlb.c]): translation, over any bus;
    - [Alu], [Decode], [Cpu] ([cpu.c], [decode.h]): multiplication and division,
      the 98 instruction patterns, the core; an instruction is a computation of the
      monad, and [goto raise_exception] its exception;
    - [CpuInv], [CpuFrame]: the machine invariant, and the frame of a step (read
      and translate, then at most one store or one change of control state, then
      registers), from which the theorems about whole steps are instantiated;
    - [CpuProps], [Isa], [MemOps], [Isolation], [Paging]: theorems about the core;
    - [Exec] ([cpu_exec.c]) and [Progress]: the execution loop and what it
      eventually does;
    - [Arch]: the machine of the architecture, registers and RAM as functions and
      instructions as an inductive relation; [Simulation]: the emulator performs
      its runs;
    - [Startup] ([crt0.S]): the loop that clears the BSS segment, as machine code;
    - [Drivers], [DriverProps] ([software/baremetal/drivers],
      [software/freeRTOS/runtime]): the guest drivers on the emulated devices;
    - [Guest] ([baremetal-test.c], [opensbi-test.c], [fib.c]): the self-test
      programs, on the bus and the drivers;
    - [Printf], [Coremark] ([ee_printf.c], [core_portme.c] of the CoreMark port):
      formatted output and timing;
    - [Platform] ([platform.c] of the OpenSBI port): the machine as the firmware is
      told of it;
    - [Trace] ([iringbuf.c], [symtable.c], [func_trace.c]), [Loader] ([loader.c]),
      [Main] ([main.c], [addrmap_emu.h]): tracing, images, the program.

    ** What is proved

    - The machine: every state reachable from reset, for every program and every
      behaviour of the environment, is well formed
      ([CpuProps.machine_invariant]); exceptions are precise
      ([CpuProps.precise_exceptions]).
    - Instructions: the integer and control-transfer instructions refine the
      architecture's definition on integers ([Isa.isa_refined]); through the page
      tables and with translation off alike, loads and stores of RAM round-trip, also
      between two addresses of one word, AMOs are the architecture's read-modify-write
      and LR/SC pair ([MemOps] for the accesses, [Paging] for the theorems);
      a word that is no instruction traps ([Isa.illegal_instruction]);
      encoding, decoding and the pattern table are consistent ([Decode]).
    - The whole against the architecture: every run of the RV64IMA machine on RAM is
      performed by the execution loop, one iteration for each instruction, through
      the page tables and the TLBs, with interrupts masked and whatever the host does
      ([Simulation.emulator_implements_isa]).
    - Virtual memory: the walk implements the Sv39 relation [Mmu.leaf_at]
      ([Mmu.mmu_refines_sv39]) with three reads at most; the TLB is transparent
      while coherent ([Tlb.tlb_transparent]), a flush makes it coherent
      ([Tlb.flush_synchronises]), steps of the core keep it coherent, and a write of
      satp or an SFENCE.VMA empties both TLBs ([Isolation.tlbs_stay_coherent]).
    - Protection: CSR confinement ([CsrProps.csr_confinement]), MPRV
      ([Isolation.mprv_confined]), and user mode as a sandbox over whole runs
      ([Isolation.user_sandbox]).
    - Traps and interrupts: legal CSR states, delegation, the trap round trip,
      interrupt selection ([CsrProps]); a pending and enabled interrupt keeps the
      step from executing an instruction and is taken, unless the fetch at pc faults,
      which the code takes first ([Progress.interrupt_taken]); WFI ends when the
      timer expires ([Progress.wfi_timer_wakes]).
    - Devices: the PLIC serves a source once at a time, the UART loses no
      character, the timer does not drift, the address map is unambiguous; and,
      through the drivers, strings, numbers, lines and timer events arrive as the
      guest intends for every interleaving with the host ([DriverProps]).
    - Guest software: the start-up code clears exactly the BSS segment, by the
      simulation ([Startup.bss_cleared]); the self-test programs end with the verdict
      that the memory they find deserves ([Guest.selftest_verdict]); formatted output
      means what its format says and reaches the host ([Coremark.ee_printf_prints]),
      and benchmark times are host times ([Coremark.benchmark_time]); the OpenSBI
      platform describes the CLINT and the PLIC of the emulator ([Platform]).
    - The program: the status of a run names its cause, runs with a limit end, a
      reboot restarts the machine ([Exec]); images are loaded as their headers
      describe and never outside the memory ([Loader]); boot yields the power-on
      machine with the pc of the boot mode, well formed exactly when that pc is
      aligned, which the loader does not check of an ELF entry ([Main.boot_wf]), and
      the exit status reports the outcome ([Main]); the instruction
      ring and the symbol table refine lists ([Trace]).

    ** Conventions and bounds

    An unsigned w-bit object is a [Z] in [0, 2^w), [uintN_t] arithmetic wraps where
    it does in C.  The host (allocations, files, stdin, the clock) is an argument of
    the operation that consults it.  Loops over data are structural.  Where fuel
    occurs it is the quantity that bounds the loop: the three levels of the page
    table ([Mmu.walk_from]), the list of host inputs of a run ([Exec.exec_loop];
    [None] means the run outlasts it, and [Exec.exec_terminates] gives the length
    that suffices with an instruction limit), the accesses a driver can still make
    ([Drivers.wait_until]), the rounds of a loop with constant bounds
    ([Guest.for_loop], [Guest.control_loop], [Printf.put_while]), the length of a format ([Printf.ee_vsprintf]), the depth of the calls ([Guest.fib]), the 20 digits of a 64-bit number
    ([Drivers.put_num_digits]), the header counts and sizes of a file ([Loader]);
    the theorems about these functions include that a result is reached.

    ** Not modelled

    Messages and the printing of registers and TLB statistics ([log.h],
    [cpu_print_regs], [tlb_stats_report]), the release of memory at exit
    ([memory_free], [device_free]), and VirtIO (an address range without a device).
    Of the guest software: the assembly other than the BSS loop ([crt0.S] loads
    linker symbols and calls, [mtrap.S], the boot ROM), the FreeRTOS demo (two tasks
    that print for ever, under the FreeRTOS scheduler), OpenSBI itself, the
    floating-point half of the CoreMark port, which its configuration does not
    compile, and the CoreMark and FreeRTOS sources, which are third party.  Of the
    machine, [Arch] leaves aside instructions that trap, that access devices or that
    change CSRs: they are the subject of [CsrProps], [CpuProps], [Isolation] and
    [Progress].  The RTL under [hardware/] is a separate
    implementation in another language. *)
From Stdlib Require Btauto.
From stdpp Require Import base tactics numbers option list.

#[local] Open Scope Z_scope.

(** ** Functional record update

    [Eta R] holds the eta expansion of the record type [R]; each record of the
    development declares its own.  A [Setter proj] is then derived from it by
    abstracting the projection in that expansion, so the field assignment
    [p->f = v] of the C code reads [p <| f := v |>]. *)
Class Eta (R : Type) := eta : R -> R.
Class Setter {R T : Type} (proj : R -> T) := update : (T -> T) -> R -> R.
Arguments update {R T} proj {_} f r.

Ltac derive_setter :=
  lazymatch goal with
  | |- @Setter ?R ?T ?proj =>
      let inst := lazymatch constr:(@eta R _) with @eta _ ?i => i end in
      let body := lazymatch inst with
                  | ?h _ => eval cbv beta delta [h] in inst
                  | _ => eval cbv delta [inst] in inst
                  end in
      let abst := eval pattern proj in body in
      lazymatch abst with
      | ?F _ =>
          let t := constr:(fun (f : T -> T) (r : R) => F (fun r0 => f (proj r0)) r) in
          let t := eval cbv beta in t in
          exact t
      end
  end.

#[global] Hint Extern 1 (Setter _) => derive_setter : typeclass_instances.

Declare Scope record_scope.
Notation "r <| proj ::= f |>" := (update proj f r)
  (at level 1, proj at level 10, f at level 200, left associativity) : record_scope.
Notation "r <| proj := v |>" := (update proj (fun _ => v) r)
  (at level 1, proj at level 10, v at level 200, left associativity) : record_scope.

(** ** The state-and-exception monad

    [cpu_step] leaves an instruction early with [goto raise_exception]; the
    effects performed up to that point stay.  A computation therefore returns
    the final state in both outcomes. *)
Definition exec (S E A : Type) : Type := S -> (E + A) * S.

Section exec.
Context {S E : Type}.
#[global] Instance exec_ret : MRet (exec S E) := fun A a s => (inr a, s).
#[global] Instance exec_bind : MBind (exec S E) := fun A B k m s =>
  match m s with
  | (inr a, s') => k a s'
  | (inl e, s') => (inl e, s')
  end.
Definition raise {A} (e : E) : exec S E A := fun s => (inl e, s).
Definition gets {A} (f : S -> A) : exec S E A := fun s => (inr (f s), s).
Definition modify (f : S -> S) : exec S E unit := fun s => (inr tt, f s).
(** A state transformer with a result, the shape of the component calls. *)
Definition call {A} (f : S -> A * S) : exec S E A := fun s =>
  let '(a, s') := f s in (inr a, s').

(** The Hoare triple of the monad: from a state in [P], [m] either returns with
    [Q] or raises with [R]. *)
Definition triple {A} (P : S -> Prop) (m : exec S E A) (Q : A -> S -> Prop) (R : E -> S -> Prop) : Prop :=
  forall s, P s -> match m s with (inr a, s') => Q a s' | (inl e, s') => R e s' end.

Lemma triple_ret {A} (P : S -> Prop) (a : A) (Q : A -> S -> Prop) R :
  (forall s, P s -> Q a s) -> triple P (mret a) Q R.
Proof. by intros H s Hs; apply H. Qed.
Lemma triple_raise {A} P e (Q : A -> S -> Prop) (R : E -> S -> Prop) :
  (forall s, P s -> R e s) -> triple P (raise e) Q R.
Proof. by intros H s Hs; apply H. Qed.
Lemma triple_gets {A} (P : S -> Prop) (f : S -> A) (Q : A -> S -> Prop) R :
  (forall s, P s -> Q (f s) s) -> triple P (gets f) Q R.
Proof. by intros H s Hs; apply H. Qed.
Lemma triple_modify (P : S -> Prop) (f : S -> S) (Q : unit -> S -> Prop) R :
  (forall s, P s -> Q tt (f s)) -> triple P (modify f) Q R.
Proof. by intros H s Hs; apply H. Qed.
Lemma triple_bind {A B} P (m : exec S E A) (k : A -> exec S E B) Q' Q R :
  triple P m Q' R -> (forall a, triple (Q' a) (k a) Q R) -> triple P (m ≫= k) Q R.
Proof.
  intros Hm Hk s Hs. specialize (Hm s Hs). unfold mbind, exec_bind.
  destruct (m s) as [[e | a] s']; [done|]. by apply Hk.
Qed.
Lemma triple_conseq {A} (P P' : S -> Prop) (m : exec S E A) (Q Q' : A -> S -> Prop) (R R' : E -> S -> Prop) :
  triple P' m Q' R' -> (forall s, P s -> P' s) -> (forall a s, Q' a s -> Q a s) -> (forall e s, R' e s -> R e s) ->
  triple P m Q R.
Proof.
  intros Hm HP HQ HR s Hs. specialize (Hm s (HP s Hs)). destruct (m s) as [[e | a] s']; auto.
Qed.

(** [keeps I Q F m]: [m] keeps the invariant [I] both ways; its result satisfies
    [Q], its exception [F]. *)
Definition keeps {A} (I : S -> Prop) (Q : A -> Prop) (F : E -> Prop) (m : exec S E A) : Prop :=
  triple I m (fun a s => I s /\ Q a) (fun e s => I s /\ F e).

Section keeps.
Context (I : S -> Prop) (F : E -> Prop).

Lemma keeps_ret {A} (Q : A -> Prop) (a : A) : Q a -> keeps I Q F (mret a).
Proof. by intros H; apply triple_ret. Qed.
Lemma keeps_raise {A} (Q : A -> Prop) e : F e -> keeps I Q F (raise e).
Proof. by intros H; apply triple_raise. Qed.
Lemma keeps_gets {A} (Q : A -> Prop) (f : S -> A) : (forall s, I s -> Q (f s)) -> keeps I Q F (gets f).
Proof. intros H. apply triple_gets. auto. Qed.
Lemma keeps_modify (Q : unit -> Prop) (f : S -> S) : (forall s, I s -> I (f s)) -> Q tt -> keeps I Q F (modify f).
Proof. intros H HQ. apply triple_modify. auto. Qed.
Lemma keeps_bind {A B} (Q' : A -> Prop) (Q : B -> Prop) (m : exec S E A) (k : A -> exec S E B) :
  keeps I Q' F m -> (forall a, Q' a -> keeps I Q F (k a)) -> keeps I Q F (m ≫= k).
Proof.
  intros Hm Hk. eapply triple_bind; [exact Hm|]. intros a s [Hs Ha]. by apply Hk.
Qed.
Lemma keeps_weaken {A} (Q Q' : A -> Prop) (m : exec S E A) :
  keeps I Q' F m -> (forall a, Q' a -> Q a) -> keeps I Q F m.
Proof. intros Hm HQ. eapply triple_conseq; [exact Hm|done| |done]. intros a s [? ?]. auto. Qed.
Lemma keeps_if {A} (Q : A -> Prop) (b : bool) (m n : exec S E A) :
  (b = true -> keeps I Q F m) -> (b = false -> keeps I Q F n) -> keeps I Q F (if b then m else n).
Proof. destruct b; auto. Qed.
End keeps.
End exec.

(** The database [exec] closes [keeps] goals of the straight-line computations;
    the invariant of each operation is registered where it is proved. *)
Create HintDb exec discriminated.
#[export] Hint Resolve keeps_ret keeps_raise : exec.

(** ** Arrays of C as lists

    Reads return [d] out of range and writes then do nothing; every use comes
    with a lemma that the index is in range, where the C access is defined. *)
Definition aget {A} (d : A) (l : list A) (i : Z) : A := nth (Z.to_nat i) l d.
Definition aset {A} (l : list A) (i : Z) (v : A) : list A := <[Z.to_nat i := v]> l.

#[global] Arguments aget : simpl never.
#[global] Arguments aset : simpl never.

Lemma aset_length {A} (l : list A) i v : length (aset l i v) = length l.
Proof. apply length_insert. Qed.

Lemma aget_aset_eq {A} (d : A) l i v :
  0 <= i < Z.of_nat (length l) -> aget d (aset l i v) i = v.
Proof.
  intros Hi. unfold aget, aset. apply nth_lookup_Some.
  apply list_lookup_insert_eq. lia.
Qed.

Lemma aget_aset_ne {A} (d : A) l i j v :
  0 <= i -> 0 <= j -> i <> j -> aget d (aset l i v) j = aget d l j.
Proof.
  intros Hi Hj Hij. unfold aget, aset. rewrite !nth_lookup.
  rewrite list_lookup_insert_ne by lia. done.
Qed.

Lemma aget_lookup {A} (d : A) l i :
  0 <= i < Z.of_nat (length l) -> l !! Z.to_nat i = Some (aget d l i).
Proof.
  intros Hi. unfold aget. destruct (lookup_lt_is_Some_2 l (Z.to_nat i)) as [x Hx]; [lia|].
  by rewrite Hx, (nth_lookup_Some _ _ _ _ Hx).
Qed.

Lemma aget_Forall {A} (P : A -> Prop) d l i : P d -> Forall P l -> P (aget d l i).
Proof.
  intros Hd Hl. unfold aget. rewrite nth_lookup.
  destruct (l !! Z.to_nat i) eqn:E; simpl; [|done]. by eapply Forall_lookup_1.
Qed.

Lemma aset_Forall {A} (P : A -> Prop) l i v : P v -> Forall P l -> Forall P (aset l i v).
Proof. intros. by apply Forall_insert. Qed.

(** An invariant of a loop written as a left fold. *)
Lemma foldl_inv {A B} (P : B -> Prop) (f : B -> A -> B) (l : list A) (b : B) :
  P b -> (forall b x, x ∈ l -> P b -> P (f b x)) -> P (foldl f b l).
Proof.
  revert b. induction l as [|x l IH]; intros b Hb Hf; simpl; [done|].
  apply IH; [apply Hf; [left|done]|]. intros b' y Hy. apply Hf. by right.
Qed.

(** ** Bitwise equalities on Z *)

Lemma testbit_mod_pow2 a n i :
  0 <= n -> Z.testbit (a mod 2 ^ n) i = (i <? n) && Z.testbit a i.
Proof.
  intros Hn. destruct (Z.ltb_spec i n).
  - destruct (decide (0 <= i)).
    + by rewrite Z.mod_pow2_bits_low by lia.
    + by rewrite !Z.testbit_neg_r by lia.
  - by rewrite Z.mod_pow2_bits_high by lia.
Qed.

Lemma testbit_shiftl a n i :
  0 <= i -> Z.testbit (Z.shiftl a n) i = (n <=? i) && Z.testbit a (i - n).
Proof.
  intros Hi. rewrite Z.shiftl_spec by done.
  destruct (Z.leb_spec n i); [done|]. by rewrite Z.testbit_neg_r by lia.
Qed.

Lemma testbit_ones n i : 0 <= n -> 0 <= i -> Z.testbit (Z.ones n) i = (i <? n).
Proof.
  intros Hn Hi. destruct (Z.ltb_spec i n).
  - by rewrite Z.ones_spec_low by lia.
  - by rewrite Z.ones_spec_high by lia.
Qed.

Lemma testbit_high n x i : 0 <= x < 2 ^ n -> n <= i -> Z.testbit x i = false.
Proof.
  intros Hx Hi. destruct (decide (0 <= n)); [|rewrite Z.pow_neg_r in Hx; lia].
  rewrite <- (Z.mod_small x (2 ^ n)) by lia. by apply Z.mod_pow2_bits_high; lia.
Qed.

Lemma testbit_1 i : 0 <= i -> Z.testbit 1 i = (i =? 0).
Proof. intros Hi. change 1 with (2 ^ 0). rewrite Z.pow2_bits_eqb by lia. apply Z.eqb_sym. Qed.

Lemma testbit_if (b : bool) x y i :
  Z.testbit (if b then x else y) i = if b then Z.testbit x i else Z.testbit y i.
Proof. by destruct b. Qed.

Create Rewrite HintDb zbits.
#[export] Hint Rewrite Z.land_spec Z.lor_spec Z.lxor_spec Z.ldiff_spec Z.bits_0 testbit_if : zbits.
#[export] Hint Rewrite testbit_mod_pow2 testbit_shiftl Z.shiftr_spec testbit_ones
  Z.lnot_spec Z.pow2_bits_eqb testbit_1 Z.bits_m1 using lia : zbits.

(** [zbits_split] decides the comparisons left by the rewriting, [zbits_norm]
    identifies the bit positions that [lia] proves equal. *)
Ltac zbits_split :=
  repeat match goal with
  | |- context [?a <? ?b] => destruct (Z.ltb_spec a b); try lia
  | |- context [?a <=? ?b] => destruct (Z.leb_spec a b); try lia
  | |- context [?a =? ?b] => destruct (Z.eqb_spec a b); try lia
  end.

Ltac zbits_norm :=
  repeat match goal with
  | |- context [Z.testbit ?x ?j] =>
      match goal with
      | |- context [Z.testbit x ?k] =>
          assert_fails (constr_eq j k); replace j with k by lia
      end
  end.

Ltac zbits_high :=
  repeat match goal with
  | H : 0 <= ?x < 2 ^ ?n |- context [Z.testbit ?x ?i] =>
      rewrite (testbit_high n x i) by lia
  end.

Ltac bool_tauto := Btauto.btauto.

Ltac zbits_core :=
  autorewrite with zbits; zbits_split; autorewrite with zbits;
  zbits_norm; zbits_high; simpl andb; simpl orb; simpl negb; try reflexivity; try bool_tauto.

Ltac zbits := apply Z.bits_inj'; intros ?i ?Hi; zbits_core.

(** Bounds as a statement on bits. *)
Lemma bits_bounded n x :
  0 <= n -> 0 <= x -> (forall i, n <= i -> Z.testbit x i = false) -> 0 <= x < 2 ^ n.
Proof.
  intros Hn Hx Hb. split; [done|].
  replace x with (x mod 2 ^ n); [apply Z.mod_pos_bound; lia|].
  apply Z.bits_inj'. intros i Hi. rewrite testbit_mod_pow2 by done.
  destruct (Z.ltb_spec i n); [done|]. by rewrite Hb.
Qed.

(** Linear arithmetic with divisions and remainders by constants. *)
Ltac div_lia := Z.to_euclidean_division_equations; lia.

Lemma lor_disjoint_add a b : Z.land a b = 0 -> Z.lor a b = a + b.
Proof. intros H. rewrite <- Z.lxor_lor, Z.add_nocarry_lxor; done. Qed.
