(* ===== verification/CInt.v ===== *)
(** * Fixed-width C integers

    An unsigned w-bit object of the C code is a [Z] in [0, 2^w); a signed one is
    its two's complement value.  [w8], [w16], [w32], [w64] are the conversions to
    [uintN_t], [s32] and [s64] those to [int32_t] and [int64_t]; the operators
    wrap where C's unsigned arithmetic does.  The second half models the bit
    helpers of [cpu.c] ([bitmask], [bits], [sext], [uext]) and of [csr.c]
    ([csr_field_get], [csr_field_set]). *)
From stdpp Require Import base tactics numbers option list.
From S2P Require Import Prelude.

#[local] Open Scope Z_scope.

Definition w8 (x : Z) : Z := x mod 2 ^ 8.
Definition w16 (x : Z) : Z := x mod 2 ^ 16.
Definition w32 (x : Z) : Z := x mod 2 ^ 32.
Definition w64 (x : Z) : Z := x mod 2 ^ 64.

(** The two's complement reading of the low [n] bits. *)
Definition signed (n x : Z) : Z :=
  let y := x mod 2 ^ n in if y <? 2 ^ (n - 1) then y else y - 2 ^ n.
Definition s32 (x : Z) : Z := signed 32 x.
Definition s64 (x : Z) : Z := signed 64 x.

Definition add64 (a b : Z) : Z := w64 (a + b).
Definition sub64 (a b : Z) : Z := w64 (a - b).
Definition mul64 (a b : Z) : Z := w64 (a * b).
Definition shl64 (a n : Z) : Z := w64 (Z.shiftl a n).
Definition shr64 (a n : Z) : Z := Z.shiftr a n.
Definition not64 (a : Z) : Z := w64 (Z.lnot a).
Definition sar64 (a n : Z) : Z := w64 (Z.shiftr (s64 a) n).

Definition INT64_MIN : Z := - 2 ^ 63.
Definition INT32_MIN : Z := - 2 ^ 31.
Definition UINT64_MAX : Z := 2 ^ 64 - 1.

Abbreviation is_u n x := (0 <= x < 2 ^ n) (only parsing).

(** ** Bit helpers of cpu.c *)
Definition bitmask (width : Z) : Z := sub64 (shl64 1 width) 1.
Definition bits (value hi lo : Z) : Z := Z.land (shr64 value lo) (bitmask (hi - lo + 1)).
Definition sext (value width : Z) : Z :=
  let n := 64 - width in w64 (Z.shiftr (s64 (shl64 value n)) n).
Definition uext (value width : Z) : Z :=
  let n := 64 - width in shr64 (shl64 value n) n.

(** ** Field helpers of csr.c *)
Definition csr_field_get (reg pos width : Z) : Z :=
  let mask := sub64 (shl64 1 width) 1 in
  Z.land (shr64 reg pos) mask.

Definition csr_field_set (reg pos width value : Z) : Z :=
  let mask := sub64 (shl64 1 width) 1 in
  let mask_shifted := shl64 mask pos in
  let value_shifted := shl64 value pos in
  Z.lor (Z.land reg (not64 mask_shifted)) (Z.land value_shifted mask_shifted).

#[global] Arguments w8 : simpl never.
#[global] Arguments w16 : simpl never.
#[global] Arguments w32 : simpl never.
#[global] Arguments w64 : simpl never.
#[global] Arguments signed : simpl never.
#[global] Arguments s32 : simpl never.
#[global] Arguments s64 : simpl never.
#[global] Arguments add64 : simpl never.
#[global] Arguments sub64 : simpl never.
#[global] Arguments mul64 : simpl never.
#[global] Arguments shl64 : simpl never.
#[global] Arguments shr64 : simpl never.
#[global] Arguments not64 : simpl never.
#[global] Arguments sar64 : simpl never.
#[global] Arguments bits : simpl never.
#[global] Arguments sext : simpl never.
#[global] Arguments csr_field_get : simpl never.
#[global] Arguments csr_field_set : simpl never.

(** ** Bounds

    The database [cint] closes goals [0 <= e < 2 ^ n] for the expressions of
    the model. *)
Create HintDb cint.

Lemma w64_u x : is_u 64 (w64 x).
Proof. apply Z.mod_pos_bound. lia. Qed.
Lemma w32_u x : is_u 32 (w32 x).
Proof. apply Z.mod_pos_bound. lia. Qed.
Lemma w16_u x : is_u 16 (w16 x).
Proof. apply Z.mod_pos_bound. lia. Qed.
Lemma w8_u x : is_u 8 (w8 x).
Proof. apply Z.mod_pos_bound. lia. Qed.

Lemma u_weaken m n x : m <= n -> is_u m x -> is_u n x.
Proof.
  intros Hmn Hx. destruct (decide (0 <= m)); [|rewrite Z.pow_neg_r in Hx; lia].
  pose proof (Z.pow_le_mono_r 2 m n). lia.
Qed.

Lemma land_u_l n a b : 0 <= n -> is_u n a -> is_u n (Z.land a b).
Proof.
  intros Hn Ha. apply bits_bounded; [done|apply Z.land_nonneg; lia|].
  intros i Hi. by rewrite Z.land_spec, (testbit_high n a) by done.
Qed.
Lemma land_u_r n a b : 0 <= n -> is_u n b -> is_u n (Z.land a b).
Proof. rewrite Z.land_comm. apply land_u_l. Qed.
Lemma lor_u n a b : 0 <= n -> is_u n a -> is_u n b -> is_u n (Z.lor a b).
Proof.
  intros Hn Ha Hb. apply bits_bounded; [done|apply Z.lor_nonneg; lia|].
  intros i Hi. by rewrite Z.lor_spec, (testbit_high n a), (testbit_high n b).
Qed.
Lemma lxor_u n a b : 0 <= n -> is_u n a -> is_u n b -> is_u n (Z.lxor a b).
Proof.
  intros Hn Ha Hb. apply bits_bounded; [done|apply Z.lxor_nonneg; lia|].
  intros i Hi. by rewrite Z.lxor_spec, (testbit_high n a), (testbit_high n b).
Qed.
Lemma shr64_u n a k : 0 <= k -> is_u n a -> is_u n (shr64 a k).
Proof.
  intros Hk Ha. unfold shr64. rewrite Z.shiftr_div_pow2 by done.
  assert (0 < 2 ^ k) by (by apply Z.pow_pos_nonneg).
  split; [apply Z.div_pos; lia|].
  apply Z.le_lt_trans with a; [|lia]. apply Z.div_le_upper_bound; [done|nia].
Qed.
Lemma add64_u a b : is_u 64 (add64 a b). Proof. apply w64_u. Qed.
Lemma sub64_u a b : is_u 64 (sub64 a b). Proof. apply w64_u. Qed.
Lemma mul64_u a b : is_u 64 (mul64 a b). Proof. apply w64_u. Qed.
Lemma shl64_u a n : is_u 64 (shl64 a n). Proof. apply w64_u. Qed.
Lemma not64_u a : is_u 64 (not64 a). Proof. apply w64_u. Qed.
Lemma sar64_u a n : is_u 64 (sar64 a n). Proof. apply w64_u. Qed.
Lemma sext_u a n : is_u 64 (sext a n). Proof. apply w64_u. Qed.
Lemma bool_u n (b : bool) : 0 < n -> is_u n (Z.b2z b).
Proof. intros. assert (2 ^ 1 <= 2 ^ n) by (apply Z.pow_le_mono_r; lia). destruct b; simpl; lia. Qed.
Lemma bitmask_u w : is_u 64 (bitmask w). Proof. apply w64_u. Qed.
Lemma u64_if (b : bool) x y : is_u 64 x -> is_u 64 y -> is_u 64 (if b then x else y).
Proof. by destruct b. Qed.

#[export] Hint Resolve w64_u w32_u w16_u w8_u add64_u sub64_u mul64_u shl64_u not64_u
  sar64_u sext_u bitmask_u u64_if : cint.
#[export] Hint Extern 2 (is_u _ (Z.land _ _)) =>
  first [ apply land_u_l; [lia | solve [eauto with cint]]
        | apply land_u_r; [lia | solve [eauto with cint]] ] : cint.
#[export] Hint Extern 2 (is_u _ (Z.lor _ _)) => apply lor_u; [lia | |] : cint.
#[export] Hint Extern 2 (is_u _ (Z.lxor _ _)) => apply lxor_u; [lia | |] : cint.
#[export] Hint Extern 2 (is_u _ (shr64 _ _)) => apply shr64_u; [lia |] : cint.
#[export] Hint Extern 2 (is_u _ (Z.b2z _)) => apply bool_u; lia : cint.
#[export] Hint Extern 9 (0 <= _ < _) => lia : cint.

(** ** Values of the helpers *)

Lemma w64_small x : is_u 64 x -> w64 x = x.
Proof. apply Z.mod_small. Qed.
Lemma w64_idem x : w64 (w64 x) = w64 x.
Proof. apply w64_small, w64_u. Qed.

Lemma mask_ones width : 0 <= width < 64 -> sub64 (shl64 1 width) 1 = Z.ones width.
Proof.
  intros Hw. unfold sub64, shl64.
  assert (2 ^ width < 2 ^ 64) by (apply Z.pow_lt_mono_r; lia).
  assert (0 < 2 ^ width) by (apply Z.pow_pos_nonneg; lia).
  rewrite Z.shiftl_mul_pow2, Z.mul_1_l by lia.
  rewrite (w64_small (2 ^ width)) by lia. rewrite w64_small by lia.
  rewrite Z.ones_equiv. lia.
Qed.

Lemma bits_div_mod value hi lo :
  0 <= lo <= hi -> hi - lo + 1 < 64 ->
  bits value hi lo = (value / 2 ^ lo) mod 2 ^ (hi - lo + 1).
Proof.
  intros H1 H2. unfold bits, bitmask, shr64. rewrite mask_ones by lia.
  by rewrite Z.land_ones, Z.shiftr_div_pow2 by lia.
Qed.

Lemma bits_u value hi lo :
  0 <= lo <= hi -> hi - lo + 1 < 64 -> is_u (hi - lo + 1) (bits value hi lo).
Proof. intros. rewrite bits_div_mod by done. apply Z.mod_pos_bound, Z.pow_pos_nonneg; lia. Qed.

Lemma testbit_bits value hi lo i :
  0 <= lo <= hi -> hi - lo + 1 < 64 -> 0 <= i ->
  Z.testbit (bits value hi lo) i = (i <? hi - lo + 1) && Z.testbit value (i + lo).
Proof.
  intros. unfold bits, bitmask, shr64. rewrite mask_ones by lia.
  rewrite Z.land_spec, Z.shiftr_spec, testbit_ones by lia. apply andb_comm.
Qed.

Lemma csr_field_get_testbit reg pos width i :
  0 <= pos -> 0 <= width < 64 -> 0 <= i ->
  Z.testbit (csr_field_get reg pos width) i = (i <? width) && Z.testbit reg (i + pos).
Proof.
  intros. unfold csr_field_get, shr64. rewrite mask_ones by lia.
  rewrite Z.land_spec, Z.shiftr_spec, testbit_ones by lia. apply andb_comm.
Qed.

Lemma csr_field_get_u reg pos width :
  0 <= width < 64 -> is_u width (csr_field_get reg pos width).
Proof.
  intros. unfold csr_field_get. rewrite mask_ones, Z.land_ones by lia.
  apply Z.mod_pos_bound, Z.pow_pos_nonneg; lia.
Qed.

Lemma csr_field_set_testbit reg pos width value i :
  is_u 64 reg -> 0 <= pos -> 0 <= width < 64 -> pos + width <= 64 -> 0 <= i ->
  Z.testbit (csr_field_set reg pos width value) i =
    if (pos <=? i) && (i <? pos + width) then Z.testbit value (i - pos)
    else Z.testbit reg i.
Proof.
  intros Hr Hp Hw Hpw Hi. unfold csr_field_set. rewrite mask_ones by lia.
  unfold not64, shl64, w64.
  autorewrite with zbits; zbits_split; autorewrite with zbits; zbits_split;
    autorewrite with zbits; simpl andb; zbits_norm; zbits_high; try bool_tauto.
Qed.

Lemma csr_field_set_u reg pos width value :
  is_u 64 reg -> is_u 64 (csr_field_set reg pos width value).
Proof. intros. unfold csr_field_set. eauto with cint. Qed.
#[export] Hint Resolve csr_field_set_u : cint.

Lemma csr_field_get_set_eq reg pos width value :
  is_u 64 reg -> 0 <= pos -> 0 <= width < 64 -> pos + width <= 64 ->
  csr_field_get (csr_field_set reg pos width value) pos width = value mod 2 ^ width.
Proof.
  intros. apply Z.bits_inj'. intros i Hi.
  rewrite csr_field_get_testbit, csr_field_set_testbit by lia.
  rewrite testbit_mod_pow2 by lia. zbits_split; simpl; try reflexivity.
  all: try (by replace (i + pos - pos) with i by lia).
Qed.

Lemma csr_field_get_set_ne reg pos width value pos' width' :
  is_u 64 reg -> 0 <= pos -> 0 <= width < 64 -> pos + width <= 64 ->
  0 <= pos' -> 0 <= width' < 64 ->
  pos' + width' <= pos \/ pos + width <= pos' ->
  csr_field_get (csr_field_set reg pos width value) pos' width' = csr_field_get reg pos' width'.
Proof.
  intros. apply Z.bits_inj'. intros i Hi.
  rewrite !csr_field_get_testbit, csr_field_set_testbit by lia.
  zbits_split; simpl; try reflexivity; lia.
Qed.

Lemma csr_field_get_1 reg pos : 0 <= pos -> csr_field_get reg pos 1 = Z.b2z (Z.testbit reg pos).
Proof.
  intros. apply Z.bits_inj'. intros i Hi. rewrite csr_field_get_testbit by lia.
  destruct (Z.ltb_spec i 1).
  - replace i with 0 by lia. rewrite Z.add_0_l. by destruct (Z.testbit reg pos).
  - simpl. destruct (Z.testbit reg pos); simpl; [|by rewrite Z.bits_0].
    rewrite testbit_1 by lia. by destruct (Z.eqb_spec i 0); [lia|].
Qed.

(** ** Two's complement *)

Lemma signed_range n x : 0 < n -> - 2 ^ (n - 1) <= signed n x < 2 ^ (n - 1).
Proof.
  intros Hn. unfold signed. pose proof (Z.mod_pos_bound x (2 ^ n)).
  assert (2 ^ n = 2 * 2 ^ (n - 1)) by (rewrite <- Z.pow_succ_r by lia; f_equal; lia).
  assert (0 < 2 ^ (n - 1)) by (apply Z.pow_pos_nonneg; lia).
  destruct (Z.ltb_spec (x mod 2 ^ n) (2 ^ (n - 1))); lia.
Qed.

Lemma signed_mod n x : 0 < n -> signed n x mod 2 ^ n = x mod 2 ^ n.
Proof.
  intros Hn. assert (0 < 2 ^ n) by (apply Z.pow_pos_nonneg; lia).
  unfold signed. destruct (_ <? _); [apply Z.mod_mod; lia|].
  rewrite <- (Z_mod_plus_full _ 1). rewrite Z.mul_1_l, Z.sub_add. apply Z.mod_mod; lia.
Qed.

(** The signed reading is the only value of the signed range with these low bits. *)
Lemma signed_unique n x y :
  0 < n -> - 2 ^ (n - 1) <= y < 2 ^ (n - 1) -> y mod 2 ^ n = x mod 2 ^ n -> signed n x = y.
Proof.
  intros Hn Hy Hxy. pose proof (signed_range n x Hn) as Hr.
  pose proof (signed_mod n x Hn) as Hm. rewrite <- Hxy in Hm.
  assert (2 ^ n = 2 * 2 ^ (n - 1)) as Hp by (rewrite <- Z.pow_succ_r by lia; f_equal; lia).
  assert (0 < 2 ^ (n - 1)) by (apply Z.pow_pos_nonneg; lia).
  assert (exists k, signed n x - y = 2 ^ n * k) as [k Hk].
  { apply Zmod_divides; [lia|]. rewrite Zminus_mod, Hm, Z.sub_diag. by apply Z.mod_0_l; lia. }
  rewrite Hp in Hk. assert (k = 0) by nia. nia.
Qed.

Lemma signed_testbit n x i :
  0 < n -> 0 <= i -> Z.testbit (signed n x) i = Z.testbit x (Z.min i (n - 1)).
Proof.
  intros Hn Hi.
  assert (0 < 2 ^ (n - 1)) by (apply Z.pow_pos_nonneg; lia).
  pose proof (signed_range n x Hn) as Hr. pose proof (signed_mod n x Hn) as Hm.
  destruct (Z.leb_spec i (n - 1)).
  - rewrite Z.min_l by lia.
    rewrite <- (Z.mod_pow2_bits_low _ n i) by lia. rewrite Hm. by rewrite Z.mod_pow2_bits_low by lia.
  - rewrite Z.min_r by lia.
    rewrite <- (Z.mod_pow2_bits_low x n (n - 1)) by lia.
    unfold signed. pose proof (Z.mod_pos_bound x (2 ^ n)).
    set (y := x mod 2 ^ n) in *.
    assert (2 ^ n = 2 ^ (n - 1) + 2 ^ (n - 1)) as Hp
      by (rewrite Z.add_diag, <- Z.pow_succ_r by lia; f_equal; lia).
    destruct (Z.ltb_spec y (2 ^ (n - 1))).
    + by rewrite !(testbit_high (n - 1) y) by lia.
    + transitivity true; [|symmetry].
      * replace (y - 2 ^ n) with (Z.lnot (2 ^ n - y - 1)) by (unfold Z.lnot; lia).
        rewrite Z.lnot_spec by done.
        rewrite (testbit_high (n - 1)) by lia. done.
      * rewrite Z.testbit_true by lia.
        replace (y / 2 ^ (n - 1)) with 1; [done|].
        apply (Z.div_unique _ _ _ (y - 2 ^ (n - 1))); lia.
Qed.

Lemma sext_spec v w : 1 <= w <= 64 -> s64 (sext v w) = signed w v.
Proof.
  intros Hw. unfold s64. apply signed_unique; [lia| |].
  - pose proof (signed_range w v). assert (2 ^ (w - 1) <= 2 ^ (64 - 1)) by (apply Z.pow_le_mono_r; lia).
    lia.
  - unfold sext, w64. rewrite Z.mod_mod by lia.
    apply Z.bits_inj'. intros i Hi. rewrite !testbit_mod_pow2 by lia.
    destruct (Z.ltb_spec i 64); [|done]. simpl.
    rewrite Z.shiftr_spec by lia. unfold s64. rewrite !signed_testbit by lia.
    unfold shl64, w64. autorewrite with zbits.
    destruct (Z.leb_spec i (w - 1)).
    + rewrite !Z.min_l by lia. zbits_split. simpl. f_equal. lia.
    + rewrite !Z.min_r by lia. zbits_split. simpl. f_equal. lia.
Qed.

Lemma sext_signed v w : 1 <= w <= 64 -> sext v w = signed w v mod 2 ^ 64.
Proof.
  intros Hw. rewrite <- (sext_spec v w Hw). unfold s64. rewrite signed_mod by lia.
  symmetry. apply Z.mod_small, sext_u.
Qed.

Lemma uext_spec v w : 1 <= w <= 64 -> uext v w = v mod 2 ^ w.
Proof. intros Hw. unfold uext, shr64, shl64, w64. zbits. Qed.

Lemma w64_s64 x : w64 (s64 x) = w64 x.
Proof. apply signed_mod. lia. Qed.

Lemma s64_w64 x : s64 (w64 x) = s64 x.
Proof. unfold s64, signed, w64. by rewrite Z.mod_mod by lia. Qed.
