(* ===== verification/Memory.v ===== *)
(** * RAM and boot ROM

    Models [emulator/include/utils/address_range.h], [emulator/src/memory/memory.c]
    and [emulator/src/device/bootROM.c].  The byte array [data] is a finite map
    over the initial contents: a byte never written holds [mem_fill], which is
    what [calloc] (0) or the poisoning [memset] (0xA5) left there.  A C buffer of
    [size] bytes passed by pointer is the unsigned little-endian number it holds;
    a read yields [None] where the C function returns non-zero and leaves the
    caller's buffer alone, a write yields the return code. *)
From stdpp Require Import base tactics numbers option list gmap.
From S2P Require Import Prelude CInt.

#[local] Open Scope record_scope.
#[local] Open Scope Z_scope.

Definition check_addr_range (addr nbyte base size : Z) : bool :=
  (base <=? addr) && (nbyte <=? size) && (sub64 addr base <=? sub64 size nbyte).

(** The check is exact: it accepts precisely the accesses that fit the region,
    although [addr + nbyte] or [base + size] may exceed 64 bits. *)
Lemma check_addr_range_iff addr nbyte base size :
  is_u 64 addr -> is_u 64 nbyte -> is_u 64 base -> is_u 64 size ->
  check_addr_range addr nbyte base size = true <->
  base <= addr /\ addr + nbyte <= base + size.
Proof.
  intros Ha Hn Hb Hs. unfold check_addr_range, sub64.
  rewrite !andb_true_iff, !Z.leb_le. split.
  - intros [[H1 H2] H3]. rewrite !w64_small in H3 by lia. lia.
  - intros [H1 H2]. rewrite !w64_small by lia. lia.
Qed.

(** ** Little-endian buffers *)
Fixpoint le_bytes (n : nat) (v : Z) : list Z :=
  match n with
  | O => []
  | S n' => v mod 256 :: le_bytes n' (v / 256)
  end.

Fixpoint le_value (bs : list Z) : Z :=
  match bs with
  | [] => 0
  | b :: bs' => b + 256 * le_value bs'
  end.

Lemma le_bytes_length n v : length (le_bytes n v) = n.
Proof. revert v. induction n; intros; simpl; auto. Qed.

Lemma le_value_bytes n v : le_value (le_bytes n v) = v mod 2 ^ (8 * Z.of_nat n).
Proof.
  revert v. induction n as [|n IH]; intros v; simpl.
  - by rewrite Z.mod_1_r.
  - rewrite IH. replace (8 * Z.of_nat (S n)) with (8 + 8 * Z.of_nat n) by lia.
    rewrite Z.pow_add_r by lia. change (2 ^ 8) with 256.
    rewrite Z.rem_mul_r; [done|lia|]. apply Z.pow_pos_nonneg; lia.
Qed.

Definition byte_ok (b : Z) : Prop := is_u 8 b.

Lemma le_bytes_ok n v : Forall byte_ok (le_bytes n v).
Proof.
  revert v. induction n; intros; simpl; constructor; auto.
  unfold byte_ok. change 256 with (2 ^ 8). apply Z.mod_pos_bound. lia.
Qed.

Lemma le_value_u bs : Forall byte_ok bs -> is_u (8 * Z.of_nat (length bs)) (le_value bs).
Proof.
  induction 1 as [|b bs Hb _ IH]; simpl; [lia|]. unfold byte_ok in Hb.
  replace (8 * Z.of_nat (S (length bs))) with (8 + 8 * Z.of_nat (length bs)) by lia.
  rewrite Z.pow_add_r by lia. change (2 ^ 8) with 256 in *. lia.
Qed.

(** ** memory.h, memory.c *)
Definition DRAM_BASE : Z := 0x80000000.
Definition DRAM_SIZE : Z := 0x08000000.
Definition RAM_BASE : Z := DRAM_BASE.
Definition RAM_SIZE : Z := DRAM_SIZE.

Record memory_t := mk_memory {
  mem_data : gmap Z Z;
  mem_fill : Z;
  mem_base : Z;
  mem_size : Z;
}.
#[export] Instance eta_memory : Eta memory_t := fun m =>
  mk_memory (mem_data m) (mem_fill m) (mem_base m) (mem_size m).

Definition mem_byte (m : memory_t) (off : Z) : Z := default (mem_fill m) (mem_data m !! off).

(** [&data[off]] of [memcpy]: copy out [n] bytes, copy in a list of bytes. *)
Definition mem_load (m : memory_t) (off : Z) (n : nat) : list Z :=
  (fun i => mem_byte m (off + i)) <$> seqZ 0 (Z.of_nat n).

Fixpoint store_bytes (d : gmap Z Z) (off : Z) (bs : list Z) : gmap Z Z :=
  match bs with
  | [] => d
  | b :: bs' => <[off := b]> (store_bytes d (off + 1) bs')
  end.

Definition mem_store (m : memory_t) (off : Z) (bs : list Z) : memory_t :=
  m <| mem_data ::= fun d => store_bytes d off bs |>.

(** [calloc_ok] is the outcome of the host's [calloc]. *)
Definition memory_init (memory : memory_t) (poison_ram : bool) (ram_size : Z) (calloc_ok : bool)
  : Z * memory_t :=
  if calloc_ok then
    (0, mk_memory ∅ (if poison_ram then 0xA5 else 0) RAM_BASE ram_size)
  else (-1, memory <| mem_size := ram_size |> <| mem_base := RAM_BASE |>).

Definition cpu_access_check (memory : memory_t) (addr size : Z) : bool :=
  if negb (size =? 1) && negb (size =? 2) && negb (size =? 4) && negb (size =? 8) then false
  else if negb (Z.land addr (sub64 size 1) =? 0) then false
  else check_addr_range addr size (mem_base memory) (mem_size memory).

Definition ram_read (memory : memory_t) (addr size : Z) : option Z :=
  if negb (cpu_access_check memory addr size) then None
  else
    let offset := sub64 addr (mem_base memory) in
    Some (le_value (mem_load memory offset (Z.to_nat size))).

Definition ram_write (memory : memory_t) (addr size data : Z) : Z * memory_t :=
  if negb (cpu_access_check memory addr size) then (-1, memory)
  else
    let offset := sub64 addr (mem_base memory) in
    (0, mem_store memory offset (le_bytes (Z.to_nat size) data)).

(** [None] is the NULL result; [c] is converted to [unsigned char] by [memset]. *)
Definition memory_set (memory : memory_t) (start_addr c n : Z) : option memory_t :=
  if negb (check_addr_range start_addr n (mem_base memory) (mem_size memory)) then None
  else
    let offset := sub64 start_addr (mem_base memory) in
    Some (mem_store memory offset (replicate (Z.to_nat n) (w8 c))).

(** ** bootROM.c *)
Definition BOOT_ROM_SIZE : Z := 4096.

(** [malloc] does not clear the ROM: its initial contents [garbage] is arbitrary. *)
Definition bootROM_init (rom : memory_t) (base : Z) (malloc_ok : bool) (garbage : gmap Z Z)
  : Z * memory_t :=
  if malloc_ok then (0, mk_memory garbage 0 base BOOT_ROM_SIZE)
  else (1, rom).

Definition bootROM_write (bootROM : memory_t) (addr size data : Z) : Z * memory_t := (1, bootROM).

Definition bootROM_read (bootROM : memory_t) (addr size : Z) : option Z :=
  ram_read bootROM addr size.

(** ** Facts about loads and stores *)

Lemma store_bytes_lookup d off bs i :
  store_bytes d off bs !! i =
    if (off <=? i) && (i <? off + Z.of_nat (length bs))
    then bs !! Z.to_nat (i - off) else d !! i.
Proof.
  revert off. induction bs as [|b bs IH]; intros off; simpl.
  - zbits_split; reflexivity.
  - destruct (decide (i = off)) as [->|Hne].
    + rewrite lookup_insert_eq. zbits_split. simpl. by rewrite Z.sub_diag.
    + rewrite lookup_insert_ne, IH by done. zbits_split; simpl; try reflexivity.
      replace (Z.to_nat (i - off)) with (S (Z.to_nat (i - (off + 1)))) by lia. done.
Qed.

Lemma mem_byte_store m off bs i :
  mem_byte (mem_store m off bs) i =
    if (off <=? i) && (i <? off + Z.of_nat (length bs))
    then nth (Z.to_nat (i - off)) bs 0 else mem_byte m i.
Proof.
  unfold mem_byte, mem_store. cbn. rewrite store_bytes_lookup.
  zbits_split; simpl; try reflexivity.
  destruct (lookup_lt_is_Some_2 bs (Z.to_nat (i - off))) as [b Hb]; [lia|].
  by rewrite Hb, (nth_lookup_Some _ _ _ _ Hb).
Qed.

Lemma mem_load_length m off n : length (mem_load m off n) = n.
Proof. unfold mem_load. rewrite length_fmap, length_seqZ. lia. Qed.

Lemma mem_load_lookup m off n i :
  (i < n)%nat -> mem_load m off n !! i = Some (mem_byte m (off + Z.of_nat i)).
Proof.
  intros Hi. unfold mem_load. rewrite list_lookup_fmap, lookup_seqZ_lt by lia.
  simpl. by rewrite Z.add_0_l.
Qed.

Lemma mem_load_ext m m' off n :
  (forall i, off <= i < off + Z.of_nat n -> mem_byte m i = mem_byte m' i) ->
  mem_load m off n = mem_load m' off n.
Proof.
  intros H. apply list_eq. intros i. destruct (decide (i < n)%nat).
  - rewrite !mem_load_lookup by done. f_equal. apply H. lia.
  - rewrite !lookup_ge_None_2; [done|rewrite mem_load_length; lia..].
Qed.

Lemma mem_load_store_same m off bs : mem_load (mem_store m off bs) off (length bs) = bs.
Proof.
  apply list_eq. intros i. destruct (decide (i < length bs)%nat).
  - rewrite mem_load_lookup by done. rewrite mem_byte_store.
    zbits_split. simpl. replace (Z.to_nat (off + Z.of_nat i - off)) with i by lia.
    destruct (lookup_lt_is_Some_2 bs i) as [b Hb]; [done|].
    by rewrite Hb, (nth_lookup_Some _ _ _ _ Hb).
  - rewrite !lookup_ge_None_2; [done|lia|rewrite mem_load_length; lia].
Qed.

Lemma mem_load_store_disjoint m off bs off' n :
  off' + Z.of_nat n <= off \/ off + Z.of_nat (length bs) <= off' ->
  mem_load (mem_store m off bs) off' n = mem_load m off' n.
Proof.
  intros H. apply mem_load_ext. intros i Hi. rewrite mem_byte_store.
  zbits_split; simpl; reflexivity || lia.
Qed.

(** Well-formed memory: bytes are bytes and the region is addressable. *)
Record memory_wf (m : memory_t) : Prop := {
  mwf_data : map_Forall (fun _ b => byte_ok b) (mem_data m);
  mwf_fill : byte_ok (mem_fill m);
  mwf_base : is_u 64 (mem_base m);
  mwf_size : is_u 64 (mem_size m);
}.

Lemma mem_byte_ok m off : memory_wf m -> byte_ok (mem_byte m off).
Proof.
  intros [Hd Hf _ _]. unfold mem_byte. destruct (mem_data m !! off) eqn:E; simpl; [|done].
  by eapply Hd.
Qed.

Lemma store_bytes_ok d off bs :
  map_Forall (fun _ b => byte_ok b) d -> Forall byte_ok bs ->
  map_Forall (fun _ b => byte_ok b) (store_bytes d off bs).
Proof.
  intros Hd Hbs. revert off. induction Hbs; intros; simpl; [done|].
  by apply map_Forall_insert_2.
Qed.

Lemma mem_store_wf m off bs : memory_wf m -> Forall byte_ok bs -> memory_wf (mem_store m off bs).
Proof.
  intros [Hd Hf Hb Hs] Hbs. constructor; cbn; auto using store_bytes_ok.
Qed.

Lemma ram_write_wf m addr size data :
  memory_wf m -> memory_wf (ram_write m addr size data).2.
Proof.
  intros Hm. unfold ram_write. destruct (negb _); simpl; [done|].
  apply mem_store_wf; [done|apply le_bytes_ok].
Qed.

Lemma memory_set_wf m addr c n m' :
  memory_wf m -> memory_set m addr c n = Some m' -> memory_wf m'.
Proof.
  intros Hm. unfold memory_set. destruct (negb _); [done|]. intros [= <-].
  apply mem_store_wf; [done|]. apply Forall_replicate. unfold byte_ok. apply w8_u.
Qed.

Lemma memory_init_wf m p n : is_u 64 n -> memory_wf (memory_init m p n true).2.
Proof.
  intros Hn. constructor; cbn; try done.
  destruct p; unfold byte_ok; lia.
Qed.

(** The alignment mask [addr & (size - 1)] is the remainder for a power of two. *)
Lemma land_size_mask addr size :
  size = 1 \/ size = 2 \/ size = 4 \/ size = 8 ->
  Z.land addr (sub64 size 1) = addr mod size.
Proof.
  intros Hs. assert (exists k, 0 <= k /\ size = 2 ^ k /\ sub64 size 1 = Z.ones k) as (k & Hk & Hsz & ->).
  { destruct Hs as [-> | [-> | [-> | ->]]]; [exists 0|exists 1|exists 2|exists 3]; done. }
  rewrite Hsz. by apply Z.land_ones.
Qed.

Lemma cpu_access_check_true m addr size :
  memory_wf m -> is_u 64 addr ->
  cpu_access_check m addr size = true <->
  (size = 1 \/ size = 2 \/ size = 4 \/ size = 8) /\ addr mod size = 0 /\
  mem_base m <= addr /\ addr + size <= mem_base m + mem_size m.
Proof.
  intros Hm Ha. unfold cpu_access_check.
  destruct (decide (size = 1 \/ size = 2 \/ size = 4 \/ size = 8)) as [Hs|Hs].
  2:{ repeat (rewrite (proj2 (Z.eqb_neq size _)) by lia; simpl). split; [done|tauto]. }
  assert (negb (size =? 1) && negb (size =? 2) && negb (size =? 4) && negb (size =? 8) = false) as ->.
  { by destruct Hs as [-> | [-> | [-> | ->]]]. }
  rewrite land_size_mask by done.
  destruct (Z.eqb_spec (addr mod size) 0); simpl; [|split; [done|tauto]].
  rewrite check_addr_range_iff; [|apply Ha|lia|apply Hm|apply Hm]. tauto.
Qed.

Lemma ram_read_u m addr size v :
  memory_wf m -> ram_read m addr size = Some v -> is_u 64 v /\ (size = 4 -> is_u 32 v).
Proof.
  intros Hm. unfold ram_read. destruct (cpu_access_check m addr size) eqn:E; simpl; [|done].
  intros [= <-].
  assert (size = 1 \/ size = 2 \/ size = 4 \/ size = 8) as Hs.
  { unfold cpu_access_check in E.
    destruct (Z.eqb_spec size 1), (Z.eqb_spec size 2), (Z.eqb_spec size 4), (Z.eqb_spec size 8);
      simpl in E; try done; auto. }
  set (bs := mem_load _ _ _).
  assert (is_u (8 * Z.of_nat (length bs)) (le_value bs)) as Hu.
  { apply le_value_u. unfold bs, mem_load. apply Forall_fmap, Forall_true.
    intros i. by apply mem_byte_ok. }
  unfold bs in Hu at 1 3. rewrite mem_load_length in Hu.
  split; [apply u_weaken with (8 * Z.of_nat (Z.to_nat size)); [lia|done]|].
  intros ->. done.
Qed.

(** A small memory to evaluate the properties on. *)
Definition ram_example : memory_t := mk_memory ∅ 0xA5 RAM_BASE 0x1000.
Lemma ram_example_wf : memory_wf ram_example.
Proof. by constructor. Defined.

(** ** Properties *)

(** RAM is accessible exactly at naturally aligned 1, 2, 4 or 8 byte
    locations that lie entirely inside the region, for loads and for stores. *)
Theorem ram_access_exact m addr size data :
  memory_wf m -> is_u 64 addr ->
  let ok := (size = 1 \/ size = 2 \/ size = 4 \/ size = 8) /\ addr mod size = 0 /\
            mem_base m <= addr /\ addr + size <= mem_base m + mem_size m in
  (is_Some (ram_read m addr size) <-> ok) /\
  ((ram_write m addr size data).1 = 0 <-> ok) /\
  (~ ok -> ram_write m addr size data = (-1, m)).
Proof.
  intros Hm Ha ok. pose proof (cpu_access_check_true m addr size Hm Ha) as Hok. fold ok in Hok.
  unfold ram_read, ram_write. destruct (cpu_access_check m addr size); simpl;
    rewrite <- Hok; (split; [|split]).
  - split; eauto.
  - done.
  - by intros H.
  - by split; [intros [? ?]|].
  - done.
  - done.
Qed.

Lemma ram_access_exact_witness :
  is_Some (ram_read ram_example 0x80000ff8 8) /\ ram_read ram_example 0x80000ffc 8 = None.
Proof.
  split; [|reflexivity].
  apply (ram_access_exact ram_example 0x80000ff8 8 0 ram_example_wf ltac:(lia)). vm_compute.
  repeat split; try congruence. right. right. by right.
Defined.

Lemma ram_write_then_read m addr size data m' :
  memory_wf m -> is_u 64 addr -> ram_write m addr size data = (0, m') ->
  ram_read m' addr size = Some (data mod 2 ^ (8 * size)) /\
  (forall addr' size', is_u 64 addr' ->
     addr' + size' <= addr \/ addr + size <= addr' ->
     ram_read m' addr' size' = ram_read m addr' size').
Proof.
  intros Hm Ha. pose proof (cpu_access_check_true m addr size Hm Ha) as Hok.
  pose proof (ram_write_wf m addr size data Hm) as Hwf.
  unfold ram_write in *. destruct (cpu_access_check m addr size) eqn:E; simpl in *; [|done].
  intros [= <-]. destruct Hok as [Hok _]. specialize (Hok eq_refl).
  destruct Hok as (Hs & _ & Hlo & Hhi). pose proof (mwf_base _ Hm).
  assert (sub64 addr (mem_base m) = addr - mem_base m) as Hoff by (apply w64_small; lia).
  split.
  - unfold ram_read. change (cpu_access_check (mem_store _ _ _) addr size)
      with (cpu_access_check m addr size). rewrite E. simpl. rewrite Hoff. f_equal.
    transitivity (le_value (le_bytes (Z.to_nat size) data)).
    + f_equal. rewrite <- (le_bytes_length (Z.to_nat size) data) at 2.
      apply mem_load_store_same.
    + rewrite le_value_bytes. do 3 f_equal. lia.
  - intros addr' size' Ha' Hd. unfold ram_read.
    change (cpu_access_check (mem_store _ _ _) addr' size') with (cpu_access_check m addr' size').
    destruct (cpu_access_check m addr' size') eqn:E'; simpl; [|done].
    apply (cpu_access_check_true m addr' size' Hm Ha') in E'. destruct E' as (Hs' & _ & Hlo' & Hhi').
    assert (sub64 addr' (mem_base m) = addr' - mem_base m) as -> by (apply w64_small; lia).
    rewrite Hoff, mem_load_store_disjoint; [done|]. rewrite le_bytes_length. lia.
Qed.

(** A successful store is read back by a load of the same size, truncated to
    the access width, and no load from a disjoint range sees it. *)
Theorem ram_write_read m addr size data m' :
  memory_wf m -> is_u 64 addr -> ram_write m addr size data = (0, m') ->
  ram_read m' addr size = Some (data mod 2 ^ (8 * size)) /\
  (forall addr' size', is_u 64 addr' ->
     addr' + size' <= addr \/ addr + size <= addr' ->
     ram_read m' addr' size' = ram_read m addr' size').
Proof. apply ram_write_then_read. Qed.

Lemma ram_write_read_witness :
  ram_read (ram_write ram_example 0x80000010 4 0x123456789).2 0x80000010 4 = Some 0x23456789.
Proof.
  exact (proj1 (ram_write_read ram_example 0x80000010 4 0x123456789
    (ram_write ram_example 0x80000010 4 0x123456789).2 ram_example_wf ltac:(lia) eq_refl)).
Defined.
