(* ===== verification/Syscon.v ===== *)
(** * Syscon: power-off and reboot requests

    Models [emulator/src/device/syscon.c]: the control register at offset 0
    latches a power-off or reboot request, [reset_cause] at offset 4 survives the
    device reset. *)
From stdpp Require Import base tactics numbers option list.
From S2P Require Import Prelude CInt.

#[local] Open Scope record_scope.
#[local] Open Scope Z_scope.

Definition SYSCON_CMD_POWER_OFF : Z := 1.
Definition SYSCON_CMD_REBOOT : Z := 2.
Definition RESET_CAUSE_POWER_ON : Z := 0.
Definition RESET_CAUSE_REBOOT : Z := 1.

Record syscon_reg_t := mk_syscon_reg { sys_ctrl : Z; reset_cause : Z }.
Record syscon_t := mk_syscon {
  syscon_base : Z;
  syscon_reg : syscon_reg_t;
  sys_poweroff : bool;
  sys_reboot : bool;
}.
#[export] Instance eta_syscon_reg : Eta syscon_reg_t := fun r =>
  mk_syscon_reg (sys_ctrl r) (reset_cause r).
#[export] Instance eta_syscon : Eta syscon_t := fun s =>
  mk_syscon (syscon_base s) (syscon_reg s) (sys_poweroff s) (sys_reboot s).

Definition syscon_reset (syscon : syscon_t) : syscon_t :=
  syscon <| syscon_reg ::= fun r => r <| sys_ctrl := 0 |> |>
         <| sys_poweroff := false |> <| sys_reboot := false |>.

Definition syscon_init (syscon : syscon_t) (base : Z) : syscon_t :=
  syscon_reset (syscon <| syscon_reg ::= fun r => r <| reset_cause := RESET_CAUSE_POWER_ON |> |>
                       <| syscon_base := base |>).

Definition syscon_write (syscon : syscon_t) (addr size data : Z) : Z * syscon_t :=
  let offset := sub64 addr (syscon_base syscon) in
  if negb (size =? 4) then (-1, syscon)
  else
    let value := w32 data in
    if offset =? 0 then
      let syscon := syscon <| syscon_reg ::= fun r => r <| sys_ctrl := value |> |> in
      if value =? 1 then (0, syscon <| sys_poweroff := true |>)
      else if value =? 2 then
        (0, syscon <| sys_reboot := true |>
                   <| syscon_reg ::= fun r => r <| reset_cause := RESET_CAUSE_REBOOT |> |>)
      else (-1, syscon)
    else (-1, syscon).

Definition syscon_read (syscon : syscon_t) (addr size : Z) : option Z :=
  let offset := sub64 addr (syscon_base syscon) in
  if negb (size =? 4) then None
  else if offset =? 0 then Some 0
  else if offset =? 4 then Some (reset_cause (syscon_reg syscon))
  else None.

Definition syscon_reboot_requested (syscon : syscon_t) : bool := sys_reboot syscon.
Definition syscon_poweroff_requested (syscon : syscon_t) : bool := sys_poweroff syscon.

(** ** Properties *)

(** The state kept well formed: [reset_cause] is a 32-bit value. *)
Definition syscon_wf (s : syscon_t) : Prop := is_u 32 (reset_cause (syscon_reg s)).

Lemma syscon_write_wf s addr size data : syscon_wf s -> syscon_wf (syscon_write s addr size data).2.
Proof.
  unfold syscon_wf, syscon_write. intros Hs. repeat (case_match; simpl; try done).
Qed.

Lemma syscon_reset_wf s : syscon_wf s -> syscon_wf (syscon_reset s).
Proof. done. Qed.

(** A store to syscon requests a power-off exactly when it is a 4-byte store
    of 1 to the control register and a reboot exactly when it is one of 2 (which
    also records the reset cause); requests are never withdrawn by a store, and a
    device reset withdraws both but keeps the reset cause. *)
Theorem syscon_requests s addr size data :
  let s' := (syscon_write s addr size data).2 in
  let cmd n := size = 4 /\ sub64 addr (syscon_base s) = 0 /\ w32 data = n in
  (sys_poweroff s' = true <-> sys_poweroff s = true \/ cmd SYSCON_CMD_POWER_OFF) /\
  (sys_reboot s' = true <-> sys_reboot s = true \/ cmd SYSCON_CMD_REBOOT) /\
  reset_cause (syscon_reg s') =
    (if decide (cmd SYSCON_CMD_REBOOT) then RESET_CAUSE_REBOOT else reset_cause (syscon_reg s)) /\
  syscon_poweroff_requested (syscon_reset s') = false /\
  syscon_reboot_requested (syscon_reset s') = false /\
  reset_cause (syscon_reg (syscon_reset s')) = reset_cause (syscon_reg s').
Proof.
  intros s' cmd. unfold s', cmd, syscon_write, SYSCON_CMD_POWER_OFF, SYSCON_CMD_REBOOT.
  destruct (Z.eqb_spec size 4); simpl; [|case_decide; naive_solver].
  destruct (Z.eqb_spec (sub64 addr (syscon_base s)) 0); simpl; [|case_decide; naive_solver].
  destruct (Z.eqb_spec (w32 data) 1) as [->|]; simpl; [case_decide; naive_solver|].
  destruct (Z.eqb_spec (w32 data) 2) as [->|]; simpl; case_decide; naive_solver.
Qed.
