(* ===== verification/Clint.v ===== *)
(** * CLINT: timer and software interrupt

    Models [emulator/src/device/clint.c].  The host clock read by [get_time]
    (nanoseconds, a [long]) is an argument of the operations that read it. *)
From stdpp Require Import base tactics numbers option list sorting.
From S2P Require Import Prelude CInt.

#[local] Open Scope record_scope.
#[local] Open Scope Z_scope.

Record clint_reg_t := mk_clint_reg { msip : Z; mtimecmp : Z; mtime : Z }.
Record clint_t := mk_clint {
  clint_base : Z;
  clint_reg : clint_reg_t;
  MSIP : bool;
  MTIP : bool;
  prev_time_ns : Z;
}.
#[export] Instance eta_clint_reg : Eta clint_reg_t := fun r =>
  mk_clint_reg (msip r) (mtimecmp r) (mtime r).
#[export] Instance eta_clint : Eta clint_t := fun c =>
  mk_clint (clint_base c) (clint_reg c) (MSIP c) (MTIP c) (prev_time_ns c).

Definition clint_reset (clint : clint_t) : clint_t :=
  clint <| MSIP := false |> <| MTIP := false |>
        <| clint_reg := mk_clint_reg 0 UINT64_MAX 0 |>.

Definition clint_init (clint : clint_t) (base : Z) (time_ns : Z) : clint_t :=
  clint_reset (clint <| clint_base := base |>) <| prev_time_ns := time_ns |>.

Definition clint_write (clint : clint_t) (addr size data : Z) : Z * clint_t :=
  let offset := sub64 addr (clint_base clint) in
  if offset =? 0 then
    if negb (size =? 4) then (-1, clint)
    else (0, clint <| clint_reg ::= fun r => r <| msip := Z.land (w32 data) 0x1 |> |>)
  else if offset =? 0x4000 then
    if negb (size =? 8) then (-1, clint)
    else (0, clint <| clint_reg ::= fun r => r <| mtimecmp := w64 data |> |>)
  else if offset =? 0xBFF8 then
    if negb (size =? 8) then (-1, clint)
    else (0, clint <| clint_reg ::= fun r => r <| mtime := w64 data |> |>)
  else (-1, clint).

Definition clint_read (clint : clint_t) (addr size : Z) : option Z :=
  let offset := sub64 addr (clint_base clint) in
  if offset =? 0 then
    if negb (size =? 4) then None else Some (msip (clint_reg clint))
  else if offset =? 0x4000 then
    if size =? 8 then Some (mtimecmp (clint_reg clint))
    else if size =? 4 then Some (w32 (mtimecmp (clint_reg clint)))
    else None
  else if offset =? 0x4004 then
    let mtimecmph := w32 (shr64 (mtimecmp (clint_reg clint)) 32) in
    if size =? 4 then Some mtimecmph else None
  else if offset =? 0xBFF8 then
    if size =? 8 then Some (mtime (clint_reg clint))
    else if size =? 4 then Some (w32 (mtime (clint_reg clint)))
    else None
  else if offset =? 0xBFFC then
    let mtimeh := w32 (shr64 (mtime (clint_reg clint)) 32) in
    if size =? 4 then Some mtimeh else None
  else None.

(** [time_ns] is the value [get_time()] returns. *)
Definition clint_mtime_tick (clint : clint_t) (time_ns : Z) : clint_t :=
  let elapsed_ns := time_ns - prev_time_ns clint in
  let ticks := Z.quot elapsed_ns 10 in
  clint <| clint_reg ::= fun r => r <| mtime := add64 (mtime r) (w64 ticks) |> |>
        <| prev_time_ns ::= fun p => p + ticks * 10 |>.

Definition clint_irq_level (clint : clint_t) : bool * clint_t :=
  let clint := clint <| MSIP := false |> <| MTIP := false |> in
  let clint := if msip (clint_reg clint) =? 1 then clint <| MSIP := true |> else clint in
  let clint := if mtimecmp (clint_reg clint) <=? mtime (clint_reg clint)
               then clint <| MTIP := true |> else clint in
  (MSIP clint || MTIP clint, clint).

Definition clint_msip (clint : clint_t) : bool := MSIP clint.
Definition clint_mtip (clint : clint_t) : bool := MTIP clint.
Definition clint_mtime (clint : clint_t) : Z := mtime (clint_reg clint).

(** ** Properties *)

Definition clint_wf (c : clint_t) : Prop :=
  is_u 1 (msip (clint_reg c)) /\ is_u 64 (mtimecmp (clint_reg c)) /\
  is_u 64 (mtime (clint_reg c)).

Lemma clint_write_wf c addr size data : clint_wf c -> clint_wf (clint_write c addr size data).2.
Proof.
  intros (H1 & H2 & H3). unfold clint_write.
  repeat (case_match; simpl); unfold clint_wf; cbn; auto with cint.
  all: change 0x1 with (Z.ones 1); rewrite Z.land_ones by lia.
  all: split; auto using w64_u; apply Z.mod_pos_bound; lia.
Qed.

Lemma clint_reset_wf c : clint_wf (clint_reset c).
Proof. repeat split; vm_compute; congruence. Qed.

Lemma clint_tick_wf c t : clint_wf c -> clint_wf (clint_mtime_tick c t).
Proof. intros (H1 & H2 & H3). unfold clint_wf. cbn. auto with cint. Qed.

Lemma clint_irq_level_wf c : clint_wf c -> clint_wf (clint_irq_level c).2.
Proof. intros H. unfold clint_irq_level. repeat (case_match; simpl in *); done. Qed.

(** Polling the clock at the times [ts]. *)
Definition clint_ticks (c : clint_t) (ts : list Z) : clint_t := foldl clint_mtime_tick c ts.

(** What [clint_ticks] promises for a clock that never goes back: after the last
    poll the timer depends on the time elapsed only, not on the polling. *)
Lemma clint_ticks_exact ts c t :
  Sorted Z.le (prev_time_ns c :: ts ++ [t]) ->
  let d := (t - prev_time_ns c) / 10 in
  mtime (clint_reg (clint_ticks c (ts ++ [t]))) = add64 (mtime (clint_reg c)) d /\
  prev_time_ns (clint_ticks c (ts ++ [t])) = prev_time_ns c + 10 * d.
Proof.
  assert (forall c t, prev_time_ns c <= t ->
    mtime (clint_reg (clint_mtime_tick c t))
      = add64 (mtime (clint_reg c)) ((t - prev_time_ns c) / 10) /\
    prev_time_ns (clint_mtime_tick c t) = prev_time_ns c + 10 * ((t - prev_time_ns c) / 10)) as Hstep.
  { clear. intros c t Hle. cbn. rewrite Z.quot_div_nonneg by lia.
    unfold add64, w64. rewrite Zplus_mod_idemp_r. split; [done|lia]. }
  revert c. induction ts as [|t1 ts IH]; intros c Hs; simpl app in *.
  - apply Hstep. apply Sorted_inv in Hs as [_ Hs]. by apply HdRel_inv in Hs.
  - apply Sorted_inv in Hs as [Hs Hle]. apply HdRel_inv in Hle.
    destruct (Hstep c t1 Hle) as [Hm Hp].
    change (clint_ticks c (t1 :: ts ++ [t])) with (clint_ticks (clint_mtime_tick c t1) (ts ++ [t])).
    destruct (IH (clint_mtime_tick c t1)) as [-> ->].
    { apply Sorted_inv in Hs as [Hs Hd]. constructor; [done|].
      assert (prev_time_ns (clint_mtime_tick c t1) <= t1).
      { rewrite Hp. pose proof (Z.mul_div_le (t1 - prev_time_ns c) 10). lia. }
      destruct (ts ++ [t]); constructor. apply HdRel_inv in Hd. lia. }
    rewrite Hm, Hp. unfold add64, w64. rewrite Zplus_mod_idemp_l.
    split; [f_equal|]; div_lia.
Qed.

(** The timer does not drift: however often the host clock is sampled, as
    long as it never goes back, [mtime] has advanced by the whole number of 10 ns
    ticks since the last reference point, modulo 2^64, and the remainder is
    carried over to the next sample. *)
Theorem clint_no_drift c ts t :
  Sorted Z.le (prev_time_ns c :: ts ++ [t]) ->
  let c' := clint_ticks c (ts ++ [t]) in
  let d := (t - prev_time_ns c) / 10 in
  mtime (clint_reg c') = add64 (mtime (clint_reg c)) d /\
  prev_time_ns c' = prev_time_ns c + 10 * d /\
  0 <= t - prev_time_ns c' < 10.
Proof.
  intros Hs c' d. destruct (clint_ticks_exact ts c t Hs) as [H1 H2]. fold c' d in H1, H2.
  split; [done|]. split; [done|]. rewrite H2. unfold d. div_lia.
Qed.

Lemma clint_no_drift_witness :
  mtime (clint_reg (clint_ticks (clint_init (mk_clint 0 (mk_clint_reg 0 0 0) false false 0) 0 5)
    [14; 23; 31; 38])) = 3.
Proof.
  apply (clint_no_drift (clint_init (mk_clint 0 (mk_clint_reg 0 0 0) false false 0) 0 5) [14; 23; 31] 38).
  repeat (constructor; try (cbn; lia)).
Defined.

(** The interrupt levels: a store of the machine software interrupt bit and a
    comparison of the timer with the compare register determine MSIP and MTIP;
    the 32-bit halves of the 64-bit registers read back what a 64-bit store put
    there. *)
Theorem clint_levels c addr data :
  clint_wf c -> is_u 64 data ->
  let at_off o := sub64 addr (clint_base c) = o in
  (MSIP (clint_irq_level c).2 = true <-> msip (clint_reg c) = 1) /\
  (MTIP (clint_irq_level c).2 = true <-> mtimecmp (clint_reg c) <= mtime (clint_reg c)) /\
  (at_off 0 -> msip (clint_reg (clint_write c addr 4 data).2) = data mod 2) /\
  (at_off 0x4000 -> exists lo hi, let c' := (clint_write c addr 8 data).2 in
     clint_read c' addr 4 = Some lo /\ clint_read c' (add64 addr 4) 4 = Some hi /\
     lo + 2 ^ 32 * hi = data) /\
  (at_off 0xBFF8 -> exists lo hi, let c' := (clint_write c addr 8 data).2 in
     clint_read c' addr 4 = Some lo /\ clint_read c' (add64 addr 4) 4 = Some hi /\
     lo + 2 ^ 32 * hi = data).
Proof.
  intros (Hm & _) Hd at_off. unfold at_off, clint_irq_level.
  assert (forall o, 0 <= o < 2 ^ 16 -> sub64 addr (clint_base c) = o ->
    sub64 (add64 addr 4) (clint_base c) = o + 4) as Hnext.
  { intros o Ho H. unfold sub64, add64, w64 in *. rewrite Zminus_mod_idemp_l.
    replace (addr + 4 - clint_base c) with (addr - clint_base c + 4) by lia.
    rewrite <- Zplus_mod_idemp_l, H. apply Z.mod_small. lia. }
  assert (w32 data + 2 ^ 32 * w32 (shr64 data 32) = data) as Hsplit.
  { unfold w32, shr64. rewrite Z.shiftr_div_pow2 by lia.
    rewrite (Z.mod_small (data / _)) by div_lia. div_lia. }
  split; [|split; [|split; [|split]]].
  - cbn. destruct (Z.eqb_spec (msip (clint_reg c)) 1); cbn; destruct (_ <=? _); cbn; naive_solver.
  - cbn. destruct (_ =? 1); cbn;
      destruct (Z.leb_spec (mtimecmp (clint_reg c)) (mtime (clint_reg c))); cbn; split; intros; done || lia.
  - intros H. unfold clint_write. rewrite H. cbn. change 1 with (Z.ones 1).
    rewrite Z.land_ones by lia. unfold w32. div_lia.
  - intros H. exists (w32 data), (w32 (shr64 data 32)). unfold clint_write, clint_read. rewrite H.
    cbn. rewrite (Hnext 0x4000 ltac:(lia) H), H. cbn. by rewrite w64_small.
  - intros H. exists (w32 data), (w32 (shr64 data 32)). unfold clint_write, clint_read. rewrite H.
    cbn. rewrite (Hnext 0xBFF8 ltac:(lia) H), H. cbn. by rewrite w64_small.
Qed.

Lemma clint_levels_witness :
  clint_read (clint_write (clint_reset (mk_clint 0 (mk_clint_reg 0 0 0) false false 0)) 0x4000 8
    0x1122334455667788).2 0x4004 4 = Some 0x11223344 /\
  msip (clint_reg (clint_write (clint_reset (mk_clint 0 (mk_clint_reg 0 0 0) false false 0)) 0 4 7).2) = 1.
Proof.
  split; [reflexivity|].
  apply (clint_levels (clint_reset (mk_clint 0 (mk_clint_reg 0 0 0) false false 0)) 0 7);
    [apply clint_reset_wf|lia|reflexivity].
Defined.
