(* ===== verification/Plic.v ===== *)
(** * PLIC: platform-level interrupt controller

    Models [emulator/src/device/plic.c] and [plic.h]: 11 sources (source 0 is
    reserved), one 32-bit word of pending and enable bits, two contexts (0 is
    M-mode, 1 is S-mode of hart 0). *)
From stdpp Require Import base tactics numbers option list sets.
From S2P Require Import Prelude CInt.

#[local] Open Scope record_scope.
#[local] Open Scope Z_scope.

Definition PLIC_MAX_INTERRUPT : Z := 11.
Definition PLIC_INTERRUPT_WORDS : Z := (PLIC_MAX_INTERRUPT + 31) `quot` 32.
Definition PLIC_MAX_CONTEXT : Z := 2.

Record plic_reg_t := mk_plic_reg {
  priority : list Z;
  pending : list Z;
  enable : list (list Z);
  threshold : list Z;
  plic_claim_reg : list Z;
}.
Record plic_t := mk_plic {
  plic_base : Z;
  plic_regs : plic_reg_t;
  gw_busy : list bool;
}.
#[export] Instance eta_plic_reg : Eta plic_reg_t := fun r =>
  mk_plic_reg (priority r) (pending r) (enable r) (threshold r) (plic_claim_reg r).
#[export] Instance eta_plic : Eta plic_t := fun p =>
  mk_plic (plic_base p) (plic_regs p) (gw_busy p).

Definition PRIORITY_OFFSET : Z := 0.
Definition PENDING_OFFSET : Z := 0x1000.
Definition ENABLE_OFFSET : Z := 0x2000.
Definition THRESHOLD_OFFSET : Z := 0x200000.
Definition ENABLE_CONTEXT_INC : Z := 0x80.
Definition THRESHOLD_CONTEXT_INC : Z := 0x1000.

Inductive kind_t := R_PRIORITY | R_PENDING | R_ENABLE | R_THRESHOLD | R_CLAIM | R_INVALID.
Record reg_info_t := mk_reg_info { ri_kind : kind_t; ri_context : Z; ri_index : Z }.

(** [/] on the C [int]s of this function is [Z.quot]. *)
Definition addr_decode (plic : plic_t) (addr size : Z) : reg_info_t :=
  let offset := s32 (sub64 addr (plic_base plic)) in
  if negb (size =? 4) then mk_reg_info R_INVALID 0 0
  else if (0 <=? offset) && (offset <? PRIORITY_OFFSET + PLIC_MAX_INTERRUPT * 4) then
    mk_reg_info R_PRIORITY 0 ((offset - PRIORITY_OFFSET) `quot` 4)
  else if (PENDING_OFFSET <=? offset) && (offset <? PENDING_OFFSET + PLIC_INTERRUPT_WORDS * 4) then
    mk_reg_info R_PENDING 0 ((offset - PENDING_OFFSET) `quot` 4)
  else if (ENABLE_OFFSET <=? offset) && (offset <? THRESHOLD_OFFSET) then
    let offset := offset - ENABLE_OFFSET in
    let context := offset `quot` ENABLE_CONTEXT_INC in
    if context <? PLIC_MAX_CONTEXT then
      let index := (offset - context * ENABLE_CONTEXT_INC) `quot` 4 in
      if index =? 0 then mk_reg_info R_ENABLE context index
      else mk_reg_info R_INVALID context index
    else mk_reg_info R_INVALID context 0
  else if THRESHOLD_OFFSET <=? offset then
    let offset := offset - THRESHOLD_OFFSET in
    let context := offset `quot` THRESHOLD_CONTEXT_INC in
    if context <? PLIC_MAX_CONTEXT then
      let index := (offset - context * THRESHOLD_CONTEXT_INC) `quot` 4 in
      if index =? 0 then mk_reg_info R_THRESHOLD context context
      else if index =? 1 then mk_reg_info R_CLAIM context context
      else mk_reg_info R_INVALID context index
    else mk_reg_info R_INVALID context 0
  else mk_reg_info R_INVALID 0 0.

(** Array accesses of the register file. *)
Definition enable_word (plic : plic_t) (context i : Z) : Z :=
  aget 0 (aget [] (enable (plic_regs plic)) context) i.
Definition set_pending (plic : plic_t) (i v : Z) : plic_t :=
  plic <| plic_regs ::= fun r => r <| pending ::= fun l => aset l i v |> |>.
Definition set_enable (plic : plic_t) (context i v : Z) : plic_t :=
  plic <| plic_regs ::= fun r => r <| enable ::= fun l =>
    aset l context (aset (aget [] l context) i v) |> |>.

Definition plic_gateway_irq (plic : plic_t) (id : Z) (irq : bool) : plic_t :=
  let pending_idx := id `quot` 32 in
  let bit_idx := id `rem` 32 in
  let plic :=
    if irq && negb (aget false (gw_busy plic) id) then
      let plic := plic <| gw_busy ::= fun l => aset l id true |> in
      set_pending plic pending_idx
        (Z.lor (aget 0 (pending (plic_regs plic)) pending_idx) (w32 (Z.shiftl 1 bit_idx)))
    else plic in
  let plic := set_pending plic 0 (Z.land (aget 0 (pending (plic_regs plic)) 0) (w32 (Z.lnot 1))) in
  plic <| gw_busy ::= fun l => aset l 0 false |>.

Definition plic_claim (plic : plic_t) (id : Z) : plic_t :=
  let pending_idx := id `quot` 32 in
  let bit_idx := id `rem` 32 in
  if id <? PLIC_MAX_INTERRUPT then
    set_pending plic pending_idx
      (Z.land (aget 0 (pending (plic_regs plic)) pending_idx) (w32 (Z.lnot (Z.shiftl 1 bit_idx))))
  else plic.

Definition plic_complete (plic : plic_t) (id context : Z) : plic_t :=
  let reg_idx := id / 32 in
  let bit_idx := id mod 32 in
  let mask := w32 (Z.shiftl 1 bit_idx) in
  if (id <? PLIC_MAX_INTERRUPT) && negb (Z.land (enable_word plic context reg_idx) mask =? 0) then
    plic <| gw_busy ::= fun l => aset l id false |>
  else plic.

(** [enabled_pending[]] of both scanning loops. *)
Definition enabled_pending (plic : plic_t) (context : Z) : list Z :=
  (fun i => Z.land (aget 0 (pending (plic_regs plic)) i) (enable_word plic context i))
    <$> seqZ 0 PLIC_INTERRUPT_WORDS.

Definition enabled_pending_bit (plic : plic_t) (context i : Z) : bool :=
  let reg_idx := i `quot` 32 in
  let bit_idx := i `rem` 32 in
  let mask := w32 (Z.shiftl 1 bit_idx) in
  negb (Z.land (aget 0 (enabled_pending plic context) reg_idx) mask =? 0).

Definition prio (plic : plic_t) (i : Z) : Z := aget 0 (priority (plic_regs plic)) i.
Definition thresh (plic : plic_t) (context : Z) : Z :=
  aget 0 (threshold (plic_regs plic)) context.

Definition interrupt_per_context (plic : plic_t) (context : Z) : bool :=
  foldl (fun irq_pending i =>
           irq_pending || (enabled_pending_bit plic context i && (0 <? prio plic i)
                           && (thresh plic context <? prio plic i)))
        false (seqZ 0 PLIC_MAX_INTERRUPT).

Definition get_claim_id (plic : plic_t) (context : Z) : Z :=
  foldl (fun id i =>
           if enabled_pending_bit plic context i then
             if (0 <? prio plic i) && (prio plic id <? prio plic i) then i else id
           else id)
        0 (seqZ 0 PLIC_MAX_INTERRUPT).

Definition plic_regs_zero : plic_reg_t :=
  mk_plic_reg (replicate (Z.to_nat PLIC_MAX_INTERRUPT) 0)
              (replicate (Z.to_nat PLIC_INTERRUPT_WORDS) 0)
              (replicate (Z.to_nat PLIC_MAX_CONTEXT) (replicate (Z.to_nat PLIC_INTERRUPT_WORDS) 0))
              (replicate (Z.to_nat PLIC_MAX_CONTEXT) 0)
              (replicate (Z.to_nat PLIC_MAX_CONTEXT) 0).

Definition plic_reset (plic : plic_t) : plic_t :=
  plic <| plic_regs := plic_regs_zero |>
       <| gw_busy := replicate (Z.to_nat PLIC_MAX_INTERRUPT) false |>.

Definition plic_init (plic : plic_t) (base : Z) : plic_t :=
  plic_reset (plic <| plic_base := base |>).

(** The tail of [plic_write]: source 0 is put back to its reserved state. *)
Definition restore_source0 (plic : plic_t) : plic_t :=
  let plic := plic <| plic_regs ::= fun r => r <| priority ::= fun l => aset l 0 0 |> |> in
  foldl (fun plic i => set_enable plic i 0 (Z.land (enable_word plic i 0) (w32 (Z.lnot 1))))
        plic (seqZ 0 PLIC_MAX_CONTEXT).

Definition plic_write (plic : plic_t) (addr size data : Z) : Z * plic_t :=
  let info := addr_decode plic addr size in
  match ri_kind info with
  | R_PRIORITY =>
      (0, restore_source0
            (plic <| plic_regs ::= fun r => r <| priority ::= fun l => aset l (ri_index info) (w32 data) |> |>))
  | R_PENDING => (0, restore_source0 plic)
  | R_ENABLE => (0, restore_source0 (set_enable plic (ri_context info) (ri_index info) (w32 data)))
  | R_THRESHOLD =>
      (0, restore_source0
            (plic <| plic_regs ::= fun r => r <| threshold ::= fun l => aset l (ri_index info) (w32 data) |> |>))
  | R_CLAIM => (0, restore_source0 (plic_complete plic (w32 data) (ri_context info)))
  | R_INVALID => (-1, plic)
  end.

Definition plic_read (plic : plic_t) (addr size : Z) : option Z * plic_t :=
  let info := addr_decode plic addr size in
  match ri_kind info with
  | R_PRIORITY => (Some (prio plic (ri_index info)), plic)
  | R_PENDING => (Some (aget 0 (pending (plic_regs plic)) (ri_index info)), plic)
  | R_ENABLE => (Some (enable_word plic (ri_context info) (ri_index info)), plic)
  | R_THRESHOLD => (Some (thresh plic (ri_index info)), plic)
  | R_CLAIM =>
      let value := w32 (get_claim_id plic (ri_context info)) in
      (Some value, plic_claim plic (s32 value))
  | R_INVALID => (None, plic)
  end.

Definition plic_irq_update (plic : plic_t) (irq : list bool) : plic_t :=
  foldl (fun plic i => plic_gateway_irq plic i (aget false irq i)) plic (seqZ 0 PLIC_MAX_INTERRUPT).

Definition plic_meip (plic : plic_t) : bool := interrupt_per_context plic 0.
Definition plic_seip (plic : plic_t) : bool := interrupt_per_context plic 1.

(** ** Well-formed register files *)

Definition u32_list (l : list Z) : Prop := Forall (fun x => is_u 32 x) l.

(** Source [i] is pending, enabled in context [c], or in service. *)
Definition pend (p : plic_t) (i : Z) : bool := Z.testbit (aget 0 (pending (plic_regs p)) 0) i.
Definition en (p : plic_t) (c i : Z) : bool := Z.testbit (enable_word p c 0) i.
Definition busy (p : plic_t) (i : Z) : bool := aget false (gw_busy p) i.

#[global] Arguments pend : simpl never.
#[global] Arguments en : simpl never.
#[global] Arguments busy : simpl never.
#[global] Arguments prio : simpl never.
#[global] Arguments thresh : simpl never.
#[global] Arguments enable_word : simpl never.

(** The shapes of the register arrays and their 32-bit contents. *)
Record plic_shape (p : plic_t) : Prop := {
  psh_prio_len : length (priority (plic_regs p)) = 11%nat;
  psh_prio : u32_list (priority (plic_regs p));
  psh_pend_len : length (pending (plic_regs p)) = 1%nat;
  psh_pend : u32_list (pending (plic_regs p));
  psh_en_len : length (enable (plic_regs p)) = 2%nat;
  psh_en : Forall (fun l => length l = 1%nat /\ u32_list l) (enable (plic_regs p));
  psh_thresh_len : length (threshold (plic_regs p)) = 2%nat;
  psh_thresh : u32_list (threshold (plic_regs p));
  psh_busy_len : length (gw_busy p) = 11%nat;
}.

(** Source 0 is silenced: priority 0, never enabled, pending or in service. *)
Record plic_wf (p : plic_t) : Prop := {
  pwf_shape : plic_shape p;
  pwf_prio0 : prio p 0 = 0;
  pwf_en0 : forall c, 0 <= c < 2 -> en p c 0 = false;
  pwf_pend0 : pend p 0 = false;
  pwf_busy0 : busy p 0 = false;
}.
#[export] Hint Resolve pwf_shape : core.

Lemma plic_reset_wf p : plic_wf (plic_reset p).
Proof.
  constructor; [constructor| | | |]; try done;
    try (apply Forall_replicate; done || (split; [done|repeat constructor; done])).
  intros c Hc. assert (c = 0 \/ c = 1) as [-> | ->] by lia; done.
Qed.

Section facts.
Context (p : plic_t) (Hp : plic_shape p).

Lemma pending_u32 : is_u 32 (aget 0 (pending (plic_regs p)) 0).
Proof. apply (aget_Forall (fun x => is_u 32 x)); [lia|apply Hp]. Qed.

Lemma enable_row c : 0 <= c < 2 ->
  length (aget [] (enable (plic_regs p)) c) = 1%nat /\ u32_list (aget [] (enable (plic_regs p)) c).
Proof.
  intros Hc. pose proof (psh_en _ Hp) as H. pose proof (psh_en_len _ Hp).
  apply (Forall_lookup_1 _ _ (Z.to_nat c) _ H), aget_lookup. lia.
Qed.

Lemma enable_u32 c i : 0 <= c < 2 -> is_u 32 (enable_word p c i).
Proof. intros Hc. apply (aget_Forall (fun x => is_u 32 x)); [lia|by apply enable_row]. Qed.

Lemma prio_u32 i : is_u 32 (prio p i).
Proof. apply (aget_Forall (fun x => is_u 32 x)); [lia|apply Hp]. Qed.

Lemma thresh_u32 c : is_u 32 (thresh p c).
Proof. apply (aget_Forall (fun x => is_u 32 x)); [lia|apply Hp]. Qed.

Lemma pend_set v i : pend (set_pending p 0 v) i = Z.testbit v i.
Proof.
  unfold pend, set_pending. cbn. rewrite aget_aset_eq; [done|].
  rewrite (psh_pend_len _ Hp). lia.
Qed.

Lemma en_set_enable c v c' i :
  0 <= c < 2 -> 0 <= c' < 2 ->
  en (set_enable p c 0 v) c' i = if c =? c' then Z.testbit v i else en p c' i.
Proof.
  intros Hc Hc'. destruct (enable_row c Hc) as [Hl Hu].
  pose proof (psh_en_len _ Hp). unfold en, enable_word. cbn.
  destruct (Z.eqb_spec c c') as [<-|].
  - rewrite !aget_aset_eq; [done| |]; lia.
  - by rewrite aget_aset_ne by lia.
Qed.

Lemma set_pending_shape v : is_u 32 v -> plic_shape (set_pending p 0 v).
Proof.
  intros Hv. pose proof Hp as []. constructor; try done; cbn.
  - by rewrite aset_length.
  - by apply aset_Forall.
Qed.

Lemma set_enable_shape c v : 0 <= c < 2 -> is_u 32 v -> plic_shape (set_enable p c 0 v).
Proof.
  intros Hc Hv. destruct (enable_row c Hc) as [Hl Hu]. pose proof Hp as [].
  constructor; try done; cbn.
  - by rewrite aset_length.
  - apply aset_Forall; [|done]. rewrite aset_length. split; [done|by apply aset_Forall].
Qed.

Lemma set_busy_shape i b : plic_shape (p <| gw_busy ::= fun l => aset l i b |>).
Proof. pose proof Hp as []. constructor; try done. cbn. by rewrite aset_length. Qed.

Lemma set_prio_shape i v :
  is_u 32 v -> plic_shape (p <| plic_regs ::= fun r => r <| priority ::= fun l => aset l i v |> |>).
Proof.
  intros Hv. pose proof Hp as []. constructor; try done; cbn.
  - by rewrite aset_length.
  - by apply aset_Forall.
Qed.

Lemma set_threshold_shape i v :
  is_u 32 v -> plic_shape (p <| plic_regs ::= fun r => r <| threshold ::= fun l => aset l i v |> |>).
Proof.
  intros Hv. pose proof Hp as []. constructor; try done; cbn.
  - by rewrite aset_length.
  - by apply aset_Forall.
Qed.
End facts.
#[export] Hint Resolve set_pending_shape set_enable_shape set_busy_shape set_prio_shape
  set_threshold_shape : core.

Lemma mask_bit i j : 0 <= i < 32 -> Z.testbit (w32 (Z.shiftl 1 i)) j = (i =? j).
Proof.
  intros Hi. destruct (decide (0 <= j)).
  2:{ rewrite Z.testbit_neg_r by lia. symmetry. apply Z.eqb_neq. lia. }
  unfold w32. autorewrite with zbits. zbits_split; try reflexivity.
  all: autorewrite with zbits; zbits_split; reflexivity.
Qed.

Lemma nmask_bit i j : 0 <= i < 32 -> 0 <= j ->
  Z.testbit (w32 (Z.lnot (Z.shiftl 1 i))) j = (j <? 32) && negb (i =? j).
Proof.
  intros Hi Hj. unfold w32. rewrite testbit_mod_pow2, Z.lnot_spec by lia.
  rewrite testbit_shiftl by done. zbits_split; simpl; try reflexivity.
  all: autorewrite with zbits; zbits_split; reflexivity.
Qed.

Lemma nmask0_bit j : 0 <= j -> Z.testbit (w32 (Z.lnot 1)) j = (j <? 32) && negb (0 =? j).
Proof. intros Hj. change 1 with (Z.shiftl 1 0). apply nmask_bit; lia. Qed.

Lemma land_mask_nonzero x i :
  0 <= i < 32 -> negb (Z.land x (w32 (Z.shiftl 1 i)) =? 0) = Z.testbit x i.
Proof.
  intros Hi. destruct (Z.eqb_spec (Z.land x (w32 (Z.shiftl 1 i))) 0) as [E|E]; simpl.
  - assert (Z.testbit (Z.land x (w32 (Z.shiftl 1 i))) i = false) as H by (by rewrite E, Z.bits_0).
    rewrite Z.land_spec, mask_bit, Z.eqb_refl, andb_true_r in H by done. done.
  - destruct (Z.testbit x i) eqn:Ht; [done|]. exfalso. apply E.
    apply Z.bits_inj'. intros j Hj. rewrite Z.land_spec, mask_bit, Z.bits_0 by done.
    destruct (Z.eqb_spec i j) as [<-|]; [by rewrite Ht|by rewrite andb_false_r].
Qed.

(** The scanning loops look at the pending and enable bits. *)
Lemma enabled_pending_bit_spec p c i :
  0 <= i < 32 -> enabled_pending_bit p c i = pend p i && en p c i.
Proof.
  intros Hi. unfold enabled_pending_bit. rewrite Z.quot_small, Z.rem_small by lia.
  rewrite land_mask_nonzero by done. unfold pend, en.
  change (aget 0 (enabled_pending p c) 0)
    with (Z.land (aget 0 (pending (plic_regs p)) 0) (enable_word p c 0)).
  apply Z.land_spec.
Qed.

(** A source competes in context [c] when it is pending, enabled and of
    non-zero priority. *)
Definition candidate (p : plic_t) (c i : Z) : Prop :=
  1 <= i < 11 /\ pend p i = true /\ en p c i = true /\ 0 < prio p i.

(** ** The operations keep the register file well formed *)

(** The loop over the two contexts, unrolled. *)
Lemma restore_source0_eq p :
  restore_source0 p =
    let p := p <| plic_regs ::= fun r => r <| priority ::= fun l => aset l 0 0 |> |> in
    let p := set_enable p 0 0 (Z.land (enable_word p 0 0) (w32 (Z.lnot 1))) in
    set_enable p 1 0 (Z.land (enable_word p 1 0) (w32 (Z.lnot 1))).
Proof. reflexivity. Qed.

(** It re-establishes the source 0 part of [plic_wf]. *)
Lemma restore_source0_wf p :
  plic_shape p -> pend p 0 = false -> busy p 0 = false -> plic_wf (restore_source0 p).
Proof.
  intros Hp Hp0 Hb0. rewrite restore_source0_eq. cbv zeta.
  set (p1 := p <| plic_regs ::= _ |>). assert (plic_shape p1) by (by apply set_prio_shape).
  set (p2 := set_enable p1 0 0 _).
  assert (plic_shape p2).
  { apply set_enable_shape; [done|lia|]. apply land_u_r; [lia|apply w32_u]. }
  assert (plic_shape (set_enable p2 1 0 (Z.land (enable_word p2 1 0) (w32 (Z.lnot 1))))).
  { apply set_enable_shape; [done|lia|]. apply land_u_r; [lia|apply w32_u]. }
  constructor; try done.
  - unfold prio. cbn. apply aget_aset_eq. rewrite (psh_prio_len _ Hp). lia.
  - intros c Hc. unfold p2. rewrite !en_set_enable by (done || lia).
    rewrite !Z.land_spec, !nmask0_bit by lia.
    assert (c = 0 \/ c = 1) as [-> | ->] by lia; simpl; by rewrite andb_false_r.
Qed.

(** What it leaves alone. *)
Lemma restore_source0_pend p i : pend (restore_source0 p) i = pend p i.
Proof. done. Qed.
Lemma restore_source0_busy p i : busy (restore_source0 p) i = busy p i.
Proof. done. Qed.

Lemma plic_complete_shape p id c : plic_shape p -> plic_shape (plic_complete p id c).
Proof. intros Hp. unfold plic_complete. case_match; auto. Qed.

Lemma busy_set p i j b :
  plic_shape p -> 0 <= i < 11 -> 0 <= j ->
  busy (p <| gw_busy ::= fun l => aset l i b |>) j = if i =? j then b else busy p j.
Proof.
  intros Hp Hi Hj. unfold busy. cbn. pose proof (psh_busy_len _ Hp).
  destruct (Z.eqb_spec i j) as [<-|]; [by rewrite aget_aset_eq by lia|by rewrite aget_aset_ne by lia].
Qed.

Lemma plic_complete_busy p id c j :
  plic_shape p -> 0 <= c < 2 -> 0 <= id -> 0 <= j < 11 ->
  busy (plic_complete p id c) j = busy p j && negb ((id =? j) && en p c j).
Proof.
  intros Hp Hc Hid Hj. unfold plic_complete, PLIC_MAX_INTERRUPT.
  destruct (Z.ltb_spec id 11); simpl.
  - rewrite Z.div_small, Z.mod_small, land_mask_nonzero by lia. fold (en p c id).
    destruct (en p c id) eqn:E; simpl.
    + rewrite busy_set by (done || lia). destruct (Z.eqb_spec id j) as [<-|]; simpl.
      * by rewrite E, andb_false_r.
      * by rewrite andb_true_r.
    + destruct (Z.eqb_spec id j) as [<-|]; simpl; [rewrite E|]; by rewrite andb_true_r.
  - destruct (Z.eqb_spec id j); [lia|]. simpl. by rewrite andb_true_r.
Qed.

(** ** Address decoding stays inside the arrays *)

Lemma addr_decode_bounds p addr size :
  let info := addr_decode p addr size in
  match ri_kind info with
  | R_PRIORITY => 0 <= ri_index info < 11
  | R_PENDING => ri_index info = 0
  | R_ENABLE => 0 <= ri_context info < 2 /\ ri_index info = 0
  | R_THRESHOLD | R_CLAIM => 0 <= ri_context info < 2 /\ ri_index info = ri_context info
  | R_INVALID => True
  end.
Proof.
  unfold addr_decode. set (off := s32 _). generalize off. clear off addr p. intros off.
  unfold PRIORITY_OFFSET, PENDING_OFFSET, ENABLE_OFFSET, THRESHOLD_OFFSET, ENABLE_CONTEXT_INC,
    THRESHOLD_CONTEXT_INC, PLIC_MAX_INTERRUPT, PLIC_MAX_CONTEXT.
  change PLIC_INTERRUPT_WORDS with 1.
  destruct (size =? 4); simpl; [|done].
  destruct (Z.leb_spec 0 off), (Z.ltb_spec off (0 + 11 * 4)); simpl; try div_lia.
  all: destruct (Z.leb_spec 4096 off), (Z.ltb_spec off (4096 + 1 * 4)); simpl; try div_lia.
  all: destruct (Z.leb_spec 8192 off), (Z.ltb_spec off 2097152); simpl; try lia; try done.
  all: repeat (case_match; simpl; try done);
    rewrite ?Z.ltb_lt, ?Z.eqb_eq in *; split; try div_lia; try done.
Qed.

Lemma get_claim_id_range p c : 0 <= get_claim_id p c < 11.
Proof.
  unfold get_claim_id. apply (foldl_inv (fun id => 0 <= id < 11)); [lia|].
  intros id i Hi%elem_of_seqZ Hid. unfold PLIC_MAX_INTERRUPT in Hi.
  repeat case_match; lia.
Qed.

Lemma plic_write_wf p addr size data : plic_wf p -> plic_wf (plic_write p addr size data).2.
Proof.
  intros Hp. unfold plic_write. pose proof (addr_decode_bounds p addr size) as Hb.
  pose proof (w32_u data) as Hd. pose proof (pwf_shape _ Hp) as Hs.
  pose proof (pwf_pend0 _ Hp). pose proof (pwf_busy0 _ Hp).
  revert Hb. cbv zeta. destruct (ri_kind (addr_decode p addr size)); intros Hb; simpl; try done.
  all: apply restore_source0_wf; auto.
  - destruct Hb as [Hc ->]. auto.
  - by apply plic_complete_shape.
  - unfold plic_complete. by case_match.
  - rewrite plic_complete_busy by (done || lia). by rewrite (pwf_busy0 _ Hp).
Qed.

Lemma pend_claim p id i :
  plic_wf p -> 0 <= id < 11 -> 0 <= i < 32 ->
  pend (plic_claim p id) i = pend p i && negb (id =? i).
Proof.
  intros Hp%pwf_shape Hid Hi. unfold plic_claim, PLIC_MAX_INTERRUPT.
  destruct (Z.ltb_spec id 11); [|lia]. rewrite Z.quot_small, Z.rem_small by lia.
  rewrite pend_set, Z.land_spec, nmask_bit by (done || lia).
  destruct (Z.ltb_spec i 32); [done|lia].
Qed.

Lemma plic_claim_wf p id : plic_wf p -> 0 <= id < 11 -> plic_wf (plic_claim p id).
Proof.
  intros Hp Hid. pose proof (pend_claim p id 0 Hp Hid ltac:(lia)) as Hp0.
  pose proof (pwf_shape _ Hp) as Hs. rewrite (pwf_pend0 _ Hp) in Hp0.
  constructor; try done; unfold plic_claim, PLIC_MAX_INTERRUPT;
    (destruct (Z.ltb_spec id 11); [|lia]); try apply Hp.
  rewrite Z.quot_small by lia. apply set_pending_shape; [done|].
  apply land_u_l; [lia|by apply pending_u32].
Qed.

Lemma s32_small x : 0 <= x < 2 ^ 31 -> s32 (w32 x) = x.
Proof. intros Hx. unfold s32, w32. apply signed_unique; [lia|lia|]. by rewrite Z.mod_mod. Qed.

Lemma plic_read_wf p addr size : plic_wf p -> plic_wf (plic_read p addr size).2.
Proof.
  intros Hp. unfold plic_read. destruct (ri_kind _); simpl; try done.
  pose proof (get_claim_id_range p (ri_context (addr_decode p addr size))).
  rewrite s32_small by lia. by apply plic_claim_wf.
Qed.

(** ** The gateways *)

Lemma plic_gateway_spec p id irq :
  plic_wf p -> 0 <= id < 11 ->
  let p' := plic_gateway_irq p id irq in
  plic_wf p' /\
  (forall i, 1 <= i < 11 -> pend p' i = pend p i || ((id =? i) && irq && negb (busy p i))) /\
  (forall i, 1 <= i < 11 -> busy p' i = busy p i || ((id =? i) && irq)) /\
  priority (plic_regs p') = priority (plic_regs p) /\ enable (plic_regs p') = enable (plic_regs p) /\
  threshold (plic_regs p') = threshold (plic_regs p).
Proof.
  intros Hp Hid. pose proof (pwf_shape _ Hp) as Hs. pose proof (pending_u32 p Hs) as Hpu.
  unfold plic_gateway_irq. rewrite Z.quot_small, Z.rem_small by lia. fold (busy p id).
  set (q := if irq && negb (busy p id) then _ else p).
  assert (Hq : plic_shape q /\
    (forall i, 0 <= i < 11 -> pend q i = pend p i || ((id =? i) && irq && negb (busy p i))) /\
    (forall i, 0 <= i < 11 -> busy q i = busy p i || ((id =? i) && irq)) /\
    priority (plic_regs q) = priority (plic_regs p) /\ enable (plic_regs q) = enable (plic_regs p) /\
    threshold (plic_regs q) = threshold (plic_regs p)).
  { subst q. destruct (irq && negb (busy p id)) eqn:Ei.
    - apply andb_true_iff in Ei as [-> Hb%negb_true_iff].
      set (p1 := p <| gw_busy ::= _ |>). assert (plic_shape p1) by (by apply set_busy_shape).
      split_and!; try done.
      + apply set_pending_shape; [done|]. apply lor_u; [lia|done|apply w32_u].
      + intros i Hi. rewrite pend_set, Z.lor_spec, mask_bit by (done || lia).
        destruct (Z.eqb_spec id i) as [<-|]; [by rewrite Hb|done].
      + intros i Hi. change (busy (set_pending p1 _ _) i) with (busy p1 i). unfold p1.
        rewrite busy_set by (done || lia).
        destruct (Z.eqb_spec id i) as [<-|]; simpl; [by rewrite orb_true_r|by rewrite orb_false_r].
    - split_and!; try done; intros i Hi.
      + destruct (Z.eqb_spec id i) as [<-|]; simpl; [|by rewrite orb_false_r].
        by rewrite Ei, orb_false_r.
      + destruct (Z.eqb_spec id i) as [<-|]; simpl; [|by rewrite orb_false_r].
        by destruct irq, (busy p id). }
  destruct Hq as (Hqs & Hqp & Hqy & Hqpr & Hqe & Hqt).
  set (v := Z.land (aget 0 (pending (plic_regs q)) 0) (w32 (Z.lnot 1))).
  assert (is_u 32 v) by (apply land_u_r; [lia|apply w32_u]).
  assert (plic_shape (set_pending q 0 v)) by (by apply set_pending_shape).
  split_and!; try done.
  - constructor; [by apply set_busy_shape| | | |].
    + unfold prio. cbn. rewrite Hqpr. apply Hp.
    + intros c Hc. unfold en, enable_word. cbn. rewrite Hqe. by apply Hp.
    + change (pend (set_pending q 0 v) 0 = false). rewrite pend_set by done. unfold v.
      by rewrite Z.land_spec, nmask0_bit, andb_false_r.
    + by rewrite busy_set by (done || lia).
  - intros i Hi. change (pend (set_pending q 0 v) i = pend p i || (id =? i) && irq && negb (busy p i)).
    rewrite pend_set by done. unfold v. rewrite Z.land_spec, nmask0_bit by lia.
    fold (pend q i). rewrite Hqp by lia.
    rewrite (proj2 (Z.ltb_lt i 32)), (proj2 (Z.eqb_neq 0 i)) by lia. simpl. by rewrite andb_true_r.
  - intros i Hi. rewrite busy_set by (done || lia). rewrite (proj2 (Z.eqb_neq 0 i)) by lia.
    apply Hqy. lia.
Qed.

(** One round of [plic_irq_update]: a source asserted while not in service
    becomes pending and in service, nothing else changes. *)
Lemma plic_irq_update_spec p irq :
  plic_wf p ->
  let p' := plic_irq_update p irq in
  plic_wf p' /\
  (forall i, 1 <= i < 11 -> pend p' i = pend p i || (aget false irq i && negb (busy p i))) /\
  (forall i, 1 <= i < 11 -> busy p' i = busy p i || aget false irq i) /\
  priority (plic_regs p') = priority (plic_regs p) /\ enable (plic_regs p') = enable (plic_regs p) /\
  threshold (plic_regs p') = threshold (plic_regs p).
Proof.
  intros Hp. unfold plic_irq_update.
  assert (forall l q, plic_wf q -> Forall (fun i => 0 <= i < 11) l -> NoDup l ->
    let q' := foldl (fun q i => plic_gateway_irq q i (aget false irq i)) q l in
    plic_wf q' /\
    (forall i, 1 <= i < 11 -> pend q' i = pend q i || (bool_decide (i ∈ l) && aget false irq i && negb (busy q i))) /\
    (forall i, 1 <= i < 11 -> busy q' i = busy q i || (bool_decide (i ∈ l) && aget false irq i)) /\
    priority (plic_regs q') = priority (plic_regs q) /\ enable (plic_regs q') = enable (plic_regs q) /\
    threshold (plic_regs q') = threshold (plic_regs q)) as Hfold.
  { clear p Hp. induction l as [|id l IH]; intros q Hq Hl Hnd; simpl.
    - split_and!; try done; intros i Hi; by rewrite orb_false_r.
    - apply Forall_cons in Hl as [Hid Hl]. apply NoDup_cons in Hnd as [Hni Hnd].
      destruct (plic_gateway_spec q id (aget false irq id) Hq Hid) as (Hq1 & Hpe & Hbu & Hpr & He & Ht).
      destruct (IH _ Hq1 Hl Hnd) as (Hq' & Hpe' & Hbu' & Hpr' & He' & Ht').
      split_and!; [done| | |congruence..]; intros i Hi.
      + rewrite Hpe', Hpe, Hbu by done. destruct (Z.eqb_spec id i) as [<-|].
        * rewrite (bool_decide_eq_false_2 (id ∈ l)) by done.
          rewrite (bool_decide_eq_true_2 (id ∈ id :: l)) by set_solver. simpl. by rewrite orb_false_r.
        * rewrite (bool_decide_ext (i ∈ id :: l) (i ∈ l)) by set_solver. simpl.
          by rewrite !orb_false_r.
      + rewrite Hbu', Hbu by done. destruct (Z.eqb_spec id i) as [<-|].
        * rewrite (bool_decide_eq_false_2 (id ∈ l)) by done.
          rewrite (bool_decide_eq_true_2 (id ∈ id :: l)) by set_solver. simpl. by rewrite orb_false_r.
        * rewrite (bool_decide_ext (i ∈ id :: l) (i ∈ l)) by set_solver. simpl.
          by rewrite !orb_false_r. }
  destruct (Hfold (seqZ 0 PLIC_MAX_INTERRUPT) p Hp) as (H1 & H2 & H3 & H4 & H5 & H6).
  - apply Forall_forall. intros i Hi%elem_of_seqZ. unfold PLIC_MAX_INTERRUPT in Hi. lia.
  - apply NoDup_seqZ.
  - assert (forall i, 1 <= i < 11 -> bool_decide (i ∈ seqZ 0 PLIC_MAX_INTERRUPT) = true) as Hin.
    { intros i Hi. apply bool_decide_eq_true_2, elem_of_seqZ. unfold PLIC_MAX_INTERRUPT. lia. }
    split_and!; try done; intros i Hi; [rewrite H2 by done|rewrite H3 by done]; by rewrite Hin.
Qed.

(** ** The scans *)

Lemma candidate_scan p c i :
  plic_wf p -> 0 <= c < 2 -> 0 <= i < 11 ->
  enabled_pending_bit p c i && (0 <? prio p i) = true <-> candidate p c i.
Proof.
  intros Hp Hc Hi. rewrite enabled_pending_bit_spec by lia. unfold candidate.
  rewrite !andb_true_iff, Z.ltb_lt. split; [|tauto].
  intros [[H1 H2] H3]. split_and!; try done; [|lia].
  destruct (decide (i = 0)) as [->|]; [|lia]. rewrite (pwf_prio0 _ Hp) in H3. lia.
Qed.

Lemma interrupt_per_context_iff p c :
  plic_wf p -> 0 <= c < 2 ->
  interrupt_per_context p c = true <-> exists i, candidate p c i /\ thresh p c < prio p i.
Proof.
  intros Hp Hc. unfold interrupt_per_context.
  assert (forall l b, Forall (fun i => 0 <= i < 11) l ->
    foldl (fun b i => b || (enabled_pending_bit p c i && (0 <? prio p i) && (thresh p c <? prio p i))) b l = true
    <-> b = true \/ exists i, i ∈ l /\ candidate p c i /\ thresh p c < prio p i) as Hf.
  { induction l as [|i l IH]; intros b Hl; simpl.
    - split; [by left|]. intros [?|(i & Hi & _)]; [done|set_solver].
    - apply Forall_cons in Hl as [Hi Hl]. rewrite IH, orb_true_iff, andb_true_iff, candidate_scan, Z.ltb_lt by done.
      set_solver. }
  rewrite Hf.
  2:{ apply Forall_forall. intros i Hi%elem_of_seqZ. unfold PLIC_MAX_INTERRUPT in Hi. lia. }
  split.
  - intros [?|(i & _ & Hi)]; [done|eauto].
  - intros (i & Hi & Ht). right. exists i. split; [|done]. apply elem_of_seqZ.
    destruct Hi. unfold PLIC_MAX_INTERRUPT. lia.
Qed.

(** [claims p c id]: what a claim in context [c] has to return. *)
Definition claims (p : plic_t) (c id : Z) : Prop :=
  (id = 0 /\ forall i, ~ candidate p c i) \/
  (candidate p c id /\
   forall i, candidate p c i -> prio p i < prio p id \/ (prio p i = prio p id /\ id <= i)).

Lemma get_claim_id_spec p c : plic_wf p -> 0 <= c < 2 -> claims p c (get_claim_id p c).
Proof.
  intros Hp Hc.
  (* the loop invariant after the sources below [n] *)
  assert (forall n, (n <= 11)%nat ->
    let id := foldl (fun id i =>
           if enabled_pending_bit p c i then
             if (0 <? prio p i) && (prio p id <? prio p i) then i else id
           else id) 0 (seqZ 0 (Z.of_nat n)) in
    (id = 0 /\ forall i, i < Z.of_nat n -> ~ candidate p c i) \/
    ((candidate p c id /\ id < Z.of_nat n) /\ forall i, i < Z.of_nat n -> candidate p c i ->
       prio p i < prio p id \/ (prio p i = prio p id /\ id <= i))) as Hinv.
  { induction n as [|n IH]; intros Hn; cbv zeta.
    - left. split; [done|]. intros i Hi [? _]. lia.
    - rewrite seqZ_S, foldl_app, Nat2Z.inj_succ. simpl. rewrite Z.add_0_l.
      specialize (IH ltac:(lia)). cbv zeta in IH. set (id := foldl _ _ _) in *. clearbody id.
      pose proof (candidate_scan p c (Z.of_nat n) Hp Hc ltac:(lia)) as Hcand.
      assert (forall i, i < Z.succ (Z.of_nat n) -> i < Z.of_nat n \/ i = Z.of_nat n) as Hlt by lia.
      destruct (enabled_pending_bit p c (Z.of_nat n)); simpl in *.
      + destruct (Z.ltb_spec 0 (prio p (Z.of_nat n))); simpl.
        * assert (candidate p c (Z.of_nat n)) as Hc' by (by apply Hcand).
          destruct (Z.ltb_spec (prio p id) (prio p (Z.of_nat n))).
          -- right. split; [split; [done|lia]|]. intros i [Hi | ->]%Hlt Hci; [|lia]. left.
             destruct IH as [[_ IH]|[_ IH]]; [by apply IH in Hci|]. specialize (IH i Hi Hci). lia.
          -- destruct IH as [[-> _]|[Hid IH]]; [rewrite (pwf_prio0 _ Hp) in *; lia|].
             right. split; [split; [apply Hid|lia]|]. intros i [Hi | ->]%Hlt Hci; [by apply IH|].
             
lia.
        * destruct IH as [[-> IH]|[[Hid ?] IH]]; [left|right]; split; try done; try (split; [done|lia]);
            intros i [Hi | ->]%Hlt Hci; try (by eapply IH); by apply Hcand in Hci.
      + destruct IH as [[-> IH]|[[Hid ?] IH]]; [left|right]; split; try done; try (split; [done|lia]);
          intros i [Hi | ->]%Hlt Hci; try (by eapply IH); by apply Hcand in Hci. }
  specialize (Hinv 11%nat ltac:(lia)). unfold get_claim_id. change PLIC_MAX_INTERRUPT with (Z.of_nat 11).
  destruct Hinv as [[Hid H]|[[Hid _] H]]; [left|right]; (split; [done|]); intros i Hi.
  - apply (H i); [destruct Hi; lia|done].
  - apply H; [destruct Hi; lia|done].
Qed.

Lemma addr_decode_claim p addr c :
  0 <= c < 2 -> sub64 addr (plic_base p) = 0x200004 + 0x1000 * c ->
  addr_decode p addr 4 = mk_reg_info R_CLAIM c c.
Proof. intros Hc Ha. unfold addr_decode. rewrite Ha. by assert (c = 0 \/ c = 1) as [-> | ->] by lia. Qed.

(** ** Runs of register accesses and interrupt samplings *)
Inductive plic_op :=
  | OpIrq (irq : list bool)
  | OpRead (addr size : Z)
  | OpWrite (addr size data : Z).

Definition plic_step (p : plic_t) (op : plic_op) : plic_t :=
  match op with
  | OpIrq irq => plic_irq_update p irq
  | OpRead addr size => (plic_read p addr size).2
  | OpWrite addr size data => (plic_write p addr size data).2
  end.

(** A completion write names source [id]. *)
Definition completes (p : plic_t) (id : Z) (op : plic_op) : bool :=
  match op with
  | OpWrite addr size data =>
      match ri_kind (addr_decode p addr size) with R_CLAIM => w32 data =? id | _ => false end
  | _ => false
  end.

Lemma plic_step_wf p op : plic_wf p -> plic_wf (plic_step p op).
Proof.
  intros Hp. destruct op; simpl.
  - by apply plic_irq_update_spec.
  - by apply plic_read_wf.
  - by apply plic_write_wf.
Qed.

Lemma plic_base_gateway p i b : plic_base (plic_gateway_irq p i b) = plic_base p.
Proof. unfold plic_gateway_irq. by destruct (b && negb _). Qed.

Lemma plic_base_claim p id : plic_base (plic_claim p id) = plic_base p.
Proof. unfold plic_claim. by destruct (_ <? _). Qed.
Lemma plic_base_complete p id c : plic_base (plic_complete p id c) = plic_base p.
Proof. unfold plic_complete. by destruct (_ && _). Qed.
Lemma plic_base_restore p : plic_base (restore_source0 p) = plic_base p.
Proof. by rewrite restore_source0_eq. Qed.

Lemma plic_base_step p op : plic_base (plic_step p op) = plic_base p.
Proof.
  destruct op as [irq|addr size|addr size data]; unfold plic_step.
  - apply (foldl_inv (fun q => plic_base q = plic_base p)); [done|].
    intros q i _ <-. apply plic_base_gateway.
  - unfold plic_read. destruct (ri_kind _); try reflexivity. apply plic_base_claim.
  - unfold plic_write. destruct (ri_kind _); try reflexivity; cbn [snd]; rewrite plic_base_restore;
      try reflexivity. apply plic_base_complete.
Qed.

(** In service and no longer pending: kept by every step but a completion. *)
Lemma plic_step_in_service p op id :
  plic_wf p -> 1 <= id < 11 -> busy p id = true -> pend p id = false ->
  completes p id op = false ->
  busy (plic_step p op) id = true /\ pend (plic_step p op) id = false.
Proof.
  intros Hp Hid Hb Hn Hc. destruct op as [irq|addr size|addr size data]; simpl in *.
  - destruct (plic_irq_update_spec p irq Hp) as (_ & Hpe & Hbu & _).
    rewrite Hpe, Hbu, Hb, Hn by done. split; [done|]. simpl. by rewrite andb_false_r.
  - unfold plic_read. destruct (ri_kind _); try done. cbn [snd].
    pose proof (get_claim_id_range p (ri_context (addr_decode p addr size))).
    rewrite s32_small by lia. rewrite pend_claim, Hn by (done || lia).
    split; [|done]. unfold plic_claim. by case_match.
  - unfold plic_write. pose proof (addr_decode_bounds p addr size) as Hbd. revert Hbd Hc. cbv zeta.
    destruct (ri_kind _); intros Hbd Hc; cbn [snd];
      rewrite ?restore_source0_busy, ?restore_source0_pend; try done.
    pose proof (w32_u data). rewrite plic_complete_busy by (eauto || lia). rewrite Hb, Hc. split; [done|].
    unfold plic_complete. by case_match.
Qed.

(** A controller in use: source 10 enabled in both contexts, of priority 3, and
    its line sampled high. *)
Definition plic_example : plic_t :=
  foldl plic_step (plic_init (mk_plic 0 plic_regs_zero []) 0xc000000)
    [ OpWrite 0xc000028 4 3; OpWrite 0xc002000 4 0x400; OpWrite 0xc002080 4 0x400;
      OpIrq (replicate 10 false ++ [true]) ].

Lemma plic_steps_wf p ops : plic_wf p -> plic_wf (foldl plic_step p ops).
Proof. intros Hp. apply (foldl_inv plic_wf); [done|]. intros. by apply plic_step_wf. Qed.

Lemma plic_example_wf : plic_wf plic_example.
Proof. unfold plic_example, plic_init. apply plic_steps_wf, plic_reset_wf. Qed.

(** ** Properties *)

(** The M-mode and S-mode external interrupt lines are raised exactly when
    some source is pending, enabled in that context and of priority above both
    zero and the context's threshold. *)
Theorem plic_lines_spec p :
  plic_wf p ->
  (plic_meip p = true <-> exists i, candidate p 0 i /\ thresh p 0 < prio p i) /\
  (plic_seip p = true <-> exists i, candidate p 1 i /\ thresh p 1 < prio p i).
Proof.
  intros Hp. split; [apply (interrupt_per_context_iff p 0)|apply (interrupt_per_context_iff p 1)]; (exact Hp || lia).
Qed.

Lemma plic_lines_spec_witness :
  plic_seip plic_example = true /\ exists i, candidate plic_example 1 i /\ thresh plic_example 1 < prio plic_example i.
Proof.
  split; [reflexivity|]. apply (plic_lines_spec plic_example plic_example_wf). reflexivity.
Defined.

(** Reading a context's claim register returns the competing source of
    highest priority, the lowest numbered one on a tie, or 0 when there is none,
    and atomically takes just that source out of the pending set. *)
Theorem plic_claim_spec p addr c :
  plic_wf p -> 0 <= c < 2 -> sub64 addr (plic_base p) = 0x200004 + 0x1000 * c ->
  exists id, (plic_read p addr 4).1 = Some id /\ claims p c id /\
    (forall i, 0 <= i < 32 -> pend (plic_read p addr 4).2 i = pend p i && negb (id =? i)) /\
    plic_wf (plic_read p addr 4).2.
Proof.
  intros Hp Hc Ha. exists (get_claim_id p c). pose proof (get_claim_id_range p c).
  pose proof (plic_read_wf p addr 4 Hp) as Hwf. revert Hwf. unfold plic_read.
  rewrite (addr_decode_claim p addr c) by done. simpl. intros Hwf.
  rewrite s32_small in * by lia. split_and!; [|by apply get_claim_id_spec| |done].
  - f_equal. apply Z.mod_small. lia.
  - intros i Hi. by apply pend_claim.
Qed.

Lemma plic_claim_spec_witness :
  (plic_read plic_example 0xc201004 4).1 = Some 10 /\
  exists id, (plic_read plic_example 0xc201004 4).1 = Some id /\ claims plic_example 1 id.
Proof.
  split; [reflexivity|].
  destruct (plic_claim_spec plic_example 0xc201004 1 plic_example_wf ltac:(lia) eq_refl)
    as (id & H1 & H2 & _). exists id. split; [exact H1|exact H2].
Defined.

(** C39: a claimed source stays in service: until some context that enables it
    writes its id to a claim/complete register, no run of register accesses and
    interrupt samplings makes it pending again, so no context claims it twice. *)
Theorem plic_service_exclusive p id ops :
  plic_wf p -> 1 <= id < 11 -> busy p id = true -> pend p id = false ->
  Forall (fun op => completes p id op = false) ops ->
  let p' := foldl plic_step p ops in
  busy p' id = true /\ pend p' id = false /\ forall c, 0 <= c < 2 -> get_claim_id p' c <> id.
Proof.
  intros Hp Hid Hb Hn Hops p'.
  assert (plic_wf p' /\ busy p' id = true /\ pend p' id = false) as (Hp' & Hb' & Hn').
  { subst p'. revert p Hp Hb Hn Hops. induction ops as [|op ops IH]; intros p Hp Hb Hn Hops; simpl; [done|].
    apply Forall_cons in Hops as [Hop Hops].
    destruct (plic_step_in_service p op id) as [Hb' Hn']; try done.
    apply IH; auto using plic_step_wf. eapply Forall_impl; [apply Hops|]. intros o Ho.
    unfold completes, addr_decode in *. by rewrite plic_base_step. }
  split_and!; try done. intros c Hc Heq.
  destruct (get_claim_id_spec p' c Hp' Hc) as [[H0 _]|[(_ & H1 & _) _]]; [lia|congruence].
Qed.

Lemma plic_service_exclusive_witness :
  let p := (plic_read plic_example 0xc201004 4).2 in
  get_claim_id (foldl plic_step p [OpIrq (replicate 10 false ++ [true]); OpWrite 0xc201004 4 9]) 0 <> 10.
Proof.
  apply (plic_service_exclusive (plic_read plic_example 0xc201004 4).2 10
    [OpIrq (replicate 10 false ++ [true]); OpWrite 0xc201004 4 9]);
    [apply plic_read_wf, plic_example_wf|lia|reflexivity|reflexivity| |lia].
  repeat constructor.
Defined.

(** Sampling the interrupt lines latches exactly the asserted sources that
    are not in service; once a context that enables it completes a source, the
    next sampling of a still asserted line makes it pending again. *)
Theorem plic_gateway_latches p irq c id :
  plic_wf p -> 0 <= c < 2 -> 1 <= id < 11 -> en p c id = true ->
  let p' := plic_irq_update p irq in
  let p'' := plic_irq_update (plic_complete p id c) irq in
  plic_wf p' /\
  (forall i, 1 <= i < 11 ->
     pend p' i = pend p i || (aget false irq i && negb (busy p i)) /\
     busy p' i = busy p i || aget false irq i) /\
  pend p'' id = pend p id || aget false irq id.
Proof.
  intros Hp Hc Hid He p' p''. destruct (plic_irq_update_spec p irq Hp) as (Hwf & Hpe & Hbu & _).
  split; [done|]. split; [intros i Hi; by split; [apply Hpe|apply Hbu]|].
  assert (plic_wf (plic_complete p id c)) as Hq.
  { pose proof (plic_complete_shape p id c (pwf_shape _ Hp)) as Hs.
    pose proof (plic_complete_busy p id c 0 (pwf_shape _ Hp) Hc ltac:(lia) ltac:(lia)) as Hb0.
    rewrite (pwf_busy0 _ Hp) in Hb0. constructor; try done;
      unfold plic_complete; (case_match; [|apply Hp]); apply Hp. }
  destruct (plic_irq_update_spec _ irq Hq) as (_ & Hpe' & _). unfold p''. rewrite Hpe' by done.
  rewrite plic_complete_busy by (eauto || lia). rewrite Z.eqb_refl, He, andb_false_r, andb_true_r.
  f_equal. unfold plic_complete. by case_match.
Qed.

Lemma plic_gateway_latches_witness :
  let p := (plic_read plic_example 0xc201004 4).2 in
  pend p 10 = false /\
  pend (plic_irq_update (plic_complete p 10 1) (replicate 10 false ++ [true])) 10 = true.
Proof.
  split; [reflexivity|].
  apply (plic_gateway_latches (plic_read plic_example 0xc201004 4).2 (replicate 10 false ++ [true]) 1 10);
    [apply plic_read_wf, plic_example_wf|lia|lia|reflexivity].
Defined.
