(* ===== verification/UnitTests.v ===== *)
(** * The unit tests of the PLIC

    Models [plic_unit_test.c]: four programs of calls of [plic.c], with assertions.
    They pass on the model as on the program ([unit_tests_pass]). *)
From stdpp Require Import base tactics numbers option list.
From S2P Require Import Prelude CInt Plic.

#[local] Open Scope record_scope.
#[local] Open Scope Z_scope.

(** An assertion that fails ends the program; so does the use of the result of a read
    that failed, which is indeterminate. *)
Inductive failure := AssertionFails | Indeterminate.
Abbreviation test := (exec plic_t failure).

Definition MAX_INT : Z := 4.
Definition MAX_CNT : Z := 2.
Record cfg_t := mk_cfg { cfg_priority : list Z; cfg_enable : list Z; cfg_threshold : list Z }.
#[export] Instance eta_cfg : Eta cfg_t := fun c => mk_cfg (cfg_priority c) (cfg_enable c) (cfg_threshold c).

Definition write_reg (addr data : Z) : test unit := fun p => (inr tt, (plic_write p (w64 addr) 4 (w32 data)).2).
Definition read_reg (addr : Z) : test Z := fun p =>
  let '(r, p) := plic_read p (w64 addr) 4 in
  (match r with Some v => inr (s32 v) | None => inl Indeterminate end, p).

Definition set_priority (id priority : Z) : test unit := write_reg (0x4 * id) priority.
Definition set_enable (enable context : Z) : test unit := write_reg (0x2000 + 0x80 * context) enable.
Definition set_threshold (threshold context : Z) : test unit := write_reg (0x200000 + 0x1000 * context) threshold.
Definition claim (context : Z) : test Z := read_reg (0x200004 + 0x1000 * context).
Definition complete (id context : Z) : test unit := write_reg (0x200004 + 0x1000 * context) id.
Definition read_pending : test Z := read_reg 0x1000.

Fixpoint for_each (l : list Z) (body : Z -> test unit) : test unit :=
  match l with [] => mret tt | i :: l => body i;; for_each l body end.
Definition plic_config (cfg : cfg_t) : test unit :=
  for_each (seqZ 0 MAX_INT) (fun i => set_priority i (aget 0 (cfg_priority cfg) i));;
  for_each (seqZ 0 MAX_CNT) (fun i =>
    set_enable (aget 0 (cfg_enable cfg) i) i;; set_threshold (aget 0 (cfg_threshold cfg) i) i).

Definition assert_eq (m : test Z) (v : Z) : test unit := x ← m; if x =? v then mret tt else raise AssertionFails.
Definition meip : test Z := gets (fun p => Z.b2z (plic_meip p)).
Definition seip : test Z := gets (fun p => Z.b2z (plic_seip p)).
(** The three assertions that most checks are made of. *)
Definition check (pending m s : Z) : test unit :=
  assert_eq read_pending pending;; assert_eq meip m;; assert_eq seip s.
Definition check_lines (m s : Z) : test unit := assert_eq meip m;; assert_eq seip s.

Definition init : test unit := modify (fun p => plic_init p 0).
Definition irq_update (irq : list bool) : test unit := modify (fun p => plic_irq_update p irq).
Definition irqs (l : list Z) : list bool := foldl (fun irq i => aset irq i true) (replicate 11 false) l.

Definition test_basic_flow : test unit :=
  let cfg := mk_cfg [1; 1; 0; 0] [0; 0] [0; 0] in
  let irq := irqs [1] in
  init;;
  check 0 0 0;;
  irq_update irq;;
  check 2 0 0;;
  plic_config cfg;;
  check_lines 0 0;;
  let cfg := cfg <| cfg_enable := [0xE; 0xE] |> in
  plic_config cfg;;
  check_lines 1 1;;
  assert_eq (claim 0) 1;;
  check 0 0 0;;
  complete 1 0;;
  irq_update irq;;
  check 2 1 1.

Definition test_priority : test unit :=
  let cfg := mk_cfg [0; 0; 0; 0] [0xE; 0xE] [0; 0] in
  let irq := irqs [1; 2] in
  init;;
  plic_config cfg;;
  irq_update irq;;
  check 6 0 0;;
  let cfg := cfg <| cfg_priority := [0; 10; 5; 0] |> <| cfg_threshold := [5; 10] |> in
  plic_config cfg;;
  check_lines 1 0.

Definition test_claim : test unit :=
  let cfg := mk_cfg [0; 10; 10; 5] [0xE; 0] [1; 10] in
  let irq := irqs [1; 2; 3] in
  init;;
  plic_config cfg;;
  irq_update irq;;
  check 14 1 0;;
  assert_eq (claim 0) 1;;
  check 12 1 0;;
  complete 1 0;;
  assert_eq (claim 0) 2;;
  check 8 1 0;;
  complete 2 0;;
  assert_eq (claim 1) 0;;
  let cfg := cfg <| cfg_enable := [0xE; 0xE] |> in
  plic_config cfg;;
  assert_eq (claim 1) 3;;
  check 0 0 0;;
  complete 3 1;;
  assert_eq (claim 0) 0;;
  assert_eq (claim 1) 0;;
  irq_update irq;;
  check 14 1 0.

Definition test_misc : test unit :=
  let cfg := mk_cfg [0; 10; 10; 10] [0xE; 0] [1; 1] in
  init;;
  plic_config cfg;;
  irq_update (irqs [0]);;
  check 0 0 0;;
  let irq := irqs [0; 1; 2; 3] in
  irq_update irq;;
  check 0xE 1 0;;
  complete 15 0;;
  check 0xE 1 0;;
  complete 1 1;;
  check 0xE 1 0;;
  assert_eq (claim 0) 1;;
  assert_eq read_pending 0xC;;
  irq_update irq;;
  assert_eq read_pending 0xC;;
  modify plic_reset;;
  plic_config cfg;;
  irq_update irq;;
  check 0xE 1 0.

Definition plic_unit_test : test Z := test_basic_flow;; test_priority;; test_claim;; test_misc;; mret 0.

(** The unit tests pass, whatever the object they use holds before it is initialised. *)
Theorem unit_tests_pass p : exists p', plic_unit_test p = (inr 0, p').
Proof. destruct p as [b r g]. eexists. vm_compute. reflexivity. Qed.
