(* ===== verification/Uart.v ===== *)
(** * UART 16550

    Models [emulator/src/device/uart16550.c] and [uart16550.h].  The host side is
    an input and an output: [poll_result] is what [poll]/[read] on stdin report,
    [uart_out] is the sequence of bytes given to [putchar]. *)
From stdpp Require Import base tactics numbers option list.
From S2P Require Import Prelude CInt.

#[local] Open Scope record_scope.
#[local] Open Scope Z_scope.

(** ** Field macros (C [int] arithmetic on an 8-bit register) *)
Definition BIT_MASK (width : Z) : Z := Z.shiftl 1 width - 1.
Definition FIELD_MASK (bit width : Z) : Z := Z.shiftl (BIT_MASK width) bit.
Definition FIELD_READ (reg bit width : Z) : Z := Z.land (Z.shiftr reg bit) (BIT_MASK width).
Definition FIELD_WRITE (reg data bit width : Z) : Z :=
  w8 (Z.lor (Z.land reg (Z.lnot (FIELD_MASK bit width)))
            (Z.shiftl (Z.land data (BIT_MASK width)) bit)).

Record uart16550_reg_t := mk_uart_reg {
  rbr : Z; thr : Z; ier : Z; iir : Z; fcr : Z; lcr : Z;
  mcr : Z; lsr : Z; msr : Z; scr : Z; dll : Z; dlm : Z;
}.
Record uart16550_fifo_t := mk_uart_fifo {
  fifo_data : list Z;
  rd_ptr : Z;
  wr_ptr : Z;
  fifo_size : Z;
  overrun : bool;
  underrun : bool;
}.
Record uart16550_t := mk_uart {
  uart_base : Z;
  uart_reg : uart16550_reg_t;
  rx_fifo : uart16550_fifo_t;
  uart_out : list Z;
}.
#[export] Instance eta_uart_reg : Eta uart16550_reg_t := fun r =>
  mk_uart_reg (rbr r) (thr r) (ier r) (iir r) (fcr r) (lcr r)
              (mcr r) (lsr r) (msr r) (scr r) (dll r) (dlm r).
#[export] Instance eta_uart_fifo : Eta uart16550_fifo_t := fun f =>
  mk_uart_fifo (fifo_data f) (rd_ptr f) (wr_ptr f) (fifo_size f) (overrun f) (underrun f).
#[export] Instance eta_uart : Eta uart16550_t := fun u =>
  mk_uart (uart_base u) (uart_reg u) (rx_fifo u) (uart_out u).

Definition FIFO_RX_INT_TRIGGER (uart : uart16550_t) : Z := FIELD_READ (fcr (uart_reg uart)) 6 2.
Definition FIFO_ENABLE (uart : uart16550_t) : Z := FIELD_READ (fcr (uart_reg uart)) 0 1.

Definition fifo_interrupt_level : list Z := [1; 4; 8; 14].

Definition clear_reg (uart : uart16550_t) : uart16550_t :=
  uart <| uart_reg := mk_uart_reg 0 0 0 0xC1 0xC1 0x3 0 0x60 0 0 0 0 |>.

Definition rx_fifo_clear (uart : uart16550_t) : uart16550_t :=
  uart <| rx_fifo ::= fun f =>
    f <| fifo_size := 0 |> <| wr_ptr := 0 |> <| rd_ptr := 0 |>
      <| overrun := false |> <| underrun := false |> |>.

Definition rx_fifo_write (uart : uart16550_t) (data : Z) : uart16550_t :=
  let fifo_enabled := negb (FIFO_ENABLE uart =? 0) in
  if negb fifo_enabled && (fifo_size (rx_fifo uart) =? 1) then
    uart <| rx_fifo ::= fun f => f <| overrun := true |> |>
  else if fifo_enabled && (fifo_size (rx_fifo uart) =? 16) then
    uart <| rx_fifo ::= fun f => f <| overrun := true |> |>
  else
    uart <| rx_fifo ::= fun f =>
      f <| fifo_data ::= fun d => aset d (wr_ptr f) data |>
        <| fifo_size ::= fun n => w8 (n + 1) |>
        <| wr_ptr ::= fun w => Z.land (w + 1) 0xF |> |>.

Definition rx_fifo_read (uart : uart16550_t) : Z * uart16550_t :=
  if fifo_size (rx_fifo uart) =? 0 then
    (0, uart <| rx_fifo ::= fun f => f <| underrun := true |> |>)
  else
    let data := aget 0 (fifo_data (rx_fifo uart)) (rd_ptr (rx_fifo uart)) in
    (data, uart <| rx_fifo ::= fun f =>
             f <| fifo_size ::= fun n => w8 (n - 1) |>
               <| rd_ptr ::= fun r => Z.land (r + 1) 0xF |> |>).

Definition upd_reg (f : uart16550_reg_t -> uart16550_reg_t) (uart : uart16550_t) : uart16550_t :=
  uart <| uart_reg ::= f |>.

Definition uart16550_reset (uart : uart16550_t) : uart16550_t :=
  let uart := rx_fifo_clear (clear_reg uart) in
  upd_reg (fun r => r <| iir := FIELD_WRITE (iir r) 1 0 1 |>) uart.

Definition uart16550_init (uart : uart16550_t) (base : Z) : uart16550_t :=
  uart16550_reset (uart <| uart_base := base |>).

Definition uart16550_write (uart : uart16550_t) (addr size data : Z) : Z * uart16550_t :=
  if negb (size =? 1) then (-1, uart)
  else
    let offset := sub64 addr (uart_base uart) in
    let DLAB := FIELD_READ (lcr (uart_reg uart)) 7 1 in
    let value := w8 data in
    if offset =? 0 then
      if DLAB =? 0 then
        (0, upd_reg (fun r => r <| thr := value |>) uart <| uart_out ::= fun o => o ++ [value] |>)
      else (0, upd_reg (fun r => r <| dll := value |>) uart)
    else if offset =? 1 then
      if DLAB =? 0 then (0, upd_reg (fun r => r <| ier := value |>) uart)
      else (0, upd_reg (fun r => r <| dlm := value |>) uart)
    else if offset =? 2 then
      let uart :=
        if negb (Z.lxor (FIELD_READ value 0 1) (FIFO_ENABLE uart) =? 0)
        then rx_fifo_clear uart else uart in
      let uart := if negb (FIELD_READ value 1 1 =? 0) then rx_fifo_clear uart else uart in
      (0, upd_reg (fun r => r <| fcr := value |>) uart)
    else if offset =? 3 then (0, upd_reg (fun r => r <| lcr := value |>) uart)
    else if offset =? 4 then (0, upd_reg (fun r => r <| mcr := value |>) uart)
    else if offset =? 5 then (0, uart)
    else if offset =? 6 then (0, uart)
    else if offset =? 7 then (0, upd_reg (fun r => r <| scr := value |>) uart)
    else (-1, uart).

(** The LSR case: the value read and the register left behind. *)
Definition lsr_update (uart : uart16550_t) : Z :=
  let v := lsr (uart_reg uart) in
  let v := FIELD_WRITE v (if 0 <? fifo_size (rx_fifo uart) then 1 else 0) 0 1 in
  let v := FIELD_WRITE v (Z.b2z (overrun (rx_fifo uart))) 1 1 in
  let v := FIELD_WRITE v 1 5 1 in
  FIELD_WRITE v 1 6 1.
Definition lsr_clear (v : Z) : Z :=
  let v := FIELD_WRITE v 0 1 1 in
  let v := FIELD_WRITE v 0 2 1 in
  let v := FIELD_WRITE v 0 3 1 in
  let v := FIELD_WRITE v 0 4 1 in
  FIELD_WRITE v 0 7 1.

Definition uart16550_read (uart : uart16550_t) (addr size : Z) : option Z * uart16550_t :=
  if negb (size =? 1) then (None, uart)
  else
    let offset := sub64 addr (uart_base uart) in
    let DLAB := FIELD_READ (lcr (uart_reg uart)) 7 1 in
    let reg := uart_reg uart in
    if offset =? 0 then
      if DLAB =? 0 then let '(value, uart) := rx_fifo_read uart in (Some (w8 value), uart)
      else (Some (w8 (dll reg)), uart)
    else if offset =? 1 then
      if DLAB =? 0 then (Some (w8 (ier reg)), uart) else (Some (w8 (dlm reg)), uart)
    else if offset =? 2 then (Some (w8 (iir reg)), uart)
    else if offset =? 3 then (Some (w8 (lcr reg)), uart)
    else if offset =? 4 then (Some (w8 (mcr reg)), uart)
    else if offset =? 5 then
      let value := lsr_update uart in
      (Some (w8 value),
       upd_reg (fun r => r <| lsr := lsr_clear value |>) uart
         <| rx_fifo ::= fun f => f <| overrun := false |> |>)
    else if offset =? 6 then (Some (w8 (msr reg)), uart)
    else if offset =? 7 then (Some (w8 (scr reg)), uart)
    else (None, uart).

(** What the host's [poll] and [read] report. *)
Inductive poll_result :=
  | PollError
  | PollNoData
  | PollReadError
  | PollEof
  | PollByte (b : Z).

Definition uart16550_poll_input (uart : uart16550_t) (host : poll_result) : Z * uart16550_t :=
  if fifo_size (rx_fifo uart) <? 16 then
    match host with
    | PollError => (-1, uart)
    | PollNoData => (0, uart)
    | PollReadError => (-1, uart)
    | PollEof => (0, uart)
    | PollByte buf => (0, rx_fifo_write uart (w8 buf))
    end
  else (0, uart).

Definition uart16550_irq_level (uart : uart16550_t) : bool * uart16550_t :=
  let en bit := negb (FIELD_READ (ier (uart_reg uart)) bit 1 =? 0) in
  let fifo_enabled := FIFO_ENABLE uart in
  let size := fifo_size (rx_fifo uart) in
  let receiver_line_status := en 2 && overrun (rx_fifo uart) in
  let receiver_data_available :=
    en 0 && (if negb (fifo_enabled =? 0)
             then aget 0 fifo_interrupt_level (FIFO_RX_INT_TRIGGER uart) <=? size
             else 0 <? size) in
  let timeout_indication := en 0 && (0 <? size) in
  let transmitter_holding_register_empty := en 1 && true in
  let modem_status := en 3 && false in
  let has_interrupt :=
    receiver_line_status || receiver_data_available || timeout_indication
    || transmitter_holding_register_empty in
  let v := FIELD_WRITE (iir (uart_reg uart)) (if has_interrupt then 0 else 1) 0 1 in
  let v := FIELD_WRITE v fifo_enabled 6 1 in
  let v := FIELD_WRITE v fifo_enabled 7 1 in
  let v :=
    if receiver_line_status then FIELD_WRITE v 3 1 3
    else if receiver_data_available then FIELD_WRITE v 2 1 3
    else if timeout_indication then FIELD_WRITE v 6 1 3
    else if transmitter_holding_register_empty then FIELD_WRITE v 1 1 3
    else if modem_status then FIELD_WRITE v 0 1 3
    else v in
  (has_interrupt, upd_reg (fun r => r <| iir := v |>) uart).

(** ** The receive FIFO as a bounded queue *)
Record uart_wf (u : uart16550_t) : Prop := {
  uwf_len : length (fifo_data (rx_fifo u)) = 16%nat;
  uwf_data : Forall (fun b => is_u 8 b) (fifo_data (rx_fifo u));
  uwf_rd : 0 <= rd_ptr (rx_fifo u) < 16;
  uwf_wr : wr_ptr (rx_fifo u) = (rd_ptr (rx_fifo u) + fifo_size (rx_fifo u)) mod 16;
  uwf_size : 0 <= fifo_size (rx_fifo u) <= 16;
  uwf_nofifo : FIFO_ENABLE u = 0 -> fifo_size (rx_fifo u) <= 1;
}.

Definition fifo_queue (u : uart16550_t) : list Z :=
  (fun i => aget 0 (fifo_data (rx_fifo u)) ((rd_ptr (rx_fifo u) + i) mod 16))
    <$> seqZ 0 (fifo_size (rx_fifo u)).

Record rxq := mk_rxq { q_items : list Z; q_overrun : bool; q_underrun : bool }.

Definition spec_push (capacity : nat) (b : Z) (q : rxq) : rxq :=
  if decide (length (q_items q) = capacity) then mk_rxq (q_items q) true (q_underrun q)
  else mk_rxq (q_items q ++ [b]) (q_overrun q) (q_underrun q).
Definition spec_pop (q : rxq) : Z * rxq :=
  match q_items q with
  | [] => (0, mk_rxq [] (q_overrun q) true)
  | b :: items => (b, mk_rxq items (q_overrun q) (q_underrun q))
  end.

Definition rx_abs (u : uart16550_t) : rxq :=
  mk_rxq (fifo_queue u) (overrun (rx_fifo u)) (underrun (rx_fifo u)).
Definition rx_capacity (u : uart16550_t) : nat := if FIFO_ENABLE u =? 0 then 1 else 16.

Lemma mask15 x : Z.land x 0xF = x mod 16.
Proof. exact (Z.land_ones x 4 ltac:(lia)). Qed.

Lemma fifo_queue_length u : uart_wf u -> length (fifo_queue u) = Z.to_nat (fifo_size (rx_fifo u)).
Proof. intros Hu. unfold fifo_queue. by rewrite length_fmap, length_seqZ. Qed.

Lemma fifo_queue_lookup u i :
  fifo_queue u !! i =
    if decide (Z.of_nat i < fifo_size (rx_fifo u))
    then Some (aget 0 (fifo_data (rx_fifo u)) ((rd_ptr (rx_fifo u) + Z.of_nat i) mod 16)) else None.
Proof.
  unfold fifo_queue. rewrite list_lookup_fmap. case_decide.
  - rewrite lookup_seqZ_lt by lia. simpl. by rewrite Z.add_0_l.
  - by rewrite lookup_seqZ_ge by lia.
Qed.

Lemma field_read_bit v bit : 0 <= bit -> FIELD_READ v bit 1 = Z.b2z (Z.testbit v bit).
Proof.
  intros Hb. unfold FIELD_READ, BIT_MASK. change (Z.shiftl 1 1 - 1) with (Z.ones 1).
  rewrite Z.land_ones, Z.shiftr_div_pow2, Z.testbit_spec' by lia. done.
Qed.

Lemma fifo_enable_cases u : FIFO_ENABLE u = 0 \/ FIFO_ENABLE u = 1.
Proof. unfold FIFO_ENABLE. rewrite field_read_bit by lia. destruct (Z.testbit _ _); auto. Qed.

Lemma rx_fifo_clear_wf u :
  length (fifo_data (rx_fifo u)) = 16%nat -> Forall (fun b => is_u 8 b) (fifo_data (rx_fifo u)) ->
  uart_wf (rx_fifo_clear u).
Proof. intros Hl Hd. by constructor; cbn. Qed.

Lemma uart_wf_ext u u' :
  rx_fifo u' = rx_fifo u -> FIFO_ENABLE u' = FIFO_ENABLE u -> uart_wf u -> uart_wf u'.
Proof. intros H1 H2 []. by constructor; rewrite ?H1, ?H2. Qed.

Lemma rx_fifo_read_wf u : uart_wf u -> uart_wf (rx_fifo_read u).2.
Proof.
  intros []. unfold rx_fifo_read. destruct (Z.eqb_spec (fifo_size (rx_fifo u)) 0) as [H|H].
  - by constructor.
  - unfold w8. constructor; cbn; rewrite ?mask15; auto; change (2 ^ 8) with 256 in *.
    + apply Z.mod_pos_bound. lia.
    + rewrite uwf_wr0. rewrite (Z.mod_small (_ - 1)) by lia. div_lia.
    + rewrite Z.mod_small; lia.
    + intros He. change (FIFO_ENABLE u = 0) in He. rewrite Z.mod_small by lia.
      specialize (uwf_nofifo0 He). lia.
Qed.

Lemma rx_fifo_read_abs u :
  uart_wf u ->
  (rx_fifo_read u).1 = (spec_pop (rx_abs u)).1 /\
  rx_abs (rx_fifo_read u).2 = (spec_pop (rx_abs u)).2.
Proof.
  intros Hu. pose proof (fifo_queue_lookup u 0) as H0. pose proof (uwf_size u Hu) as Hs.
  pose proof (fifo_queue_length u Hu) as Hl. pose proof (uwf_rd u Hu).
  unfold rx_fifo_read, spec_pop. cbn [q_items rx_abs].
  destruct (Z.eqb_spec (fifo_size (rx_fifo u)) 0) as [Hz|Hz].
  - rewrite Hz in Hl. apply nil_length_inv in Hl. rewrite Hl. split; [done|].
    unfold rx_abs. cbn. f_equal. apply Hl.
  - rewrite decide_True in H0 by lia. destruct (fifo_queue u) as [|b q] eqn:Eq; [done|].
    cbn in H0. rewrite Z.add_0_r, Z.mod_small in H0 by done. injection H0 as Hb. split; [by rewrite Hb|].
    unfold rx_abs. cbn. f_equal. apply list_eq. intros i. rewrite fifo_queue_lookup. cbn.
    change (q !! i) with ((b :: q) !! S i). rewrite <- Eq, fifo_queue_lookup, mask15.
    unfold w8. rewrite (Z.mod_small (_ - 1)) by lia. repeat case_decide; try lia; [|done].
    do 2 f_equal. rewrite Zplus_mod_idemp_l. f_equal. lia.
Qed.

Lemma rx_fifo_write_wf u b : uart_wf u -> is_u 8 b -> uart_wf (rx_fifo_write u b).
Proof.
  intros Hu Hb. pose proof Hu as []. unfold rx_fifo_write.
  destruct (fifo_enable_cases u) as [He|He]; rewrite He; simpl.
  all: destruct (Z.eqb_spec (fifo_size (rx_fifo u)) 1) as [H1|H1];
    destruct (Z.eqb_spec (fifo_size (rx_fifo u)) 16) as [H16|H16]; simpl; try by constructor.
  all: unfold w8; constructor; cbn; rewrite ?mask15, ?aset_length; auto using aset_Forall;
    change (FIFO_ENABLE _) with (FIFO_ENABLE u) in *; try (rewrite Z.mod_small; lia).
  all: rewrite ?uwf_wr0, ?(Z.mod_small (_ + 1) (2 ^ 8)) by lia; try done; try div_lia.
Qed.

Lemma rx_fifo_write_abs u b :
  uart_wf u -> is_u 8 b -> rx_abs (rx_fifo_write u b) = spec_push (rx_capacity u) b (rx_abs u).
Proof.
  intros Hu Hb. pose proof (uwf_size u Hu) as Hs. pose proof (fifo_queue_length u Hu) as Hl.
  pose proof (uwf_rd u Hu) as Hr. pose proof (uwf_nofifo u Hu) as Hn. pose proof (uwf_wr u Hu) as Hw.
  assert (forall n, 0 <= n <= 16 -> length (fifo_queue u) = Z.to_nat n <-> fifo_size (rx_fifo u) = n) as Hc
    by (intros n Hn'; rewrite Hl; lia).
  unfold rx_fifo_write, spec_push, rx_capacity. cbn [q_items rx_abs].
  assert (Hpush : fifo_size (rx_fifo u) < 16 ->
    rx_abs (u <| rx_fifo ::= fun f =>
      f <| fifo_data ::= fun d => aset d (wr_ptr f) b |>
        <| fifo_size ::= fun n => w8 (n + 1) |>
        <| wr_ptr ::= fun w => Z.land (w + 1) 0xF |> |>)
    = mk_rxq (fifo_queue u ++ [b]) (overrun (rx_fifo u)) (underrun (rx_fifo u))).
  { intros Hlt. unfold rx_abs. cbn. f_equal. apply list_eq. intros i.
    rewrite fifo_queue_lookup, lookup_app, fifo_queue_lookup. cbn. unfold w8.
    rewrite (Z.mod_small (_ + 1)) by lia. rewrite Hw.
    pose proof (Z.mod_pos_bound (rd_ptr (rx_fifo u) + fifo_size (rx_fifo u)) 16).
    pose proof (Z.mod_pos_bound (rd_ptr (rx_fifo u) + Z.of_nat i) 16).
    pose proof (uwf_len u Hu).
    repeat case_decide; try lia.
    - rewrite aget_aset_ne by div_lia. done.
    - assert (fifo_size (rx_fifo u) = Z.of_nat i) as -> by lia. rewrite aget_aset_eq by lia.
      rewrite Hl. by replace (i - Z.to_nat _)%nat with 0%nat by lia.
    - rewrite Hl. by replace (i - Z.to_nat _)%nat with (S (i - Z.to_nat (fifo_size (rx_fifo u)) - 1)) by lia. }
  destruct (fifo_enable_cases u) as [He|He]; rewrite He in *; simpl.
  - specialize (Hc 1 ltac:(lia)). destruct (Z.eqb_spec (fifo_size (rx_fifo u)) 1); case_decide; try lia; [done|].
    apply Hpush. specialize (Hn eq_refl). lia.
  - specialize (Hc 16 ltac:(lia)). destruct (Z.eqb_spec (fifo_size (rx_fifo u)) 16); case_decide; try lia; [done|].
    apply Hpush. lia.
Qed.

(** ** Register fields *)

Lemma bit_mask_ones w : 0 <= w -> BIT_MASK w = Z.ones w.
Proof. intros Hw. unfold BIT_MASK. rewrite Z.shiftl_1_l, Z.ones_equiv. lia. Qed.

Lemma field_read_testbit v bit w i :
  0 <= bit -> 0 <= w -> 0 <= i ->
  Z.testbit (FIELD_READ v bit w) i = (i <? w) && Z.testbit v (i + bit).
Proof. intros. unfold FIELD_READ. rewrite bit_mask_ones by done. zbits_core. Qed.

Lemma field_write_testbit v d bit w i :
  0 <= bit -> 0 <= w -> 0 <= i ->
  Z.testbit (FIELD_WRITE v d bit w) i =
    (i <? 8) && if (bit <=? i) && (i <? bit + w) then Z.testbit d (i - bit) else Z.testbit v i.
Proof.
  intros. unfold FIELD_WRITE, FIELD_MASK, w8. rewrite bit_mask_ones by done.
  rewrite testbit_mod_pow2 by lia. destruct (i <? 8); [|done].
  rewrite Z.lor_spec, Z.land_spec, Z.lnot_spec, !testbit_shiftl, Z.land_spec by lia.
  destruct (Z.leb_spec bit i); simpl; [|by rewrite andb_true_r, orb_false_r].
  rewrite testbit_ones by lia.
  destruct (Z.ltb_spec (i - bit) w), (Z.ltb_spec i (bit + w)); try lia; bool_tauto.
Qed.

Lemma field_write_u v d bit w : is_u 8 (FIELD_WRITE v d bit w).
Proof. apply w8_u. Qed.

Lemma field_read_write v d bit w :
  0 <= bit -> 0 <= w -> bit + w <= 8 -> FIELD_READ (FIELD_WRITE v d bit w) bit w = d mod 2 ^ w.
Proof.
  intros. apply Z.bits_inj'. intros i Hi.
  rewrite field_read_testbit, field_write_testbit, testbit_mod_pow2 by lia.
  zbits_split; simpl; try done. f_equal. lia.
Qed.

Lemma field_read_write_ne v d bit w bit' w' :
  0 <= bit -> 0 <= w -> 0 <= bit' -> 0 <= w' -> bit' + w' <= 8 ->
  bit' + w' <= bit \/ bit + w <= bit' ->
  FIELD_READ (FIELD_WRITE v d bit w) bit' w' = FIELD_READ v bit' w'.
Proof.
  intros. apply Z.bits_inj'. intros i Hi.
  rewrite !field_read_testbit, field_write_testbit by lia. zbits_split; simpl; reflexivity || lia.
Qed.

(** The interrupt sources in decreasing priority, with their IIR codes. *)
Definition rx_trigger (u : uart16550_t) : Z :=
  if Z.testbit (fcr (uart_reg u)) 0
  then aget 0 [1; 4; 8; 14] (FIELD_READ (fcr (uart_reg u)) 6 2) else 1.
Definition uart_sources (u : uart16550_t) : list (bool * Z) :=
  let ie := Z.testbit (ier (uart_reg u)) in
  let size := Z.of_nat (length (fifo_queue u)) in
  [ (ie 2 && overrun (rx_fifo u), 3);
    (ie 0 && (rx_trigger u <=? size), 2);
    (ie 0 && (0 <? size), 6);
    (ie 1, 1) ].
Definition uart_source (u : uart16550_t) : option Z :=
  snd <$> find fst (uart_sources u).

(** ** Every operation keeps the FIFO well formed *)

Lemma uart16550_reset_wf u :
  length (fifo_data (rx_fifo u)) = 16%nat -> Forall (fun b => is_u 8 b) (fifo_data (rx_fifo u)) ->
  uart_wf (uart16550_reset u).
Proof. intros Hl Hd. by constructor; cbn. Qed.

Lemma uart16550_write_wf u addr size data : uart_wf u -> uart_wf (uart16550_write u addr size data).2.
Proof.
  intros Hu. assert (forall v, uart_wf (upd_reg (fun r => r <| fcr := v |>) (rx_fifo_clear u))) as Hclr.
  { intros v. destruct Hu. by constructor; cbn. }
  unfold uart16550_write. destruct (negb _); [done|]. cbv zeta.
  destruct (_ =? 0); [by destruct (_ =? 0); apply (uart_wf_ext u)|].
  destruct (_ =? 1); [by destruct (_ =? 0); apply (uart_wf_ext u)|].
  destruct (_ =? 2).
  { set (v := w8 data). destruct (Z.eqb_spec (Z.lxor (FIELD_READ v 0 1) (FIFO_ENABLE u)) 0) as [E|E].
    - apply Z.lxor_eq in E. simpl. destruct (negb _); [apply Hclr|by apply (uart_wf_ext u)].
    - simpl. destruct (negb _); apply Hclr. }
  repeat (destruct (_ =? _); [by apply (uart_wf_ext u)|]). done.
Qed.

Lemma uart16550_read_wf u addr size : uart_wf u -> uart_wf (uart16550_read u addr size).2.
Proof.
  intros Hu. unfold uart16550_read. destruct (negb _); [done|]. cbv zeta.
  destruct (_ =? 0).
  { destruct (_ =? 0); [|done]. pose proof (rx_fifo_read_wf u Hu). by destruct (rx_fifo_read u). }
  destruct (_ =? 1); [by case_match|]. repeat (destruct (_ =? _); [done|]).
  destruct (_ =? 5); [destruct Hu; by constructor|]. by repeat (destruct (_ =? _); [done|]).
Qed.

Lemma uart16550_poll_wf u host : uart_wf u -> uart_wf (uart16550_poll_input u host).2.
Proof.
  intros Hu. unfold uart16550_poll_input. destruct (_ <? _); [|done].
  destruct host; try done. simpl. apply rx_fifo_write_wf; [done|apply w8_u].
Qed.

Lemma uart16550_irq_wf u : uart_wf u -> uart_wf (uart16550_irq_level u).2.
Proof. intros Hu. by apply (uart_wf_ext u). Qed.

(** ** Receiving and reading *)
Inductive rx_event :=
  | EvPoll (host : poll_result)
  | EvRead.

(** The state, the bytes the host handed over, the bytes the guest took. *)
Definition rx_step (st : uart16550_t * list Z * list Z) (e : rx_event) :=
  let '(u, inp, outp) := st in
  match e with
  | EvPoll host =>
      ((uart16550_poll_input u host).2,
       match host with
       | PollByte b => if fifo_size (rx_fifo u) <? 16 then inp ++ [w8 b] else inp
       | _ => inp
       end, outp)
  | EvRead =>
      let '(v, u') := uart16550_read u (uart_base u) 1 in
      (u', inp, if fifo_size (rx_fifo u) =? 0 then outp else outp ++ option_list v)
  end.

(** A UART after reset, with the receive interrupt enabled. *)
Definition uart_example : uart16550_t :=
  let u := mk_uart 0 (mk_uart_reg 0 0 0 0 0 0 0 0 0 0 0 0) (mk_uart_fifo (replicate 16 0) 0 0 0 false false) [] in
  (uart16550_write (uart16550_init u 0x10000000) 0x10000001 1 1).2.

Lemma uart_example_wf : uart_wf uart_example.
Proof. apply uart16550_write_wf, uart16550_reset_wf; repeat constructor; done. Qed.

(** ** Properties *)

(** The circular receive buffer implements a queue bounded by 16 characters,
    or by one when the FIFO is disabled: pushing on a full queue only records an
    overrun, popping an empty one only records an underrun. *)
Theorem uart_fifo_refines u b :
  uart_wf u -> is_u 8 b ->
  rx_abs (rx_fifo_write u b) = spec_push (rx_capacity u) b (rx_abs u) /\
  (rx_fifo_read u).1 = (spec_pop (rx_abs u)).1 /\
  rx_abs (rx_fifo_read u).2 = (spec_pop (rx_abs u)).2 /\
  uart_wf (rx_fifo_write u b) /\ uart_wf (rx_fifo_read u).2.
Proof.
  intros Hu Hb. destruct (rx_fifo_read_abs u Hu).
  split_and!; auto using rx_fifo_write_abs, rx_fifo_write_wf, rx_fifo_read_wf.
Qed.

Lemma uart_fifo_refines_witness :
  fifo_queue (rx_fifo_write (rx_fifo_write uart_example 65) 66) = [65; 66] /\
  rx_abs (rx_fifo_write uart_example 65) = mk_rxq [65] false false.
Proof.
  split; [reflexivity|].
  exact (proj1 (uart_fifo_refines uart_example 65 uart_example_wf ltac:(lia))).
Defined.

Lemma poll_lossless u host :
  uart_wf u -> FIFO_ENABLE u = 1 ->
  let u' := (uart16550_poll_input u host).2 in
  uart_wf u' /\ uart_reg u' = uart_reg u /\ overrun (rx_fifo u') = overrun (rx_fifo u) /\
  fifo_queue u' =
    match host with
    | PollByte b => if fifo_size (rx_fifo u) <? 16 then fifo_queue u ++ [w8 b] else fifo_queue u
    | _ => fifo_queue u
    end.
Proof.
  intros Hu He. unfold uart16550_poll_input.
  destruct (Z.ltb_spec (fifo_size (rx_fifo u)) 16); [|by destruct host].
  destruct host as [| | | |b]; simpl; try done.
  pose proof (w8_u b) as Hb. split; [by apply rx_fifo_write_wf|].
  pose proof (rx_fifo_write_abs u (w8 b) Hu Hb) as Ha. unfold spec_push, rx_capacity in Ha.
  rewrite He in Ha. simpl in Ha. rewrite decide_False in Ha.
  2:{ rewrite fifo_queue_length by done. pose proof (uwf_size u Hu). lia. }
  injection Ha as H1 H2 _. split; [|done]. unfold rx_fifo_write. repeat (case_match; simpl; try done).
Qed.

Lemma read_rbr_lossless u :
  uart_wf u -> FIELD_READ (lcr (uart_reg u)) 7 1 = 0 ->
  let r := uart16550_read u (uart_base u) 1 in
  uart_wf r.2 /\ uart_reg r.2 = uart_reg u /\ overrun (rx_fifo r.2) = overrun (rx_fifo u) /\
  fifo_queue u = (if fifo_size (rx_fifo u) =? 0 then [] else option_list r.1) ++ fifo_queue r.2.
Proof.
  intros Hu Hd r.
  assert (r = (Some (w8 (rx_fifo_read u).1), (rx_fifo_read u).2)) as ->.
  { unfold r, uart16550_read. unfold sub64. rewrite Z.sub_diag, Hd. simpl.
    by destruct (rx_fifo_read u). }
  cbn [fst snd]. split; [by apply rx_fifo_read_wf|].
  destruct (rx_fifo_read_abs u Hu) as [H1 H2]. unfold spec_pop in *. cbn [q_items rx_abs] in *.
  pose proof (fifo_queue_length u Hu) as Hl. pose proof (uwf_size u Hu).
  split; [unfold rx_fifo_read; by destruct (_ =? _)|].
  destruct (Z.eqb_spec (fifo_size (rx_fifo u)) 0) as [Hz|Hz].
  - rewrite Hz in Hl. apply nil_length_inv in Hl. rewrite Hl in *. by injection H2 as -> -> _.
  - assert (is_u 8 (rx_fifo_read u).1) as Hb.
    { unfold rx_fifo_read. rewrite (proj2 (Z.eqb_neq _ 0)) by done.
      apply (aget_Forall (fun x => is_u 8 x)); [lia|apply Hu]. }
    destruct (fifo_queue u) as [|b q] eqn:Eq; [simpl in Hl; lia|]. injection H2 as -> -> _.
    rewrite H1 in *. simpl in *. split; [done|]. unfold w8. by rewrite Z.mod_small.
Qed.

(** C40: in FIFO mode no received character is lost, duplicated or reordered: over
    any run of host polls and guest reads of the receive register, what was
    queued and accepted is what was read followed by what is still queued, and
    no overrun is ever recorded. *)
Theorem uart_rx_lossless u evs :
  uart_wf u -> FIFO_ENABLE u = 1 -> FIELD_READ (lcr (uart_reg u)) 7 1 = 0 ->
  let '(u', inp, outp) := foldl rx_step (u, [], []) evs in
  fifo_queue u ++ inp = outp ++ fifo_queue u' /\
  overrun (rx_fifo u') = overrun (rx_fifo u) /\ uart_wf u'.
Proof.
  intros Hu He Hd.
  set (Inv := fun st : uart16550_t * list Z * list Z => let '(u', inp, outp) := st in
    fifo_queue u ++ inp = outp ++ fifo_queue u' /\ overrun (rx_fifo u') = overrun (rx_fifo u) /\
    uart_wf u' /\ uart_reg u' = uart_reg u).
  assert (Inv (foldl rx_step (u, [], []) evs)) as H.
  { apply (foldl_inv Inv); [simpl; by rewrite app_nil_r|].
    intros [[v inp] outp] e _ (Hq & Ho & Hv & Hr). unfold Inv, rx_step.
    assert (FIFO_ENABLE v = 1) as Hev by (unfold FIFO_ENABLE; by rewrite Hr).
    destruct e as [host|].
    - destruct (poll_lossless v host Hv Hev) as (H1 & H2 & H3 & ->).
      rewrite H2, H3. split_and!; try done.
      destruct host; try done. case_match; [|done]. by rewrite !app_assoc, Hq.
    - destruct (read_rbr_lossless v Hv) as (H1 & H2 & H3 & H4); [by rewrite Hr|].
      destruct (uart16550_read v (uart_base v) 1) as [x w]. cbn [fst snd] in *.
      rewrite H2, H3. split_and!; try done. rewrite Hq, H4. case_match; [done|]. by rewrite app_assoc. }
  destruct (foldl _ _ _) as [[u' inp] outp]. by destruct H as (? & ? & ? & _).
Qed.

Lemma uart_rx_lossless_witness :
  let '(u', inp, outp) := foldl rx_step (uart_example, [], [])
    [EvPoll (PollByte 65); EvPoll PollNoData; EvPoll (PollByte 66); EvRead] in
  fifo_queue uart_example ++ inp = outp ++ fifo_queue u' /\
  overrun (rx_fifo u') = overrun (rx_fifo uart_example) /\ uart_wf u'.
Proof.
  exact (uart_rx_lossless uart_example
    [EvPoll (PollByte 65); EvPoll PollNoData; EvPoll (PollByte 66); EvRead]
    uart_example_wf eq_refl eq_refl).
Defined.

(** The UART raises its interrupt line exactly when an enabled source is
    active; IIR then shows interrupt pending, the identification of the active
    source of highest priority and whether the FIFOs are enabled. *)
Theorem uart_irq_iir u :
  uart_wf u ->
  let '(irq, u') := uart16550_irq_level u in
  let v := iir (uart_reg u') in
  (irq = true <-> is_Some (uart_source u)) /\
  FIELD_READ v 0 1 = Z.b2z (negb irq) /\
  (forall id, uart_source u = Some id -> FIELD_READ v 1 3 = id) /\
  FIELD_READ v 6 1 = FIFO_ENABLE u /\ FIELD_READ v 7 1 = FIFO_ENABLE u /\
  rx_fifo u' = rx_fifo u.
Proof.
  intros Hu. unfold uart16550_irq_level, uart_source, uart_sources, rx_trigger.
  rewrite fifo_queue_length by done. pose proof (uwf_size u Hu). rewrite Z2Nat.id by lia.
  rewrite !field_read_bit by lia. unfold FIFO_ENABLE, FIFO_RX_INT_TRIGGER.
  rewrite !field_read_bit by lia. fold fifo_interrupt_level. set (tr := aget 0 _ _).
  set (n := fifo_size (rx_fifo u)). set (e := ier (uart_reg u)). set (fe := Z.testbit (fcr _) 0).
  assert (forall b : bool, negb (Z.b2z b =? 0) = b) as Hb by (by intros []). rewrite !Hb, (andb_false_r (Z.testbit e 3)).
  assert ((if fe then tr <=? n else 0 <? n) = ((if fe then tr else 1) <=? n)) as ->.
  { destruct fe; [done|]. destruct (Z.ltb_spec 0 n), (Z.leb_spec 1 n); lia. }
  generalize (Z.testbit e 2 && overrun (rx_fifo u)).
  generalize (Z.testbit e 0 && ((if fe then tr else 1) <=? n)).
  generalize (Z.testbit e 0 && (0 <? n)). generalize (Z.testbit e 1). intros b1 b6 b2 b3.
  clearbody fe. clear.
  destruct b3, b2, b6, b1, fe; cbn [negb andb orb find fst snd Z.b2z fmap option_fmap option_map];
    unfold upd_reg; cbn -[Z.testbit Z.b2z FIELD_READ FIELD_WRITE Z.pow];
    (split; [split; [by eauto|by intros [? ?]]|]); rewrite !field_write_testbit by lia;
    (split; [reflexivity|split; [|done]]); intros id Hid; try discriminate Hid;
    injection Hid as <-; by rewrite field_read_write by lia.
Qed.

Lemma uart_irq_iir_witness :
  let u := rx_fifo_write uart_example 65 in
  FIELD_READ (iir (uart_reg (uart16550_irq_level u).2)) 1 3 = 6.
Proof.
  pose proof (uart_irq_iir (rx_fifo_write uart_example 65)
    (rx_fifo_write_wf _ 65 uart_example_wf ltac:(lia))) as H.
  apply H. reflexivity.
Defined.
