(* ===== verification/Bus.v ===== *)
(** * Devices and bus

    Models [emulator/src/device/device.c], [device.h], the address map
    [platform/include/tinylinuxrv/addrmap.h], [emulator/src/bus/bus.c] and
    [bus.h].  [bus->devices] and the device list polled by the execution loop are one
    object in the code; here it is the field [bus_devices].  The host is an argument:
    which allocations succeed, what stdin reports, the clock. *)
From stdpp Require Import base tactics numbers option list gmap.
From S2P Require Import Prelude CInt Memory Syscon Clint Plic Uart.

#[local] Open Scope record_scope.
#[local] Open Scope Z_scope.

(** ** addrmap *)
Definition BootROM_BASE : Z := 0x00001000.
Definition BootROM_SIZE : Z := 0x00001000.
Definition Syscon_BASE : Z := 0x00100000.
Definition Syscon_SIZE : Z := 0x00001000.
Definition CLINT_BASE : Z := 0x02000000.
Definition CLINT_SIZE : Z := 0x00010000.
Definition PLIC_BASE : Z := 0x0c000000.
Definition PLIC_SIZE : Z := 0x04000000.
Definition UART0_BASE : Z := 0x10000000.
Definition UART0_SIZE : Z := 0x00001000.
Definition VirtIO_BASE : Z := 0x10001000.
Definition VirtIO_SIZE : Z := 0x00008000.

(** ** device.h: the object behind [void *device] is held by value *)
Record device_t (D : Type) := mk_device { device : D; dev_base : Z; dev_size : Z }.
Arguments mk_device {D}.
Arguments device {D}.
Arguments dev_base {D}.
Arguments dev_size {D}.

Record dev_list_t := mk_dev_list {
  bootROM : device_t memory_t;
  syscon : device_t syscon_t;
  clint : device_t clint_t;
  plic : device_t plic_t;
  uart0 : device_t uart16550_t;
  virtio : device_t unit;
}.
#[export] Instance eta_device D : Eta (device_t D) := fun d =>
  mk_device (device d) (dev_base d) (dev_size d).
#[export] Instance eta_dev_list : Eta dev_list_t := fun d =>
  mk_dev_list (bootROM d) (syscon d) (clint d) (plic d) (uart0 d) (virtio d).

(** What the host contributes to [device_init]: the outcomes of its allocations
    and the clock.  A fresh allocation has arbitrary contents, here those of the
    objects of the argument [dev]. *)
Record init_host := mk_init_host {
  h_rom : bool; h_rom_data : bool; h_syscon : bool; h_uart : bool; h_clint : bool; h_plic : bool;
  h_rom_garbage : gmap Z Z;
  h_time : Z;
}.

Definition INIT_DEVICE (dev : dev_list_t) : dev_list_t :=
  mk_dev_list
    (mk_device (device (bootROM dev)) BootROM_BASE BootROM_SIZE)
    (mk_device (device (syscon dev)) Syscon_BASE Syscon_SIZE)
    (mk_device (device (clint dev)) CLINT_BASE CLINT_SIZE)
    (mk_device (device (plic dev)) PLIC_BASE PLIC_SIZE)
    (mk_device (device (uart0 dev)) UART0_BASE UART0_SIZE)
    (mk_device tt VirtIO_BASE VirtIO_SIZE).

Definition device_init (dev : dev_list_t) (h : init_host) : Z * dev_list_t :=
  let dev := INIT_DEVICE dev in
  if negb (h_rom h) then (-1, dev)
  else
    let '(r, rom) := bootROM_init (device (bootROM dev)) BootROM_BASE (h_rom_data h) (h_rom_garbage h) in
    let dev := dev <| bootROM ::= fun d => d <| device := rom |> |> in
    if negb (r =? 0) then (-1, dev)
    else if negb (h_syscon h) then (-1, dev)
    else
      let dev := dev <| syscon ::= fun d => d <| device ::= fun o => syscon_init o Syscon_BASE |> |> in
      if negb (h_uart h) then (-1, dev)
      else
        let dev := dev <| uart0 ::= fun d => d <| device ::= fun o => uart16550_init o UART0_BASE |> |> in
        if negb (h_clint h) then (-1, dev)
        else
          let dev := dev <| clint ::= fun d => d <| device ::= fun o => clint_init o CLINT_BASE (h_time h) |> |> in
          if negb (h_plic h) then (-1, dev)
          else (0, dev <| plic ::= fun d => d <| device ::= fun o => plic_init o PLIC_BASE |> |>).

Definition device_reset (dev : dev_list_t) : dev_list_t :=
  dev <| syscon ::= fun d => d <| device ::= syscon_reset |> |>
      <| uart0 ::= fun d => d <| device ::= uart16550_reset |> |>
      <| clint ::= fun d => d <| device ::= clint_reset |> |>
      <| plic ::= fun d => d <| device ::= plic_reset |> |>.

Definition device_update (dev : dev_list_t) (host : poll_result) (time_ns : Z) : Z * dev_list_t :=
  let '(result, u) := uart16550_poll_input (device (uart0 dev)) host in
  let dev := dev <| uart0 ::= fun d => d <| device := u |> |> in
  if negb (result =? 0) then (result, dev)
  else (0, dev <| clint ::= fun d => d <| device ::= fun c => clint_mtime_tick c time_ns |> |>).

(** The four levels stored through the pointer arguments. *)
Record irq_levels := mk_irq { irq_msip : bool; irq_mtip : bool; irq_meip : bool; irq_seip : bool }.

Definition device_irq_level (dev : dev_list_t) : bool * irq_levels * dev_list_t :=
  let '(_, c) := clint_irq_level (device (clint dev)) in
  let dev := dev <| clint ::= fun d => d <| device := c |> |> in
  let '(irq10, u) := uart16550_irq_level (device (uart0 dev)) in
  let dev := dev <| uart0 ::= fun d => d <| device := u |> |> in
  let irq := aset (replicate (Z.to_nat PLIC_MAX_INTERRUPT) false) 10 irq10 in
  let dev := dev <| plic ::= fun d => d <| device ::= fun p => plic_irq_update p irq |> |> in
  let l := mk_irq (MSIP (device (clint dev))) (MTIP (device (clint dev)))
                  (plic_meip (device (plic dev))) (plic_seip (device (plic dev))) in
  (irq_msip l || irq_mtip l || irq_meip l, l, dev).

(** ** bus.c *)
Record bus_t := mk_bus { bus_memory : memory_t; bus_devices : dev_list_t }.
#[export] Instance eta_bus : Eta bus_t := fun b => mk_bus (bus_memory b) (bus_devices b).

Definition in_range {D} (addr size : Z) (d : device_t D) : bool :=
  check_addr_range addr size (dev_base d) (dev_size d).

Definition bus_read (bus : bus_t) (addr size : Z) : option Z * bus_t :=
  let devs := bus_devices bus in
  if in_range addr size (bootROM devs) then (bootROM_read (device (bootROM devs)) addr size, bus)
  else if in_range addr size (syscon devs) then (syscon_read (device (syscon devs)) addr size, bus)
  else if in_range addr size (uart0 devs) then
    let '(v, u) := uart16550_read (device (uart0 devs)) addr size in
    (v, bus <| bus_devices ::= fun l => l <| uart0 ::= fun d => d <| device := u |> |> |>)
  else if in_range addr size (clint devs) then (clint_read (device (clint devs)) addr size, bus)
  else if in_range addr size (plic devs) then
    let '(v, p) := plic_read (device (plic devs)) addr size in
    (v, bus <| bus_devices ::= fun l => l <| plic ::= fun d => d <| device := p |> |> |>)
  else if check_addr_range addr size (mem_base (bus_memory bus)) (mem_size (bus_memory bus)) then
    (ram_read (bus_memory bus) addr size, bus)
  else (None, bus).

Definition bus_write (bus : bus_t) (addr size data : Z) : Z * bus_t :=
  let devs := bus_devices bus in
  if in_range addr size (bootROM devs) then
    let '(r, m) := bootROM_write (device (bootROM devs)) addr size data in
    (r, bus <| bus_devices ::= fun l => l <| bootROM ::= fun d => d <| device := m |> |> |>)
  else if in_range addr size (syscon devs) then
    let '(r, s) := syscon_write (device (syscon devs)) addr size data in
    (r, bus <| bus_devices ::= fun l => l <| syscon ::= fun d => d <| device := s |> |> |>)
  else if in_range addr size (uart0 devs) then
    let '(r, u) := uart16550_write (device (uart0 devs)) addr size data in
    (r, bus <| bus_devices ::= fun l => l <| uart0 ::= fun d => d <| device := u |> |> |>)
  else if in_range addr size (clint devs) then
    let '(r, c) := clint_write (device (clint devs)) addr size data in
    (r, bus <| bus_devices ::= fun l => l <| clint ::= fun d => d <| device := c |> |> |>)
  else if in_range addr size (plic devs) then
    let '(r, p) := plic_write (device (plic devs)) addr size data in
    (r, bus <| bus_devices ::= fun l => l <| plic ::= fun d => d <| device := p |> |> |>)
  else if check_addr_range addr size (mem_base (bus_memory bus)) (mem_size (bus_memory bus)) then
    let '(r, m) := ram_write (bus_memory bus) addr size data in
    (r, bus <| bus_memory := m |>)
  else (-1, bus).

(** ** Well-formed buses: the standard map, every component well formed *)
Definition dev_map (d : dev_list_t) : list (Z * Z) :=
  [ (dev_base (bootROM d), dev_size (bootROM d)); (dev_base (syscon d), dev_size (syscon d));
    (dev_base (uart0 d), dev_size (uart0 d)); (dev_base (clint d), dev_size (clint d));
    (dev_base (plic d), dev_size (plic d)) ].
Definition std_map : list (Z * Z) :=
  [ (BootROM_BASE, BootROM_SIZE); (Syscon_BASE, Syscon_SIZE); (UART0_BASE, UART0_SIZE);
    (CLINT_BASE, CLINT_SIZE); (PLIC_BASE, PLIC_SIZE) ].

Record bus_wf (b : bus_t) : Prop := {
  bwf_ram : memory_wf (bus_memory b);
  bwf_ram_base : mem_base (bus_memory b) = RAM_BASE;
  bwf_rom : memory_wf (device (bootROM (bus_devices b)));
  bwf_syscon : syscon_wf (device (syscon (bus_devices b)));
  bwf_clint : clint_wf (device (clint (bus_devices b)));
  bwf_plic : plic_wf (device (plic (bus_devices b)));
  bwf_uart : uart_wf (device (uart0 (bus_devices b)));
  bwf_map : dev_map (bus_devices b) = std_map;
}.

Ltac destruct_bus b :=
  let m := fresh "ram" in let rom := fresh "rom" in let s := fresh "sys" in
  let c := fresh "cl" in let p := fresh "pl" in let u := fresh "ua" in
  destruct b as [m [[rom ? ?] [s ? ?] [c ? ?] [p ? ?] [u ? ?] [[] ? ?]]].

Lemma syscon_read_u s addr size v : syscon_wf s -> syscon_read s addr size = Some v -> is_u 64 v.
Proof. unfold syscon_wf, syscon_read. intros Hs H. repeat case_match; simplify_eq; lia. Qed.

Lemma clint_read_u c addr size v : clint_wf c -> clint_read c addr size = Some v -> is_u 64 v.
Proof.
  intros (H1 & H2 & H3) H. unfold clint_read in H. change (2 ^ 1) with 2 in H1.
  repeat case_match; simplify_eq; try done; try lia; apply (u_weaken 32); (apply w32_u || lia).
Qed.

Lemma plic_read_u p addr size v : plic_wf p -> (plic_read p addr size).1 = Some v -> is_u 64 v.
Proof.
  intros Hp%pwf_shape H. apply (u_weaken 32); [lia|]. revert H. unfold plic_read.
  pose proof (addr_decode_bounds p addr size) as Hb. revert Hb. cbv zeta.
  destruct (ri_kind _); cbn; intros Hb H; simplify_eq.
  - by apply prio_u32.
  - rewrite Hb. by apply pending_u32.
  - destruct Hb as [Hc _]. by apply enable_u32.
  - by apply thresh_u32.
  - apply w32_u.
Qed.

Lemma uart16550_read_u u addr size v : (uart16550_read u addr size).1 = Some v -> is_u 64 v.
Proof.
  intros H. assert (exists x, v = w8 x) as [x ->]; [|apply (u_weaken 8); [lia|apply w8_u]].
  unfold uart16550_read in H. repeat case_match; simplify_eq; eauto; cbn in H; simplify_eq; eauto.
Qed.

Lemma bus_read_u b addr size v : bus_wf b -> (bus_read b addr size).1 = Some v -> is_u 64 v.
Proof.
  intros Hb H. pose proof Hb as [Hm _ Hr Hs Hc Hp Hu _]. unfold bus_read in H.
  destruct (in_range _ _ _); [by apply (ram_read_u _ addr size v Hr H)|].
  destruct (in_range _ _ _); [by eapply syscon_read_u|].
  destruct (in_range _ _ _).
  { apply (uart16550_read_u (device (uart0 (bus_devices b))) addr size). revert H. by destruct (uart16550_read _ _ _). }
  destruct (in_range _ _ _); [by eapply clint_read_u|].
  destruct (in_range _ _ _).
  { apply (plic_read_u (device (plic (bus_devices b))) addr size); [done|]. revert H. by destruct (plic_read _ _ _). }
  destruct (check_addr_range _ _ _ _); [by apply (ram_read_u _ addr size v Hm H)|done].
Qed.

Lemma bus_read_wf b addr size : bus_wf b -> bus_wf (bus_read b addr size).2.
Proof.
  intros Hb. pose proof Hb as [Hm Hmb Hr Hs Hc Hp Hu Hmap]. unfold bus_read.
  repeat (destruct (in_range _ _ _); [|]); try done.
  - pose proof (uart16550_read_wf _ addr size Hu).
    destruct (uart16550_read _ _ _). destruct_bus b. by constructor.
  - pose proof (plic_read_wf _ addr size Hp).
    destruct (plic_read _ _ _). destruct_bus b. by constructor.
  - by destruct (check_addr_range _ _ _ _).
Qed.

Lemma bus_write_wf b addr size data : bus_wf b -> bus_wf (bus_write b addr size data).2.
Proof.
  intros Hb. pose proof Hb as [Hm Hmb Hr Hs Hc Hp Hu Hmap]. unfold bus_write.
  pose proof (syscon_write_wf _ addr size data Hs). pose proof (uart16550_write_wf _ addr size data Hu).
  pose proof (clint_write_wf _ addr size data Hc). pose proof (plic_write_wf _ addr size data Hp).
  pose proof (ram_write_wf _ addr size data Hm) as Hw.
  assert (mem_base (ram_write (bus_memory b) addr size data).2 = RAM_BASE) as Hwb.
  { unfold ram_write. by destruct (negb _). }
  destruct (in_range _ _ _).
  { unfold bootROM_write. destruct_bus b. by constructor. }
  destruct (in_range _ _ _).
  { destruct (syscon_write _ _ _ _). destruct_bus b. by constructor. }
  destruct (in_range _ _ _).
  { destruct (uart16550_write _ _ _ _). destruct_bus b. by constructor. }
  destruct (in_range _ _ _).
  { destruct (clint_write _ _ _ _). destruct_bus b. by constructor. }
  destruct (in_range _ _ _).
  { destruct (plic_write _ _ _ _). destruct_bus b. by constructor. }
  destruct (check_addr_range _ _ _ _); [|done].
  destruct (ram_write _ _ _ _). by constructor.
Qed.

(** An 8-byte read has no side effect on any device. *)
Lemma bus_read8_pure b addr : (bus_read b addr 8).2 = b.
Proof.
  unfold bus_read. repeat (destruct (in_range _ _ _); [|]); try done; [by destruct_bus b..|].
  by destruct (check_addr_range _ _ _ _).
Qed.

(** ** The device list *)

Lemma device_reset_wf b :
  bus_wf b -> bus_wf (b <| bus_devices ::= device_reset |>).
Proof.
  intros [? ? ? ? ? ? Hu ?]. constructor; try done; cbn.
  - apply plic_reset_wf.
  - apply uart16550_reset_wf; apply Hu.
Qed.

Lemma device_update_wf b host t :
  bus_wf b -> bus_wf (b <| bus_devices := (device_update (bus_devices b) host t).2 |>).
Proof.
  intros [? ? ? ? Hc ? Hu ?]. unfold device_update.
  pose proof (uart16550_poll_wf _ host Hu). destruct (uart16550_poll_input _ _) as [r u].
  destruct (negb _); constructor; try done; cbn. by apply clint_tick_wf.
Qed.

Lemma device_irq_level_wf b :
  bus_wf b -> bus_wf (b <| bus_devices := (device_irq_level (bus_devices b)).2 |>).
Proof.
  intros [? ? ? ? Hc Hp Hu ?]. unfold device_irq_level.
  pose proof (clint_irq_level_wf _ Hc). destruct (clint_irq_level _) as [? c].
  pose proof (uart16550_irq_wf _ Hu). destruct (uart16550_irq_level _) as [i u].
  constructor; try done; cbn. by apply plic_irq_update_spec.
Qed.

(** ** The bus as its clients see it *)

(** What the address translation, the TLB and the core need of a bus. *)
Class BusOps (B : Type) := {
  bread : B -> Z -> Z -> option Z * B;
  bwrite : B -> Z -> Z -> Z -> Z * B;
  bmtime : B -> Z;
}.

(** What they may rely on. *)
Class BusLaws (B : Type) `{!BusOps B} := {
  bus_ok : B -> Prop;
  bread_ok b addr size : bus_ok b -> bus_ok (bread b addr size).2;
  bwrite_ok b addr size data : bus_ok b -> bus_ok (bwrite b addr size data).2;
  bread_u64 b addr size v : bus_ok b -> (bread b addr size).1 = Some v -> is_u 64 v;
  bread8_pure b addr : (bread b addr 8).2 = b;
  bmtime_u64 b : bus_ok b -> is_u 64 (bmtime b);
}.

(** [clint_mtime(bus->devices->clint.device)]. *)
Definition bus_mtime (b : bus_t) : Z := clint_mtime (device (clint (bus_devices b))).

Lemma bus_mtime_u b : bus_wf b -> is_u 64 (bus_mtime b).
Proof. intros Hb. apply (bwf_clint b Hb). Qed.

#[export] Instance bus_ops : BusOps bus_t := {| bread := bus_read; bwrite := bus_write; bmtime := bus_mtime |}.
#[export] Instance bus_laws : BusLaws bus_t := {|
  bus_ok := bus_wf;
  bread_ok := bus_read_wf;
  bwrite_ok := bus_write_wf;
  bread_u64 := bus_read_u;
  bread8_pure := bus_read8_pure;
  bmtime_u64 := bus_mtime_u;
|}.

(** What the bus adds for the memory behind it: RAM as a map of bytes and the
    aligned words that lie in it ([bram]); reads do not change it, nor what an 8-byte read
    returns, a write changes the bytes of its range only, and a word of RAM reads
    as its bytes. *)
Class BusMem (B : Type) `{HB : BusLaws B} := {
  bbyte : B -> Z -> Z;
  bram : B -> Z -> Prop;
  bread_bytes b a n i : bbyte (bread b a n).2 i = bbyte b i;
  bread_stable b a n a' : (bread (bread b a n).2 a' 8).1 = (bread b a' 8).1;
  bwrite_bytes b a n d i :
    bus_ok b -> is_u 64 a -> 0 < n -> i < a \/ a + n <= i -> bbyte (bwrite b a n d).2 i = bbyte b i;
  bram_read b a n a' : bram (bread b a n).2 a' <-> bram b a';
  bram_write b a n d a' : bram (bwrite b a n d).2 a' <-> bram b a';
  bread_ram b b' a :
    bus_ok b -> bus_ok b' -> bram b a -> bram b' a ->
    (forall i, a <= i < a + 8 -> bbyte b' i = bbyte b i) -> (bread b' a 8).1 = (bread b a 8).1;
}.

Definition ram_byte (b : bus_t) (i : Z) : Z := mem_byte (bus_memory b) (i - mem_base (bus_memory b)).

Lemma bus_read_memory b a n : bus_memory (bus_read b a n).2 = bus_memory b.
Proof.
  unfold bus_read. repeat (destruct (in_range _ _ _); [|]); try done.
  - by destruct (uart16550_read _ _ _).
  - by destruct (plic_read _ _ _).
  - by destruct (check_addr_range _ _ _ _).
Qed.

Lemma bus_read_bytes b a n i : ram_byte (bus_read b a n).2 i = ram_byte b i.
Proof. unfold ram_byte. by rewrite bus_read_memory. Qed.

Lemma bus_read_stable b a n a' : (bus_read (bus_read b a n).2 a' 8).1 = (bus_read b a' 8).1.
Proof.
  set (b1 := (bus_read b a n).2).
  assert (bus_memory b1 = bus_memory b) as Hm by apply bus_read_memory.
  assert (bootROM (bus_devices b1) = bootROM (bus_devices b) /\ syscon (bus_devices b1) = syscon (bus_devices b) /\
    clint (bus_devices b1) = clint (bus_devices b) /\
    (dev_base (uart0 (bus_devices b1)), dev_size (uart0 (bus_devices b1)))
      = (dev_base (uart0 (bus_devices b)), dev_size (uart0 (bus_devices b))) /\
    (dev_base (plic (bus_devices b1)), dev_size (plic (bus_devices b1)))
      = (dev_base (plic (bus_devices b)), dev_size (plic (bus_devices b)))) as (H1 & H2 & H3 & H4 & H5).
  { unfold b1, bus_read. repeat (destruct (in_range _ _ _); [|]); try done.
    - by destruct (uart16550_read _ _ _).
    - by destruct (plic_read _ _ _).
    - by destruct (check_addr_range _ _ _ _). }
  clearbody b1. injection H4 as H6 H7. injection H5 as H8 H9.
  unfold bus_read, in_range. rewrite H1, H2, H3, H6, H7, H8, H9, Hm.
  repeat (destruct (check_addr_range _ _ _ _); [done|]). done.
Qed.

Lemma bus_write_bytes b a n d i :
  bus_wf b -> is_u 64 a -> 0 < n -> i < a \/ a + n <= i -> ram_byte (bus_write b a n d).2 i = ram_byte b i.
Proof.
  intros Hb Ha Hn Hi. unfold bus_write.
  destruct (in_range _ _ _); [by destruct (bootROM_write _ _ _ _)|].
  destruct (in_range _ _ _); [by destruct (syscon_write _ _ _ _)|].
  destruct (in_range _ _ _); [by destruct (uart16550_write _ _ _ _)|].
  destruct (in_range _ _ _); [by destruct (clint_write _ _ _ _)|].
  destruct (in_range _ _ _); [by destruct (plic_write _ _ _ _)|].
  destruct (check_addr_range _ _ _ _) eqn:E; [|done].
  unfold ram_write. destruct (negb _); [done|].
  unfold ram_byte. cbn [snd bus_memory update]. rewrite mem_byte_store, le_bytes_length.
  assert (mem_base (bus_memory b) <= a) as Hle.
  { unfold check_addr_range in E. rewrite (bwf_ram_base b Hb) in *. revert E. zbits_split; done || lia. }
  rewrite (bwf_ram_base b Hb) in *. change (mem_base (mem_store ?m ?o ?l)) with (mem_base m).
  rewrite (bwf_ram_base b Hb). unfold sub64. rewrite w64_small by (unfold RAM_BASE, DRAM_BASE in *; lia).
  destruct (Z.leb_spec (a - RAM_BASE) (i - RAM_BASE)), (Z.ltb_spec (i - RAM_BASE) (a - RAM_BASE + Z.of_nat (Z.to_nat n)));
    done || lia.
Qed.

(** ** Address dispatch *)
Inductive region := RBootROM | RSyscon | RUart | RClint | RPlic | RRam.
#[export] Instance region_eq_dec : EqDecision region.
Proof. solve_decision. Defined.

Definition region_bounds (b : bus_t) (r : region) : Z * Z :=
  match r with
  | RBootROM => (BootROM_BASE, BootROM_SIZE)
  | RSyscon => (Syscon_BASE, Syscon_SIZE)
  | RUart => (UART0_BASE, UART0_SIZE)
  | RClint => (CLINT_BASE, CLINT_SIZE)
  | RPlic => (PLIC_BASE, PLIC_SIZE)
  | RRam => (RAM_BASE, mem_size (bus_memory b))
  end.
Definition contains (b : bus_t) (r : region) (addr size : Z) : Prop :=
  (region_bounds b r).1 <= addr /\ addr + size <= (region_bounds b r).1 + (region_bounds b r).2.

(** The result of the device alone, and the only component it may change. *)
Definition region_read (b : bus_t) (r : region) (addr size : Z) : option Z :=
  let d := bus_devices b in
  match r with
  | RBootROM => bootROM_read (device (bootROM d)) addr size
  | RSyscon => syscon_read (device (syscon d)) addr size
  | RUart => (uart16550_read (device (uart0 d)) addr size).1
  | RClint => clint_read (device (clint d)) addr size
  | RPlic => (plic_read (device (plic d)) addr size).1
  | RRam => ram_read (bus_memory b) addr size
  end.
Definition region_write (b : bus_t) (r : region) (addr size data : Z) : Z :=
  let d := bus_devices b in
  match r with
  | RBootROM => (bootROM_write (device (bootROM d)) addr size data).1
  | RSyscon => (syscon_write (device (syscon d)) addr size data).1
  | RUart => (uart16550_write (device (uart0 d)) addr size data).1
  | RClint => (clint_write (device (clint d)) addr size data).1
  | RPlic => (plic_write (device (plic d)) addr size data).1
  | RRam => (ram_write (bus_memory b) addr size data).1
  end.
Definition same_but (r : region) (b b' : bus_t) : Prop :=
  (r <> RRam -> bus_memory b' = bus_memory b) /\
  (r <> RBootROM -> bootROM (bus_devices b') = bootROM (bus_devices b)) /\
  (r <> RSyscon -> syscon (bus_devices b') = syscon (bus_devices b)) /\
  (r <> RUart -> uart0 (bus_devices b') = uart0 (bus_devices b)) /\
  (r <> RClint -> clint (bus_devices b') = clint (bus_devices b)) /\
  (r <> RPlic -> plic (bus_devices b') = plic (bus_devices b)).

Lemma in_range_iff b r addr size {D} (d : device_t D) :
  is_u 64 addr -> is_u 64 size -> r <> RRam ->
  dev_base d = (region_bounds b r).1 -> dev_size d = (region_bounds b r).2 ->
  in_range addr size d = true <-> contains b r addr size.
Proof.
  intros Ha Hs Hr Hb Hz. unfold in_range, contains. rewrite Hb, Hz.
  apply check_addr_range_iff; try done; destruct r; done || (cbn; lia).
Qed.

(** The address regions of the map are disjoint. *)
Lemma regions_disjoint b r1 r2 addr size :
  0 < size -> contains b r1 addr size -> contains b r2 addr size -> r1 = r2.
Proof.
  unfold contains. intros Hs H1 H2.
  destruct r1, r2; try done; cbn in H1, H2; unfold RAM_BASE, DRAM_BASE in *;
    unfold BootROM_BASE, BootROM_SIZE, Syscon_BASE, Syscon_SIZE, UART0_BASE, UART0_SIZE,
      CLINT_BASE, CLINT_SIZE, PLIC_BASE, PLIC_SIZE in *; lia.
Qed.

(** The outcome of the range checks of [bus_read] and [bus_write]. *)
Definition route (b : bus_t) (addr size : Z) : option region :=
  let d := bus_devices b in
  if in_range addr size (bootROM d) then Some RBootROM
  else if in_range addr size (syscon d) then Some RSyscon
  else if in_range addr size (uart0 d) then Some RUart
  else if in_range addr size (clint d) then Some RClint
  else if in_range addr size (plic d) then Some RPlic
  else if check_addr_range addr size (mem_base (bus_memory b)) (mem_size (bus_memory b)) then Some RRam
  else None.

Lemma route_spec b addr size :
  bus_wf b -> is_u 64 addr -> 0 < size < 2 ^ 64 ->
  forall r, route b addr size = Some r <-> contains b r addr size.
Proof.
  intros [Hm Hmb _ _ _ _ _ Hmap] Ha Hs. injection Hmap as H1 H2 H3 H4 H5 H6 H7 H8 H9 H10.
  pose proof (in_range_iff b RBootROM addr size (bootROM (bus_devices b)) Ha ltac:(lia) ltac:(done) H1 H2).
  pose proof (in_range_iff b RSyscon addr size (syscon (bus_devices b)) Ha ltac:(lia) ltac:(done) H3 H4).
  pose proof (in_range_iff b RUart addr size (uart0 (bus_devices b)) Ha ltac:(lia) ltac:(done) H5 H6).
  pose proof (in_range_iff b RClint addr size (clint (bus_devices b)) Ha ltac:(lia) ltac:(done) H7 H8).
  pose proof (in_range_iff b RPlic addr size (plic (bus_devices b)) Ha ltac:(lia) ltac:(done) H9 H10).
  assert (check_addr_range addr size (mem_base (bus_memory b)) (mem_size (bus_memory b)) = true
          <-> contains b RRam addr size) as Hram.
  { rewrite Hmb. apply check_addr_range_iff; try done; [lia|apply Hm]. }
  pose proof (regions_disjoint b) as Hd. unfold route. intros r.
  split.
  - intros Hr. repeat case_match; simplify_eq; tauto.
  - intros Hr. repeat case_match; try (f_equal; apply (Hd _ r addr size); [lia|tauto|done]).
    destruct r; naive_solver.
Qed.

(** An access of the core that lies in RAM reaches it. *)
Definition ram_span (b : bus_t) (a n : Z) : Prop :=
  is_u 64 a /\ n ∈ [1; 2; 4; 8] /\ contains b RRam a n /\ a mod n = 0.

Lemma size_cases n : n ∈ [1; 2; 4; 8] -> n = 1 \/ n = 2 \/ n = 4 \/ n = 8.
Proof. intros H. repeat (apply elem_of_cons in H as [->|H]; [tauto|]). by apply elem_of_nil in H. Qed.

Lemma ram_span_access b a n :
  bus_wf b -> ram_span b a n ->
  cpu_access_check (bus_memory b) a n = true /\ route b a n = Some RRam.
Proof.
  intros Hb (Ha & Hn & Hc & Hal). apply size_cases in Hn.
  assert (route b a n = Some RRam) as Hr by (apply (route_spec b a n Hb Ha ltac:(lia) RRam), Hc).
  split; [|done]. unfold cpu_access_check. rewrite land_size_mask, Hal by done.
  assert (check_addr_range a n (mem_base (bus_memory b)) (mem_size (bus_memory b)) = true) as ->.
  { unfold route in Hr. repeat (destruct (in_range _ _ _); [discriminate Hr|]).
    by destruct (check_addr_range _ _ _ _). }
  by destruct Hn as [-> |[-> |[-> | ->]]].
Qed.

Lemma bus_read_ram b a n :
  bus_wf b -> ram_span b a n -> bus_read b a n = (ram_read (bus_memory b) a n, b).
Proof.
  intros Hb Hs. destruct (ram_span_access b a n Hb Hs) as [_ Hr]. unfold route in Hr. unfold bus_read.
  by repeat case_match.
Qed.
Lemma bus_write_ram b a n d :
  bus_wf b -> ram_span b a n ->
  bus_write b a n d = (0, b <| bus_memory := (ram_write (bus_memory b) a n d).2 |>).
Proof.
  intros Hb Hs. destruct (ram_span_access b a n Hb Hs) as [Hc Hr]. unfold route in Hr. unfold bus_write.
  repeat case_match; try discriminate Hr. unfold ram_write in *. rewrite Hc in *. by simplify_eq/=.
Qed.

(** An aligned word of RAM reads as its bytes. *)
Definition ram_word (b : bus_t) (a : Z) : Prop := is_u 64 a /\ contains b RRam a 8 /\ a mod 8 = 0.

Lemma bus_write_size b a n d : mem_size (bus_memory (bus_write b a n d).2) = mem_size (bus_memory b).
Proof.
  unfold bus_write. destruct (in_range _ _ _); [by destruct (bootROM_write _ _ _ _)|].
  destruct (in_range _ _ _); [by destruct (syscon_write _ _ _ _)|].
  destruct (in_range _ _ _); [by destruct (uart16550_write _ _ _ _)|].
  destruct (in_range _ _ _); [by destruct (clint_write _ _ _ _)|].
  destruct (in_range _ _ _); [by destruct (plic_write _ _ _ _)|].
  destruct (check_addr_range _ _ _ _); [|done]. unfold ram_write. by destruct (negb _).
Qed.
Lemma ram_word_read b a n a' : ram_word (bus_read b a n).2 a' <-> ram_word b a'.
Proof. unfold ram_word, contains. cbn [region_bounds]. by rewrite bus_read_memory. Qed.
Lemma ram_word_write b a n d a' : ram_word (bus_write b a n d).2 a' <-> ram_word b a'.
Proof. unfold ram_word, contains. cbn [region_bounds]. by rewrite bus_write_size. Qed.

Lemma bus_read_ram_word b a :
  bus_wf b -> ram_word b a ->
  (bus_read b a 8).1 = Some (le_value (mem_load (bus_memory b) (a - RAM_BASE) 8)).
Proof.
  intros Hb (Ha & Hw & Hal). assert (RAM_BASE <= a) as Hle by apply Hw. pose proof (proj2 (route_spec b a 8 Hb Ha ltac:(lia) RRam) Hw) as Hr.
  unfold route in Hr. unfold bus_read.
  repeat (destruct (in_range _ _ _); [discriminate Hr|]).
  destruct (check_addr_range _ _ _ _) eqn:E; [|discriminate Hr]. cbn [fst].
  unfold ram_read, cpu_access_check. change (sub64 8 1) with (Z.ones 3). rewrite Z.land_ones by lia.
  change (2 ^ 3) with 8. rewrite Hal, E. cbn [Z.eqb Pos.eqb andb negb].
  rewrite (bwf_ram_base b Hb). unfold sub64. rewrite w64_small by (unfold RAM_BASE, DRAM_BASE in *; lia). done.
Qed.

Lemma bus_read_ram_ext b b' a :
  bus_wf b -> bus_wf b' -> ram_word b a -> ram_word b' a ->
  (forall i, a <= i < a + 8 -> ram_byte b' i = ram_byte b i) -> (bus_read b' a 8).1 = (bus_read b a 8).1.
Proof.
  intros Hb Hb' Hw Hw' Hi. rewrite !bus_read_ram_word by done. do 2 f_equal. apply mem_load_ext. intros i Hr.
  specialize (Hi (i + RAM_BASE) ltac:(lia)). unfold ram_byte in Hi.
  rewrite (bwf_ram_base b Hb), (bwf_ram_base b' Hb') in Hi. by replace (i + RAM_BASE - RAM_BASE) with i in Hi by lia.
Qed.

#[export] Instance bus_mem : BusMem bus_t := {|
  bbyte := ram_byte;
  bram := ram_word;
  bread_bytes := bus_read_bytes;
  bread_stable := bus_read_stable;
  bwrite_bytes := bus_write_bytes;
  bram_read := ram_word_read;
  bram_write := ram_word_write;
  bread_ram := bus_read_ram_ext;
|}.

Lemma same_but_refl r b : same_but r b b.
Proof. by repeat split. Qed.
#[export] Hint Resolve same_but_refl : core.

(** The bus of a freshly initialised machine with 4 KiB of RAM. *)
Definition bus_example : bus_t :=
  let rom := mk_memory ∅ 0 0 0 in
  let uart := mk_uart 0 (mk_uart_reg 0 0 0 0 0 0 0 0 0 0 0 0)
                (mk_uart_fifo (replicate 16 0) 0 0 0 false false) [] in
  let dev := mk_dev_list (mk_device rom 0 0) (mk_device (mk_syscon 0 (mk_syscon_reg 0 0) false false) 0 0)
    (mk_device (mk_clint 0 (mk_clint_reg 0 0 0) false false 0) 0 0)
    (mk_device (mk_plic 0 plic_regs_zero []) 0 0) (mk_device uart 0 0) (mk_device tt 0 0) in
  mk_bus (mk_memory ∅ 0 RAM_BASE 0x1000)
    (device_init dev (mk_init_host true true true true true true ∅ 0)).2.

Lemma bus_example_wf : bus_wf bus_example.
Proof.
  constructor; try done.
  - apply plic_reset_wf.
  - apply uart16550_reset_wf; repeat constructor; done.
Qed.


