(* ===== verification/Csr.v ===== *)
(** * Control and status registers, traps, interrupts

    Models [emulator/src/cpu/csr.c], [csr.h] and [riscv.h].  A [priv_mode_t] is
    the number of its encoding (0 user, 1 supervisor, 3 machine) because the code
    casts 2-bit fields to it.  The pointer [csr_reg] into the register file is a
    [csr_name] with [csr_get] and [csr_set]. *)
From stdpp Require Import base tactics numbers option list sets relations.
From S2P Require Import Prelude CInt.

#[local] Open Scope record_scope.
#[local] Open Scope Z_scope.

(** ** riscv.h *)
Definition PRIV_U : Z := 0.
Definition PRIV_S : Z := 1.
Definition PRIV_M : Z := 3.

Definition INST_ADDR_MISALIGNED : Z := 0.
Definition INST_ACCESS_FAULT : Z := 1.
Definition ILLEGAL_INSTRUCTION : Z := 2.
Definition BREAKPOINT : Z := 3.
Definition LOAD_ADDR_MISALIGNED : Z := 4.
Definition LOAD_ACCESS_FAULT : Z := 5.
Definition STORE_AMO_ADDR_MISALIGNED : Z := 6.
Definition STORE_AMO_ACCESS_FAULT : Z := 7.
Definition ECALL_FROM_U_MODE : Z := 8.
Definition ECALL_FROM_S_MODE : Z := 9.
Definition ECALL_FROM_M_MODE : Z := 11.
Definition INST_PAGE_FAULT : Z := 12.
Definition LOAD_PAGE_FAULT : Z := 13.
Definition STORE_AMO_PAGE_FAULT : Z := 15.

Definition INT_SSIP : Z := 1.
Definition INT_MSIP : Z := 3.
Definition INT_STIP : Z := 5.
Definition INT_MTIP : Z := 7.
Definition INT_SEIP : Z := 9.
Definition INT_MEIP : Z := 11.

(** ** csr.h *)
Inductive csr_op_t := CSR_OP_RW | CSR_OP_RS | CSR_OP_RC.

Record csr_reg_t := mk_csr_reg {
  mstatus : Z; misa : Z; medeleg : Z; mideleg : Z; mie : Z; mtvec : Z;
  mcounteren : Z; mscratch : Z; mepc : Z; mcause : Z; mtval : Z; mip : Z;
  mcountinhibit : Z; mcycle : Z; minstret : Z;
  mvendorid : Z; marchid : Z; mimpid : Z; mhartid : Z;
  stvec : Z; scounteren : Z; sscratch : Z; sepc : Z; scause : Z; stval : Z;
  satp : Z;
  csr_mtime : Z;
}.
#[export] Instance eta_csr_reg : Eta csr_reg_t := fun r =>
  mk_csr_reg (mstatus r) (misa r) (medeleg r) (mideleg r) (mie r) (mtvec r)
    (mcounteren r) (mscratch r) (mepc r) (mcause r) (mtval r) (mip r)
    (mcountinhibit r) (mcycle r) (minstret r) (mvendorid r) (marchid r) (mimpid r) (mhartid r)
    (stvec r) (scounteren r) (sscratch r) (sepc r) (scause r) (stval r) (satp r) (csr_mtime r).

Record csr_t := mk_csr {
  csr_reg : csr_reg_t;
  starting_mcountinhibit : Z;
  mcycle_written : bool;
  minstret_written : bool;
  satp_written : bool;
}.
#[export] Instance eta_csr : Eta csr_t := fun c =>
  mk_csr (csr_reg c) (starting_mcountinhibit c) (mcycle_written c) (minstret_written c) (satp_written c).

(** The fields a [uint64_t *csr_reg] can point to. *)
Inductive csr_name :=
  | R_mstatus | R_misa | R_medeleg | R_mideleg | R_mie | R_mtvec
  | R_mcounteren | R_mscratch | R_mepc | R_mcause | R_mtval | R_mip
  | R_mcountinhibit | R_mcycle | R_minstret
  | R_mvendorid | R_marchid | R_mimpid | R_mhartid
  | R_stvec | R_scounteren | R_sscratch | R_sepc | R_scause | R_stval | R_satp | R_mtime.
#[export] Instance csr_name_eq_dec : EqDecision csr_name.
Proof. solve_decision. Defined.

Definition csr_get (n : csr_name) (r : csr_reg_t) : Z :=
  match n with
  | R_mstatus => mstatus r | R_misa => misa r | R_medeleg => medeleg r | R_mideleg => mideleg r
  | R_mie => mie r | R_mtvec => mtvec r | R_mcounteren => mcounteren r | R_mscratch => mscratch r
  | R_mepc => mepc r | R_mcause => mcause r | R_mtval => mtval r | R_mip => mip r
  | R_mcountinhibit => mcountinhibit r | R_mcycle => mcycle r | R_minstret => minstret r
  | R_mvendorid => mvendorid r | R_marchid => marchid r | R_mimpid => mimpid r
  | R_mhartid => mhartid r | R_stvec => stvec r | R_scounteren => scounteren r
  | R_sscratch => sscratch r | R_sepc => sepc r | R_scause => scause r | R_stval => stval r
  | R_satp => satp r | R_mtime => csr_mtime r
  end.

Definition csr_set (n : csr_name) (v : Z) (r : csr_reg_t) : csr_reg_t :=
  match n with
  | R_mstatus => r <| mstatus := v |> | R_misa => r <| misa := v |>
  | R_medeleg => r <| medeleg := v |> | R_mideleg => r <| mideleg := v |>
  | R_mie => r <| mie := v |> | R_mtvec => r <| mtvec := v |>
  | R_mcounteren => r <| mcounteren := v |> | R_mscratch => r <| mscratch := v |>
  | R_mepc => r <| mepc := v |> | R_mcause => r <| mcause := v |>
  | R_mtval => r <| mtval := v |> | R_mip => r <| mip := v |>
  | R_mcountinhibit => r <| mcountinhibit := v |> | R_mcycle => r <| mcycle := v |>
  | R_minstret => r <| minstret := v |> | R_mvendorid => r <| mvendorid := v |>
  | R_marchid => r <| marchid := v |> | R_mimpid => r <| mimpid := v |>
  | R_mhartid => r <| mhartid := v |> | R_stvec => r <| stvec := v |>
  | R_scounteren => r <| scounteren := v |> | R_sscratch => r <| sscratch := v |>
  | R_sepc => r <| sepc := v |> | R_scause => r <| scause := v |>
  | R_stval => r <| stval := v |> | R_satp => r <| satp := v |> | R_mtime => r <| csr_mtime := v |>
  end.

Definition upd_csr_reg (f : csr_reg_t -> csr_reg_t) (c : csr_t) : csr_t := c <| csr_reg ::= f |>.

(** ** CSR addresses *)
Definition CSR_SSTATUS : Z := 0x100.
Definition CSR_SIE : Z := 0x104.
Definition CSR_STVEC : Z := 0x105.
Definition CSR_SCOUNTEREN : Z := 0x106.
Definition CSR_SSCRATCH : Z := 0x140.
Definition CSR_SEPC : Z := 0x141.
Definition CSR_SCAUSE : Z := 0x142.
Definition CSR_STVAL : Z := 0x143.
Definition CSR_SIP : Z := 0x144.
Definition CSR_SATP : Z := 0x180.
Definition CSR_MSTATUS : Z := 0x300.
Definition CSR_MISA : Z := 0x301.
Definition CSR_MEDELEG : Z := 0x302.
Definition CSR_MIDELEG : Z := 0x303.
Definition CSR_MIE : Z := 0x304.
Definition CSR_MTVEC : Z := 0x305.
Definition CSR_MCOUNTEREN : Z := 0x306.
Definition CSR_MSCRATCH : Z := 0x340.
Definition CSR_MEPC : Z := 0x341.
Definition CSR_MCAUSE : Z := 0x342.
Definition CSR_MTVAL : Z := 0x343.
Definition CSR_MIP : Z := 0x344.
Definition CSR_MCOUNTINHIBIT : Z := 0x320.
Definition CSR_MCYCLE : Z := 0xB00.
Definition CSR_MINSTRET : Z := 0xB02.
Definition CSR_MVENDORID : Z := 0xF11.
Definition CSR_MARCHID : Z := 0xF12.
Definition CSR_MIMPID : Z := 0xF13.
Definition CSR_MHARTID : Z := 0xF14.
Definition CSR_CYCLE : Z := 0xC00.
Definition CSR_TIME : Z := 0xC01.
Definition CSR_INSTRET : Z := 0xC02.

(** ** Field positions and masks *)
Definition CSR_BIT (pos : Z) : Z := Z.shiftl 1 pos.
Definition CSR_FIELD_MASK (pos width : Z) : Z := Z.shiftl (Z.shiftl 1 width - 1) pos.

Definition MSTATUS_SIE_POS : Z := 1.
Definition MSTATUS_MIE_POS : Z := 3.
Definition MSTATUS_SPIE_POS : Z := 5.
Definition MSTATUS_MPIE_POS : Z := 7.
Definition MSTATUS_SPP_POS : Z := 8.
Definition MSTATUS_MPP_POS : Z := 11.
Definition MSTATUS_MPRV_POS : Z := 17.
Definition MSTATUS_SUM_POS : Z := 18.
Definition MSTATUS_MXR_POS : Z := 19.
Definition MSTATUS_TVM_POS : Z := 20.
Definition MSTATUS_TW_POS : Z := 21.
Definition MSTATUS_TSR_POS : Z := 22.
Definition MSTATUS_UXL_POS : Z := 32.
Definition MSTATUS_SXL_POS : Z := 34.

(** The union of single-bit masks. *)
Definition bits_mask (l : list Z) : Z := foldr (fun pos m => Z.lor (CSR_BIT pos) m) 0 l.

Definition MSTATUS_WRITE_MASK : Z :=
  Z.lor (bits_mask [MSTATUS_SIE_POS; MSTATUS_MIE_POS; MSTATUS_SPIE_POS; MSTATUS_MPIE_POS; MSTATUS_SPP_POS;
                    MSTATUS_MPRV_POS; MSTATUS_SUM_POS; MSTATUS_MXR_POS; MSTATUS_TVM_POS; MSTATUS_TW_POS;
                    MSTATUS_TSR_POS])
        (CSR_FIELD_MASK MSTATUS_MPP_POS 2).
Definition SSTATUS_WRITE_MASK : Z :=
  bits_mask [MSTATUS_SIE_POS; MSTATUS_SPIE_POS; MSTATUS_SPP_POS; MSTATUS_SUM_POS; MSTATUS_MXR_POS].
Definition SSTATUS_READ_MASK : Z :=
  Z.lor SSTATUS_WRITE_MASK (CSR_FIELD_MASK MSTATUS_UXL_POS 2).
Definition INT_S_MASK : Z := bits_mask [INT_SSIP; INT_STIP; INT_SEIP].
Definition INT_M_MASK : Z := bits_mask [INT_MSIP; INT_MTIP; INT_MEIP].
Definition INT_ALL_MASK : Z := Z.lor INT_S_MASK INT_M_MASK.
Definition MIP_WRITE_MASK : Z := INT_S_MASK.
Definition SIP_WRITE_MASK : Z := CSR_BIT INT_SSIP.
Definition SIP_READ_MASK : Z := INT_S_MASK.
Definition MIE_WRITE_MASK : Z := INT_ALL_MASK.
Definition SIE_WRITE_MASK : Z := INT_S_MASK.
Definition SIE_READ_MASK : Z := INT_S_MASK.
Definition MIDELEG_WRITE_MASK : Z := INT_S_MASK.
Definition MEDELEG_WRITE_MASK : Z := bits_mask [0; 1; 2; 3; 4; 5; 6; 7; 8; 9; 12; 13; 15].
Definition COUNTER_CY_POS : Z := 0.
Definition COUNTER_TM_POS : Z := 1.
Definition COUNTER_IR_POS : Z := 2.
Definition COUNTEREN_WRITE_MASK : Z := bits_mask [COUNTER_CY_POS; COUNTER_TM_POS; COUNTER_IR_POS].
Definition MCOUNTINHIBIT_WRITE_MASK : Z := bits_mask [COUNTER_CY_POS; COUNTER_IR_POS].
Definition SATP_MODE_POS : Z := 60.
Definition SATP_WRITE_MASK : Z := Z.lor (CSR_FIELD_MASK 0 44) (CSR_FIELD_MASK SATP_MODE_POS 4).
Definition TRAP_PC_ALIGN_MASK : Z := not64 3.

(** ** Helper functions *)
Definition set_field (n : csr_name) (pos width value : Z) (r : csr_reg_t) : csr_reg_t :=
  csr_set n (csr_field_set (csr_get n r) pos width value) r.

Definition csr_default (csr : csr_t) : csr_t :=
  upd_csr_reg (fun r =>
    let r := r <| misa := 0 |> in
    let r := set_field R_misa 0 1 1 r in
    let r := set_field R_misa 8 1 1 r in
    let r := set_field R_misa 12 1 1 r in
    let r := set_field R_misa 18 1 1 r in
    let r := set_field R_misa 20 1 1 r in
    let r := set_field R_misa 62 2 2 r in
    let r := set_field R_mstatus MSTATUS_UXL_POS 2 2 r in
    set_field R_mstatus MSTATUS_SXL_POS 2 2 r) csr.

Definition check_interrupt (csr : csr_t) (priv id : Z) : bool :=
  let r := csr_reg csr in
  let intr := negb (csr_field_get (mip r) id 1 =? 0) in
  let enable := negb (csr_field_get (mie r) id 1 =? 0) in
  let delegate := negb (csr_field_get (mideleg r) id 1 =? 0) in
  let mstatus_mie := negb (csr_field_get (mstatus r) MSTATUS_MIE_POS 1 =? 0) in
  let mstatus_sie := negb (csr_field_get (mstatus r) MSTATUS_SIE_POS 1 =? 0) in
  let target_priv := if delegate then PRIV_S else PRIV_M in
  if priv <? target_priv then intr && enable
  else if priv =? target_priv then
    intr && enable && (if target_priv =? PRIV_M then mstatus_mie else mstatus_sie)
  else false.

Definition check_counteren (csr : csr_t) (pos priv : Z) : bool :=
  let enable := negb (csr_field_get (mcounteren (csr_reg csr)) pos 1 =? 0) in
  if ((priv =? PRIV_S) || (priv =? PRIV_U)) && negb enable then false
  else
    let enable := negb (csr_field_get (scounteren (csr_reg csr)) pos 1 =? 0) in
    if (priv =? PRIV_U) && negb enable then false
    else true.

(** [memset] to zero, then the defaults. *)
Definition csr_reg_zero : csr_reg_t :=
  mk_csr_reg 0 0 0 0 0 0 0 0 0 0 0 0 0 0 0 0 0 0 0 0 0 0 0 0 0 0 0.
Definition csr_init : csr_t := csr_default (mk_csr csr_reg_zero 0 false false false).

(** ** csr_access *)

(** The address decoding: the register and whether it is read only. *)
Definition csr_decode (addr : Z) : option (csr_name * bool) :=
  if addr =? CSR_SSTATUS then Some (R_mstatus, false)
  else if addr =? CSR_SIE then Some (R_mie, false)
  else if addr =? CSR_STVEC then Some (R_stvec, false)
  else if addr =? CSR_SCOUNTEREN then Some (R_scounteren, false)
  else if addr =? CSR_SSCRATCH then Some (R_sscratch, false)
  else if addr =? CSR_SEPC then Some (R_sepc, false)
  else if addr =? CSR_SCAUSE then Some (R_scause, false)
  else if addr =? CSR_STVAL then Some (R_stval, false)
  else if addr =? CSR_SIP then Some (R_mip, false)
  else if addr =? CSR_SATP then Some (R_satp, false)
  else if addr =? CSR_MSTATUS then Some (R_mstatus, false)
  else if addr =? CSR_MISA then Some (R_misa, false)
  else if addr =? CSR_MEDELEG then Some (R_medeleg, false)
  else if addr =? CSR_MIDELEG then Some (R_mideleg, false)
  else if addr =? CSR_MIE then Some (R_mie, false)
  else if addr =? CSR_MTVEC then Some (R_mtvec, false)
  else if addr =? CSR_MCOUNTEREN then Some (R_mcounteren, false)
  else if addr =? CSR_MSCRATCH then Some (R_mscratch, false)
  else if addr =? CSR_MEPC then Some (R_mepc, false)
  else if addr =? CSR_MCAUSE then Some (R_mcause, false)
  else if addr =? CSR_MTVAL then Some (R_mtval, false)
  else if addr =? CSR_MIP then Some (R_mip, false)
  else if addr =? CSR_MCOUNTINHIBIT then Some (R_mcountinhibit, false)
  else if addr =? CSR_MCYCLE then Some (R_mcycle, false)
  else if addr =? CSR_MINSTRET then Some (R_minstret, false)
  else if addr =? CSR_MVENDORID then Some (R_mvendorid, true)
  else if addr =? CSR_MARCHID then Some (R_marchid, true)
  else if addr =? CSR_MIMPID then Some (R_mimpid, true)
  else if addr =? CSR_MHARTID then Some (R_mhartid, true)
  else if addr =? CSR_CYCLE then Some (R_mcycle, true)
  else if addr =? CSR_TIME then Some (R_mtime, true)
  else if addr =? CSR_INSTRET then Some (R_minstret, true)
  else None.

(** The read part; [None] is the early return of a disabled counter. *)
Definition csr_read_value (csr : csr_t) (addr : Z) (n : csr_name) (priv : Z) : option Z :=
  let r := csr_reg csr in
  if addr =? CSR_SSTATUS then Some (Z.land (mstatus r) SSTATUS_READ_MASK)
  else if addr =? CSR_SIE then Some (Z.land (Z.land (mie r) SIE_READ_MASK) (mideleg r))
  else if addr =? CSR_SIP then Some (Z.land (Z.land (mip r) SIP_READ_MASK) (mideleg r))
  else if addr =? CSR_CYCLE then
    if check_counteren csr COUNTER_CY_POS priv then Some (csr_get n r) else None
  else if addr =? CSR_TIME then
    if check_counteren csr COUNTER_TM_POS priv then Some (csr_get n r) else None
  else if addr =? CSR_INSTRET then
    if check_counteren csr COUNTER_IR_POS priv then Some (csr_get n r) else None
  else Some (csr_get n r).

(** The writable bits of the switch before the write; [None] where the case
    leaves [write_value = value] and [csr_non_writable = 0]. *)
Definition csr_write_mask (addr mideleg_v : Z) : option Z :=
  if addr =? CSR_MSTATUS then Some MSTATUS_WRITE_MASK
  else if addr =? CSR_MIE then Some MIE_WRITE_MASK
  else if addr =? CSR_MIP then Some MIP_WRITE_MASK
  else if addr =? CSR_MEDELEG then Some MEDELEG_WRITE_MASK
  else if addr =? CSR_MIDELEG then Some MIDELEG_WRITE_MASK
  else if (addr =? CSR_SCOUNTEREN) || (addr =? CSR_MCOUNTEREN) then Some COUNTEREN_WRITE_MASK
  else if addr =? CSR_MCOUNTINHIBIT then Some MCOUNTINHIBIT_WRITE_MASK
  else if addr =? CSR_SSTATUS then Some SSTATUS_WRITE_MASK
  else if addr =? CSR_SIE then Some (Z.land SIE_WRITE_MASK mideleg_v)
  else if addr =? CSR_SIP then Some (Z.land SIP_WRITE_MASK mideleg_v)
  else if addr =? CSR_SATP then Some SATP_WRITE_MASK
  else None.

(** The flag raised by the same switch. *)
Definition csr_write_flag (addr : Z) (csr : csr_t) : csr_t :=
  if addr =? CSR_MCYCLE then csr <| mcycle_written := true |>
  else if addr =? CSR_MINSTRET then csr <| minstret_written := true |>
  else if addr =? CSR_SATP then csr <| satp_written := true |>
  else csr.

Definition csr_op_apply (op : csr_op_t) (reg write_value csr_non_writable : Z) : Z :=
  match op with
  | CSR_OP_RW => Z.lor csr_non_writable write_value
  | CSR_OP_RS => Z.lor reg write_value
  | CSR_OP_RC => Z.lor (Z.land reg (not64 write_value)) csr_non_writable
  end.

(** The WARL fields after the write; [b4] is [csr_b4_write]. *)
Definition csr_warl (addr b4 reg : Z) : Z :=
  if addr =? CSR_MSTATUS then
    if csr_field_get reg MSTATUS_MPP_POS 2 =? 2 then csr_field_set reg MSTATUS_MPP_POS 2 0 else reg
  else if (addr =? CSR_MTVEC) || (addr =? CSR_STVEC) then
    let mode := csr_field_get reg 0 2 in
    if (mode =? 2) || (mode =? 3) then csr_field_set reg 0 2 0 else reg
  else if (addr =? CSR_SEPC) || (addr =? CSR_MEPC) then Z.land reg TRAP_PC_ALIGN_MASK
  else if addr =? CSR_SATP then
    let field := csr_field_get reg SATP_MODE_POS 4 in
    if negb (field =? 0) && negb (field =? 8) then b4 else reg
  else reg.

Definition csr_new_value (addr mideleg_v : Z) (op : csr_op_t) (value reg : Z) : Z :=
  let '(write_value, csr_non_writable) :=
    match csr_write_mask addr mideleg_v with
    | Some m => (Z.land value m, Z.land reg (not64 m))
    | None => (value, 0)
    end in
  csr_warl addr reg (csr_op_apply op reg write_value csr_non_writable).

Definition csr_write (csr : csr_t) (addr : Z) (n : csr_name) (op : csr_op_t) (value : Z) : csr_t :=
  upd_csr_reg (fun r => csr_set n (csr_new_value addr (mideleg r) op value (csr_get n r)) r)
              (csr_write_flag addr csr).

(** [None] is the return value 1, [Some rdata] the return value 0; [rdata] is
    [None] when the caller's variable is not written. *)
Definition csr_access (csr : csr_t) (addr : Z) (op : csr_op_t) (value : Z) (read_csr write_csr : bool)
    (time_value priv : Z) : option (option Z) * csr_t :=
  let csr := upd_csr_reg (fun r => r <| csr_mtime := time_value |>) csr in
  let addr_priv := csr_field_get addr 8 2 in
  if (priv =? PRIV_U) && (PRIV_U <? addr_priv) then (None, csr)
  else if (priv =? PRIV_S) && (PRIV_S <? addr_priv) then (None, csr)
  else
    match csr_decode addr with
    | None => (None, csr)
    | Some (n, read_only) =>
        if (addr =? CSR_SATP) && (priv =? PRIV_S)
           && negb (csr_field_get (mstatus (csr_reg csr)) MSTATUS_TVM_POS 1 =? 0) then (None, csr)
        else if write_csr && read_only then (None, csr)
        else
          match (if read_csr then Some <$> csr_read_value csr addr n priv else Some None) with
          | None => (None, csr)
          | Some rdata =>
              let imp_read_only := addr =? CSR_MISA in
              if write_csr && negb imp_read_only then (Some rdata, csr_write csr addr n op value)
              else (Some rdata, csr)
          end
    end.

(** ** Traps *)
Definition trap_target (csr : csr_t) (cause priv : Z) : Z :=
  let interrupt := csr_field_get cause 63 1 in
  let cause_code := csr_field_get cause 0 63 in
  if priv <? PRIV_M then
    let pos_mask := shl64 1 cause_code in
    if negb (interrupt =? 0) then
      if negb (Z.land (mideleg (csr_reg csr)) pos_mask =? 0) then PRIV_S else PRIV_M
    else
      if negb (Z.land (medeleg (csr_reg csr)) pos_mask =? 0) then PRIV_S else PRIV_M
  else PRIV_M.

Definition TRAP_VECTOR_MODE_MASK : Z := 3.

(** The result is the trap vector, the CSRs and the new privilege mode. *)
Definition trap_enter (csr : csr_t) (cause tval pc priv : Z) : Z * csr_t * Z :=
  let interrupt := csr_field_get cause 63 1 in
  let cause_code := csr_field_get cause 0 63 in
  let target_priv := trap_target csr cause priv in
  let '(csr, tvec, priv) :=
    if target_priv =? PRIV_M then
      let csr := upd_csr_reg (fun r =>
        let mstatus_mie := csr_field_get (mstatus r) MSTATUS_MIE_POS 1 in
        let r := set_field R_mstatus MSTATUS_MPIE_POS 1 mstatus_mie r in
        let r := set_field R_mstatus MSTATUS_MIE_POS 1 0 r in
        let r := set_field R_mstatus MSTATUS_MPP_POS 2 priv r in
        r <| mtval := tval |> <| mcause := cause |> <| mepc := Z.land pc TRAP_PC_ALIGN_MASK |>) csr in
      (csr, mtvec (csr_reg csr), PRIV_M)
    else
      let csr := upd_csr_reg (fun r =>
        let mstatus_sie := csr_field_get (mstatus r) MSTATUS_SIE_POS 1 in
        let r := set_field R_mstatus MSTATUS_SPIE_POS 1 mstatus_sie r in
        let r := set_field R_mstatus MSTATUS_SIE_POS 1 0 r in
        let r := set_field R_mstatus MSTATUS_SPP_POS 1 priv r in
        r <| stval := tval |> <| scause := cause |> <| sepc := Z.land pc TRAP_PC_ALIGN_MASK |>) csr in
      (csr, stvec (csr_reg csr), PRIV_S) in
  let trap_vec_base := Z.land tvec (not64 TRAP_VECTOR_MODE_MASK) in
  let trap_vec_mode := Z.land tvec TRAP_VECTOR_MODE_MASK in
  let trap_vec :=
    if (trap_vec_mode =? 1) && negb (interrupt =? 0)
    then add64 trap_vec_base (mul64 4 cause_code) else trap_vec_base in
  (trap_vec, csr, priv).

Definition trap_exit_mret (csr : csr_t) (priv : Z) : Z * csr_t * Z :=
  let priv := csr_field_get (mstatus (csr_reg csr)) MSTATUS_MPP_POS 2 in
  let csr := upd_csr_reg (fun r =>
    let mstatus_mpie := csr_field_get (mstatus r) MSTATUS_MPIE_POS 1 in
    let r := set_field R_mstatus MSTATUS_MIE_POS 1 mstatus_mpie r in
    let r := set_field R_mstatus MSTATUS_MPIE_POS 1 1 r in
    let r := set_field R_mstatus MSTATUS_MPP_POS 2 PRIV_U r in
    if priv <? PRIV_M then set_field R_mstatus MSTATUS_MPRV_POS 1 0 r else r) csr in
  (Z.land (mepc (csr_reg csr)) TRAP_PC_ALIGN_MASK, csr, priv).

Definition trap_exit_sret (csr : csr_t) (priv : Z) : Z * csr_t * Z :=
  let priv := csr_field_get (mstatus (csr_reg csr)) MSTATUS_SPP_POS 1 in
  let csr := upd_csr_reg (fun r =>
    let spie := csr_field_get (mstatus r) MSTATUS_SPIE_POS 1 in
    let r := set_field R_mstatus MSTATUS_SIE_POS 1 spie r in
    let r := set_field R_mstatus MSTATUS_SPIE_POS 1 1 r in
    let r := set_field R_mstatus MSTATUS_SPP_POS 1 PRIV_U r in
    if priv <? PRIV_M then set_field R_mstatus MSTATUS_MPRV_POS 1 0 r else r) csr in
  (Z.land (sepc (csr_reg csr)) TRAP_PC_ALIGN_MASK, csr, priv).

(** ** Interrupts and the per-step updates *)
Definition interrupt_id : list Z := [INT_MEIP; INT_MSIP; INT_MTIP; INT_SEIP; INT_SSIP; INT_STIP].

Definition interrupt_pending_and_enabled (csr : csr_t) (priv : Z) : option Z :=
  find (check_interrupt csr priv) interrupt_id.

Definition interrupt_pending (csr : csr_t) : bool := negb (mip (csr_reg csr) =? 0).

Definition csr_begin_update (csr : csr_t) (meip msip mtip seip : bool) : csr_t :=
  let csr := csr <| mcycle_written := false |> <| minstret_written := false |> <| satp_written := false |>
                 <| starting_mcountinhibit := mcountinhibit (csr_reg csr) |> in
  upd_csr_reg (fun r =>
    let r := set_field R_mip INT_MEIP 1 (Z.b2z meip) r in
    let r := set_field R_mip INT_MSIP 1 (Z.b2z msip) r in
    let r := set_field R_mip INT_MTIP 1 (Z.b2z mtip) r in
    set_field R_mip INT_SEIP 1 (Z.b2z seip) r) csr.

Definition csr_end_update (csr : csr_t) (retired : bool) : csr_t :=
  let csr :=
    if (csr_field_get (starting_mcountinhibit csr) COUNTER_IR_POS 1 =? 0)
       && negb (minstret_written csr) && retired
    then upd_csr_reg (fun r => r <| minstret ::= fun x => add64 x 1 |>) csr else csr in
  let csr :=
    if (csr_field_get (starting_mcountinhibit csr) COUNTER_CY_POS 1 =? 0) && negb (mcycle_written csr)
    then upd_csr_reg (fun r => r <| mcycle ::= fun x => add64 x 1 |>) csr else csr in
  csr <| minstret_written := false |> <| mcycle_written := false |> <| satp_written := false |>.

Definition check_mret_privilege (priv : Z) : bool := (priv =? PRIV_S) || (priv =? PRIV_U).

Definition check_sret_trap (csr : csr_t) (priv : Z) : bool :=
  ((priv =? PRIV_S) && negb (Z.land (mstatus (csr_reg csr)) (CSR_BIT MSTATUS_TSR_POS) =? 0))
  || (priv =? PRIV_U).

Definition check_wfi_trap (csr : csr_t) (priv : Z) : bool :=
  (negb (csr_field_get (mstatus (csr_reg csr)) MSTATUS_TW_POS 1 =? 0) && (priv =? PRIV_S))
  || (priv =? PRIV_U).

Definition check_sfence_vma (csr : csr_t) (priv : Z) : bool :=
  (priv =? PRIV_U)
  || ((priv =? PRIV_S) && negb (csr_field_get (mstatus (csr_reg csr)) MSTATUS_TVM_POS 1 =? 0)).

Definition effective_priv_mode (csr : csr_t) (priv : Z) : Z :=
  if negb (csr_field_get (mstatus (csr_reg csr)) MSTATUS_MPRV_POS 1 =? 0)
  then csr_field_get (mstatus (csr_reg csr)) MSTATUS_MPP_POS 2 else priv.

(** ** Fields and masks *)

Lemma not64_testbit a i : 0 <= i -> Z.testbit (not64 a) i = (i <? 64) && negb (Z.testbit a i).
Proof. intros. unfold not64, w64. by rewrite testbit_mod_pow2, Z.lnot_spec by lia. Qed.

Lemma csr_field_get_ext a b pos width :
  0 <= pos -> 0 <= width < 64 ->
  (forall i, pos <= i < pos + width -> Z.testbit a i = Z.testbit b i) ->
  csr_field_get a pos width = csr_field_get b pos width.
Proof.
  intros Hp Hw H. apply Z.bits_inj'. intros i Hi. rewrite !csr_field_get_testbit by lia.
  destruct (Z.ltb_spec i width); [|done]. apply H. lia.
Qed.

(** [sub_mask v m]: every bit of [v] is one of [m]. *)
Definition sub_mask (v m : Z) : Prop := Z.ldiff v m = 0.

Lemma sub_mask_testbit v m :
  sub_mask v m <-> forall i, 0 <= i -> Z.testbit v i = true -> Z.testbit m i = true.
Proof.
  unfold sub_mask. split.
  - intros H i Hi Hv. destruct (Z.testbit m i) eqn:E; [done|].
    assert (Z.testbit (Z.ldiff v m) i = true) as Hd by (by rewrite Z.ldiff_spec, Hv, E).
    by rewrite H, Z.bits_0 in Hd.
  - intros H. apply Z.bits_inj'. intros i Hi. rewrite Z.ldiff_spec, Z.bits_0.
    destruct (Z.testbit v i) eqn:E; [|done]. by rewrite (H i Hi E).
Qed.

Lemma sub_mask_set_field v m pos width x :
  is_u 64 v -> 0 <= pos -> 0 <= width < 64 -> pos + width <= 64 ->
  sub_mask v m -> sub_mask (CSR_FIELD_MASK pos width) m -> sub_mask (csr_field_set v pos width x) m.
Proof.
  rewrite !sub_mask_testbit. intros Hu Hp Hw Hpw Hv Hf i Hi. rewrite csr_field_set_testbit by done.
  destruct ((pos <=? i) && (i <? pos + width)) eqn:E; [|by apply Hv].
  intros _. apply Hf; [done|]. unfold CSR_FIELD_MASK.
  replace (Z.shiftl 1 width - 1) with (Z.ones width) by (rewrite Z.ones_equiv, Z.shiftl_1_l; lia).
  apply andb_true_iff in E as [E1%Z.leb_le E2%Z.ltb_lt].
  rewrite testbit_shiftl, testbit_ones by lia.
  by rewrite (proj2 (Z.leb_le _ _)), (proj2 (Z.ltb_lt _ _)) by lia.
Qed.

(** A masked read-modify-write changes the bits of the mask only. *)
Definition op_bit (op : csr_op_t) (old new : bool) : bool :=
  match op with CSR_OP_RW => new | CSR_OP_RS => old || new | CSR_OP_RC => old && negb new end.

Lemma csr_op_apply_testbit op reg value m i :
  is_u 64 reg -> is_u 64 m -> 0 <= i ->
  Z.testbit (csr_op_apply op reg (Z.land value m) (Z.land reg (not64 m))) i =
    if Z.testbit m i then op_bit op (Z.testbit reg i) (Z.testbit value i) else Z.testbit reg i.
Proof.
  intros Hr Hm Hi. destruct (Z.ltb_spec i 64).
  - destruct op; simpl; repeat first [rewrite Z.lor_spec | rewrite Z.land_spec | rewrite not64_testbit by done];
      rewrite ?(proj2 (Z.ltb_lt i 64)) by done; destruct (Z.testbit m i); simpl;
      destruct (Z.testbit reg i), (Z.testbit value i); reflexivity.
  - rewrite (testbit_high 64 m i), (testbit_high 64 reg i) by done.
    destruct op; simpl; repeat first [rewrite Z.lor_spec | rewrite Z.land_spec];
      by rewrite ?(testbit_high 64 m i), ?(testbit_high 64 reg i), ?andb_false_r by done.
Qed.

Lemma csr_op_apply_u op reg v nw :
  is_u 64 reg -> is_u 64 v -> is_u 64 nw -> is_u 64 (csr_op_apply op reg v nw).
Proof. intros. destruct op; simpl; auto with cint. Qed.
#[export] Hint Resolve csr_op_apply_u : cint.

(** ** Legal register contents *)

Definition MISA_VALUE : Z := 0x8000000000141101.
Definition MSTATUS_MASK : Z := Z.lor MSTATUS_WRITE_MASK (CSR_FIELD_MASK MSTATUS_UXL_POS 4).

Definition csr_legal (n : csr_name) (v : Z) : Prop :=
  is_u 64 v /\
  match n with
  | R_mstatus =>
      sub_mask v MSTATUS_MASK /\ csr_field_get v MSTATUS_MPP_POS 2 <> 2 /\
      csr_field_get v MSTATUS_UXL_POS 2 = 2 /\ csr_field_get v MSTATUS_SXL_POS 2 = 2
  | R_misa => v = MISA_VALUE
  | R_medeleg => sub_mask v MEDELEG_WRITE_MASK
  | R_mideleg => sub_mask v MIDELEG_WRITE_MASK
  | R_mie => sub_mask v MIE_WRITE_MASK
  | R_mip => sub_mask v INT_ALL_MASK
  | R_mtvec | R_stvec => csr_field_get v 0 2 <= 1
  | R_mepc | R_sepc => csr_field_get v 0 2 = 0
  | R_mcounteren | R_scounteren => sub_mask v COUNTEREN_WRITE_MASK
  | R_mcountinhibit => sub_mask v MCOUNTINHIBIT_WRITE_MASK
  | R_satp =>
      sub_mask v SATP_WRITE_MASK /\
      (csr_field_get v SATP_MODE_POS 4 = 0 \/ csr_field_get v SATP_MODE_POS 4 = 8)
  | R_mvendorid | R_marchid | R_mimpid | R_mhartid => v = 0
  | _ => True
  end.

Definition csr_reg_wf (r : csr_reg_t) : Prop := forall n, csr_legal n (csr_get n r).
Definition csr_wf (c : csr_t) : Prop := csr_reg_wf (csr_reg c) /\ is_u 64 (starting_mcountinhibit c).

Lemma csr_get_set n m v r : csr_get m (csr_set n v r) = if decide (n = m) then v else csr_get m r.
Proof. destruct n, m; reflexivity. Qed.
Lemma csr_get_set_eq n v r : csr_get n (csr_set n v r) = v.
Proof. by destruct n. Qed.
Lemma csr_get_set_ne n m v r : n <> m -> csr_get m (csr_set n v r) = csr_get m r.
Proof. intros. rewrite csr_get_set. by rewrite decide_False. Qed.

Lemma csr_set_wf n v r : csr_reg_wf r -> csr_legal n v -> csr_reg_wf (csr_set n v r).
Proof. intros Hr Hv m. rewrite csr_get_set. case_decide; subst; [done|apply Hr]. Qed.

Lemma csr_legal_u r n : csr_reg_wf r -> is_u 64 (csr_get n r).
Proof. intros Hr. apply Hr. Qed.

(** The field of a legal [mstatus] can be set when it is not one of the pinned ones. *)
Lemma mstatus_set_field_legal v pos width x :
  csr_legal R_mstatus v -> 0 <= pos -> 0 <= width < 64 -> pos + width <= 32 ->
  sub_mask (CSR_FIELD_MASK pos width) MSTATUS_MASK ->
  (pos + width <= 11 \/ 13 <= pos \/ (pos = 11 /\ width = 2 /\ x mod 4 <> 2)) ->
  csr_legal R_mstatus (csr_field_set v pos width x).
Proof.
  unfold csr_legal. change MSTATUS_MPP_POS with 11. change MSTATUS_UXL_POS with 32. change MSTATUS_SXL_POS with 34.
  intros (Hu & Hm & Hp & Hux & Hsx) ? ? ? Hs Hpos.
  split; [by apply csr_field_set_u|]. split; [apply sub_mask_set_field; done || lia|].
  split; [|split].
  - destruct Hpos as [?|[?|(-> & -> & ?)]]; [rewrite csr_field_get_set_ne by (done || lia); done..|].
    rewrite csr_field_get_set_eq by (done || lia). done.
  - rewrite csr_field_get_set_ne by (done || lia). done.
  - rewrite csr_field_get_set_ne by (done || lia). done.
Qed.

Lemma masked_sub op reg value m M :
  is_u 64 reg -> is_u 64 m -> sub_mask reg M -> sub_mask m M ->
  sub_mask (csr_op_apply op reg (Z.land value m) (Z.land reg (not64 m))) M.
Proof.
  rewrite !sub_mask_testbit. intros Hr Hm HrM HmM i Hi. rewrite csr_op_apply_testbit by done.
  destruct (Z.testbit m i) eqn:E; auto.
Qed.

Lemma masked_field op reg value m pos width :
  is_u 64 reg -> is_u 64 m -> 0 <= pos -> 0 <= width < 64 ->
  Z.land m (CSR_FIELD_MASK pos width) = 0 ->
  csr_field_get (csr_op_apply op reg (Z.land value m) (Z.land reg (not64 m))) pos width
  = csr_field_get reg pos width.
Proof.
  intros Hr Hm Hp Hw Hd. apply csr_field_get_ext; [done..|]. intros i Hi.
  rewrite csr_op_apply_testbit by (done || lia).
  destruct (Z.testbit m i) eqn:E; [|done]. exfalso.
  assert (Z.testbit (Z.land m (CSR_FIELD_MASK pos width)) i = true) as Ht.
  { rewrite Z.land_spec, E. unfold CSR_FIELD_MASK.
    replace (Z.shiftl 1 width - 1) with (Z.ones width) by (rewrite Z.ones_equiv, Z.shiftl_1_l; lia).
    rewrite testbit_shiftl, testbit_ones by lia.
    by rewrite (proj2 (Z.leb_le _ _)), (proj2 (Z.ltb_lt _ _)) by lia. }
  by rewrite Hd, Z.bits_0 in Ht.
Qed.

Lemma sub_mask_land_r a b m : sub_mask a m -> sub_mask (Z.land a b) m.
Proof. rewrite !sub_mask_testbit. intros H i Hi. rewrite Z.land_spec, andb_true_iff. naive_solver. Qed.

(** ** The address table *)
Definition csr_table : list (Z * (csr_name * bool)) :=
  [ (CSR_SSTATUS, (R_mstatus, false)); (CSR_SIE, (R_mie, false)); (CSR_STVEC, (R_stvec, false));
    (CSR_SCOUNTEREN, (R_scounteren, false)); (CSR_SSCRATCH, (R_sscratch, false));
    (CSR_SEPC, (R_sepc, false)); (CSR_SCAUSE, (R_scause, false)); (CSR_STVAL, (R_stval, false));
    (CSR_SIP, (R_mip, false)); (CSR_SATP, (R_satp, false)); (CSR_MSTATUS, (R_mstatus, false));
    (CSR_MISA, (R_misa, false)); (CSR_MEDELEG, (R_medeleg, false)); (CSR_MIDELEG, (R_mideleg, false));
    (CSR_MIE, (R_mie, false)); (CSR_MTVEC, (R_mtvec, false)); (CSR_MCOUNTEREN, (R_mcounteren, false));
    (CSR_MSCRATCH, (R_mscratch, false)); (CSR_MEPC, (R_mepc, false)); (CSR_MCAUSE, (R_mcause, false));
    (CSR_MTVAL, (R_mtval, false)); (CSR_MIP, (R_mip, false));
    (CSR_MCOUNTINHIBIT, (R_mcountinhibit, false)); (CSR_MCYCLE, (R_mcycle, false));
    (CSR_MINSTRET, (R_minstret, false)); (CSR_MVENDORID, (R_mvendorid, true));
    (CSR_MARCHID, (R_marchid, true)); (CSR_MIMPID, (R_mimpid, true)); (CSR_MHARTID, (R_mhartid, true));
    (CSR_CYCLE, (R_mcycle, true)); (CSR_TIME, (R_mtime, true)); (CSR_INSTRET, (R_minstret, true)) ].

Lemma csr_decode_table addr x : csr_decode addr = Some x -> In (addr, x) csr_table.
Proof.
  unfold csr_decode, csr_table.
  repeat lazymatch goal with |- (if addr =? ?c then _ else _) = _ -> _ =>
    destruct (Z.eqb_spec addr c) as [->|_];
    [intros [= <-]; repeat (first [left; reflexivity | right])|] end.
  discriminate.
Qed.

(** One goal per implemented CSR, the address a constant. *)
Ltac csr_cases H :=
  apply csr_decode_table in H; unfold csr_table in H; simpl In in H;
  repeat (destruct H as [H|H]; [injection H; clear H; intros; subst|]); try contradiction.

(** Evaluate the switches on a constant address. *)
Ltac csr_addr_eval :=
  unfold csr_new_value, csr_write_mask, csr_warl; cbv delta [
    CSR_SSTATUS CSR_SIE CSR_STVEC CSR_SCOUNTEREN CSR_SSCRATCH CSR_SEPC CSR_SCAUSE CSR_STVAL CSR_SIP
    CSR_SATP CSR_MSTATUS CSR_MISA CSR_MEDELEG CSR_MIDELEG CSR_MIE CSR_MTVEC CSR_MCOUNTEREN
    CSR_MSCRATCH CSR_MEPC CSR_MCAUSE CSR_MTVAL CSR_MIP CSR_MCOUNTINHIBIT CSR_MCYCLE CSR_MINSTRET
    CSR_MVENDORID CSR_MARCHID CSR_MIMPID CSR_MHARTID CSR_CYCLE CSR_TIME CSR_INSTRET];
  cbn [Z.eqb Pos.eqb orb].

(** Bounds and inclusions of constant masks. *)
Ltac mask_const :=
  lazymatch goal with
  | |- is_u _ (Z.land _ _) => apply land_u_l; [lia|mask_const]
  | |- is_u _ _ => vm_compute; split; congruence
  | |- sub_mask (Z.land _ _) _ => apply sub_mask_land_r; mask_const
  | |- sub_mask _ _ => vm_compute; reflexivity
  end.

Lemma masked_u op reg value m :
  is_u 64 reg -> is_u 64 m -> is_u 64 (csr_op_apply op reg (Z.land value m) (Z.land reg (not64 m))).
Proof. intros. auto 6 with cint. Qed.
#[export] Hint Resolve masked_u : cint.

Lemma tvec_warl_legal v :
  is_u 64 v ->
  let v' := if (csr_field_get v 0 2 =? 2) || (csr_field_get v 0 2 =? 3) then csr_field_set v 0 2 0 else v in
  is_u 64 v' /\ csr_field_get v' 0 2 <= 1.
Proof.
  intros Hv. pose proof (csr_field_get_u v 0 2 ltac:(lia)).
  destruct (Z.eqb_spec (csr_field_get v 0 2) 2), (Z.eqb_spec (csr_field_get v 0 2) 3); simpl;
    try (split; [done|lia]).
  all: split; [by apply csr_field_set_u|]; rewrite csr_field_get_set_eq by (done || lia);
    change (0 mod 2 ^ 2) with 0; lia.
Qed.

Lemma epc_align_legal v : is_u 64 v ->
  is_u 64 (Z.land v TRAP_PC_ALIGN_MASK) /\ csr_field_get (Z.land v TRAP_PC_ALIGN_MASK) 0 2 = 0.
Proof.
  intros Hv. split; [by apply land_u_l|]. apply Z.bits_inj'. intros i Hi.
  rewrite csr_field_get_testbit, Z.bits_0 by lia. destruct (Z.ltb_spec i 2); [|done]. simpl.
  rewrite Z.land_spec. unfold TRAP_PC_ALIGN_MASK. rewrite not64_testbit by lia.
  assert (i = 0 \/ i = 1) as [-> | ->] by lia; apply andb_false_r.
Qed.

Lemma mstatus_mpp_warl_legal v :
  is_u 64 v -> sub_mask v MSTATUS_MASK ->
  csr_field_get v MSTATUS_UXL_POS 2 = 2 -> csr_field_get v MSTATUS_SXL_POS 2 = 2 ->
  csr_legal R_mstatus (if csr_field_get v MSTATUS_MPP_POS 2 =? 2
                       then csr_field_set v MSTATUS_MPP_POS 2 0 else v).
Proof.
  intros Hu Hm Hux Hsx. destruct (Z.eqb_spec (csr_field_get v MSTATUS_MPP_POS 2) 2);
    [|split; [done|]; split_and!; done].
  unfold csr_legal, MSTATUS_MPP_POS, MSTATUS_UXL_POS, MSTATUS_SXL_POS in *.
  split; [by apply csr_field_set_u|]. split; [apply sub_mask_set_field; done || lia|].
  rewrite csr_field_get_set_eq, !csr_field_get_set_ne by (done || lia). done.
Qed.

Lemma masked_sub_legal op reg value m M :
  is_u 64 reg -> sub_mask reg M -> is_u 64 m -> sub_mask m M ->
  is_u 64 (csr_op_apply op reg (Z.land value m) (Z.land reg (not64 m))) /\
  sub_mask (csr_op_apply op reg (Z.land value m) (Z.land reg (not64 m))) M.
Proof. intros. split; [by apply masked_u|by apply masked_sub]. Qed.

Lemma sstatus_write_legal op value reg :
  csr_legal R_mstatus reg ->
  csr_legal R_mstatus
    (csr_op_apply op reg (Z.land value SSTATUS_WRITE_MASK) (Z.land reg (not64 SSTATUS_WRITE_MASK))).
Proof.
  intros (Hu & Hm & Hp & Hux & Hsx). assert (is_u 64 SSTATUS_WRITE_MASK) as HM by mask_const.
  split; [by apply masked_u|]. rewrite !masked_field by (done || vm_compute; intuition congruence).
  split; [|done]. apply masked_sub; [done|done|done|mask_const].
Qed.

Lemma mstatus_write_legal op value reg :
  csr_legal R_mstatus reg ->
  let v := csr_op_apply op reg (Z.land value MSTATUS_WRITE_MASK) (Z.land reg (not64 MSTATUS_WRITE_MASK)) in
  csr_legal R_mstatus (if csr_field_get v MSTATUS_MPP_POS 2 =? 2
                       then csr_field_set v MSTATUS_MPP_POS 2 0 else v).
Proof.
  intros (Hu & Hm & Hp & Hux & Hsx) v. assert (is_u 64 MSTATUS_WRITE_MASK) as HM by mask_const.
  apply mstatus_mpp_warl_legal.
  - by apply masked_u.
  - apply masked_sub; [done|done|done|mask_const].
  - unfold v. by rewrite masked_field by (done || vm_compute; intuition congruence).
  - unfold v. by rewrite masked_field by (done || vm_compute; intuition congruence).
Qed.

Lemma satp_write_legal op value reg :
  csr_legal R_satp reg ->
  let v := csr_op_apply op reg (Z.land value SATP_WRITE_MASK) (Z.land reg (not64 SATP_WRITE_MASK)) in
  csr_legal R_satp (if negb (csr_field_get v SATP_MODE_POS 4 =? 0) && negb (csr_field_get v SATP_MODE_POS 4 =? 8)
                    then reg else v).
Proof.
  intros (Hu & Hm & Hmode) v. assert (is_u 64 SATP_WRITE_MASK) as HM by mask_const.
  assert (is_u 64 v /\ sub_mask v SATP_WRITE_MASK) as [? ?].
  { apply masked_sub_legal; [done|done|done|mask_const]. }
  clearbody v. unfold csr_legal.
  destruct (Z.eqb_spec (csr_field_get v SATP_MODE_POS 4) 0); cbn [negb andb];
    [split; [|split; [|left]]; assumption|].
  destruct (Z.eqb_spec (csr_field_get v SATP_MODE_POS 4) 8); cbn [negb andb];
    [split; [|split; [|right]]; assumption|split; [|split]; assumption].
Qed.

(** Every register holds a legal value after a write to any implemented address. *)
Lemma csr_new_value_legal r addr n op value :
  csr_reg_wf r -> is_u 64 value -> csr_decode addr = Some (n, false) -> addr <> CSR_MISA ->
  csr_legal n (csr_new_value addr (mideleg r) op value (csr_get n r)).
Proof.
  intros Hr Hv Hd Hmisa. pose proof (Hr n) as Hn. pose proof (Hr R_mideleg) as [Hdu _]. cbn in Hdu.
  csr_cases Hd; try congruence; clear Hmisa; pose proof Hn as [Hu Hn']; cbn [csr_get] in Hn, Hu, Hn';
    csr_addr_eval; cbn [csr_get].
  all: first
    [ split; [|exact I]; apply csr_op_apply_u; [done|done|lia]
    | apply masked_sub_legal; [done|done|mask_const|mask_const]
    | by apply sstatus_write_legal
    | by apply mstatus_write_legal
    | by apply satp_write_legal
    | apply tvec_warl_legal; apply csr_op_apply_u; [done|done|lia]
    | apply epc_align_legal; apply csr_op_apply_u; [done|done|lia] ].
Qed.

(** ** Every operation keeps the registers legal *)

Lemma upd_csr_reg_wf f c : csr_wf c -> (csr_reg_wf (csr_reg c) -> csr_reg_wf (f (csr_reg c))) ->
  csr_wf (upd_csr_reg f c).
Proof. intros [Hr Hs] Hf. split; [by apply Hf|exact Hs]. Qed.

Lemma set_field_mstatus_wf pos width x r :
  csr_reg_wf r -> 0 <= pos -> 0 <= width < 64 -> pos + width <= 32 ->
  sub_mask (CSR_FIELD_MASK pos width) MSTATUS_MASK ->
  (pos + width <= 11 \/ 13 <= pos \/ (pos = 11 /\ width = 2 /\ x mod 4 <> 2)) ->
  csr_reg_wf (set_field R_mstatus pos width x r).
Proof. intros. apply csr_set_wf; [done|]. by apply mstatus_set_field_legal. Qed.

(** Closes the side conditions of [set_field_mstatus_wf] for a constant field. *)
Ltac mstatus_field :=
  apply set_field_mstatus_wf; [|vm_compute; intuition congruence..|];
  [|first [left; vm_compute; congruence | right; left; vm_compute; congruence | right; right]].

Lemma csr_set_u_wf n v r :
  csr_reg_wf r -> is_u 64 v ->
  (match n with R_mscratch | R_mcause | R_mtval | R_mcycle | R_minstret | R_sscratch | R_scause
              | R_stval | R_mtime => True | _ => False end) ->
  csr_reg_wf (csr_set n v r).
Proof. intros Hr Hv Hn. apply csr_set_wf; [done|]. by destruct n. Qed.

Lemma csr_set_epc_wf n v r :
  csr_reg_wf r -> is_u 64 v -> n = R_mepc \/ n = R_sepc ->
  csr_reg_wf (csr_set n (Z.land v TRAP_PC_ALIGN_MASK) r).
Proof. intros Hr Hv Hn. apply csr_set_wf; [done|]. destruct Hn as [-> | ->]; by apply epc_align_legal. Qed.

Lemma csr_init_wf : csr_wf csr_init.
Proof. split; [|split; vm_compute; congruence]. intros []; vm_compute; intuition congruence. Qed.

Lemma csr_access_wf c addr op value rd wr t priv :
  csr_wf c -> is_u 64 value -> is_u 64 t ->
  csr_wf (csr_access c addr op value rd wr t priv).2.
Proof.
  intros Hc Hv Ht. unfold csr_access. set (c1 := upd_csr_reg _ c).
  assert (csr_wf c1) as Hc1.
  { apply upd_csr_reg_wf; [done|]. intros Hr. exact (csr_set_u_wf R_mtime t _ Hr Ht I). }
  clearbody c1. destruct (_ && _); [done|]. destruct (_ && _); [done|].
  destruct (csr_decode addr) as [[n ro]|] eqn:Hd; [|done]. destruct (_ && _); [done|].
  destruct (wr && ro) eqn:Hw; [done|]. destruct (if rd then _ else _); [|done].
  destruct (Z.eqb_spec addr CSR_MISA) as [|Hm]; destruct wr; simpl; try done.
  simpl in Hw. subst ro. apply upd_csr_reg_wf.
  - unfold csr_write_flag. repeat (destruct (_ =? _); [done|]). done.
  - intros Hr. apply csr_set_wf; [done|]. by apply csr_new_value_legal.
Qed.

Definition priv_ok (priv : Z) : Prop := priv = PRIV_U \/ priv = PRIV_S \/ priv = PRIV_M.

Lemma priv_of_mpp c : csr_wf c -> priv_ok (csr_field_get (mstatus (csr_reg c)) MSTATUS_MPP_POS 2).
Proof.
  intros [Hr _]. destruct (Hr R_mstatus) as (_ & _ & Hp & _). cbn [csr_get] in Hp.
  pose proof (csr_field_get_u (mstatus (csr_reg c)) MSTATUS_MPP_POS 2 ltac:(lia)).
  unfold priv_ok, PRIV_U, PRIV_S, PRIV_M. lia.
Qed.

Lemma priv_of_spp c : priv_ok (csr_field_get (mstatus (csr_reg c)) MSTATUS_SPP_POS 1).
Proof.
  pose proof (csr_field_get_u (mstatus (csr_reg c)) MSTATUS_SPP_POS 1 ltac:(lia)).
  unfold priv_ok, PRIV_U, PRIV_S. lia.
Qed.

Lemma trap_enter_wf c cause tval pc priv :
  csr_wf c -> is_u 64 cause -> is_u 64 tval -> is_u 64 pc -> priv_ok priv ->
  csr_wf (trap_enter c cause tval pc priv).1.2 /\ priv_ok (trap_enter c cause tval pc priv).2.
Proof.
  intros Hc H1 H2 H3 Hp. unfold trap_enter. destruct (trap_target c cause priv =? PRIV_M); cbn [fst snd].
  - split; [|right; by right]. apply upd_csr_reg_wf; [done|]. intros Hr.
    apply (csr_set_epc_wf R_mepc); [|done|by left].
    apply (csr_set_u_wf R_mcause); [|done|done]. apply (csr_set_u_wf R_mtval); [|done|done].
    mstatus_field; [|by destruct Hp as [-> | [-> | ->]]]. mstatus_field. by mstatus_field.
  - split; [|right; by left]. apply upd_csr_reg_wf; [done|]. intros Hr.
    apply (csr_set_epc_wf R_sepc); [|done|by right].
    apply (csr_set_u_wf R_scause); [|done|done]. apply (csr_set_u_wf R_stval); [|done|done].
    mstatus_field. mstatus_field. by mstatus_field.
Qed.

Lemma trap_exit_mret_wf c priv :
  csr_wf c -> csr_wf (trap_exit_mret c priv).1.2 /\ priv_ok (trap_exit_mret c priv).2.
Proof.
  intros Hc. unfold trap_exit_mret. cbn [fst snd]. split; [|by apply priv_of_mpp].
  apply upd_csr_reg_wf; [done|]. intros Hr.
  destruct (_ <? _); [mstatus_field|]; (mstatus_field; [|done]); mstatus_field; by mstatus_field.
Qed.

Lemma trap_exit_sret_wf c priv :
  csr_wf c -> csr_wf (trap_exit_sret c priv).1.2 /\ priv_ok (trap_exit_sret c priv).2.
Proof.
  intros Hc. unfold trap_exit_sret. cbn [fst snd]. split; [|by apply priv_of_spp].
  apply upd_csr_reg_wf; [done|]. intros Hr.
  destruct (_ <? _); [mstatus_field|]; mstatus_field; mstatus_field; by mstatus_field.
Qed.

Lemma set_field_mip_wf pos x r :
  csr_reg_wf r -> pos ∈ interrupt_id -> csr_reg_wf (set_field R_mip pos 1 x r).
Proof.
  intros Hr Hpos. apply csr_set_wf; [done|]. destruct (Hr R_mip) as [Hu Hm]. cbn [csr_get] in *.
  unfold csr_legal. unfold interrupt_id in Hpos.
  repeat (apply elem_of_cons in Hpos as [->|Hpos];
    [split; [by apply csr_field_set_u|];
     apply sub_mask_set_field; [exact Hu|vm_compute; intuition congruence..|exact Hm|mask_const]|]).
  by apply elem_of_nil in Hpos.
Qed.

Lemma csr_begin_update_wf c a b d e : csr_wf c -> csr_wf (csr_begin_update c a b d e).
Proof.
  intros [Hr Hs]. split.
  - unfold csr_begin_update. cbn [csr_reg upd_csr_reg].
    repeat (apply set_field_mip_wf; [|unfold interrupt_id; set_solver]). exact Hr.
  - exact (csr_legal_u _ R_mcountinhibit Hr).
Qed.

Lemma csr_end_update_wf c b : csr_wf c -> csr_wf (csr_end_update c b).
Proof.
  intros Hc. unfold csr_end_update.
  set (c1 := if _ && _ && _ then _ else c). assert (csr_wf c1) as Hc1.
  { unfold c1. destruct (_ && _ && _); [|done]. apply upd_csr_reg_wf; [done|]. intros Hr.
    apply (csr_set_u_wf R_minstret (add64 (minstret (csr_reg c)) 1)); [done|apply add64_u|done]. }
  clearbody c1. set (c2 := if _ && _ then _ else c1). assert (csr_wf c2) as Hc2.
  { unfold c2. destruct (_ && _); [|done]. apply upd_csr_reg_wf; [done|]. intros Hr.
    apply (csr_set_u_wf R_mcycle (add64 (mcycle (csr_reg c1)) 1)); [done|apply add64_u|done]. }
  exact Hc2.
Qed.

(** ** Reachable register states *)

(** What the core does to the CSRs, with the privilege mode. *)
Inductive csr_step : csr_t * Z -> csr_t * Z -> Prop :=
  | step_begin c p meip msip mtip seip :
      csr_step (c, p) (csr_begin_update c meip msip mtip seip, p)
  | step_access c p addr op value rd wr t :
      is_u 64 value -> is_u 64 t -> csr_step (c, p) ((csr_access c addr op value rd wr t p).2, p)
  | step_trap c p cause tval pc :
      is_u 64 cause -> is_u 64 tval -> is_u 64 pc ->
      csr_step (c, p) ((trap_enter c cause tval pc p).1.2, (trap_enter c cause tval pc p).2)
  | step_mret c p : csr_step (c, p) ((trap_exit_mret c p).1.2, (trap_exit_mret c p).2)
  | step_sret c p : csr_step (c, p) ((trap_exit_sret c p).1.2, (trap_exit_sret c p).2)
  | step_end c p retired : csr_step (c, p) (csr_end_update c retired, p).

Definition csr_ok (st : csr_t * Z) : Prop := csr_wf st.1 /\ priv_ok st.2.

Lemma csr_step_ok st st' : csr_ok st -> csr_step st st' -> csr_ok st'.
Proof.
  intros [Hc Hp] H. destruct H; cbn [fst snd] in *.
  - split; [by apply csr_begin_update_wf|done].
  - split; [by apply csr_access_wf|done].
  - by apply trap_enter_wf.
  - by apply trap_exit_mret_wf.
  - by apply trap_exit_sret_wf.
  - split; [by apply csr_end_update_wf|done].
Qed.

(** ** What the core relies on *)

Lemma csr_read_value_u c addr n priv v :
  csr_wf c -> csr_read_value c addr n priv = Some v -> is_u 64 v.
Proof.
  intros [Hr _]. unfold csr_read_value.
  assert (forall m, is_u 64 (csr_get m (csr_reg c))) as Hu by (intros m; by apply csr_legal_u).
  pose proof (Hu R_mstatus) as H1. pose proof (Hu R_mie) as H2. pose proof (Hu R_mip) as H3. cbn [csr_get] in *.
  intros H. repeat case_match; simplify_eq; try apply Hu; auto using land_u_l with lia.
  all: repeat apply land_u_l; (done || lia).
Qed.

Lemma csr_access_read_u c addr op value rd wr t p v :
  csr_wf c -> is_u 64 t -> (csr_access c addr op value rd wr t p).1 = Some (Some v) -> is_u 64 v.
Proof.
  intros Hc Ht. unfold csr_access. set (c1 := upd_csr_reg _ c).
  assert (csr_wf c1) as Hc1.
  { apply upd_csr_reg_wf; [done|]. intros Hr. exact (csr_set_u_wf R_mtime t _ Hr Ht I). }
  destruct (_ && _); [done|]. destruct (_ && _); [done|]. destruct (csr_decode addr) as [[n ro]|]; [|done].
  destruct (_ && _); [done|]. destruct (_ && _); [done|]. destruct rd; [|by destruct (_ && _)].
  destruct (csr_read_value c1 addr n p) as [x|] eqn:E; cbn; [|done].
  destruct (_ && _); cbn; intros [= <-]; by apply (csr_read_value_u c1 addr n p).
Qed.

Lemma trap_base_aligned v : Z.land v (not64 TRAP_VECTOR_MODE_MASK) mod 4 = 0.
Proof.
  change 4 with (2 ^ 2). rewrite <- Z.land_ones, <- Z.land_assoc by lia.
  change (Z.land (not64 TRAP_VECTOR_MODE_MASK) (Z.ones 2)) with 0. apply Z.land_0_r.
Qed.
Lemma pc_mask_aligned v : Z.land v TRAP_PC_ALIGN_MASK mod 4 = 0.
Proof. exact (trap_base_aligned v). Qed.

(** Every pc the CSRs give to the core is a multiple of four. *)
Lemma trap_enter_vec c cause tval pc priv :
  is_u 64 (trap_enter c cause tval pc priv).1.1 /\ (trap_enter c cause tval pc priv).1.1 mod 4 = 0.
Proof.
  unfold trap_enter. destruct (trap_target c cause priv =? PRIV_M).
  all: cbn [fst snd]; match goal with |- context [Z.land ?v (not64 TRAP_VECTOR_MODE_MASK)] =>
    pose proof (trap_base_aligned v); set (base := Z.land v (not64 TRAP_VECTOR_MODE_MASK)) in *;
    assert (is_u 64 base) by (apply land_u_r; [lia|apply not64_u]) end.
  all: destruct (_ && _); [|done]; split; [apply add64_u|].
  all: unfold add64, mul64, w64; change (2 ^ 64) with (4 * 2 ^ 62); div_lia.
Qed.

Lemma trap_exit_mret_pc c priv :
  is_u 64 (trap_exit_mret c priv).1.1 /\ (trap_exit_mret c priv).1.1 mod 4 = 0.
Proof. unfold trap_exit_mret. cbn [fst]. split; [apply land_u_r; [lia|apply not64_u]|apply pc_mask_aligned]. Qed.
Lemma trap_exit_sret_pc c priv :
  is_u 64 (trap_exit_sret c priv).1.1 /\ (trap_exit_sret c priv).1.1 mod 4 = 0.
Proof. unfold trap_exit_sret. cbn [fst]. split; [apply land_u_r; [lia|apply not64_u]|apply pc_mask_aligned]. Qed.

(** A successful write, or nothing but the shadow of the timer. *)
Lemma csr_access_inv c addr op value rd wr t p :
  let c1 := upd_csr_reg (fun r => r <| csr_mtime := t |>) c in
  let res := csr_access c addr op value rd wr t p in
  (res.2 = c1 /\ (wr = false \/ addr = CSR_MISA \/ res.1 = None)) \/
  exists n, csr_decode addr = Some (n, false) /\ addr <> CSR_MISA /\ wr = true /\ is_Some res.1 /\
    ((p = PRIV_U \/ p = PRIV_S) -> csr_field_get addr 8 2 <= p) /\
    res.2 = csr_write c1 addr n op value.
Proof.
  cbv zeta. unfold csr_access. set (c1 := upd_csr_reg _ c). clearbody c1.
  destruct (Z.eqb_spec p PRIV_U), (Z.ltb_spec PRIV_U (csr_field_get addr 8 2)); cbn [andb]; [left; by auto| |..].
  all: destruct (Z.eqb_spec p PRIV_S), (Z.ltb_spec PRIV_S (csr_field_get addr 8 2)); cbn [andb]; try (left; by auto).
  all: destruct (csr_decode addr) as [[k ro]|]; [|left; by auto].
  all: destruct (_ && _); [left; by auto|]; destruct wr, ro; cbn [andb]; try (left; by auto);
    (destruct (if rd then _ else _); [|left; by auto]);
    destruct (Z.eqb_spec addr CSR_MISA); cbn [andb negb]; try (left; by auto).
  all: right; exists k; split_and!; try done; cbn [fst snd]; eauto; lia.
Qed.
