(* ===== verification/CsrProps.v ===== *)
(** * Properties of the control and status registers

    Legality of every reachable register state, confinement of CSR instructions to
    the privilege of the mode, delegation and the trap round trip, interrupt
    selection, and the counters. *)
From stdpp Require Import base tactics numbers option list sets relations.
From S2P Require Import Prelude CInt Csr.

#[local] Open Scope record_scope.
#[local] Open Scope Z_scope.

(** ** What a CSR instruction can change *)

Lemma csr_write_flag_reg addr c : csr_reg (csr_write_flag addr c) = csr_reg c.
Proof. unfold csr_write_flag. by repeat (destruct (_ =? _); [done|]). Qed.

Lemma csr_write_flag_start addr c : starting_mcountinhibit (csr_write_flag addr c) = starting_mcountinhibit c.
Proof. unfold csr_write_flag. by repeat (destruct (_ =? _); [done|]). Qed.

Lemma csr_write_get c addr n op value m :
  csr_get m (csr_reg (csr_write c addr n op value)) =
    if decide (n = m) then csr_new_value addr (mideleg (csr_reg c)) op value (csr_get n (csr_reg c))
    else csr_get m (csr_reg c).
Proof.
  unfold csr_write. cbn [upd_csr_reg update csr_reg].
  change (csr_reg (upd_csr_reg ?f ?x)) with (f (csr_reg x)). cbv beta.
  by rewrite csr_write_flag_reg, csr_get_set.
Qed.

Lemma csr_write_same c addr n op value :
  csr_get n (csr_reg (csr_write c addr n op value)) =
    csr_new_value addr (mideleg (csr_reg c)) op value (csr_get n (csr_reg c)).
Proof. rewrite csr_write_get. by rewrite decide_True. Qed.
Lemma csr_write_other c addr n op value m :
  n <> m -> csr_get m (csr_reg (csr_write c addr n op value)) = csr_get m (csr_reg c).
Proof. intros. rewrite csr_write_get. by rewrite decide_False. Qed.

(** The registers only machine mode may write. *)
Definition machine_only (n : csr_name) : bool :=
  match n with
  | R_misa | R_medeleg | R_mideleg | R_mtvec | R_mcounteren | R_mscratch | R_mepc | R_mcause
  | R_mtval | R_mcountinhibit | R_mcycle | R_minstret | R_mvendorid | R_marchid | R_mimpid
  | R_mhartid => true
  | _ => false
  end.

(** ** Properties *)

(** Starting from reset, whatever sequence of CSR instructions, traps,
    returns and per-step updates is executed, every CSR holds a legal value: the
    WARL fields are in range, reserved and unimplemented bits are zero, read-only
    registers keep their value, and the privilege mode is U, S or M. *)
Theorem csr_reachable_legal st :
  rtc csr_step (csr_init, PRIV_M) st -> csr_wf st.1 /\ priv_ok st.2.
Proof.
  intros H. remember (csr_init, PRIV_M) as st0 eqn:E. assert (csr_ok st0) as H0.
  { subst. split; [apply csr_init_wf|by right; right]. }
  clear E. induction H as [|x y z Hxy _ IH]; [done|]. apply IH. by eapply csr_step_ok.
Qed.

Lemma csr_reachable_legal_witness :
  csr_wf (trap_enter csr_init 2 7 0x80000000 PRIV_M).1.2.
Proof.
  apply (csr_reachable_legal ((trap_enter csr_init 2 7 0x80000000 PRIV_M).1.2,
                              (trap_enter csr_init 2 7 0x80000000 PRIV_M).2)).
  apply rtc_once, step_trap; lia.
Defined.

Lemma csr_access_confined c addr op value rd wr t p :
  csr_wf c -> p = PRIV_U \/ p = PRIV_S ->
  let res := csr_access c addr op value rd wr t p in
  (p < csr_field_get addr 8 2 -> res.1 = None) /\
  (p = PRIV_U -> forall n, n <> R_mtime -> csr_get n (csr_reg res.2) = csr_get n (csr_reg c)) /\
  (forall n, machine_only n = true -> csr_get n (csr_reg res.2) = csr_get n (csr_reg c)) /\
  (forall i, 0 <= i -> Z.testbit SSTATUS_WRITE_MASK i = false ->
     Z.testbit (mstatus (csr_reg res.2)) i = Z.testbit (mstatus (csr_reg c)) i) /\
  (forall i, 0 <= i -> Z.testbit (mideleg (csr_reg c)) i = false ->
     Z.testbit (mie (csr_reg res.2)) i = Z.testbit (mie (csr_reg c)) i /\
     Z.testbit (mip (csr_reg res.2)) i = Z.testbit (mip (csr_reg c)) i).
Proof.
  intros [Hr _] Hp res.
  assert (p < csr_field_get addr 8 2 -> res.1 = None) as Hpriv.
  { intros Hlt. unfold res, csr_access.
    destruct Hp as [-> | ->]; rewrite (proj2 (Z.ltb_lt _ _) Hlt); [done|]. by rewrite andb_false_l. }
  split; [exact Hpriv|].
  destruct (csr_access_inv c addr op value rd wr t p) as [[E _]|(n & Hd & Hmisa & _ & _ & Hle & E)];
    fold res in E; rewrite E; clear E res Hpriv.
  { split_and!; try done; [intros _ n Hn|intros n Hn]; by destruct n. }
  specialize (Hle Hp). set (c1 := upd_csr_reg _ c).
  assert (forall m, m <> R_mtime -> csr_get m (csr_reg c1) = csr_get m (csr_reg c)) as Hc1 by (by intros []).
  assert (forall m, csr_get m (csr_reg (csr_write c1 addr n op value)) = csr_get m (csr_reg c) \/ n = m \/ m = R_mtime)
    as Hother.
  { intros m. destruct (decide (n = m)); [by right; left|]. destruct (decide (m = R_mtime)); [by right; right|].
    left. rewrite csr_write_other by done. by apply Hc1. }
  assert (forall op v reg m i, is_u 64 reg -> is_u 64 m -> 0 <= i -> Z.testbit (mideleg (csr_reg c)) i = false ->
    Z.testbit (csr_op_apply op reg (Z.land v (Z.land m (mideleg (csr_reg c1))))
       (Z.land reg (not64 (Z.land m (mideleg (csr_reg c1)))))) i = Z.testbit reg i) as Hdeleg.
  { intros o v reg m i Hreg Hm Hi Hf. change (mideleg (csr_reg c1)) with (mideleg (csr_reg c)).
    rewrite csr_op_apply_testbit by (done || by apply land_u_l). by rewrite Z.land_spec, Hf, andb_false_r. }
  csr_cases Hd; try congruence; clear Hmisa;
    try (exfalso; destruct Hp as [-> | ->]; vm_compute in Hle; by apply Hle).
  all: split_and!; [intros ->; vm_compute in Hle; by destruct Hle| | |].
  all: try (intros m Hm; destruct (Hother m) as [E|[<- | ->]]; [exact E|discriminate Hm..]).
  all: try (intros i Hi Hm; destruct (Hother R_mstatus) as [E|[E|E]]; [exact (f_equal (fun v => Z.testbit v i) E)|discriminate E..]).
  all: try (intros i Hi Hm; destruct (Hother R_mie) as [E|[E|E]]; [|discriminate E..];
            destruct (Hother R_mip) as [E'|[E'|E']]; [|discriminate E'..];
            split; [exact (f_equal (fun v => Z.testbit v i) E)|exact (f_equal (fun v => Z.testbit v i) E')]).
  - intros i Hi Hm. change (mstatus (csr_reg ?x)) with (csr_get R_mstatus (csr_reg x)).
    rewrite csr_write_same. csr_addr_eval. destruct (Hr R_mstatus) as [Hu _].
    rewrite csr_op_apply_testbit by (done || mask_const). by rewrite Hm.
  - intros i Hi Hm. change (mie (csr_reg ?x)) with (csr_get R_mie (csr_reg x)).
    destruct (Hother R_mip) as [E|[E|E]]; [|discriminate E..]. split; [|exact (f_equal (fun v => Z.testbit v i) E)].
    rewrite csr_write_same. csr_addr_eval. apply Hdeleg; [apply (Hr R_mie)|mask_const|done|done].
  - intros i Hi Hm. change (mip (csr_reg ?x)) with (csr_get R_mip (csr_reg x)).
    destruct (Hother R_mie) as [E|[E|E]]; [|discriminate E..]. split; [exact (f_equal (fun v => Z.testbit v i) E)|].
    rewrite csr_write_same. csr_addr_eval. apply Hdeleg; [apply (Hr R_mip)|mask_const|done|done].
Qed.

(** C19: a CSR instruction cannot escape its privilege: an address of a higher
    privilege is refused; a user-mode instruction changes no register (but the
    shadow of the timer); a supervisor-mode one changes no machine-only register,
    no bit of [mstatus] outside the [sstatus] view and no bit of [mie] and [mip]
    that is not delegated. *)
Theorem csr_confinement c addr op value rd wr t p :
  csr_wf c -> p = PRIV_U \/ p = PRIV_S ->
  let res := csr_access c addr op value rd wr t p in
  (p < csr_field_get addr 8 2 -> res.1 = None) /\
  (p = PRIV_U -> forall n, n <> R_mtime -> csr_get n (csr_reg res.2) = csr_get n (csr_reg c)) /\
  (forall n, machine_only n = true -> csr_get n (csr_reg res.2) = csr_get n (csr_reg c)) /\
  (forall i, 0 <= i -> Z.testbit SSTATUS_WRITE_MASK i = false ->
     Z.testbit (mstatus (csr_reg res.2)) i = Z.testbit (mstatus (csr_reg c)) i) /\
  (forall i, 0 <= i -> Z.testbit (mideleg (csr_reg c)) i = false ->
     Z.testbit (mie (csr_reg res.2)) i = Z.testbit (mie (csr_reg c)) i /\
     Z.testbit (mip (csr_reg res.2)) i = Z.testbit (mip (csr_reg c)) i).
Proof. apply csr_access_confined. Qed.

Lemma csr_confinement_witness :
  (csr_access csr_init CSR_MSTATUS CSR_OP_RW 0 true true 0 PRIV_S).1 = None /\
  mideleg (csr_reg (csr_access csr_init CSR_SSTATUS CSR_OP_RW UINT64_MAX true true 0 PRIV_S).2) = 0.
Proof.
  split.
  - apply (csr_confinement csr_init CSR_MSTATUS CSR_OP_RW 0 true true 0 PRIV_S csr_init_wf (or_intror eq_refl)).
    vm_compute. reflexivity.
  - exact (proj1 (proj2 (proj2 (csr_confinement csr_init CSR_SSTATUS CSR_OP_RW UINT64_MAX true true 0 PRIV_S
      csr_init_wf (or_intror eq_refl)))) R_mideleg eq_refl).
Defined.

(** Writing a masked register back restores it. *)
Lemma rw_masked_same reg v m :
  is_u 64 reg -> is_u 64 m ->
  (forall i, 0 <= i -> Z.testbit m i = true -> Z.testbit v i = Z.testbit reg i) ->
  csr_op_apply CSR_OP_RW reg (Z.land v m) (Z.land reg (not64 m)) = reg.
Proof.
  intros Hr Hm Hv. apply Z.bits_inj'. intros i Hi. rewrite csr_op_apply_testbit by done.
  destruct (Z.testbit m i) eqn:E; [|done]. by apply Hv.
Qed.

Lemma testbit_land_true a b i : Z.testbit (Z.land a b) i = true -> Z.testbit a i = true /\ Z.testbit b i = true.
Proof. rewrite Z.land_spec. apply andb_true_iff. Qed.

Lemma sub_mask_bit m M i : sub_mask m M -> 0 <= i -> Z.testbit m i = true -> Z.testbit M i = true.
Proof. rewrite sub_mask_testbit. auto. Qed.

Lemma align_fix reg : is_u 64 reg -> csr_field_get reg 0 2 = 0 -> Z.land reg TRAP_PC_ALIGN_MASK = reg.
Proof.
  intros Hu Hl. apply Z.bits_inj'. intros i Hi. rewrite Z.land_spec. unfold TRAP_PC_ALIGN_MASK.
  rewrite not64_testbit by done. destruct (Z.ltb_spec i 64); [|by rewrite (testbit_high 64)].
  change 3 with (Z.ones 2). rewrite testbit_ones by lia. destruct (Z.ltb_spec i 2); [|by rewrite andb_true_r].
  pose proof (csr_field_get_testbit reg 0 2 i ltac:(lia) ltac:(lia) Hi) as Ht.
  rewrite Hl, Z.bits_0, Z.add_0_r, (proj2 (Z.ltb_lt i 2)) in Ht by lia. cbn [andb] in Ht. by rewrite <- Ht.
Qed.

(** The legal values are fixpoints of the WARL adjustments. *)
Lemma csr_warl_legal addr n ro reg :
  csr_decode addr = Some (n, ro) -> csr_legal n reg -> csr_warl addr reg reg = reg.
Proof.
  intros Hd Hl. csr_cases Hd; destruct Hl as [Hu Hl]; csr_addr_eval; try reflexivity.
  - rewrite (proj2 (Z.eqb_neq _ 2)), (proj2 (Z.eqb_neq _ 3)); [done|lia..].
  - by apply align_fix.
  - by destruct (_ && _).
  - rewrite (proj2 (Z.eqb_neq _ 2)); [done|apply Hl].
  - rewrite (proj2 (Z.eqb_neq _ 2)), (proj2 (Z.eqb_neq _ 3)); [done|lia..].
  - by apply align_fix.
Qed.

(** The value a CSR instruction reads agrees with the register on its writable bits. *)
Lemma csr_read_writable c addr n p v :
  csr_wf c -> csr_decode addr = Some (n, false) -> csr_read_value c addr n p = Some v ->
  match csr_write_mask addr (mideleg (csr_reg c)) with
  | Some m => is_u 64 m /\
      forall i, 0 <= i -> Z.testbit m i = true -> Z.testbit v i = Z.testbit (csr_get n (csr_reg c)) i
  | None => v = csr_get n (csr_reg c)
  end.
Proof.
  intros [Hr _] Hd Hv. assert (is_u 64 (mideleg (csr_reg c))) as Hdu by apply (Hr R_mideleg).
  csr_cases Hd; try congruence; unfold csr_read_value in Hv; revert Hv; csr_addr_eval;
    intros [= <-]; try reflexivity.
  all: split; [mask_const|]; intros i Hi Hm; try reflexivity.
  all: rewrite ?Z.land_spec; cbn [csr_get];
    repeat match goal with H : Z.testbit (Z.land _ _) _ = true |- _ => apply testbit_land_true in H as [? ?] end.
  - rewrite (sub_mask_bit SSTATUS_WRITE_MASK SSTATUS_READ_MASK i); [apply andb_true_r|mask_const|done|done].
  - rewrite (sub_mask_bit SIE_WRITE_MASK SIE_READ_MASK i); [|mask_const|done|done].
    match goal with E : Z.testbit (mideleg _) i = true |- _ => rewrite E end. by rewrite !andb_true_r.
  - rewrite (sub_mask_bit SIP_WRITE_MASK SIP_READ_MASK i); [|mask_const|done|done].
    match goal with E : Z.testbit (mideleg _) i = true |- _ => rewrite E end. by rewrite !andb_true_r.
Qed.

Lemma csr_set_get n r : csr_set n (csr_get n r) r = r.
Proof. by destruct n, r. Qed.

(** Writing back the value read leaves the register as it is. *)
Lemma csr_new_value_back c addr n p v :
  csr_wf c -> csr_decode addr = Some (n, false) -> csr_read_value c addr n p = Some v ->
  csr_new_value addr (mideleg (csr_reg c)) CSR_OP_RW v (csr_get n (csr_reg c)) = csr_get n (csr_reg c).
Proof.
  intros Hc Hd Hv. pose proof (csr_read_writable c addr n p v Hc Hd Hv) as Hm.
  destruct Hc as [Hr _]. pose proof (csr_legal_u _ n Hr) as Hu.
  unfold csr_new_value. destruct (csr_write_mask addr _) as [m|].
  - destruct Hm as [Hmu Hm]. rewrite rw_masked_same by done. eapply csr_warl_legal; [exact Hd|apply Hr].
  - subst v. cbn [csr_op_apply]. rewrite Z.lor_0_l. eapply csr_warl_legal; [exact Hd|apply Hr].
Qed.

(** Saving and restoring a CSR is the identity: when an instruction of mode
    [p] can write the register at [addr] and reads [v] from it, writing [v] back
    succeeds and leaves every register as it was (the shadow of the timer is
    refreshed by any access). *)
Theorem csr_save_restore c addr n p t t' v :
  csr_wf c -> csr_decode addr = Some (n, false) ->
  (csr_access c addr CSR_OP_RS 0 true false t p).1 = Some (Some v) ->
  let res := csr_access c addr CSR_OP_RW v false true t' p in
  res.1 = Some None /\ csr_reg res.2 = (csr_reg c) <| csr_mtime := t' |>.
Proof.
  intros Hc Hd. unfold csr_access. set (c1 := upd_csr_reg _ c). set (c2 := upd_csr_reg (fun r => r <| csr_mtime := t' |>) c).
  destruct (_ && _); [done|]. destruct (_ && _); [done|]. rewrite Hd.
  change (mstatus (csr_reg c2)) with (mstatus (csr_reg c1)).
  destruct (_ && _); [done|]. cbn [andb fst snd].
  destruct (csr_read_value c1 addr n p) as [v'|] eqn:Hv; [|done]. cbn [fmap option_fmap option_map].
  intros [= ->]. destruct (Z.eqb_spec addr CSR_MISA) as [->|Hm]; cbn [negb andb fst snd]; [done|].
  split; [done|].
  assert (n <> R_mtime) as Hn by (intros ->; by csr_cases Hd).
  assert (csr_read_value c addr n p = Some v) as Hv' by (rewrite <- Hv; by destruct n).
  assert (csr_get n (csr_reg c2) = csr_get n (csr_reg c)) as Hg by (by destruct n).
  transitivity (csr_set n (csr_new_value addr (mideleg (csr_reg c2)) CSR_OP_RW v (csr_get n (csr_reg c2))) (csr_reg c2)).
  - unfold csr_write. change (csr_reg (upd_csr_reg ?f ?x)) with (f (csr_reg x)). cbv beta.
    by rewrite csr_write_flag_reg.
  - rewrite Hg. change (mideleg (csr_reg c2)) with (mideleg (csr_reg c)).
    rewrite (csr_new_value_back c addr n p v Hc Hd Hv'), <- Hg. apply csr_set_get.
Qed.

Lemma csr_save_restore_witness :
  csr_reg (csr_access csr_init CSR_SSTATUS CSR_OP_RW 0x200000000 false true 5 PRIV_M).2
  = (csr_reg csr_init) <| csr_mtime := 5 |>.
Proof.
  exact (proj2 (csr_save_restore csr_init CSR_SSTATUS R_mstatus PRIV_M 3 5 0x200000000 csr_init_wf eq_refl eq_refl)).
Defined.

(** ** Traps and returns *)

(** Where the RISC-V delegation rules send a trap. *)
Definition delegated (c : csr_t) (cause p : Z) : Prop :=
  p <> PRIV_M /\
  Z.testbit (if Z.testbit cause 63 then mideleg (csr_reg c) else medeleg (csr_reg c)) (cause mod 2 ^ 63) = true.

Lemma testbit_pos_mask x n :
  0 <= n < 64 -> negb (Z.land x (shl64 1 n) =? 0) = Z.testbit x n.
Proof.
  intros Hn. assert (forall j, 0 <= j -> Z.testbit (shl64 1 n) j = (n =? j)) as Hb.
  { intros j Hj. unfold shl64, w64. autorewrite with zbits. zbits_split; try reflexivity.
    all: autorewrite with zbits; zbits_split; reflexivity. }
  destruct (Z.eqb_spec (Z.land x (shl64 1 n)) 0) as [E|E]; simpl.
  - assert (Z.testbit (Z.land x (shl64 1 n)) n = false) as H by (by rewrite E, Z.bits_0).
    by rewrite Z.land_spec, Hb, Z.eqb_refl, andb_true_r in H by lia.
  - destruct (Z.testbit x n) eqn:Ht; [done|]. exfalso. apply E. apply Z.bits_inj'. intros j Hj.
    rewrite Z.land_spec, Hb, Z.bits_0 by done.
    destruct (Z.eqb_spec n j) as [<-|]; [by rewrite Ht|by rewrite andb_false_r].
Qed.

Lemma b2z_neq0 (b : bool) : negb (Z.b2z b =? 0) = b.
Proof. by destruct b. Qed.

Lemma cause_code_mod cause : csr_field_get cause 0 63 = cause mod 2 ^ 63.
Proof. unfold csr_field_get. rewrite mask_ones, Z.land_ones by lia. unfold shr64. by rewrite Z.shiftr_0_r. Qed.

Lemma trap_target_spec c cause p :
  priv_ok p -> 0 <= cause mod 2 ^ 63 < 64 ->
  (trap_target c cause p = PRIV_S /\ delegated c cause p) \/
  (trap_target c cause p = PRIV_M /\ ~ delegated c cause p).
Proof.
  intros Hp Hc. unfold trap_target, delegated. rewrite cause_code_mod, csr_field_get_1 by lia.
  rewrite b2z_neq0, !testbit_pos_mask by done. unfold PRIV_M, PRIV_S in *.
  destruct (Z.ltb_spec p 3).
  - assert (p <> 3) by lia. destruct (Z.testbit cause 63).
    + destruct (Z.testbit (mideleg _) _); [left|right]; naive_solver.
    + destruct (Z.testbit (medeleg _) _); [left|right]; naive_solver.
  - right. split; [done|]. intros [H1 _]. destruct Hp as [-> | [-> | ->]]; done.
Qed.

(** The interrupt-enable stack of [mstatus]. *)
Definition m_push (v p : Z) : Z :=
  csr_field_set (csr_field_set (csr_field_set v MSTATUS_MPIE_POS 1 (csr_field_get v MSTATUS_MIE_POS 1))
    MSTATUS_MIE_POS 1 0) MSTATUS_MPP_POS 2 p.
Definition s_push (v p : Z) : Z :=
  csr_field_set (csr_field_set (csr_field_set v MSTATUS_SPIE_POS 1 (csr_field_get v MSTATUS_SIE_POS 1))
    MSTATUS_SIE_POS 1 0) MSTATUS_SPP_POS 1 p.
Definition m_pop (v : Z) : Z :=
  let p := csr_field_get v MSTATUS_MPP_POS 2 in
  let v := csr_field_set (csr_field_set (csr_field_set v MSTATUS_MIE_POS 1 (csr_field_get v MSTATUS_MPIE_POS 1))
    MSTATUS_MPIE_POS 1 1) MSTATUS_MPP_POS 2 PRIV_U in
  if p <? PRIV_M then csr_field_set v MSTATUS_MPRV_POS 1 0 else v.
Definition s_pop (v : Z) : Z :=
  let p := csr_field_get v MSTATUS_SPP_POS 1 in
  let v := csr_field_set (csr_field_set (csr_field_set v MSTATUS_SIE_POS 1 (csr_field_get v MSTATUS_SPIE_POS 1))
    MSTATUS_SPIE_POS 1 1) MSTATUS_SPP_POS 1 PRIV_U in
  if p <? PRIV_M then csr_field_set v MSTATUS_MPRV_POS 1 0 else v.

Ltac field_bounds := first [assumption | lia | repeat apply csr_field_set_u; assumption].

(** Reads through the field updates of a stack operation. *)
Ltac field_reads :=
  repeat first
    [ rewrite csr_field_set_testbit by field_bounds
    | rewrite csr_field_get_set_eq by field_bounds
    | rewrite csr_field_get_set_ne by field_bounds ].

Lemma m_push_spec v p :
  is_u 64 v -> priv_ok p ->
  is_u 64 (m_push v p) /\
  Z.testbit (m_push v p) MSTATUS_MIE_POS = false /\
  Z.testbit (m_push v p) MSTATUS_MPIE_POS = Z.testbit v MSTATUS_MIE_POS /\
  csr_field_get (m_push v p) MSTATUS_MPP_POS 2 = p /\
  (forall i, 0 <= i -> i <> 3 -> i <> 7 -> i <> 11 -> i <> 12 -> Z.testbit (m_push v p) i = Z.testbit v i).
Proof.
  intros Hv Hp. unfold m_push, MSTATUS_MIE_POS, MSTATUS_MPIE_POS, MSTATUS_MPP_POS.
  split; [field_bounds|]. split; [|split; [|split]].
  - field_reads. reflexivity.
  - field_reads. cbn [Z.leb Z.ltb Z.compare Pos.compare Pos.compare_cont andb Z.add Pos.add Pos.succ].
    rewrite csr_field_get_testbit by lia. reflexivity.
  - field_reads. by destruct Hp as [-> | [-> | ->]].
  - intros i Hi H1 H2 H3 H4. rewrite !csr_field_set_testbit by field_bounds.
    zbits_split; reflexivity.
Qed.

Lemma s_push_spec v p :
  is_u 64 v -> p = PRIV_U \/ p = PRIV_S ->
  is_u 64 (s_push v p) /\
  Z.testbit (s_push v p) MSTATUS_SIE_POS = false /\
  Z.testbit (s_push v p) MSTATUS_SPIE_POS = Z.testbit v MSTATUS_SIE_POS /\
  csr_field_get (s_push v p) MSTATUS_SPP_POS 1 = p /\
  (forall i, 0 <= i -> i <> 1 -> i <> 5 -> i <> 8 -> Z.testbit (s_push v p) i = Z.testbit v i).
Proof.
  intros Hv Hp. unfold s_push, MSTATUS_SIE_POS, MSTATUS_SPIE_POS, MSTATUS_SPP_POS.
  split; [field_bounds|]. split; [|split; [|split]].
  - field_reads. reflexivity.
  - field_reads. cbn [Z.leb Z.ltb Z.compare Pos.compare Pos.compare_cont andb Z.add Pos.add Pos.succ].
    rewrite csr_field_get_testbit by lia. reflexivity.
  - field_reads. by destruct Hp as [-> | ->].
  - intros i Hi H1 H2 H3. rewrite !csr_field_set_testbit by field_bounds.
    zbits_split; reflexivity.
Qed.

Lemma m_pop_spec v i :
  is_u 64 v -> 0 <= i ->
  Z.testbit (m_pop v) i =
    if i =? 3 then Z.testbit v 7 else if i =? 7 then true else if (i =? 11) || (i =? 12) then false
    else if (i =? 17) && (csr_field_get v 11 2 <? 3) then false else Z.testbit v i.
Proof.
  intros Hv Hi. unfold m_pop, MSTATUS_MIE_POS, MSTATUS_MPIE_POS, MSTATUS_MPP_POS, MSTATUS_MPRV_POS, PRIV_U, PRIV_M.
  rewrite testbit_if. rewrite !csr_field_set_testbit by field_bounds.
  destruct (csr_field_get v 11 2 <? 3); zbits_split; subst; cbn [andb orb];
    try reflexivity; rewrite ?csr_field_get_testbit by lia;
    rewrite ?Z.bits_0; try reflexivity.
  all: try (replace (i - 3) with 0 by lia; reflexivity).
Qed.

Lemma s_pop_spec v i :
  is_u 64 v -> 0 <= i ->
  Z.testbit (s_pop v) i =
    if i =? 1 then Z.testbit v 5 else if i =? 5 then true else if (i =? 8) || (i =? 17) then false
    else Z.testbit v i.
Proof.
  intros Hv Hi. unfold s_pop, MSTATUS_SIE_POS, MSTATUS_SPIE_POS, MSTATUS_SPP_POS, MSTATUS_MPRV_POS, PRIV_U, PRIV_M.
  pose proof (csr_field_get_u v 8 1 ltac:(lia)). rewrite (proj2 (Z.ltb_lt _ 3)) by lia.
  rewrite !csr_field_set_testbit by field_bounds.
  zbits_split; subst; cbn [andb orb]; try reflexivity; rewrite ?csr_field_get_testbit by lia;
    rewrite ?Z.bits_0; try reflexivity.
Qed.

Lemma trap_enter_mstatus c cause tval pc p :
  (trap_enter c cause tval pc p).2 = (if trap_target c cause p =? PRIV_M then PRIV_M else PRIV_S) /\
  mstatus (csr_reg (trap_enter c cause tval pc p).1.2)
    = (if trap_target c cause p =? PRIV_M then m_push else s_push) (mstatus (csr_reg c)) p.
Proof. unfold trap_enter. by destruct (trap_target c cause p =? PRIV_M). Qed.

(** C20: a trap is taken in S-mode exactly when it is delegated and was raised in S
    or U mode, in M-mode otherwise, so a trap never lowers the privilege; the
    handler's cause, value and exception pc are those of the trap, its interrupts
    are disabled with the previous state stacked, and the other mode's trap
    registers are untouched. *)
Theorem trap_enter_spec c cause tval pc p :
  csr_wf c -> priv_ok p -> 0 <= cause mod 2 ^ 63 < 64 -> is_u 64 pc -> pc mod 4 = 0 ->
  let '(_, c', p') := trap_enter c cause tval pc p in
  p <= p' /\ (p' = PRIV_S <-> delegated c cause p) /\ (p' = PRIV_M <-> ~ delegated c cause p) /\
  let r := csr_reg c in let r' := csr_reg c' in
  (p' = PRIV_M ->
     mcause r' = cause /\ mtval r' = tval /\ mepc r' = pc /\
     Z.testbit (mstatus r') MSTATUS_MIE_POS = false /\
     Z.testbit (mstatus r') MSTATUS_MPIE_POS = Z.testbit (mstatus r) MSTATUS_MIE_POS /\
     csr_field_get (mstatus r') MSTATUS_MPP_POS 2 = p /\
     scause r' = scause r /\ stval r' = stval r /\ sepc r' = sepc r) /\
  (p' = PRIV_S ->
     scause r' = cause /\ stval r' = tval /\ sepc r' = pc /\
     Z.testbit (mstatus r') MSTATUS_SIE_POS = false /\
     Z.testbit (mstatus r') MSTATUS_SPIE_POS = Z.testbit (mstatus r) MSTATUS_SIE_POS /\
     csr_field_get (mstatus r') MSTATUS_SPP_POS 1 = p /\
     mcause r' = mcause r /\ mtval r' = mtval r /\ mepc r' = mepc r).
Proof.
  intros [Hr _] Hp Hc Hpc Hal. destruct (Hr R_mstatus) as [Hu _]. cbn [csr_get] in Hu.
  assert (Z.land pc TRAP_PC_ALIGN_MASK = pc) as Hep.
  { apply align_fix; [done|]. unfold csr_field_get. rewrite mask_ones, Z.land_ones by lia.
    unfold shr64. by rewrite Z.shiftr_0_r. }
  unfold trap_enter.
  destruct (trap_target_spec c cause p Hp Hc) as [[Ht Hdel]|[Ht Hdel]]; rewrite Ht; cbn [PRIV_S PRIV_M Z.eqb Pos.eqb].
  - assert (p = PRIV_U \/ p = PRIV_S) as Hp' by (destruct Hdel as [H _], Hp as [?|[?|?]]; auto; done).
    split; [destruct Hp' as [-> | ->]; done|]. split; [by split|]. split; [by split|].
    split; [intros H; discriminate H|]. intros _.
    change (mstatus (csr_reg (upd_csr_reg _ c))) with (s_push (mstatus (csr_reg c)) p).
    destruct (s_push_spec _ p Hu Hp') as (_ & H1 & H2 & H3 & _).
    split_and!; first [exact H1 | exact H2 | exact H3 | exact Hep | reflexivity].
  - split; [destruct Hp as [-> | [-> | ->]]; done|]. split; [split; [intros H; discriminate H|done]|].
    split; [by split|]. split; [|intros H; discriminate H]. intros _.
    change (mstatus (csr_reg (upd_csr_reg _ c))) with (m_push (mstatus (csr_reg c)) p).
    destruct (m_push_spec _ p Hu Hp) as (_ & H1 & H2 & H3 & _).
    split_and!; first [exact H1 | exact H2 | exact H3 | exact Hep | reflexivity].
Qed.

Lemma trap_enter_spec_witness :
  let '(_, c', p') := trap_enter csr_init ECALL_FROM_U_MODE 0 0x80000010 PRIV_U in
  p' = PRIV_M /\ mepc (csr_reg c') = 0x80000010.
Proof.
  pose proof (trap_enter_spec csr_init ECALL_FROM_U_MODE 0 0x80000010 PRIV_U csr_init_wf (or_introl eq_refl)
    ltac:(vm_compute; intuition congruence) ltac:(lia) eq_refl) as H.
  destruct H as (_ & _ & _ & H & _). split; [reflexivity|]. apply (H eq_refl).
Defined.

(** The mode that handles the trap and the return instruction of its handler. *)
Definition trap_return (c : csr_t) (p : Z) : Z * csr_t * Z :=
  if p =? PRIV_M then trap_exit_mret c p else trap_exit_sret c p.

Lemma trap_exit_mret_eq c p : exists c',
  trap_exit_mret c p = (Z.land (mepc (csr_reg c)) TRAP_PC_ALIGN_MASK, c',
                        csr_field_get (mstatus (csr_reg c)) MSTATUS_MPP_POS 2) /\
  mstatus (csr_reg c') = m_pop (mstatus (csr_reg c)).
Proof.
  exists (trap_exit_mret c p).1.2. unfold trap_exit_mret. cbn [fst snd]. split.
  - do 2 f_equal. change (csr_reg (upd_csr_reg ?f c)) with (f (csr_reg c)). cbv beta zeta. by destruct (_ <? _).
  - change (csr_reg (upd_csr_reg ?f c)) with (f (csr_reg c)). unfold m_pop. cbv beta zeta.
    by destruct (_ <? _).
Qed.

Lemma trap_exit_sret_eq c p : exists c',
  trap_exit_sret c p = (Z.land (sepc (csr_reg c)) TRAP_PC_ALIGN_MASK, c',
                        csr_field_get (mstatus (csr_reg c)) MSTATUS_SPP_POS 1) /\
  mstatus (csr_reg c') = s_pop (mstatus (csr_reg c)).
Proof.
  exists (trap_exit_sret c p).1.2. unfold trap_exit_sret. cbn [fst snd]. split.
  - do 2 f_equal. change (csr_reg (upd_csr_reg ?f c)) with (f (csr_reg c)). cbv beta zeta. by destruct (_ <? _).
  - change (csr_reg (upd_csr_reg ?f c)) with (f (csr_reg c)). unfold s_pop. cbv beta zeta.
    by destruct (_ <? _).
Qed.

(** C21: a handler that returns at once (MRET from M-mode, SRET from S-mode)
    resumes the interrupted program: same pc, same privilege mode, same interrupt
    enables; of [mstatus] only the previous-state fields and, when the program
    runs below M-mode, MPRV differ. *)
Theorem trap_round_trip c cause tval pc p :
  csr_wf c -> priv_ok p -> 0 <= cause mod 2 ^ 63 < 64 -> is_u 64 pc -> pc mod 4 = 0 ->
  let '(_, c1, p1) := trap_enter c cause tval pc p in
  let '(pc', c2, p2) := trap_return c1 p1 in
  pc' = pc /\ p2 = p /\
  (forall i, 0 <= i -> i ∉ [5; 7; 8; 11; 12; 17] ->
     Z.testbit (mstatus (csr_reg c2)) i = Z.testbit (mstatus (csr_reg c)) i) /\
  (p = PRIV_M -> Z.testbit (mstatus (csr_reg c2)) MSTATUS_MPRV_POS
                 = Z.testbit (mstatus (csr_reg c)) MSTATUS_MPRV_POS).
Proof.
  intros [Hr _] Hp Hc Hpc Hal. destruct (Hr R_mstatus) as [Hu _]. cbn [csr_get] in Hu.
  assert (Z.land pc TRAP_PC_ALIGN_MASK = pc) as Hep.
  { apply align_fix; [done|]. unfold csr_field_get. rewrite mask_ones, Z.land_ones by lia.
    unfold shr64. by rewrite Z.shiftr_0_r. }
  unfold trap_enter, trap_return.
  destruct (trap_target_spec c cause p Hp Hc) as [[Ht Hdel]|[Ht Hdel]]; rewrite Ht; cbn [PRIV_S PRIV_M Z.eqb Pos.eqb].
  - assert (p = PRIV_U \/ p = PRIV_S) as Hp' by (destruct Hdel as [H _], Hp as [?|[?|?]]; auto; done).
    destruct (s_push_spec _ p Hu Hp') as (Hu' & H1 & H2 & H3 & H4).
    destruct (trap_exit_sret_eq (upd_csr_reg (fun r =>
        (set_field R_mstatus MSTATUS_SPP_POS 1 p (set_field R_mstatus MSTATUS_SIE_POS 1 0
           (set_field R_mstatus MSTATUS_SPIE_POS 1 (csr_field_get (mstatus r) MSTATUS_SIE_POS 1) r)))
          <| stval := tval |> <| scause := cause |> <| sepc := Z.land pc TRAP_PC_ALIGN_MASK |>) c) PRIV_S)
      as (c' & -> & ->).
    change (sepc (csr_reg (upd_csr_reg _ c))) with (Z.land pc TRAP_PC_ALIGN_MASK).
    change (mstatus (csr_reg (upd_csr_reg _ c))) with (s_push (mstatus (csr_reg c)) p).
    split; [by rewrite !Hep|]. split; [exact H3|]. split.
    + intros i Hi Hn. rewrite s_pop_spec by done.
      destruct (Z.eqb_spec i 1) as [->|]; [exact H2|].
      rewrite !(proj2 (Z.eqb_neq i _)) by (intros ->; apply Hn; set_solver). cbn [orb].
      apply H4; [done|done|intros ->; apply Hn; set_solver..].
    + intros ->. by destruct Hp'.
  - destruct (m_push_spec _ p Hu Hp) as (Hu' & H1 & H2 & H3 & H4).
    destruct (trap_exit_mret_eq (upd_csr_reg (fun r =>
        (set_field R_mstatus MSTATUS_MPP_POS 2 p (set_field R_mstatus MSTATUS_MIE_POS 1 0
           (set_field R_mstatus MSTATUS_MPIE_POS 1 (csr_field_get (mstatus r) MSTATUS_MIE_POS 1) r)))
          <| mtval := tval |> <| mcause := cause |> <| mepc := Z.land pc TRAP_PC_ALIGN_MASK |>) c) PRIV_M)
      as (c' & -> & ->).
    change (mepc (csr_reg (upd_csr_reg _ c))) with (Z.land pc TRAP_PC_ALIGN_MASK).
    change (mstatus (csr_reg (upd_csr_reg _ c))) with (m_push (mstatus (csr_reg c)) p).
    split; [by rewrite !Hep|]. split; [exact H3|]. split.
    + intros i Hi Hn. rewrite m_pop_spec by done.
      destruct (Z.eqb_spec i 3) as [->|]; [exact H2|].
      rewrite !(proj2 (Z.eqb_neq i _)) by (intros ->; apply Hn; set_solver). cbn [orb andb].
      apply H4; [done|done|intros ->; apply Hn; set_solver..].
    + intros ->. rewrite m_pop_spec by (done || vm_compute; congruence).
      change (csr_field_get (m_push (mstatus (csr_reg c)) PRIV_M) 11 2)
        with (csr_field_get (m_push (mstatus (csr_reg c)) PRIV_M) MSTATUS_MPP_POS 2).
      rewrite H3. by apply H4.
Qed.

Lemma trap_round_trip_witness :
  let '(_, c1, p1) := trap_enter csr_init BREAKPOINT 0 0x80000010 PRIV_U in
  let '(pc', c2, p2) := trap_return c1 p1 in pc' = 0x80000010 /\ p2 = PRIV_U.
Proof.
  pose proof (trap_round_trip csr_init BREAKPOINT 0 0x80000010 PRIV_U csr_init_wf (or_introl eq_refl)
    ltac:(vm_compute; intuition congruence) ltac:(lia) eq_refl) as H.
  destruct H as (H1 & H2 & _). split; [exact H1|exact H2].
Defined.

(** ** Interrupts *)

(** Interrupt [id] can be taken in mode [p]: pending, enabled, and its target mode
    is above [p], or is [p] with interrupts enabled there. *)
Definition takeable (c : csr_t) (p id : Z) : Prop :=
  let r := csr_reg c in
  Z.testbit (mip r) id = true /\ Z.testbit (mie r) id = true /\
  (if Z.testbit (mideleg r) id
   then p < PRIV_S \/ (p = PRIV_S /\ Z.testbit (mstatus r) MSTATUS_SIE_POS = true)
   else p < PRIV_M \/ (p = PRIV_M /\ Z.testbit (mstatus r) MSTATUS_MIE_POS = true)).

Lemma check_interrupt_iff c p id : 0 <= id -> check_interrupt c p id = true <-> takeable c p id.
Proof.
  intros Hid. unfold check_interrupt, takeable, MSTATUS_MIE_POS, MSTATUS_SIE_POS, PRIV_S, PRIV_M.
  rewrite !csr_field_get_1, !b2z_neq0 by lia.
  destruct (Z.testbit (mip _) id), (Z.testbit (mie _) id); cbn [andb];
    try (split; [repeat case_match; done|intros (? & ? & _); done]).
  destruct (Z.testbit (mideleg _) id); cbn [Z.eqb Pos.eqb].
  - destruct (Z.ltb_spec p 1), (Z.eqb_spec p 1); try lia; naive_solver lia.
  - destruct (Z.ltb_spec p 3), (Z.eqb_spec p 3); try lia; naive_solver lia.
Qed.

Lemma find_first {A} (f : A -> bool) l :
  match find f l with
  | Some x => exists l1 l2, l = l1 ++ x :: l2 /\ f x = true /\ Forall (fun y => f y = false) l1
  | None => Forall (fun y => f y = false) l
  end.
Proof.
  induction l as [|a l IH]; simpl; [done|]. destruct (f a) eqn:E.
  - exists [], l. by repeat constructor.
  - destruct (find f l) as [x|]; [|by constructor].
    destruct IH as (l1 & l2 & -> & Hx & Hl1). exists (a :: l1), l2. by repeat constructor.
Qed.

(** C22: the interrupt taken is the first takeable one in the priority order
    MEI, MSI, MTI, SEI, SSI, STI, and none is taken exactly when none is takeable;
    in M-mode no delegated interrupt is takeable. *)
Theorem interrupt_selection c p :
  (forall id, interrupt_pending_and_enabled c p = Some id ->
     takeable c p id /\
     exists l1 l2, [11; 3; 7; 9; 1; 5] = l1 ++ id :: l2 /\ Forall (fun i => ~ takeable c p i) l1) /\
  (interrupt_pending_and_enabled c p = None <-> Forall (fun i => ~ takeable c p i) [11; 3; 7; 9; 1; 5]) /\
  (p = PRIV_M -> forall id, Z.testbit (mideleg (csr_reg c)) id = true -> ~ takeable c p id).
Proof.
  assert (forall i, 0 <= i -> check_interrupt c p i = false <-> ~ takeable c p i) as Hn.
  { intros i Hi. rewrite <- check_interrupt_iff by done. by destruct (check_interrupt c p i). }
  assert (forall l, Forall (fun i => 0 <= i) l ->
    Forall (fun i => check_interrupt c p i = false) l <-> Forall (fun i => ~ takeable c p i) l) as Hl.
  { induction 1 as [|i l Hi _ IH]; [done|]. rewrite !Forall_cons, Hn, IH by done. done. }
  assert (Forall (fun i => 0 <= i) [11; 3; 7; 9; 1; 5]) as Hpos by (repeat constructor; lia).
  pose proof (find_first (check_interrupt c p) interrupt_id) as Hf.
  change (find (check_interrupt c p) interrupt_id) with (interrupt_pending_and_enabled c p) in Hf.
  change interrupt_id with [11; 3; 7; 9; 1; 5] in Hf.
  split; [|split].
  - intros id Hid. rewrite Hid in Hf. destruct Hf as (l1 & l2 & E & Hx & Hl1).
    rewrite E in Hpos. apply Forall_app in Hpos as [Hp1 Hp2]. apply Forall_cons in Hp2 as [Hp2 _].
    split; [by apply check_interrupt_iff|]. exists l1, l2. split; [done|]. by apply Hl.
  - rewrite <- Hl by done. destruct (interrupt_pending_and_enabled c p) as [id|]; [|done].
    split; [done|]. intros H. destruct Hf as (l1 & l2 & E & Hx & _). rewrite E in H.
    apply Forall_app in H as [_ H]. apply Forall_cons in H as [H _]. congruence.
  - intros -> id Hd (_ & _ & H). rewrite Hd in H. unfold PRIV_M, PRIV_S in H. lia.
Qed.

Lemma interrupt_selection_witness :
  let c := upd_csr_reg (fun r => r <| mip := 0x880 |> <| mie := 0x888 |>) csr_init in
  interrupt_pending_and_enabled c PRIV_U = Some 11 /\ takeable c PRIV_U 11.
Proof.
  split; [reflexivity|].
  apply (proj1 (interrupt_selection (upd_csr_reg (fun r => r <| mip := 0x880 |> <| mie := 0x888 |>) csr_init) PRIV_U)).
  reflexivity.
Defined.

(** ** Counters *)

(** One instruction that accesses a CSR and retires. *)
Definition csr_instruction (c : csr_t) (lv : bool * bool * bool * bool) (addr : Z) (op : csr_op_t)
    (value : Z) (rd wr : bool) (t p : Z) : option (option Z) * csr_t :=
  let '(meip, msip, mtip, seip) := lv in
  let '(r, c) := csr_access (csr_begin_update c meip msip mtip seip) addr op value rd wr t p in
  (r, csr_end_update c (bool_decide (is_Some r))).

Lemma csr_end_update_counters c b :
  mcycle (csr_reg (csr_end_update c b)) =
    (if Z.testbit (starting_mcountinhibit c) 0 || mcycle_written c
     then mcycle (csr_reg c) else add64 (mcycle (csr_reg c)) 1) /\
  minstret (csr_reg (csr_end_update c b)) =
    (if Z.testbit (starting_mcountinhibit c) 2 || minstret_written c || negb b
     then minstret (csr_reg c) else add64 (minstret (csr_reg c)) 1).
Proof.
  unfold csr_end_update. rewrite !csr_field_get_1 by (vm_compute; congruence).
  change COUNTER_IR_POS with 2. change COUNTER_CY_POS with 0.
  destruct c as [r s cy ir sa]. cbn [starting_mcountinhibit minstret_written].
  destruct (Z.testbit s 2) eqn:E2, (Z.testbit s 0) eqn:E0, ir, cy, b; cbv -[add64 Z.testbit]; rewrite ?E0, ?E2; done.
Qed.

(** [minstret] counts the retired instructions and [mcycle] the steps, modulo
    2^64: an instruction that writes a counter leaves the value it wrote, any
    other advances it by one unless the inhibit bit was set when it started, and
    an instruction that traps does not count as retired. *)
Theorem counters_advance c lv addr op value rd wr t p :
  is_u 64 value -> op = CSR_OP_RW ->
  let '(r, c') := csr_instruction c lv addr op value rd wr t p in
  let r0 := csr_reg c in let r1 := csr_reg c' in
  mcycle r1 =
    (if decide (addr = CSR_MCYCLE /\ wr = true /\ is_Some r) then value
     else if Z.testbit (mcountinhibit r0) 0 then mcycle r0 else add64 (mcycle r0) 1) /\
  minstret r1 =
    (if decide (addr = CSR_MINSTRET /\ wr = true /\ is_Some r) then value
     else if Z.testbit (mcountinhibit r0) 2 || negb (bool_decide (is_Some r)) then minstret r0
     else add64 (minstret r0) 1).
Proof.
  intros Hv ->. unfold csr_instruction. destruct lv as [[[b1 b2] b3] b4].
  set (c0 := csr_begin_update c b1 b2 b3 b4).
  pose proof (csr_access_inv c0 addr CSR_OP_RW value rd wr t p) as Hinv. cbv zeta in Hinv.
  destruct (csr_access c0 addr CSR_OP_RW value rd wr t p) as [r c2]. cbn [fst snd] in Hinv.
  assert (starting_mcountinhibit c2 = mcountinhibit (csr_reg c)) as Hs.
  { destruct Hinv as [[-> _]|(n & _ & _ & _ & _ & _ & ->)]; [done|]. apply csr_write_flag_start. }
  destruct (csr_end_update_counters c2 (bool_decide (is_Some r))) as [-> ->]. rewrite Hs. clear Hs.
  change (mcycle (csr_reg ?x)) with (csr_get R_mcycle (csr_reg x)).
  change (minstret (csr_reg ?x)) with (csr_get R_minstret (csr_reg x)).
  destruct Hinv as [[-> Hw]|(n & Hd & _ & -> & Hr & _ & ->)].
  - rewrite !(decide_False (P := addr = _ /\ _)).
    + change (mcycle_written (upd_csr_reg _ c0)) with false. change (minstret_written (upd_csr_reg _ c0)) with false.
      rewrite !orb_false_r. done.
    + intros (-> & -> & ?). destruct Hw as [Hw|[Hw|Hw]]; [done|done|subst r]. by eapply is_Some_None.
    + intros (-> & -> & ?). destruct Hw as [Hw|[Hw|Hw]]; [done|done|subst r]. by eapply is_Some_None.
  - rewrite !csr_write_get. rewrite (bool_decide_true (is_Some r)) by done. cbn [negb]. rewrite !orb_false_r.
    set (c1 := upd_csr_reg _ c0).
    assert (forall m, m <> R_mip -> m <> R_mtime -> csr_get m (csr_reg c1) = csr_get m (csr_reg c)) as Hc1 by (by intros []).
    rewrite !(Hc1 R_mcycle), !(Hc1 R_minstret) by done.
    destruct (decide (addr = CSR_MCYCLE)) as [->|Hcy]; [|destruct (decide (addr = CSR_MINSTRET)) as [->|Hir]].
    + injection Hd as <-. rewrite decide_True by done.
      rewrite !(decide_False (P := CSR_MCYCLE = CSR_MINSTRET /\ _)) by (intros [? _]; discriminate).
      rewrite !(decide_True (P := CSR_MCYCLE = CSR_MCYCLE /\ _)) by done.
      change (mcycle_written _) with true. change (minstret_written _) with false. rewrite orb_true_r, orb_false_r.
      split; done.
    + injection Hd as <-.
      rewrite !(decide_False (P := CSR_MINSTRET = CSR_MCYCLE /\ _)) by (intros [? _]; discriminate).
      rewrite !(decide_True (P := CSR_MINSTRET = CSR_MINSTRET /\ _)) by done.
      change (minstret_written _) with true. change (mcycle_written _) with false. rewrite orb_true_r, orb_false_r.
      split; done.
    + rewrite !(decide_False (P := addr = _ /\ _)) by (intros [? _]; done).
      assert (mcycle_written (csr_write c1 addr n CSR_OP_RW value) = false /\
              minstret_written (csr_write c1 addr n CSR_OP_RW value) = false) as [-> ->].
      { unfold csr_write. change (mcycle_written (upd_csr_reg ?f ?x)) with (mcycle_written x).
        change (minstret_written (upd_csr_reg ?f ?x)) with (minstret_written x). unfold csr_write_flag.
        rewrite (proj2 (Z.eqb_neq addr CSR_MCYCLE)), (proj2 (Z.eqb_neq addr CSR_MINSTRET)) by done.
        by destruct (addr =? CSR_SATP). }
      rewrite !orb_false_r.
      rewrite !(decide_False (P := n = _)).
      * done.
      * intros ->. csr_cases Hd; done.
      * intros ->. csr_cases Hd; done.
Qed.

Lemma counters_advance_witness :
  let '(r, c') := csr_instruction csr_init (false, false, false, false) CSR_MCYCLE CSR_OP_RW 77 true true 5 PRIV_M in
  mcycle (csr_reg c') = 77 /\ minstret (csr_reg c') = 1.
Proof.
  exact (counters_advance csr_init (false, false, false, false) CSR_MCYCLE CSR_OP_RW 77 true true 5 PRIV_M
    ltac:(vm_compute; intuition congruence) eq_refl).
Defined.
