(* ===== verification/Mmu.v ===== *)
(** * Sv39 address translation

    Models [emulator/src/cpu/mmu.c] and [mmu.h] against the bus interface of
    [Bus]: the page-table walk reads its entries through [bread].  A pointer
    argument the walk may leave unwritten is an [option] of the result.  The
    specification half states what the tables mean ([leaf_at], [sv39_leaf]) and
    relates the walk to it. *)
From stdpp Require Import base tactics numbers option list sets.
From S2P Require Import Prelude CInt Bus Csr.

#[local] Open Scope record_scope.
#[local] Open Scope Z_scope.

(** ** Data types *)
Record pte_flag_t := mk_pte_flag {
  flag_a : bool; flag_d : bool; flag_u : bool; flag_x : bool; flag_w : bool; flag_r : bool;
}.

Inductive mmu_access_mode := MMU_READ | MMU_WRITE | MMU_AMO | MMU_EXECUTE.
#[export] Instance mmu_access_mode_eq_dec : EqDecision mmu_access_mode.
Proof. solve_decision. Defined.

(** A [mmu_translation_type] is its number: the core uses it as a trap cause. *)
Definition MMU_VALID : Z := 0.
Definition MMU_INST_ACCESS_FAULT : Z := 1.
Definition MMU_LOAD_ACCESS_FAULT : Z := 5.
Definition MMU_STORE_AMO_ACCESS_FAULT : Z := 7.
Definition MMU_INST_PAGE_FAULT : Z := 12.
Definition MMU_LOAD_PAGE_FAULT : Z := 13.
Definition MMU_STORE_AMO_PAGE_FAULT : Z := 15.

Record Sv39_va_s := mk_Sv39_va { va_page_offset : Z; va_vpn : list Z }.

Record Sv39_pte_s := mk_Sv39_pte {
  pte_v : bool; pte_r : bool; pte_w : bool; pte_x : bool; pte_u : bool; pte_g : bool;
  pte_a : bool; pte_d : bool; pte_rsw : Z; pte_ppn : Z; pte_ppnx : list Z; pte_pbmt : Z; pte_n : bool;
}.

Inductive walker_result := WALKER_VALID | WALKER_ACCESS_FAULT | WALKER_PAGE_FAULT.
#[export] Instance walker_result_eq_dec : EqDecision walker_result.
Proof. solve_decision. Defined.

Definition PAGESIZE : Z := 4096.
Definition PPN_MASK : Z := 0xFFFFFFFFFFF.
Definition PTESIZE_SV39 : Z := 8.
Definition PAGE_OFFSET_MASK : Z := 0xFFF.
Definition SV39_VPNx_MASK : Z := 0x1FF.
Definition SV39_PPN0_MASK : Z := 0x1FF.
Definition SV39_PPN1_MASK : Z := 0x1FF.
Definition SV39_PPN2_MASK : Z := 0x3FFFFFF.

(** ** Parsing *)

(** [(x >> pos) & 0x1] as a truth value. *)
Definition bit_at (x pos : Z) : bool := negb (Z.land (shr64 x pos) 1 =? 0).

Definition parse_sv39_va (va : Z) : option Sv39_va_s :=
  let bit63_39 := shr64 va 39 in
  let bit38 := Z.land (shr64 va 38) 0x1 in
  let bit_equal := if bit38 =? 0 then bit63_39 =? 0 else bit63_39 =? 0x1FFFFFF in
  if negb bit_equal then None
  else Some (mk_Sv39_va (Z.land va PAGE_OFFSET_MASK)
    [ Z.land (shr64 va 12) SV39_VPNx_MASK; Z.land (shr64 va 21) SV39_VPNx_MASK;
      Z.land (shr64 va 30) SV39_VPNx_MASK ]).

Definition parse_sv39_pte (pte : Z) : Sv39_pte_s :=
  mk_Sv39_pte (bit_at pte 0) (bit_at pte 1) (bit_at pte 2) (bit_at pte 3) (bit_at pte 4) (bit_at pte 5)
    (bit_at pte 6) (bit_at pte 7) (Z.land (shr64 pte 8) 0x3) (Z.land (shr64 pte 10) PPN_MASK)
    [ Z.land (shr64 pte 10) SV39_PPN0_MASK; Z.land (shr64 pte 19) SV39_PPN1_MASK;
      Z.land (shr64 pte 28) SV39_PPN2_MASK ]
    (Z.land (shr64 pte 61) 0x3) (bit_at pte 63).

(** [x << 2 | w << 1 | r] *)
Definition xwr_of (x w r : bool) : Z :=
  Z.lor (Z.lor (Z.shiftl (Z.b2z x) 2) (Z.shiftl (Z.b2z w) 1)) (Z.b2z r).

(** ** Permissions *)
Definition pte_permission_check (flag : pte_flag_t) (sstatus : Z) (mode : mmu_access_mode) (priv : Z) : bool :=
  let sstatus_sum := bit_at sstatus 18 in
  let sstatus_mxr := bit_at sstatus 19 in
  let xwr := xwr_of (flag_x flag) (flag_w flag) (flag_r flag) in
  let is_wr := bool_decide (mode = MMU_WRITE) || bool_decide (mode = MMU_AMO) in
  let is_ex := bool_decide (mode = MMU_EXECUTE) in
  if (priv =? PRIV_U) && negb (flag_u flag) then false
  else if (priv =? PRIV_S) && flag_u flag && negb sstatus_sum then false
  else if (priv =? PRIV_S) && flag_u flag && is_ex then false
  else if (xwr =? 1) && (is_ex || is_wr) then false
  else if (xwr =? 3) && is_ex then false
  else if (xwr =? 4) && is_wr then false
  else if (xwr =? 4) && (bool_decide (mode = MMU_READ) || bool_decide (mode = MMU_AMO)) && negb sstatus_mxr
       then false
  else if (xwr =? 5) && is_wr then false
  else if negb (flag_a flag) then false
  else if is_wr && negb (flag_d flag) then false
  else true.

Definition bypass_address_translation (satp mstatus : Z) (mode : mmu_access_mode) (priv : Z) : bool :=
  let satp_mode := Z.land (shr64 satp 60) 0xF in
  let mstatus_mprv := bit_at mstatus 17 in
  let mstatus_mpp := Z.land (shr64 mstatus 11) 0x3 in
  if satp_mode =? 0 then true
  else if (priv =? PRIV_M) && bool_decide (mode = MMU_EXECUTE) then true
  else
    let effective_priv :=
      if mstatus_mprv && negb (bool_decide (mode = MMU_EXECUTE)) then mstatus_mpp else priv in
    effective_priv =? PRIV_M.

(** ** The walk *)

(** What the walk returns: the result, [*pa] and [*flag]. *)
Record walk_out := mk_walk { wo_result : walker_result; wo_pa : option Z; wo_flag : option pte_flag_t }.

(** Step 5: [pte_s.ppnx[i] != 0] for some [i < level]. *)
Definition misaligned_superpage (level : nat) (ppnx : list Z) : bool :=
  existsb (fun i => negb (aget 0 ppnx (Z.of_nat i) =? 0)) (seq 0 level).

(** Step 10. *)
Definition make_pa (level : nat) (va_s : Sv39_va_s) (ppnx : list Z) : Z :=
  let ppn i := if i <? Z.of_nat level then aget 0 (va_vpn va_s) i else aget 0 ppnx i in
  Z.lor (Z.lor (Z.lor (va_page_offset va_s) (shl64 (ppn 0) 12)) (shl64 (ppn 1) 21)) (shl64 (ppn 2) 30).

Section walk.
Context {B : Type} `{!BusOps B}.

(** From [step_2]; the recursion is the [goto step_2] one level down. *)
Fixpoint walk_from (level : nat) (va_s : Sv39_va_s) (pte_base_addr sstatus : Z) (mode : mmu_access_mode)
    (priv : Z) (bus : B) : walk_out * B :=
  let page_fault := mk_walk WALKER_PAGE_FAULT None None in
  let pte_addr := add64 pte_base_addr (aget 0 (va_vpn va_s) (Z.of_nat level) * PTESIZE_SV39) in
  match bread bus pte_addr 8 with
  | (None, bus) => (mk_walk WALKER_ACCESS_FAULT None None, bus)
  | (Some pte, bus) =>
      let pte_s := parse_sv39_pte pte in
      let xwr := xwr_of (pte_x pte_s) (pte_w pte_s) (pte_r pte_s) in
      if negb (pte_v pte_s) || (negb (pte_r pte_s) && pte_w pte_s) || ((xwr =? 2) || (xwr =? 6))
      then (page_fault, bus)
      else if negb (shr64 pte 54 =? 0) then (page_fault, bus)
      else if negb (pte_r pte_s || pte_x pte_s) then
        match level with
        | O => (page_fault, bus)
        | S level =>
            if pte_u pte_s || pte_a pte_s || pte_d pte_s then (page_fault, bus)
            else walk_from level va_s (mul64 (pte_ppn pte_s) PAGESIZE) sstatus mode priv bus
        end
      else if misaligned_superpage level (pte_ppnx pte_s) then (page_fault, bus)
      else
        let pte_flag := mk_pte_flag (pte_a pte_s) (pte_d pte_s) (pte_u pte_s)
                                    (pte_x pte_s) (pte_w pte_s) (pte_r pte_s) in
        if negb (pte_permission_check pte_flag sstatus mode priv)
        then (mk_walk WALKER_PAGE_FAULT None (Some pte_flag), bus)
        else (mk_walk WALKER_VALID (Some (make_pa level va_s (pte_ppnx pte_s))) (Some pte_flag), bus)
  end.

Definition page_table_walk_sv39 (va satp sstatus : Z) (mode : mmu_access_mode) (priv : Z) (bus : B)
    : walk_out * B :=
  let satp_ppn := Z.land satp PPN_MASK in
  match parse_sv39_va va with
  | None => (mk_walk WALKER_PAGE_FAULT None None, bus)
  | Some va_s => walk_from 2 va_s (mul64 satp_ppn PAGESIZE) sstatus mode priv bus
  end.

(** What a translation returns: the type, [*pa] and [*flag]. *)
Record mmu_out := mk_mmu { mo_result : Z; mo_pa : option Z; mo_flag : option pte_flag_t }.

Definition access_fault_of (mode : mmu_access_mode) : Z :=
  match mode with
  | MMU_EXECUTE => MMU_INST_ACCESS_FAULT
  | MMU_READ => MMU_LOAD_ACCESS_FAULT
  | MMU_WRITE | MMU_AMO => MMU_STORE_AMO_ACCESS_FAULT
  end.
Definition page_fault_of (mode : mmu_access_mode) : Z :=
  match mode with
  | MMU_EXECUTE => MMU_INST_PAGE_FAULT
  | MMU_READ => MMU_LOAD_PAGE_FAULT
  | MMU_WRITE | MMU_AMO => MMU_STORE_AMO_PAGE_FAULT
  end.

Definition mmu_translation (va satp mstatus : Z) (mode : mmu_access_mode) (priv : Z) (bus : B) : mmu_out * B :=
  let mstatus_mprv := bit_at mstatus 17 in
  let mstatus_mpp := Z.land (shr64 mstatus 11) 0x3 in
  let effective_priv :=
    if mstatus_mprv && negb (bool_decide (mode = MMU_EXECUTE)) then mstatus_mpp else priv in
  if bypass_address_translation satp mstatus mode priv then (mk_mmu MMU_VALID (Some va) None, bus)
  else
    let '(w, bus) := page_table_walk_sv39 va satp mstatus mode effective_priv bus in
    match wo_result w with
    | WALKER_VALID => (mk_mmu MMU_VALID (wo_pa w) (wo_flag w), bus)
    | WALKER_ACCESS_FAULT => (mk_mmu (access_fault_of mode) (wo_pa w) (wo_flag w), bus)
    | WALKER_PAGE_FAULT => (mk_mmu (page_fault_of mode) (wo_pa w) (wo_flag w), bus)
    end.
End walk.

(** ** The meaning of the tables *)

Definition PPN (pte : Z) : Z := (pte / 2 ^ 10) mod 2 ^ 44.
Definition vpn_at (va : Z) (level : nat) : Z := (va / 2 ^ (12 + 9 * Z.of_nat level)) mod 512.
(** The page a level-[level] leaf maps: 4 KiB, 2 MiB or 1 GiB. *)
Definition page_span (level : nat) : Z := 2 ^ (12 + 9 * Z.of_nat level).
Definition canonical (va : Z) : Prop := va < 2 ^ 38 \/ 2 ^ 64 - 2 ^ 38 <= va.

Definition V_bit (pte : Z) := Z.testbit pte 0.
Definition R_bit (pte : Z) := Z.testbit pte 1.
Definition W_bit (pte : Z) := Z.testbit pte 2.
Definition X_bit (pte : Z) := Z.testbit pte 3.
Definition U_bit (pte : Z) := Z.testbit pte 4.
Definition A_bit (pte : Z) := Z.testbit pte 6.
Definition D_bit (pte : Z) := Z.testbit pte 7.

(** A valid entry: V set, no reserved encoding, no reserved bit. *)
Definition pte_ok (pte : Z) : bool :=
  V_bit pte && (R_bit pte || negb (W_bit pte)) && (pte / 2 ^ 54 =? 0).
Definition pte_is_leaf (pte : Z) : bool := R_bit pte || X_bit pte.
(** A pointer to the next table: U, A and D are reserved. *)
Definition pte_is_table (pte : Z) : bool :=
  negb (pte_is_leaf pte) && negb (U_bit pte || A_bit pte || D_bit pte).
Definition superpage_aligned (level : nat) (pte : Z) : Prop := PPN pte mod 512 ^ Z.of_nat level = 0.
#[export] Instance superpage_aligned_dec level pte : Decision (superpage_aligned level pte).
Proof. unfold superpage_aligned. apply _. Defined.
Definition pte_flags (pte : Z) : pte_flag_t :=
  mk_pte_flag (A_bit pte) (D_bit pte) (U_bit pte) (X_bit pte) (W_bit pte) (R_bit pte).
Definition leaf_pa (va : Z) (level : nat) (pte : Z) : Z := PPN pte * 4096 + va mod page_span level.

(** [leaf_at rd va l base k pte]: from the table [base] of level [l], the entries
    that [va] selects lead to the leaf [pte] of level [k].  [unreadable_at]: they
    lead to an entry that cannot be read. *)
Inductive leaf_at (rd : Z -> option Z) (va : Z) : nat -> Z -> nat -> Z -> Prop :=
  | leaf_here l base pte :
      rd (base + 8 * vpn_at va l) = Some pte -> pte_ok pte = true -> pte_is_leaf pte = true ->
      leaf_at rd va l base l pte
  | leaf_next l base pte k leaf :
      rd (base + 8 * vpn_at va (S l)) = Some pte -> pte_ok pte = true -> pte_is_table pte = true ->
      leaf_at rd va l (4096 * PPN pte) k leaf ->
      leaf_at rd va (S l) base k leaf.

Inductive unreadable_at (rd : Z -> option Z) (va : Z) : nat -> Z -> Prop :=
  | unreadable_here l base :
      rd (base + 8 * vpn_at va l) = None -> unreadable_at rd va l base
  | unreadable_next l base pte :
      rd (base + 8 * vpn_at va (S l)) = Some pte -> pte_ok pte = true -> pte_is_table pte = true ->
      unreadable_at rd va l (4096 * PPN pte) -> unreadable_at rd va (S l) base.

Definition table_root (satp : Z) : Z := 4096 * (satp mod 2 ^ 44).

(** The leaf that maps [va]. *)
Definition sv39_leaf (rd : Z -> option Z) (satp va : Z) (k : nat) (pte : Z) : Prop :=
  canonical va /\ leaf_at rd va 2 (table_root satp) k pte /\ superpage_aligned k pte.

(** The access rules of the privileged architecture. *)
Definition permitted (flag : pte_flag_t) (mstatus : Z) (mode : mmu_access_mode) (priv : Z) : Prop :=
  (priv = PRIV_U -> flag_u flag = true) /\
  (priv = PRIV_S -> flag_u flag = true -> Z.testbit mstatus MSTATUS_SUM_POS = true /\ mode <> MMU_EXECUTE) /\
  match mode with
  | MMU_READ => flag_r flag = true \/ (flag_x flag = true /\ Z.testbit mstatus MSTATUS_MXR_POS = true)
  | MMU_WRITE | MMU_AMO => flag_w flag = true /\ flag_d flag = true
  | MMU_EXECUTE => flag_x flag = true
  end /\
  flag_a flag = true.

(** ** Lemmas *)

Lemma bit_at_testbit x pos : 0 <= pos -> bit_at x pos = Z.testbit x pos.
Proof.
  intros Hp. unfold bit_at, shr64. change 1 with (Z.ones 1). rewrite Z.land_ones by lia.
  rewrite <- Z.bit0_mod, Z.shiftr_spec by lia. replace (0 + pos) with pos by lia. by destruct (Z.testbit x pos).
Qed.

Lemma land_mask x pos n : 0 <= pos -> 0 <= n -> Z.land (shr64 x pos) (Z.ones n) = (x / 2 ^ pos) mod 2 ^ n.
Proof. intros. unfold shr64. by rewrite Z.land_ones, Z.shiftr_div_pow2 by lia. Qed.

(** The check of the code is the rule of the architecture on the encodings a valid leaf can have. *)
Lemma permission_iff flag mstatus mode priv :
  (flag_w flag = true -> flag_r flag = true) -> flag_r flag || flag_x flag = true ->
  pte_permission_check flag mstatus mode priv = true <-> permitted flag mstatus mode priv.
Proof.
  unfold pte_permission_check, permitted, MSTATUS_SUM_POS, MSTATUS_MXR_POS. intros Hw Hrx.
  rewrite !bit_at_testbit by lia.
  destruct flag as [a d u x w r]; cbn [flag_a flag_d flag_u flag_x flag_w flag_r] in *.
  assert (priv = PRIV_U \/ priv = PRIV_S \/ (priv <> PRIV_U /\ priv <> PRIV_S)) as Hp by (unfold PRIV_U, PRIV_S; lia).
  assert (exists xw : bool * bool, (x = xw.1 /\ w = xw.2 /\ r = true) \/ (x = true /\ w = false /\ r = false))
    as [[x' w'] [(-> & -> & ->)|(-> & -> & ->)]]; cbn [fst snd].
  { exists (x, w). clear -Hw Hrx. destruct x, w, r; cbn in *; try (specialize (Hw eq_refl)); try discriminate; auto. }
  all: clear Hw Hrx.
  1: destruct x', w'.
  all: destruct (Z.testbit mstatus 18), (Z.testbit mstatus 19).
  all: destruct Hp as [-> | [-> | [Hu Hs]]];
    [| |rewrite (proj2 (Z.eqb_neq _ _) Hu), (proj2 (Z.eqb_neq _ _) Hs)].
  all: destruct a, d, u, mode; 
    match goal with |- ?l = true <-> _ => let v := eval vm_compute in l in change l with v end;
    unfold PRIV_U, PRIV_S in *;
    (split; [intros H; try discriminate H; split_and!; intros; auto; congruence
            |intros (H1 & H2 & H3 & H4); try reflexivity; exfalso;
             destruct_or?; destruct_and?; try discriminate; try discriminate (H1 eq_refl);
             destruct (H2 eq_refl eq_refl); congruence]).
Qed.

Lemma leaf_flags_valid pte :
  pte_ok pte = true -> pte_is_leaf pte = true ->
  (flag_w (pte_flags pte) = true -> flag_r (pte_flags pte) = true) /\
  flag_r (pte_flags pte) || flag_x (pte_flags pte) = true.
Proof.
  unfold pte_ok, pte_is_leaf. change (flag_w (pte_flags pte)) with (W_bit pte).
  change (flag_r (pte_flags pte)) with (R_bit pte). change (flag_x (pte_flags pte)) with (X_bit pte).
  intros H1 H2. split; [|done]. intros Hw. rewrite Hw in H1. by destruct (V_bit pte), (R_bit pte).
Qed.

(** The conditions of the walk in terms of the specification. *)
Lemma walk_guards pte :
  is_u 64 pte ->
  let s := parse_sv39_pte pte in
  (negb (pte_v s) || (negb (pte_r s) && pte_w s)
   || ((xwr_of (pte_x s) (pte_w s) (pte_r s) =? 2) || (xwr_of (pte_x s) (pte_w s) (pte_r s) =? 6)))
  || negb (shr64 pte 54 =? 0) = negb (pte_ok pte) /\
  (pte_r s || pte_x s) = pte_is_leaf pte /\
  (pte_u s || pte_a s || pte_d s) = (U_bit pte || A_bit pte || D_bit pte) /\
  mk_pte_flag (pte_a s) (pte_d s) (pte_u s) (pte_x s) (pte_w s) (pte_r s) = pte_flags pte /\
  pte_ppn s = PPN pte /\
  pte_ppnx s = [PPN pte mod 512; PPN pte / 512 mod 512; PPN pte / 2 ^ 18].
Proof.
  intros Hu. cbv zeta. unfold parse_sv39_pte.
  cbn [pte_v pte_r pte_w pte_x pte_u pte_a pte_d pte_ppn pte_ppnx]. rewrite !bit_at_testbit by lia.
  unfold pte_ok, pte_is_leaf, pte_flags, V_bit, R_bit, W_bit, X_bit, U_bit, A_bit, D_bit.
  split; [|split; [done|split; [done|split; [done|]]]].
  - unfold shr64. rewrite Z.shiftr_div_pow2 by lia.
    destruct (Z.testbit pte 0), (Z.testbit pte 1), (Z.testbit pte 2), (Z.testbit pte 3), (pte / 2 ^ 54 =? 0); done.
  - change PPN_MASK with (Z.ones 44). change SV39_PPN0_MASK with (Z.ones 9). change SV39_PPN1_MASK with (Z.ones 9).
    change SV39_PPN2_MASK with (Z.ones 26). rewrite !land_mask by lia. unfold PPN. split; [done|].
    change (2 ^ 19) with (2 ^ 10 * 2 ^ 9). change (2 ^ 28) with (2 ^ 10 * 2 ^ 18).
    rewrite <- !Z.div_div by lia. generalize (pte / 2 ^ 10) as q. intros q.
    f_equal; [div_lia|f_equal; [div_lia|f_equal; div_lia]].
Qed.

Lemma parse_va_spec va :
  is_u 64 va ->
  match parse_sv39_va va with
  | Some s => canonical va /\ s = mk_Sv39_va (va mod 4096) [vpn_at va 0; vpn_at va 1; vpn_at va 2]
  | None => ~ canonical va
  end.
Proof.
  intros Hu. unfold parse_sv39_va, canonical. change 0x1 with (Z.ones 1).
  change PAGE_OFFSET_MASK with (Z.ones 12). change SV39_VPNx_MASK with (Z.ones 9).
  rewrite !land_mask, Z.land_ones by lia. unfold shr64. rewrite !Z.shiftr_div_pow2 by lia.
  change (2 ^ 1) with 2.
  destruct (Z.eqb_spec ((va / 2 ^ 38) mod 2) 0).
  - destruct (Z.eqb_spec (va / 2 ^ 39) 0); cbn [negb]; [split; [div_lia|done]|div_lia].
  - destruct (Z.eqb_spec (va / 2 ^ 39) 0x1FFFFFF); cbn [negb]; [split; [div_lia|done]|div_lia].
Qed.

Lemma vpn_at_range va l : 0 <= vpn_at va l < 512.
Proof. apply Z.mod_pos_bound. lia. Qed.
Lemma PPN_range pte : is_u 44 (PPN pte).
Proof. apply Z.mod_pos_bound. lia. Qed.

Lemma vpn_list va l :
  (l <= 2)%nat -> aget 0 [vpn_at va 0; vpn_at va 1; vpn_at va 2] (Z.of_nat l) = vpn_at va l.
Proof. intros Hl. by destruct l as [|[|[|l]]]; [..|lia]. Qed.

Lemma misaligned_superpage_spec l pte :
  (l <= 2)%nat ->
  misaligned_superpage l [PPN pte mod 512; PPN pte / 512 mod 512; PPN pte / 2 ^ 18]
  = negb (bool_decide (superpage_aligned l pte)).
Proof.
  intros Hl. unfold superpage_aligned. pose proof (PPN_range pte) as Hp.
  destruct l as [|[|[|l]]]; [..|lia].
  - rewrite bool_decide_eq_true_2; [done|]. change (512 ^ Z.of_nat 0) with 1. apply Z.mod_1_r.
  - change (misaligned_superpage 1 ?x) with (negb (PPN pte mod 512 =? 0) || false).
    change (512 ^ Z.of_nat 1) with 512. rewrite orb_false_r. f_equal.
    destruct (Z.eqb_spec (PPN pte mod 512) 0); [by rewrite bool_decide_eq_true_2|by rewrite bool_decide_eq_false_2].
  - change (misaligned_superpage 2 ?x) with
      (negb (PPN pte mod 512 =? 0) || (negb ((PPN pte / 512) mod 512 =? 0) || false)).
    change (512 ^ Z.of_nat 2) with 262144. rewrite orb_false_r, <- negb_andb. f_equal. symmetry.
    destruct (Z.eqb_spec (PPN pte mod 512) 0), (Z.eqb_spec (PPN pte / 512 mod 512) 0); cbn [andb];
      first [apply bool_decide_eq_true_2; div_lia | apply bool_decide_eq_false_2; div_lia].
Qed.

(** Disjoint bit fields add up. *)
Lemma lor_shl_add n a b :
  0 <= n -> is_u n a -> 0 <= b -> b * 2 ^ n < 2 ^ 64 -> Z.lor a (shl64 b n) = a + b * 2 ^ n.
Proof.
  intros Hn Ha Hb Hs. unfold shl64. rewrite Z.shiftl_mul_pow2, w64_small by nia.
  apply lor_disjoint_add. apply Z.bits_inj'. intros i Hi. rewrite Z.land_spec, Z.bits_0.
  destruct (decide (n <= i)).
  - by rewrite (testbit_high n a) by done.
  - by rewrite Z.mul_pow2_bits_low, andb_false_r by lia.
Qed.

Lemma make_pa_spec va l pte :
  is_u 64 va -> (l <= 2)%nat -> superpage_aligned l pte ->
  make_pa l (mk_Sv39_va (va mod 4096) [vpn_at va 0; vpn_at va 1; vpn_at va 2])
    [PPN pte mod 512; PPN pte / 512 mod 512; PPN pte / 2 ^ 18] = leaf_pa va l pte.
Proof.
  intros Hu Hl Ha. unfold make_pa, leaf_pa. cbn [va_vpn va_page_offset].
  pose proof (PPN_range pte) as Hp. unfold superpage_aligned in Ha.
  assert (forall o p0 p1 p2, 0 <= o < 4096 -> 0 <= p0 < 512 -> 0 <= p1 < 512 -> 0 <= p2 < 2 ^ 26 ->
    Z.lor (Z.lor (Z.lor o (shl64 p0 12)) (shl64 p1 21)) (shl64 p2 30)
    = o + p0 * 2 ^ 12 + p1 * 2 ^ 21 + p2 * 2 ^ 30) as Hsum.
  { intros o p0 p1 p2 ? ? ? ?. by rewrite (lor_shl_add 12 o p0), (lor_shl_add 21 _ p1), (lor_shl_add 30 _ p2) by lia. }
  pose proof (vpn_at_range va 0). pose proof (vpn_at_range va 1).
  destruct l as [|[|[|l]]]; [..|lia].
  - change (Z.of_nat 0) with 0. change (0 <? 0) with false. change (1 <? 0) with false. change (2 <? 0) with false.
    cbv iota. change (aget 0 (?x :: _) 0) with x. change (aget 0 (_ :: ?x :: _) 1) with x.
    change (aget 0 (_ :: _ :: ?x :: _) 2) with x.
    rewrite Hsum by div_lia. change (page_span 0) with 4096. div_lia.
  - change (Z.of_nat 1) with 1. change (0 <? 1) with true. change (1 <? 1) with false. change (2 <? 1) with false.
    cbv iota. change (aget 0 (?x :: _) 0) with x. change (aget 0 (_ :: ?x :: _) 1) with x.
    change (aget 0 (_ :: _ :: ?x :: _) 2) with x.
    rewrite Hsum by div_lia. change (page_span 1) with (2 ^ 21). change (512 ^ Z.of_nat 1) with 512 in Ha.
    unfold vpn_at. change (2 ^ (12 + 9 * Z.of_nat 0)) with 4096. div_lia.
  - change (Z.of_nat 2) with 2. change (0 <? 2) with true. change (1 <? 2) with true. change (2 <? 2) with false.
    cbv iota. change (aget 0 (?x :: _) 0) with x. change (aget 0 (_ :: ?x :: _) 1) with x.
    change (aget 0 (_ :: _ :: ?x :: _) 2) with x.
    rewrite Hsum by div_lia. change (page_span 2) with (2 ^ 30). change (512 ^ Z.of_nat 2) with 262144 in Ha.
    unfold vpn_at. change (2 ^ (12 + 9 * Z.of_nat 0)) with 4096. change (2 ^ (12 + 9 * Z.of_nat 1)) with (2 ^ 21).
    div_lia.
Qed.

Lemma leaf_not_table p : pte_is_leaf p = true -> pte_is_table p = true -> False.
Proof. unfold pte_is_table. by intros ->. Qed.

(** The relations are deterministic and exclusive. *)
Lemma leaf_at_det rd va l base k1 p1 k2 p2 :
  leaf_at rd va l base k1 p1 -> leaf_at rd va l base k2 p2 -> k1 = k2 /\ p1 = p2.
Proof.
  intros H1. revert k2 p2. induction H1 as [l base pte Hr Ho Hl|l base pte k lf Hr Ho Ht _ IH];
    intros k2 p2 H2; inversion H2; simplify_eq; try done; try (exfalso; by eauto using leaf_not_table).
  by apply IH.
Qed.

Lemma leaf_readable rd va l base k p : leaf_at rd va l base k p -> unreadable_at rd va l base -> False.
Proof.
  induction 1 as [l base pte Hr Ho Hl|l base pte k lf Hr Ho Ht _ IH]; intros H2; inversion H2; simplify_eq;
    eauto using leaf_not_table.
Qed.

Lemma leaf_at_ok rd va l base k p :
  leaf_at rd va l base k p -> (k <= l)%nat /\ pte_ok p = true /\ pte_is_leaf p = true.
Proof. induction 1 as [|l base pte k leaf _ _ _ _ IH]; [done|]. destruct IH as (? & ? & ?). split; [lia|done]. Qed.

Section walk_spec.
Context {B : Type} `{HB : BusLaws B}.

(** Memory as the walk sees it. *)
Definition rd_of (b : B) (a : Z) : option Z := (bread b a 8).1.

Definition walk_ok (va : Z) (l : nat) (base mstatus : Z) (mode : mmu_access_mode) (priv : Z) (b : B)
    (w : walk_out) : Prop :=
  match wo_result w with
  | WALKER_VALID => exists k pte,
      leaf_at (rd_of b) va l base k pte /\ superpage_aligned k pte /\ permitted (pte_flags pte) mstatus mode priv /\
      wo_pa w = Some (leaf_pa va k pte) /\ wo_flag w = Some (pte_flags pte)
  | WALKER_ACCESS_FAULT => unreadable_at (rd_of b) va l base
  | WALKER_PAGE_FAULT =>
      (forall k pte, leaf_at (rd_of b) va l base k pte -> superpage_aligned k pte ->
         ~ permitted (pte_flags pte) mstatus mode priv) /\
      ~ unreadable_at (rd_of b) va l base
  end.

Lemma if_merge {A} (p q : bool) (x y : A) : (if p then x else if q then x else y) = if p || q then x else y.
Proof. by destruct p, q. Qed.

Lemma apply_if2 {A S} (p q : bool) (x y z : A) (s : S) :
  (if p then (x, s) else if q then (y, s) else (z, s)) = (if p then x else if q then y else z, s).
Proof. by destruct p, q. Qed.

(** One level of the walk, in the terms of the specification. *)
Lemma walk_from_step va l base mstatus mode priv b :
  is_u 64 va -> bus_ok b -> (l <= 2)%nat -> 0 <= base -> base + 4096 <= 2 ^ 64 ->
  let s := mk_Sv39_va (va mod 4096) [vpn_at va 0; vpn_at va 1; vpn_at va 2] in
  let page_fault := mk_walk WALKER_PAGE_FAULT None None in
  walk_from l s base mstatus mode priv b =
    match rd_of b (base + 8 * vpn_at va l) with
    | None => (mk_walk WALKER_ACCESS_FAULT None None, b)
    | Some pte =>
        if negb (pte_ok pte) then (page_fault, b)
        else if negb (pte_is_leaf pte) then
          match l with
          | O => (page_fault, b)
          | S l => if U_bit pte || A_bit pte || D_bit pte then (page_fault, b)
                   else walk_from l s (4096 * PPN pte) mstatus mode priv b
          end
        else if negb (bool_decide (superpage_aligned l pte)) then (page_fault, b)
        else if negb (pte_permission_check (pte_flags pte) mstatus mode priv)
        then (mk_walk WALKER_PAGE_FAULT None (Some (pte_flags pte)), b)
        else (mk_walk WALKER_VALID (Some (leaf_pa va l pte)) (Some (pte_flags pte)), b)
    end.
Proof.
  intros Hva Hb Hl Hbase Hmax. cbv zeta. pose proof (vpn_at_range va l) as Hv.
  assert (add64 base (vpn_at va l * PTESIZE_SV39) = base + 8 * vpn_at va l) as Ha
    by (unfold add64, PTESIZE_SV39; rewrite w64_small by lia; lia).
  unfold rd_of. pose proof (bread8_pure b (base + 8 * vpn_at va l)) as Hpure.
  pose proof (bread_u64 b (base + 8 * vpn_at va l) 8) as Hu64.
  destruct l as [|l]; cbn [walk_from va_vpn]; rewrite vpn_list, Ha by done;
    (destruct (bread _ _ 8) as [[pte|] b']; cbn [fst snd] in *; subst b'; [|done]);
    (destruct (walk_guards pte (Hu64 pte Hb eq_refl)) as (G1 & G2 & G3 & G4 & G5 & G6));
    rewrite if_merge, G1, G2, ?G3, G4, ?G5, G6, misaligned_superpage_spec by done;
    (destruct (pte_ok pte); [|done]); cbn [negb]; (destruct (pte_is_leaf pte); cbn [negb]).
  1, 3: match goal with |- context [bool_decide ?P] => destruct (bool_decide_reflect P) end; [|done];
    cbn [negb]; by rewrite make_pa_spec.
  - done.
  - destruct (U_bit pte || A_bit pte || D_bit pte); [done|].
    f_equal. pose proof (PPN_range pte). unfold mul64, PAGESIZE. rewrite w64_small by lia. lia.
Qed.

(** The outcome at a leaf entry. *)
Lemma walk_ok_leaf va n base mstatus mode priv b pte :
  rd_of b (base + 8 * vpn_at va n) = Some pte -> pte_ok pte = true -> pte_is_leaf pte = true ->
  walk_ok va n base mstatus mode priv b
    (if negb (bool_decide (superpage_aligned n pte)) then mk_walk WALKER_PAGE_FAULT None None
     else if negb (pte_permission_check (pte_flags pte) mstatus mode priv)
     then mk_walk WALKER_PAGE_FAULT None (Some (pte_flags pte))
     else mk_walk WALKER_VALID (Some (leaf_pa va n pte)) (Some (pte_flags pte))).
Proof.
  intros Hrd Hok Hleaf.
  assert (leaf_at (rd_of b) va n base n pte) as Hhere by (by constructor).
  assert (forall k p, leaf_at (rd_of b) va n base k p -> k = n /\ p = pte) as Hdet
    by (intros k p Hk; by apply (leaf_at_det _ _ _ _ _ _ _ _ Hk)).
  assert (~ unreadable_at (rd_of b) va n base) as Hread by (by intros ?%(leaf_readable _ _ _ _ _ _ Hhere)).
  destruct (bool_decide_reflect (superpage_aligned n pte)) as [Hal|Hal]; cbn [negb];
    [|split; [by intros k p [-> ->]%Hdet|done]].
  pose proof (permission_iff (pte_flags pte) mstatus mode priv
    (proj1 (leaf_flags_valid pte Hok Hleaf)) (proj2 (leaf_flags_valid pte Hok Hleaf))) as Hperm.
  destruct (pte_permission_check (pte_flags pte) mstatus mode priv); cbn [negb].
  - exists n, pte; split_and!; try done; by apply Hperm.
  - split; [|done]. intros k p [-> ->]%Hdet _ Hp%Hperm; done.
Qed.

Lemma walk_from_spec va l base mstatus mode priv b :
  is_u 64 va -> bus_ok b -> (l <= 2)%nat -> 0 <= base -> base + 4096 <= 2 ^ 64 ->
  let s := mk_Sv39_va (va mod 4096) [vpn_at va 0; vpn_at va 1; vpn_at va 2] in
  walk_ok va l base mstatus mode priv b (walk_from l s base mstatus mode priv b).1 /\
  (walk_from l s base mstatus mode priv b).2 = b.
Proof.
  intros Hva Hb. revert base. induction l as [|l IH]; intros base Hl Hbase Hmax; cbv zeta in *;
    rewrite walk_from_step by done; (destruct (rd_of b (base + 8 * vpn_at va _)) as [pte|] eqn:Hrd;
      [|split; [by constructor|done]]).
  all: destruct (pte_ok pte) eqn:Hok; cbn [negb];
    [|split; [split; [intros k p Hk; inversion Hk; congruence|intros Hk; inversion Hk; congruence]|done]].
  all: destruct (pte_is_leaf pte) eqn:Hleaf; cbn [negb].
  1, 3: rewrite !apply_if2; split; [by apply walk_ok_leaf|done].
  - split; [|done].
    split; [intros k p Hk; inversion Hk; congruence|intros Hk; inversion Hk; congruence].
  - pose proof (PPN_range pte).
    assert (pte_is_table pte = negb (U_bit pte || A_bit pte || D_bit pte)) as Htab
      by (unfold pte_is_table; by rewrite Hleaf).
    destruct (U_bit pte || A_bit pte || D_bit pte); cbn [negb] in Htab.
    + split; [|done].
      split; [intros k p Hk; inversion Hk; congruence|intros Hk; inversion Hk; congruence].
    + destruct (IH (4096 * PPN pte)) as [Hw ->]; [lia..|]. split; [|done]. revert Hw. unfold walk_ok.
      destruct (walk_from l _ _ _ _ _ _) as [w b']; cbn [fst]. destruct (wo_result w).
      * intros (k & p & Hk & ?). exists k, p. split; [|done]. by eapply leaf_next.
      * intros Hk. by eapply unreadable_next.
      * intros [H1 H2]. split.
        -- intros k p Hk. inversion Hk; simplify_eq; [congruence|by apply H1].
        -- intros Hk. inversion Hk; simplify_eq; by apply H2.
Qed.
End walk_spec.

(** ** Properties *)

(** The privilege an access is made with: MPRV redirects loads and stores to MPP. *)
Definition access_priv (mstatus : Z) (mode : mmu_access_mode) (priv : Z) : Z :=
  if Z.testbit mstatus MSTATUS_MPRV_POS && negb (bool_decide (mode = MMU_EXECUTE))
  then csr_field_get mstatus MSTATUS_MPP_POS 2 else priv.

Lemma access_priv_eq mstatus mode priv :
  (if bit_at mstatus 17 && negb (bool_decide (mode = MMU_EXECUTE))
   then Z.land (shr64 mstatus 11) 0x3 else priv) = access_priv mstatus mode priv.
Proof. unfold access_priv, MSTATUS_MPRV_POS. by rewrite bit_at_testbit by lia. Qed.

Lemma bypass_iff satp mstatus mode priv :
  is_u 64 satp ->
  bypass_address_translation satp mstatus mode priv = true <->
  satp / 2 ^ 60 = 0 \/ access_priv mstatus mode priv = PRIV_M.
Proof.
  intros Hs. unfold bypass_address_translation. rewrite access_priv_eq. change 0xF with (Z.ones 4).
  rewrite land_mask by lia. replace ((satp / 2 ^ 60) mod 2 ^ 4) with (satp / 2 ^ 60) by div_lia.
  destruct (Z.eqb_spec (satp / 2 ^ 60) 0); [by intuition|].
  destruct (Z.eqb_spec priv PRIV_M) as [->|Hp]; cbn [andb].
  - destruct (bool_decide_reflect (mode = MMU_EXECUTE)) as [->|Hm].
    + unfold access_priv. rewrite andb_false_r. by intuition.
    + rewrite Z.eqb_eq. by intuition.
  - rewrite Z.eqb_eq. by intuition.
Qed.

Lemma sv39_leaf_det rd satp va k1 p1 k2 p2 :
  sv39_leaf rd satp va k1 p1 -> sv39_leaf rd satp va k2 p2 -> k1 = k2 /\ p1 = p2.
Proof. intros (_ & H1 & _) (_ & H2 & _). by eapply leaf_at_det. Qed.

Section translation.
Context {B : Type} `{HB : BusLaws B}.

(** The walk from the root, for every outcome. *)
Lemma walk_spec va satp mstatus mode priv (b : B) :
  is_u 64 va -> is_u 64 satp -> bus_ok b ->
  let '(w, b') := page_table_walk_sv39 va satp mstatus mode priv b in
  b' = b /\
  match wo_result w with
  | WALKER_VALID => exists k pte, sv39_leaf (rd_of b) satp va k pte /\
      permitted (pte_flags pte) mstatus mode priv /\
      wo_pa w = Some (leaf_pa va k pte) /\ wo_flag w = Some (pte_flags pte)
  | WALKER_ACCESS_FAULT => canonical va /\ unreadable_at (rd_of b) va 2 (table_root satp)
  | WALKER_PAGE_FAULT =>
      (forall k pte, sv39_leaf (rd_of b) satp va k pte -> ~ permitted (pte_flags pte) mstatus mode priv) /\
      (canonical va -> ~ unreadable_at (rd_of b) va 2 (table_root satp))
  end.
Proof.
  intros Hva Hs Hb. unfold page_table_walk_sv39.
  assert (mul64 (Z.land satp PPN_MASK) PAGESIZE = table_root satp) as ->.
  { unfold mul64, PAGESIZE, table_root. change PPN_MASK with (Z.ones 44). rewrite Z.land_ones by lia.
    pose proof (Z.mod_pos_bound satp (2 ^ 44)). rewrite w64_small by lia. lia. }
  pose proof (parse_va_spec va Hva) as Hp. destruct (parse_sv39_va va) as [s|].
  - destruct Hp as [Hc ->]. pose proof (Z.mod_pos_bound satp (2 ^ 44)).
    destruct (walk_from_spec va 2 (table_root satp) mstatus mode priv b) as [Hw He];
      [done|done|lia|unfold table_root; lia..|]. revert Hw He.
    destruct (walk_from _ _ _ _ _ _ _) as [w b']. cbn [fst snd]. intros Hw ->. split; [done|]. revert Hw.
    unfold walk_ok. destruct (wo_result w).
    + intros (k & p & ? & ? & ?). by exists k, p.
    + done.
    + intros [H1 H2]. split; [|done]. intros k p (_ & ? & ?). by eapply H1.
  - split; [done|]. split; [intros k p (Hc & _); by destruct (Hp Hc)|intros Hc; by destruct (Hp Hc)].
Qed.

(** A permitted leaf is found. *)
Lemma mmu_translation_leaf va satp mstatus mode priv (b : B) k pte :
  is_u 64 va -> is_u 64 satp -> bus_ok b -> bypass_address_translation satp mstatus mode priv = false ->
  sv39_leaf (rd_of b) satp va k pte -> permitted (pte_flags pte) mstatus mode (access_priv mstatus mode priv) ->
  let o := (mmu_translation va satp mstatus mode priv b).1 in
  mo_result o = MMU_VALID /\ mo_pa o = Some (leaf_pa va k pte).
Proof.
  intros Hva Hs Hb Hby Hl Hperm. unfold mmu_translation. rewrite Hby, access_priv_eq.
  pose proof (walk_spec va satp mstatus mode (access_priv mstatus mode priv) b Hva Hs Hb) as Hw.
  destruct (page_table_walk_sv39 _ _ _ _ _ _) as [w b']. destruct Hw as [-> Hw].
  destruct (wo_result w); cbn [fst mo_result mo_pa].
  - destruct Hw as (k' & pte' & Hl' & _ & -> & _). by destruct (sv39_leaf_det _ _ _ _ _ _ _ Hl Hl') as [-> ->].
  - destruct Hw as [_ Hun]. destruct Hl as (_ & Hl & _). by destruct (leaf_readable _ _ _ _ _ _ Hl Hun).
  - destruct Hw as [Hno _]. by destruct (Hno k pte Hl).
Qed.

(** C6: translation refines the Sv39 specification: it succeeds exactly when the
    tables map the address with a leaf whose permissions allow the access for the
    effective privilege, and then yields the address of that leaf; it reports an
    access fault exactly when an entry on the way cannot be read and a page fault
    otherwise, with the code of the access type, and leaves the bus unchanged. *)
Theorem mmu_refines_sv39 va satp mstatus mode priv (b : B) :
  is_u 64 va -> is_u 64 satp -> bus_ok b -> bypass_address_translation satp mstatus mode priv = false ->
  let '(o, b') := mmu_translation va satp mstatus mode priv b in
  let p := access_priv mstatus mode priv in
  b' = b /\ mo_result o ∈ [MMU_VALID; access_fault_of mode; page_fault_of mode] /\
  (mo_result o = MMU_VALID <->
     exists k pte, sv39_leaf (rd_of b) satp va k pte /\ permitted (pte_flags pte) mstatus mode p) /\
  (mo_result o = MMU_VALID -> forall k pte, sv39_leaf (rd_of b) satp va k pte ->
     mo_pa o = Some (leaf_pa va k pte) /\ mo_flag o = Some (pte_flags pte)) /\
  (mo_result o = access_fault_of mode <-> canonical va /\ unreadable_at (rd_of b) va 2 (table_root satp)).
Proof.
  intros Hva Hs Hb Hby. unfold mmu_translation. rewrite Hby, access_priv_eq.
  pose proof (walk_spec va satp mstatus mode (access_priv mstatus mode priv) b Hva Hs Hb) as Hw.
  destruct (page_table_walk_sv39 _ _ _ _ _ _) as [w b']. destruct Hw as [-> Hw].
  assert (access_fault_of mode <> MMU_VALID /\ page_fault_of mode <> MMU_VALID /\
          page_fault_of mode <> access_fault_of mode) as (Hav & Hpv & Hpa) by (by destruct mode).
  destruct (wo_result w); cbn [mo_result mo_pa mo_flag]; (split; [done|]); (split; [set_solver|]).
  - destruct Hw as (k & pte & Hl & Hperm & Hpa' & Hfl). split; [split; eauto|].
    split; [|split; [done|]].
    + intros _ k' p' Hl'. by destruct (sv39_leaf_det _ _ _ _ _ _ _ Hl Hl') as [-> ->].
    + intros [_ Hun]. destruct Hl as (_ & Hl & _). by destruct (leaf_readable _ _ _ _ _ _ Hl Hun).
  - split; [split; [done|]|by split].
    intros (k & pte & (_ & Hl & _) & _). destruct Hw as [_ Hun]. by destruct (leaf_readable _ _ _ _ _ _ Hl Hun).
  - destruct Hw as [H1 H2]. split; [split; [done|]|split; [done|split; [done|]]].
    + intros (k & pte & Hl & Hp). by destruct (H1 k pte Hl).
    + intros [Hc Hun]. by destruct (H2 Hc).
Qed.
End translation.

(** A machine whose root table at 0x80000000 maps the first GiB onto RAM. *)
Definition sv39_example : bus_t := (bus_write bus_example 0x80000000 8 0x200000CF).2.
Definition satp_example : Z := 0x8000000000080000.

Lemma sv39_example_wf : bus_wf sv39_example.
Proof. apply bus_write_wf, bus_example_wf. Qed.

Lemma mmu_refines_sv39_witness :
  exists k pte, sv39_leaf (rd_of sv39_example) satp_example 0x1234 k pte /\
    permitted (pte_flags pte) 0 MMU_READ PRIV_S.
Proof.
  pose proof (mmu_refines_sv39 0x1234 satp_example 0 MMU_READ PRIV_S sv39_example
    ltac:(lia) ltac:(vm_compute; intuition congruence) sv39_example_wf eq_refl) as H.
  assert (mmu_translation 0x1234 satp_example 0 MMU_READ PRIV_S sv39_example
    = (mk_mmu MMU_VALID (Some 0x80001234) (Some (pte_flags 0x200000CF)), sv39_example)) as E
    by (vm_compute; reflexivity).
  rewrite E in H. cbv beta iota zeta in H. destruct H as (_ & _ & [H _] & _). exact (H eq_refl).
Defined.

Section page_geometry.
Context {B : Type} `{HB : BusLaws B}.

Lemma page_span_pos k : 0 < page_span k.
Proof. unfold page_span. apply Z.pow_pos_nonneg; lia. Qed.

Lemma leaf_pa_bound va k pte : (k <= 2)%nat -> superpage_aligned k pte -> is_u 56 (leaf_pa va k pte).
Proof.
  intros Hk Ha. unfold leaf_pa, superpage_aligned in *. pose proof (PPN_range pte).
  pose proof (page_span_pos k). pose proof (Z.mod_pos_bound va (page_span k)).
  destruct k as [|[|[|k]]]; [..|lia].
  - change (page_span 0) with 4096 in *. lia.
  - change (page_span 1) with (2 ^ 21) in *. change (512 ^ Z.of_nat 1) with 512 in Ha. div_lia.
  - change (page_span 2) with (2 ^ 30) in *. change (512 ^ Z.of_nat 2) with 262144 in Ha. div_lia.
Qed.

Lemma vpn_at_span va va' k l :
  (k <= l)%nat -> va / page_span k = va' / page_span k -> vpn_at va l = vpn_at va' l.
Proof.
  intros Hk H. unfold vpn_at, page_span in *. replace (12 + 9 * Z.of_nat l) with (12 + 9 * Z.of_nat k + 9 * Z.of_nat (l - k)) by lia.
  rewrite Z.pow_add_r, <- !Z.div_div by first [lia | apply Z.pow_pos_nonneg; lia | apply Z.pow_nonzero; lia].
  by rewrite H.
Qed.

(** The leaf of an address maps every address of its page. *)
Lemma sv39_leaf_span rd satp va va' k pte :
  is_u 64 va -> is_u 64 va' -> sv39_leaf rd satp va k pte -> va / page_span k = va' / page_span k ->
  sv39_leaf rd satp va' k pte.
Proof.
  intros Hu Hu' (Hc & Hl & Ha) Hs. pose proof (leaf_at_ok _ _ _ _ _ _ Hl) as (Hk & _).
  split; [|split; [|done]].
  - unfold canonical, page_span in *. destruct k as [|[|[|k]]]; [..|lia].
    + change (12 + 9 * Z.of_nat 0) with 12 in Hs. div_lia.
    + change (12 + 9 * Z.of_nat 1) with 21 in Hs. div_lia.
    + change (12 + 9 * Z.of_nat 2) with 30 in Hs. div_lia.
  - clear Hc Ha Hk. induction Hl as [l base pte Hr Ho Hlf|l base pte k lf Hr Ho Ht Hl IH].
    + apply leaf_here; [|done..]. by rewrite <- (vpn_at_span va va' l l).
    + pose proof (leaf_at_ok _ _ _ _ _ _ Hl) as (Hk & _).
      eapply leaf_next; [|done..|by apply IH]. by rewrite <- (vpn_at_span va va' k (S l)) by (done || lia).
Qed.

(** A successful translation maps the whole page linearly: physical addresses
    have 56 bits, the page offset is kept, and every address of the same 4 KiB,
    2 MiB or 1 GiB page is translated, for the same access, to the address at the
    same distance. *)
Theorem translation_linear va va' satp mstatus mode priv (b : B) k pte pa :
  is_u 64 va -> is_u 64 va' -> is_u 64 satp -> bus_ok b ->
  bypass_address_translation satp mstatus mode priv = false ->
  sv39_leaf (rd_of b) satp va k pte -> va / page_span k = va' / page_span k ->
  mmu_translation va satp mstatus mode priv b = (mk_mmu MMU_VALID (Some pa) (Some (pte_flags pte)), b) ->
  is_u 56 pa /\ pa mod 4096 = va mod 4096 /\
  mmu_translation va' satp mstatus mode priv b =
    (mk_mmu MMU_VALID (Some (pa + (va' - va))) (Some (pte_flags pte)), b).
Proof.
  intros Hu Hu' Hs Hb Hby Hl Hspan E. pose proof (sv39_leaf_span _ _ _ _ _ _ Hu Hu' Hl Hspan) as Hl'.
  revert E. unfold mmu_translation. rewrite Hby, access_priv_eq.
  pose proof (walk_spec va satp mstatus mode (access_priv mstatus mode priv) b Hu Hs Hb) as Hw.
  pose proof (walk_spec va' satp mstatus mode (access_priv mstatus mode priv) b Hu' Hs Hb) as Hw'.
  destruct (page_table_walk_sv39 va _ _ _ _ _) as [w b1], (page_table_walk_sv39 va' _ _ _ _ _) as [w' b2].
  destruct Hw as [-> Hw], Hw' as [-> Hw'].
  destruct (wo_result w); [|by destruct mode..]. intros [= Hpa Hfl].
  destruct Hw as (k1 & p1 & Hl1 & Hperm & Hpa1 & Hfl1).
  destruct (sv39_leaf_det _ _ _ _ _ _ _ Hl Hl1) as [<- <-]. rewrite Hpa1 in Hpa. injection Hpa as <-.
  destruct Hl as (Hc & Hlat & Ha). pose proof (leaf_at_ok _ _ _ _ _ _ Hlat) as (Hk & _).
  split; [by apply leaf_pa_bound|]. split.
  { unfold leaf_pa. rewrite Z.add_comm, Z_mod_plus_full. apply Z.mod_mod_divide.
    exists (512 ^ Z.of_nat k). unfold page_span. rewrite Z.pow_add_r, Z.pow_mul_r by lia. apply Z.mul_comm. }
  destruct (wo_result w').
  - destruct Hw' as (k2 & p2 & Hl2 & _ & -> & ->). destruct (sv39_leaf_det _ _ _ _ _ _ _ Hl' Hl2) as [<- <-].
    assert (leaf_pa va' k pte = leaf_pa va k pte + (va' - va)) as ->; [|done].
    unfold leaf_pa. pose proof (page_span_pos k). rewrite (Z.mod_eq va'), (Z.mod_eq va), Hspan by lia. lia.
  - destruct Hw' as [_ Hun]. destruct Hl' as (_ & Hlat' & _). by destruct (leaf_readable _ _ _ _ _ _ Hlat' Hun).
  - destruct Hw' as [Hno _]. by destruct (Hno k pte Hl').
Qed.
End page_geometry.

Lemma translation_linear_witness :
  mmu_translation 0x3fffffff satp_example 0 MMU_READ PRIV_S sv39_example
  = (mk_mmu MMU_VALID (Some (0x80001234 + (0x3fffffff - 0x1234))) (Some (pte_flags 0x200000CF)), sv39_example).
Proof.
  refine (proj2 (proj2 (translation_linear 0x1234 0x3fffffff satp_example 0 MMU_READ PRIV_S sv39_example
    2 0x200000CF 0x80001234 ltac:(lia) ltac:(lia) ltac:(vm_compute; intuition congruence) sv39_example_wf
    eq_refl _ eq_refl _))).
  - split; [left; lia|]. split; [|reflexivity]. apply leaf_here; vm_compute; reflexivity.
  - vm_compute. reflexivity.
Defined.

(** ** The reads of a walk *)

Section reads.
Context {B : Type} `{!BusOps B}.

(** A bus that also records the accesses: direction, address and size. *)
#[local] Instance logged_ops : BusOps (B * list (bool * Z * Z)) := {|
  bread s a n := let '(v, b) := bread s.1 a n in (v, (b, s.2 ++ [(false, a, n)]));
  bwrite s a n d := let '(r, b) := bwrite s.1 a n d in (r, (b, s.2 ++ [(true, a, n)]));
  bmtime s := bmtime s.1;
|}.

Definition is_pte_read (x : bool * Z * Z) : Prop := x.1.1 = false /\ x.1.2 mod 8 = 0 /\ x.2 = 8.

Lemma pte_addr_aligned base v : base mod 8 = 0 -> add64 base (v * PTESIZE_SV39) mod 8 = 0.
Proof. intros H. unfold add64, w64, PTESIZE_SV39. change (2 ^ 64) with (8 * 2 ^ 61). div_lia. Qed.
Lemma table_aligned ppn : mul64 ppn PAGESIZE mod 8 = 0.
Proof. unfold mul64, w64, PAGESIZE. change (2 ^ 64) with (8 * 2 ^ 61). div_lia. Qed.

Lemma walk_from_reads l va_s base mstatus mode priv b log :
  base mod 8 = 0 ->
  exists log', (walk_from l va_s base mstatus mode priv (b, log)).2.2 = log ++ log' /\
    (1 <= length log' <= S l)%nat /\ Forall is_pte_read log'.
Proof.
  revert base b log. induction l as [|l IH]; intros base b log Hbase; cbn [walk_from bread logged_ops fst snd].
  all: match goal with |- context [bread ?b (add64 ?base ?x) 8] =>
      assert (is_pte_read (false, add64 base x, 8)) as He
        by (split; [done|split; [by apply pte_addr_aligned|done]]);
      revert He; generalize (add64 base x); intros addr He;
      assert (Forall is_pte_read [(false, addr, 8)]) as He1 by (by apply Forall_singleton);
      destruct (bread b addr 8) as [[pte|] b1]; [|exists [(false, addr, 8)]; split_and!; simpl; (done || lia)]
    end.
  - exists [(false, addr, 8)]. split_and!; [|simpl; lia..|done].
    by repeat match goal with |- context [if ?c then _ else _] => destruct c end.
  - repeat (match goal with |- context [if ?c then _ else _] => destruct c end;
      [exists [(false, addr, 8)]; split_and!; simpl; (done || lia)|]).
    destruct (negb _).
    + destruct (_ || _); [exists [(false, addr, 8)]; split_and!; simpl; (done || lia)|].
      destruct (IH (mul64 (pte_ppn (parse_sv39_pte pte)) PAGESIZE) b1 (log ++ [(false, addr, 8)]))
        as (log' & -> & Hlen & Hall); [apply table_aligned|].
      exists ((false, addr, 8) :: log'). split; [by rewrite <- app_assoc|]. split; [simpl; lia|by constructor].
    + exists [(false, addr, 8)]. split_and!; [|simpl; lia..|done].
      by repeat match goal with |- context [if ?c then _ else _] => destruct c end.
Qed.

(** Every walk ends after at most three reads of the bus; they are the only
    accesses it makes, and each is an aligned 8-byte read. *)
Theorem walk_terminates va satp mstatus mode priv (b : B) :
  let log := (page_table_walk_sv39 (B := B * list (bool * Z * Z)) va satp mstatus mode priv (b, [])).2.2 in
  (length log <= 3)%nat /\ Forall is_pte_read log.
Proof.
  unfold page_table_walk_sv39. destruct (parse_sv39_va va) as [s|]; cbv zeta.
  - destruct (walk_from_reads 2 s (mul64 (Z.land satp PPN_MASK) PAGESIZE) mstatus mode priv b [])
      as (log & -> & Hlen & Hall); [apply table_aligned|]. split; [simpl app; lia|done].
  - split; [simpl; lia|constructor].
Qed.
End reads.
