(* ===== verification/Tlb.v ===== *)
(** * Translation look-aside buffer

    Models [emulator/src/cpu/tlb.c] and [tlb.h] in the configuration of the
    header ([USE_TLB] defined): a direct-mapped cache of leaf translations in
    front of [Mmu.mmu_translation].  [tlb_stats_report] only prints. *)
From stdpp Require Import base tactics numbers option list sets.
From S2P Require Import Prelude CInt Bus Csr Mmu.

#[local] Open Scope record_scope.
#[local] Open Scope Z_scope.

(** ** tlb.h *)
Definition TLB_SIZE : Z := 256.
Definition TLB_MASK : Z := TLB_SIZE - 1.

Record tlb_entry_t := mk_tlb_entry {
  te_valid : bool; te_flag : pte_flag_t; te_asid : Z; te_tag : Z; te_ppn : Z;
}.

Record tlb_t := mk_tlb { tlb : list tlb_entry_t; hit : Z; miss : Z }.
#[export] Instance eta_tlb : Eta tlb_t := fun t => mk_tlb (tlb t) (hit t) (miss t).

(** ** tlb.c *)
Definition ASID_OFFSET : Z := 44.
Definition ASID_MASK : Z := 0xFFFF.

(** The all-zero entry [memset] leaves. *)
Definition tlb_entry_zero : tlb_entry_t := mk_tlb_entry false (mk_pte_flag false false false false false false) 0 0 0.

Definition tlb_void (t : tlb_t) : tlb_t := t <| tlb := replicate (Z.to_nat TLB_SIZE) tlb_entry_zero |>.

Definition tlb_init (t : tlb_t) : Z * tlb_t := (0, tlb_void t).

Section lookup.
Context {B : Type} `{!BusOps B}.

(** What a look-up returns: the type and [*pa]. *)
Record tlb_out := mk_tlb_out { to_result : Z; to_pa : option Z }.

Definition tlb_lookup (t : tlb_t) (va satp mstatus : Z) (mode : mmu_access_mode) (priv : Z) (bus : B)
    : tlb_out * tlb_t * B :=
  let asid := Z.land (shr64 satp ASID_OFFSET) ASID_MASK in
  let vpn := shr64 va 12 in
  let offset := Z.land va 0xFFF in
  let index := Z.land vpn TLB_MASK in
  if bypass_address_translation satp mstatus mode priv then (mk_tlb_out MMU_VALID (Some va), t, bus)
  else
    let e := aget tlb_entry_zero (tlb t) index in
    if te_valid e && ((te_asid e =? asid) && (te_tag e =? vpn)) then
      let pa := Z.lor (shl64 (te_ppn e) 12) offset in
      if negb (pte_permission_check (te_flag e) mstatus mode priv)
      then (mk_tlb_out (page_fault_of mode) (Some pa), t, bus)
      else (mk_tlb_out MMU_VALID (Some pa), t <| hit ::= fun n => add64 n 1 |>, bus)
    else
      let t := t <| miss ::= fun n => add64 n 1 |> in
      let '(o, bus) := mmu_translation va satp mstatus mode priv bus in
      if negb (mo_result o =? MMU_VALID) then (mk_tlb_out (mo_result o) (mo_pa o), t, bus)
      else
        let entry := mk_tlb_entry true (default (te_flag e) (mo_flag o)) asid vpn
                                  (shr64 (default 0 (mo_pa o)) 12) in
        (mk_tlb_out MMU_VALID (mo_pa o), t <| tlb ::= fun l => aset l index entry |>, bus).
End lookup.

(** ** Coherence

    [tlb_coherent]: every valid entry of the current address space agrees with the
    tables in memory.  It is what a flush establishes and what makes the cache
    invisible. *)
Definition asid_of (satp : Z) : Z := (satp / 2 ^ 44) mod 2 ^ 16.

Section coherence.
Context {B : Type} `{HB : BusLaws B}.

Definition entry_coherent (satp : Z) (b : B) (e : tlb_entry_t) : Prop :=
  te_valid e = true -> te_asid e = asid_of satp ->
  0 <= te_tag e < 2 ^ 52 /\
  exists k pte, sv39_leaf (rd_of b) satp (te_tag e * 4096) k pte /\
    te_flag e = pte_flags pte /\ te_ppn e = leaf_pa (te_tag e * 4096) k pte / 4096.

Definition tlb_coherent (t : tlb_t) (satp : Z) (b : B) : Prop :=
  length (tlb t) = 256%nat /\ Forall (entry_coherent satp b) (tlb t).

Lemma tlb_void_coherent t satp b : tlb_coherent (tlb_void t) satp b.
Proof.
  split; [apply length_replicate|]. cbn [tlb_void tlb update]. apply Forall_replicate. intros H; discriminate H.
Qed.

Lemma page_span_4096 k x : x / 4096 * 4096 / page_span k = x / page_span k.
Proof.
  unfold page_span. rewrite Z.pow_add_r by lia. change (2 ^ 12) with 4096.
  assert (0 < 2 ^ (9 * Z.of_nat k)) by (apply Z.pow_pos_nonneg; lia).
  rewrite <- !Z.div_div by lia. by rewrite Z.div_mul by lia.
Qed.

Lemma leaf_pa_page va k pte :
  leaf_pa va k pte = leaf_pa (va / 4096 * 4096) k pte + va mod 4096.
Proof.
  unfold leaf_pa. pose proof (page_span_pos k).
  rewrite (Z.mod_eq va (page_span k)), (Z.mod_eq (va / 4096 * 4096)), page_span_4096 by lia.
  pose proof (Z.mod_eq va 4096). lia.
Qed.

Lemma leaf_pa_page_aligned va k pte : leaf_pa (va / 4096 * 4096) k pte mod 4096 = 0.
Proof.
  unfold leaf_pa. rewrite Z.add_comm, Z_mod_plus_full, Z.mod_mod_divide.
  - by rewrite Z.mod_mul.
  - exists (512 ^ Z.of_nat k). unfold page_span. rewrite Z.pow_add_r, Z.pow_mul_r by lia. apply Z.mul_comm.
Qed.

(** A walk that ends at the leaf of the address. *)
Lemma translation_at_leaf va satp mstatus mode priv (b : B) k pte :
  is_u 64 va -> is_u 64 satp -> bus_ok b -> bypass_address_translation satp mstatus mode priv = false ->
  sv39_leaf (rd_of b) satp va k pte ->
  let '(o, b') := mmu_translation va satp mstatus mode priv b in
  b' = b /\
  (permitted (pte_flags pte) mstatus mode (access_priv mstatus mode priv) ->
     mo_result o = MMU_VALID /\ mo_pa o = Some (leaf_pa va k pte)) /\
  (~ permitted (pte_flags pte) mstatus mode (access_priv mstatus mode priv) ->
     mo_result o = page_fault_of mode).
Proof.
  intros Hva Hs Hb Hby Hl. unfold mmu_translation. rewrite Hby, access_priv_eq.
  pose proof (walk_spec va satp mstatus mode (access_priv mstatus mode priv) b Hva Hs Hb) as Hw.
  destruct (page_table_walk_sv39 _ _ _ _ _ _) as [w b']. destruct Hw as [-> Hw].
  destruct (wo_result w); cbn [mo_result mo_pa]; (split; [done|]).
  - destruct Hw as (k' & p' & Hl' & Hp & Hpa & _). destruct (sv39_leaf_det _ _ _ _ _ _ _ Hl Hl') as [<- <-].
    by split.
  - destruct Hl as (_ & Hl & _). destruct Hw as [_ Hun]. by destruct (leaf_readable _ _ _ _ _ _ Hl Hun).
  - destruct Hw as [Hno _]. split; [|done]. intros Hp. by destruct (Hno k pte Hl).
Qed.

(** A successful walk has a leaf. *)
Lemma translation_has_leaf va satp mstatus mode priv (b : B) :
  is_u 64 va -> is_u 64 satp -> bus_ok b -> bypass_address_translation satp mstatus mode priv = false ->
  let '(o, b') := mmu_translation va satp mstatus mode priv b in
  b' = b /\ (mo_result o = MMU_VALID -> exists k pte, sv39_leaf (rd_of b) satp va k pte /\
    permitted (pte_flags pte) mstatus mode (access_priv mstatus mode priv) /\
    mo_pa o = Some (leaf_pa va k pte) /\ mo_flag o = Some (pte_flags pte)).
Proof.
  intros Hva Hs Hb Hby. unfold mmu_translation. rewrite Hby, access_priv_eq.
  pose proof (walk_spec va satp mstatus mode (access_priv mstatus mode priv) b Hva Hs Hb) as Hw.
  destruct (page_table_walk_sv39 _ _ _ _ _ _) as [w b']. destruct Hw as [-> Hw].
  destruct (wo_result w); cbn [mo_result mo_pa mo_flag]; (split; [done|]); [|by destruct mode..].
  intros _. destruct Hw as (k & pte & Hl & Hp & Hpa & Hfl). by exists k, pte.
Qed.

Lemma tlb_lookup_ok t va satp mstatus mode priv (b : B) :
  is_u 64 va -> is_u 64 satp -> bus_ok b -> tlb_coherent t satp b -> access_priv mstatus mode priv = priv ->
  let '(r, t', b') := tlb_lookup t va satp mstatus mode priv b in
  let o := (mmu_translation va satp mstatus mode priv b).1 in
  to_result r = mo_result o /\ (to_result r = MMU_VALID -> to_pa r = mo_pa o) /\ b' = b /\ tlb_coherent t' satp b.
Proof.
  intros Hva Hs Hb [Hlen Hco] Hpriv. unfold tlb_lookup.
  change ASID_MASK with (Z.ones 16). change TLB_MASK with (Z.ones 8). change 0xFFF with (Z.ones 12).
  unfold ASID_OFFSET. rewrite !land_mask by lia. change ((satp / 2 ^ 44) mod 2 ^ 16) with (asid_of satp).
  unfold shr64. rewrite !Z.shiftr_div_pow2, !Z.land_ones by lia. change (2 ^ 12) with 4096. change (2 ^ 8) with 256.
  destruct (bypass_address_translation satp mstatus mode priv) eqn:Hby.
  { unfold mmu_translation. rewrite Hby. by split_and!. }
  set (index := va / 4096 mod 256). assert (0 <= index < Z.of_nat (length (tlb t))) as Hi
    by (rewrite Hlen; unfold index; div_lia).
  pose proof (aget_Forall (entry_coherent satp b) tlb_entry_zero (tlb t) index (fun H => ltac:(discriminate H)) Hco) as He.
  set (e := aget tlb_entry_zero (tlb t) index) in *.
  destruct (te_valid e && _) eqn:Hhit.
  - apply andb_true_iff in Hhit as [Hv Hhit]. apply andb_true_iff in Hhit as [Has%Z.eqb_eq Htag%Z.eqb_eq].
    destruct (He Hv Has) as (_ & k & pte & Hl & Hfl & Hppn). rewrite Htag in *.
    assert (sv39_leaf (rd_of b) satp va k pte) as Hlva.
    { eapply sv39_leaf_span; [|exact Hva|exact Hl|apply page_span_4096]. div_lia. }
    assert (Z.lor (shl64 (te_ppn e) 12) (va mod 4096) = leaf_pa va k pte) as Hpa.
    { destruct Hlva as (_ & Hlat & Hal). pose proof (leaf_at_ok _ _ _ _ _ _ Hlat) as (Hk & _).
      pose proof (leaf_pa_bound va k pte Hk Hal) as Hbnd. rewrite Z.lor_comm, Hppn, lor_shl_add.
      - rewrite (leaf_pa_page va k pte). pose proof (leaf_pa_page_aligned va k pte). div_lia.
      - lia.
      - div_lia.
      - rewrite (leaf_pa_page va k pte) in Hbnd. pose proof (leaf_pa_page_aligned va k pte). div_lia.
      - rewrite (leaf_pa_page va k pte) in Hbnd. pose proof (leaf_pa_page_aligned va k pte). div_lia. }
    pose proof (translation_at_leaf va satp mstatus mode priv b k pte Hva Hs Hb Hby Hlva) as Ht.
    destruct (mmu_translation _ _ _ _ _ _) as [o b']. destruct Ht as (-> & Hyes & Hno). rewrite Hpriv in *.
    destruct Hlva as (_ & Hlat & _). pose proof (leaf_at_ok _ _ _ _ _ _ Hlat) as (_ & Hok & Hleaf).
    pose proof (permission_iff (pte_flags pte) mstatus mode priv
      (proj1 (leaf_flags_valid pte Hok Hleaf)) (proj2 (leaf_flags_valid pte Hok Hleaf))) as Hperm.
    rewrite Hfl, Hpa. destruct (pte_permission_check (pte_flags pte) mstatus mode priv); cbn [negb to_result to_pa fst].
    + destruct (Hyes (proj1 Hperm eq_refl)) as [-> ->]. by split_and!.
    + rewrite Hno by (intros Hp%Hperm; done). split_and!; try done. by destruct mode.
  - pose proof (translation_has_leaf va satp mstatus mode priv b Hva Hs Hb Hby) as Ht.
    destruct (mmu_translation _ _ _ _ _ _) as [o b']. destruct Ht as [-> Ht]. cbn [fst].
    destruct (Z.eqb_spec (mo_result o) MMU_VALID) as [Ho|Ho]; cbn [negb to_result to_pa]; [|by split_and!].
    split_and!; [done|done|done|]. destruct (Ht Ho) as (k & pte & Hl & _ & Hpa & Hfl). rewrite Hpa, Hfl. cbn [default].
    split; cbn; [by rewrite aset_length|]. apply aset_Forall; [|done]. intros _ _. cbn.
    split; [div_lia|]. exists k, pte. split_and!; [|done|].
    + eapply sv39_leaf_span; [exact Hva| |exact Hl|symmetry; apply page_span_4096]. div_lia.
    + rewrite Z.shiftr_div_pow2 by lia. change (2 ^ 12) with 4096. rewrite (leaf_pa_page va k pte).
      pose proof (leaf_pa_page_aligned va k pte). div_lia.
Qed.

Lemma tlb_lookup_leaf t va satp mstatus mode priv (b : B) :
  is_u 64 va -> is_u 64 satp -> bus_ok b -> tlb_coherent t satp b -> access_priv mstatus mode priv = priv ->
  bypass_address_translation satp mstatus mode priv = false ->
  let '(r, t', b') := tlb_lookup t va satp mstatus mode priv b in
  to_result r = MMU_VALID -> exists k pte, sv39_leaf (rd_of b) satp va k pte /\
    permitted (pte_flags pte) mstatus mode priv /\ to_pa r = Some (leaf_pa va k pte).
Proof.
  intros Hva Hs Hb Hco Hp Hby. pose proof (tlb_lookup_ok t va satp mstatus mode priv b Hva Hs Hb Hco Hp) as H.
  pose proof (translation_has_leaf va satp mstatus mode priv b Hva Hs Hb Hby) as Hl.
  destruct (tlb_lookup _ _ _ _ _ _ _) as [[r t'] b'], (mmu_translation _ _ _ _ _ _) as [o b2]. cbn [fst] in H.
  destruct H as (H1 & H2 & _), Hl as [_ Hl]. intros Hr. rewrite H2 by done. rewrite Hp in Hl.
  destruct Hl as (k & pte & ? & ? & ? & _); [congruence|]. by exists k, pte.
Qed.

(** Coherence depends on what the tables read as only. *)
Lemma sv39_leaf_ext rd rd' satp va k pte :
  (forall a, rd' a = rd a) -> sv39_leaf rd satp va k pte -> sv39_leaf rd' satp va k pte.
Proof.
  intros Hrd (Hc & Hl & Ha). split; [done|]. split; [|done]. clear Hc Ha. revert Hl.
  generalize (table_root satp) as base. generalize 2%nat as l.
  induction 1 as [l base pte Hr Ho Hlf|l base pte k lf Hr Ho Ht Hl IH].
  - apply leaf_here; [by rewrite Hrd|done|done].
  - eapply leaf_next; [by rewrite Hrd|done|done|done].
Qed.

Lemma tlb_coherent_ext t satp b b' :
  (forall a, rd_of b' a = rd_of b a) -> tlb_coherent t satp b -> tlb_coherent t satp b'.
Proof.
  intros Hrd [Hlen Hall]. split; [done|]. eapply Forall_impl; [exact Hall|]. intros e He Hv Has.
  destruct (He Hv Has) as (Ht & k & pte & Hl & H). split; [done|]. exists k, pte. split; [|done].
  by eapply sv39_leaf_ext.
Qed.

(** What the core relies on, coherent or not. *)
Definition fault_codes : list Z :=
  [MMU_VALID; MMU_INST_ACCESS_FAULT; MMU_LOAD_ACCESS_FAULT; MMU_STORE_AMO_ACCESS_FAULT;
   MMU_INST_PAGE_FAULT; MMU_LOAD_PAGE_FAULT; MMU_STORE_AMO_PAGE_FAULT].

Lemma mmu_translation_out va satp mstatus mode priv (b : B) :
  is_u 64 va -> is_u 64 satp -> bus_ok b ->
  let '(o, b') := mmu_translation va satp mstatus mode priv b in
  b' = b /\ mo_result o ∈ fault_codes /\
  (mo_result o = MMU_VALID -> exists pa, mo_pa o = Some pa /\ is_u 64 pa).
Proof.
  intros Hva Hs Hb. unfold mmu_translation. destruct (bypass_address_translation _ _ _ _).
  { split; [done|]. split; [left|]. intros _. by exists va. }
  rewrite access_priv_eq.
  pose proof (walk_spec va satp mstatus mode (access_priv mstatus mode priv) b Hva Hs Hb) as Hw.
  destruct (page_table_walk_sv39 _ _ _ _ _ _) as [w b']. destruct Hw as [-> Hw].
  destruct (wo_result w); cbn [mo_result mo_pa]; (split; [done|]).
  - split; [left|]. intros _. destruct Hw as (k & pte & (_ & Hl & Ha) & _ & Hpa & _).
    pose proof (leaf_at_ok _ _ _ _ _ _ Hl) as (Hk & _). exists (leaf_pa va k pte). split; [done|].
    apply (u_weaken 56); [lia|]. by apply leaf_pa_bound.
  - split; [unfold fault_codes; destruct mode; cbn; set_solver|by destruct mode].
  - split; [unfold fault_codes; destruct mode; cbn; set_solver|by destruct mode].
Qed.

Lemma tlb_lookup_out t va satp mstatus mode priv (b : B) :
  is_u 64 va -> is_u 64 satp -> bus_ok b -> length (tlb t) = 256%nat ->
  let '(r, t', b') := tlb_lookup t va satp mstatus mode priv b in
  b' = b /\ length (tlb t') = 256%nat /\ to_result r ∈ fault_codes /\
  (to_result r = MMU_VALID -> exists pa, to_pa r = Some pa /\ is_u 64 pa).
Proof.
  intros Hva Hs Hb Hlen. unfold tlb_lookup. destruct (bypass_address_translation _ _ _ _).
  { split_and!; try done; [left|]. intros _. by exists va. }
  destruct (te_valid _ && _).
  - destruct (negb _); cbn [to_result to_pa]; (split; [done|]); (split; [done|]).
    + split; [unfold fault_codes; destruct mode; cbn; set_solver|by destruct mode].
    + split; [left|]. intros _. eexists; split; [done|]. apply lor_u; [lia|apply shl64_u|].
      apply (u_weaken 12); [lia|]. change 0xFFF with (Z.ones 12). rewrite Z.land_ones by lia. by apply Z.mod_pos_bound.
  - pose proof (mmu_translation_out va satp mstatus mode priv b Hva Hs Hb) as Ho.
    destruct (mmu_translation _ _ _ _ _ _) as [o b']. destruct Ho as (-> & Hcode & Hpa).
    destruct (Z.eqb_spec (mo_result o) MMU_VALID) as [E|E]; cbn [negb to_result to_pa].
    + split_and!; [done|by cbn; rewrite aset_length|left|]. intros _. by apply Hpa.
    + by split_and!.
Qed.
End coherence.

(** ** Properties *)

Section properties.
Context {B : Type} `{HB : BusLaws B}.

(** C7: the TLB is invisible: while its entries agree with the tables, a look-up
    made with the effective privilege gives the result, and on success the address,
    of a fresh page-table walk, whether it hits, misses or faults; it leaves the
    bus unchanged and the TLB in agreement with the tables. *)
Theorem tlb_transparent t va satp mstatus mode priv (b : B) :
  is_u 64 va -> is_u 64 satp -> bus_ok b -> tlb_coherent t satp b -> access_priv mstatus mode priv = priv ->
  let '(r, t', b') := tlb_lookup t va satp mstatus mode priv b in
  let o := (mmu_translation va satp mstatus mode priv b).1 in
  to_result r = mo_result o /\ (to_result r = MMU_VALID -> to_pa r = mo_pa o) /\ b' = b /\ tlb_coherent t' satp b.
Proof. apply tlb_lookup_ok. Qed.

(** The requests the core makes between two flushes: address, [mstatus], type and privilege. *)
Definition request : Type := Z * Z * mmu_access_mode * Z.
Definition request_ok (q : request) : Prop :=
  let '(va, mstatus, mode, priv) := q in is_u 64 va /\ access_priv mstatus mode priv = priv.

Fixpoint lookups (t : tlb_t) (satp : Z) (qs : list request) (b : B) : list tlb_out :=
  match qs with
  | [] => []
  | (va, mstatus, mode, priv) :: qs =>
      let '(r, t, b) := tlb_lookup t va satp mstatus mode priv b in r :: lookups t satp qs b
  end.

Definition agrees (satp : Z) (b : B) (q : request) (r : tlb_out) : Prop :=
  let '(va, mstatus, mode, priv) := q in
  let o := (mmu_translation va satp mstatus mode priv b).1 in
  to_result r = mo_result o /\ (to_result r = MMU_VALID -> to_pa r = mo_pa o).

Lemma lookups_agree t satp qs b :
  is_u 64 satp -> bus_ok b -> tlb_coherent t satp b -> Forall request_ok qs ->
  Forall2 (agrees satp b) qs (lookups t satp qs b).
Proof.
  intros Hs Hb Hc Hq. revert t Hc. induction Hq as [|[[[va mstatus] mode] priv] qs [Hva Hp] _ IH]; intros t Hc;
    [constructor|]. cbn [lookups].
  pose proof (tlb_lookup_ok t va satp mstatus mode priv b Hva Hs Hb Hc Hp) as H.
  destruct (tlb_lookup _ _ _ _ _ _ _) as [[r t'] b']. destruct H as (H1 & H2 & -> & H3).
  constructor; [by split|]. by apply IH.
Qed.

(** C9: flushing is enough to change address space or page tables: after
    [tlb_void], whatever the TLB held, every sequence of requests in the new space
    is answered as the tables in memory say. *)
Theorem flush_synchronises t satp qs (b : B) :
  is_u 64 satp -> bus_ok b -> Forall request_ok qs ->
  Forall2 (agrees satp b) qs (lookups (tlb_void t) satp qs b).
Proof. intros. apply lookups_agree; try done. apply tlb_void_coherent. Qed.
End properties.

Lemma satp_example_u : is_u 64 satp_example.
Proof. vm_compute. intuition congruence. Qed.

Lemma tlb_transparent_witness :
  let '(r, t', b') := tlb_lookup (tlb_init (mk_tlb [] 0 0)).2 0x1234 satp_example 0 MMU_WRITE PRIV_S sv39_example in
  let o := (mmu_translation 0x1234 satp_example 0 MMU_WRITE PRIV_S sv39_example).1 in
  to_result r = mo_result o /\ (to_result r = MMU_VALID -> to_pa r = mo_pa o) /\ b' = sv39_example /\
  tlb_coherent t' satp_example sv39_example.
Proof.
  apply (tlb_transparent (HB := bus_laws) (tlb_init (mk_tlb [] 0 0)).2 0x1234 satp_example 0 MMU_WRITE PRIV_S sv39_example
    ltac:(lia) satp_example_u sv39_example_wf (tlb_void_coherent _ _ _) eq_refl).
Defined.

Lemma flush_synchronises_witness :
  Forall2 (agrees satp_example sv39_example)
    [(0x1234, 0, MMU_WRITE, PRIV_S); (0x1238, 0, MMU_READ, PRIV_S); (0x1238, 0, MMU_READ, PRIV_U)]
    (lookups (tlb_void (mk_tlb [] 0 0)) satp_example
       [(0x1234, 0, MMU_WRITE, PRIV_S); (0x1238, 0, MMU_READ, PRIV_S); (0x1238, 0, MMU_READ, PRIV_U)] sv39_example) /\
  map to_result (lookups (tlb_void (mk_tlb [] 0 0)) satp_example
       [(0x1234, 0, MMU_WRITE, PRIV_S); (0x1238, 0, MMU_READ, PRIV_S); (0x1238, 0, MMU_READ, PRIV_U)] sv39_example)
  = [MMU_VALID; MMU_VALID; MMU_LOAD_PAGE_FAULT].
Proof.
  split; [|vm_compute; reflexivity].
  apply (flush_synchronises (HB := bus_laws) (mk_tlb [] 0 0) satp_example
    [(0x1234, 0, MMU_WRITE, PRIV_S); (0x1238, 0, MMU_READ, PRIV_S); (0x1238, 0, MMU_READ, PRIV_U)] sv39_example
    satp_example_u sv39_example_wf).
  repeat constructor; lia.
Defined.
