(* ===== verification/Alu.v ===== *)
(** * Multiplication and division

    Models the M-extension helpers of [emulator/src/cpu/cpu.c].  [int128_t] and
    [uint128_t] arithmetic is written out on [Z]; C's [/] and [%] truncate, which
    is [Z.quot] and [Z.rem].  The theorems relate the helpers to the integers the
    registers denote, [s64 x] signed and [x] unsigned. *)
From stdpp Require Import base tactics numbers.
From S2P Require Import Prelude CInt.

#[local] Open Scope Z_scope.

Definition w128 (x : Z) : Z := x mod 2 ^ 128.

Definition mulh (a b : Z) : Z :=
  let sa := s64 a in
  let sb := s64 b in
  let result := sa * sb in
  w64 (Z.shiftr result 64).

Definition mulhu (a b : Z) : Z := w64 (Z.shiftr (w128 (a * b)) 64).

Definition mulhsu (a b : Z) : Z :=
  let sa := w128 (s64 a) in
  w64 (Z.shiftr (w128 (sa * b)) 64).

Definition mulw (a b : Z) : Z :=
  let al := w32 a in
  let bl := w32 b in
  sext (w32 (al * bl)) 32.

Definition div (a b : Z) : Z :=
  let sa := s64 a in
  let sb := s64 b in
  if b =? 0 then UINT64_MAX
  else if (sa =? INT64_MIN) && (sb =? -1) then w64 INT64_MIN
  else w64 (Z.quot sa sb).

Definition divu (a b : Z) : Z :=
  if b =? 0 then UINT64_MAX else Z.quot a b.

Definition rem (a b : Z) : Z :=
  let sa := s64 a in
  let sb := s64 b in
  if b =? 0 then a
  else if (sa =? INT64_MIN) && (sb =? -1) then 0
  else w64 (Z.rem sa sb).

Definition remu (a b : Z) : Z :=
  if b =? 0 then a else Z.rem a b.

Definition divw (a b : Z) : Z :=
  let sa := s32 a in
  let sb := s32 b in
  if sb =? 0 then UINT64_MAX
  else if (sa =? INT32_MIN) && (sb =? -1) then w64 INT32_MIN
  else sext (w64 (Z.quot sa sb)) 32.

Definition divuw (a b : Z) : Z :=
  let al := w32 a in
  let bl := w32 b in
  if bl =? 0 then UINT64_MAX else sext (Z.quot al bl) 32.

Definition remw (a b : Z) : Z :=
  let sa := s32 a in
  let sb := s32 b in
  if sb =? 0 then sext a 32
  else if (sa =? INT32_MIN) && (sb =? -1) then 0
  else sext (w64 (Z.rem sa sb)) 32.

Definition remuw (a b : Z) : Z :=
  let al := w32 a in
  let bl := w32 b in
  if bl =? 0 then sext (w32 a) 32 else sext (Z.rem al bl) 32.

(** ** Lemmas *)

Lemma s64_range x : - 2 ^ 63 <= s64 x < 2 ^ 63.
Proof. apply (signed_range 64). lia. Qed.
Lemma s32_range x : - 2 ^ 31 <= s32 x < 2 ^ 31.
Proof. apply (signed_range 32). lia. Qed.
Lemma s64_small x : - 2 ^ 63 <= x < 2 ^ 63 -> s64 (w64 x) = x.
Proof. intros Hx. apply signed_unique; [lia|done|]. unfold w64. by rewrite Z.mod_mod. Qed.
Lemma s64_sext32 x : s64 (sext x 32) = s32 x.
Proof. by apply sext_spec. Qed.
Lemma s32_w64_small x : - 2 ^ 31 <= x < 2 ^ 31 -> s32 (w64 x) = x.
Proof.
  intros Hx. apply signed_unique; [lia|done|]. unfold w64. symmetry. apply Z.mod_mod_divide. by exists (2 ^ 32).
Qed.
Lemma s64_zero x : is_u 64 x -> s64 x = 0 -> x = 0.
Proof.
  intros Hx H. pose proof (signed_mod 64 x ltac:(lia)) as Hm. unfold s64 in H. rewrite H in Hm.
  rewrite Z.mod_0_l in Hm by lia. rewrite Z.mod_small in Hm by lia. lia.
Qed.

Lemma quot_range a b m :
  0 < m -> - m <= a < m -> b <> 0 -> ~ (a = - m /\ b = -1) -> - m <= Z.quot a b < m.
Proof.
  intros Hm Ha Hb Ho. pose proof (Z.mul_quot_le (Z.abs a) (Z.abs b)) as H. rewrite Z.quot_abs in H by done.
  destruct (decide (b = 1)) as [->|]; [by rewrite Z.quot_1_r|].
  destruct (decide (b = -1)) as [->|].
  - change (-1) with (- (1)). rewrite Z.quot_opp_r, Z.quot_1_r by done. lia.
  - assert (2 * Z.abs (Z.quot a b) <= Z.abs b * Z.abs (Z.quot a b)) by nia. lia.
Qed.

(** The quotient and remainder of the architecture on [m]-bounded integers. *)
Definition divides_as (m a b q r : Z) : Prop :=
  if b =? 0 then q = -1 /\ r = a
  else if (a =? - m) && (b =? -1) then q = a /\ r = 0
  else a = b * q + r /\ Z.abs r < Z.abs b /\ (r = 0 \/ Z.sgn r = Z.sgn a).

Lemma divides_as_quot m a b :
  b <> 0 -> ~ (a = - m /\ b = -1) -> divides_as m a b (Z.quot a b) (Z.rem a b).
Proof.
  intros Hb Ho. unfold divides_as. rewrite (proj2 (Z.eqb_neq b 0)) by done.
  destruct (Z.eqb_spec a (- m)), (Z.eqb_spec b (-1)); cbn [andb]; try (exfalso; by apply Ho).
  all: split; [apply Z.quot_rem'|]; split; [by apply Z.rem_bound_abs|].
  all: destruct (Z.eq_dec (Z.rem a b) 0); [by left|right; by apply Z.rem_sign_nz].
Qed.

(** ** Properties *)

(** MUL and the three MULH forms deliver the two halves of the exact 128-bit
    product of the operands, read signed, unsigned or mixed. *)
Theorem mul_exact a b :
  is_u 64 a -> is_u 64 b ->
  s64 a * s64 b = s64 (mulh a b) * 2 ^ 64 + mul64 a b /\
  a * b = mulhu a b * 2 ^ 64 + mul64 a b /\
  s64 a * b = s64 (mulhsu a b) * 2 ^ 64 + mul64 a b.
Proof.
  intros Ha Hb. pose proof (s64_range a) as Hsa. pose proof (s64_range b) as Hsb.
  assert (forall x y, mul64 a b = (x * y) mod 2 ^ 64 -> - 2 ^ 127 <= x * y < 2 ^ 127 ->
    x * y = s64 (w64 (Z.shiftr (x * y) 64)) * 2 ^ 64 + mul64 a b) as Hgen.
  { intros x y -> Hxy. rewrite Z.shiftr_div_pow2, s64_small by (lia || (split; [apply Z.div_le_lower_bound|apply Z.div_lt_upper_bound]; lia)).
    rewrite (Z.mul_comm (_ / _)). apply Z.div_mod. lia. }
  assert (forall x, is_u 64 x -> s64 x mod 2 ^ 64 = x) as Hmod.
  { intros x Hx. unfold s64. rewrite signed_mod by lia. by apply Z.mod_small. }
  split; [|split].
  - unfold mulh. apply Hgen; [|nia]. unfold mul64, w64. rewrite (Z.mul_mod (s64 a)), !Hmod by lia. done.
  - unfold mulhu, w128, w64, mul64. rewrite Z.shiftr_div_pow2 by lia.
    rewrite (Z.mod_small (a * b)) by nia. rewrite Z.mod_small by (split; [apply Z.div_pos|apply Z.div_lt_upper_bound]; nia).
    rewrite (Z.mul_comm (_ / _)). apply Z.div_mod. lia.
  - assert (mulhsu a b = w64 (Z.shiftr (s64 a * b) 64)) as ->.
    { unfold mulhsu, w128. rewrite Z.mul_mod_idemp_l by lia. unfold w64. zbits. }
    apply Hgen; [|nia]. unfold mul64, w64. by rewrite (Z.mul_mod (s64 a)), Hmod, (Z.mul_mod a b), (Z.mod_small a) by lia.
Qed.

Lemma mul_exact_witness :
  let a := UINT64_MAX in
  s64 a * s64 3 = s64 (mulh a 3) * 2 ^ 64 + mul64 a 3 /\ a * 3 = mulhu a 3 * 2 ^ 64 + mul64 a 3 /\
  s64 a * 3 = s64 (mulhsu a 3) * 2 ^ 64 + mul64 a 3.
Proof. apply (mul_exact UINT64_MAX 3); vm_compute; intuition congruence. Defined.

(** DIV, REM, DIVU and REMU implement the division of the architecture on
    every input: truncated division with a remainder of the dividend's sign, all
    ones and the dividend on a zero divisor, the dividend and zero on the signed
    overflow. *)
Theorem division_spec a b :
  is_u 64 a -> is_u 64 b ->
  divides_as (2 ^ 63) (s64 a) (s64 b) (s64 (div a b)) (s64 (rem a b)) /\
  (b = 0 -> divu a b = UINT64_MAX /\ remu a b = a) /\
  (b <> 0 -> a = b * divu a b + remu a b /\ 0 <= remu a b < b).
Proof.
  intros Ha Hb. pose proof (s64_range a). pose proof (s64_range b). split; [|split].
  - unfold div, rem. destruct (Z.eqb_spec b 0) as [->|Hnz]; [done|].
    assert (s64 b <> 0) as Hsb by (intros H'; apply Hnz; by apply s64_zero).
    change INT64_MIN with (- 2 ^ 63). destruct (_ && _) eqn:E.
    + apply andb_true_iff in E as [E1%Z.eqb_eq E2%Z.eqb_eq]. unfold divides_as. by rewrite E1, E2.
    + assert (~ (s64 a = - 2 ^ 63 /\ s64 b = -1)) as Ho.
      { intros [E1 E2]. by rewrite E1, E2 in E. }
      rewrite !s64_small; [by apply divides_as_quot| |apply quot_range; (done || lia)].
      pose proof (Z.rem_bound_abs (s64 a) (s64 b) Hsb). lia.
  - intros ->. done.
  - intros Hnz. unfold divu, remu. rewrite (proj2 (Z.eqb_neq b 0)) by done.
    split; [apply Z.quot_rem'|apply Z.rem_bound_pos; lia].
Qed.

Lemma division_spec_witness :
  divides_as (2 ^ 63) (- 2 ^ 63) (-1) (s64 (div (2 ^ 63) UINT64_MAX)) (s64 (rem (2 ^ 63) UINT64_MAX)) /\
  (7 = 2 * divu 7 2 + remu 7 2 /\ 0 <= remu 7 2 < 2).
Proof.
  split.
  - exact (proj1 (division_spec (2 ^ 63) UINT64_MAX ltac:(lia) ltac:(vm_compute; intuition congruence))).
  - exact (proj2 (proj2 (division_spec 7 2 ltac:(lia) ltac:(lia))) ltac:(lia)).
Defined.

Lemma u32_zero x : s32 x = 0 -> w32 x = 0.
Proof.
  intros H. pose proof (signed_mod 32 x ltac:(lia)) as Hm. unfold s32 in H. rewrite H in Hm. unfold w32.
  rewrite <- Hm. done.
Qed.

(** The word forms work on the low 32 bits of their operands and return a
    sign-extended 32-bit result: MULW the low word of the product, DIVW and REMW
    the signed division of the words, DIVUW and REMUW the unsigned one. *)
Theorem word_division_spec a b :
  is_u 64 a -> is_u 64 b ->
  s64 (mulw a b) = s32 (a * b) /\
  divides_as (2 ^ 31) (s32 a) (s32 b) (s64 (divw a b)) (s64 (remw a b)) /\
  (w32 b = 0 -> s64 (divuw a b) = -1 /\ s64 (remuw a b) = s32 a) /\
  (w32 b <> 0 -> exists q r, s64 (divuw a b) = s32 q /\ s64 (remuw a b) = s32 r /\
     w32 a = w32 b * q + r /\ 0 <= r < w32 b).
Proof.
  intros Ha Hb. pose proof (s32_range a). pose proof (s32_range b). split; [|split; [|split]].
  - unfold mulw. rewrite s64_sext32. unfold s32, signed, w32. by rewrite Z.mod_mod, <- Z.mul_mod by lia.
  - unfold divw, remw. destruct (Z.eqb_spec (s32 b) 0) as [E|Hnz].
    + unfold divides_as. rewrite E, s64_sext32. done.
    + change INT32_MIN with (- 2 ^ 31). destruct (_ && _) eqn:E.
      * apply andb_true_iff in E as [E1%Z.eqb_eq E2%Z.eqb_eq]. unfold divides_as. by rewrite E1, E2.
      * assert (~ (s32 a = - 2 ^ 31 /\ s32 b = -1)) as Ho.
        { intros [E1 E2]. by rewrite E1, E2 in E. }
        rewrite !s64_sext32, !s32_w64_small; [by apply divides_as_quot| |apply quot_range; (done || lia)].
        pose proof (Z.rem_bound_abs (s32 a) (s32 b) Hnz). lia.
  - intros E. unfold divuw, remuw. rewrite E. cbn [Z.eqb]. rewrite s64_sext32. split; [done|].
    unfold s32, signed, w32. by rewrite Z.mod_mod by lia.
  - intros Hnz. unfold divuw, remuw. rewrite (proj2 (Z.eqb_neq (w32 b) 0)) by done.
    exists (Z.quot (w32 a) (w32 b)), (Z.rem (w32 a) (w32 b)). cbv iota. rewrite !s64_sext32. split; [done|]. split; [done|].
    pose proof (w32_u a). pose proof (w32_u b). split; [apply Z.quot_rem'|apply Z.rem_bound_pos; lia].
Qed.

Lemma word_division_spec_witness :
  s64 (mulw UINT64_MAX 5) = s32 (UINT64_MAX * 5) /\
  divides_as (2 ^ 31) (s32 (2 ^ 31)) (s32 7) (s64 (divw (2 ^ 31) 7)) (s64 (remw (2 ^ 31) 7)).
Proof.
  split.
  - exact (proj1 (word_division_spec UINT64_MAX 5 ltac:(vm_compute; intuition congruence) ltac:(lia))).
  - exact (proj1 (proj2 (word_division_spec (2 ^ 31) 7 ltac:(lia) ltac:(lia)))).
Defined.

Lemma mulh_u a b : is_u 64 (mulh a b). Proof. apply w64_u. Qed.
Lemma mulhu_u a b : is_u 64 (mulhu a b). Proof. apply w64_u. Qed.
Lemma mulhsu_u a b : is_u 64 (mulhsu a b). Proof. apply w64_u. Qed.
Lemma mulw_u a b : is_u 64 (mulw a b). Proof. apply sext_u. Qed.
Lemma div_u a b : is_u 64 (div a b).
Proof. unfold div. repeat apply u64_if; try apply w64_u. vm_compute; intuition congruence. Qed.
Lemma rem_u a b : is_u 64 a -> is_u 64 (rem a b).
Proof. intros. unfold rem. repeat apply u64_if; try apply w64_u; lia. Qed.
Lemma divu_u a b : is_u 64 a -> is_u 64 b -> is_u 64 (divu a b).
Proof.
  intros. unfold divu. destruct (Z.eqb_spec b 0); [vm_compute; intuition congruence|].
  split; [apply Z.quot_pos; lia|]. apply Z.quot_lt_upper_bound; nia.
Qed.
Lemma remu_u a b : is_u 64 a -> is_u 64 b -> is_u 64 (remu a b).
Proof.
  intros. unfold remu. destruct (Z.eqb_spec b 0); [done|]. pose proof (Z.rem_bound_pos a b). lia.
Qed.
Lemma divw_u a b : is_u 64 (divw a b).
Proof. unfold divw. repeat apply u64_if; try apply sext_u; vm_compute; intuition congruence. Qed.
Lemma divuw_u a b : is_u 64 (divuw a b).
Proof. unfold divuw. repeat apply u64_if; try apply sext_u; vm_compute; intuition congruence. Qed.
Lemma remw_u a b : is_u 64 (remw a b).
Proof. unfold remw. repeat apply u64_if; try apply sext_u; lia. Qed.
Lemma remuw_u a b : is_u 64 (remuw a b).
Proof. unfold remuw. repeat apply u64_if; apply sext_u. Qed.
#[export] Hint Resolve mulh_u mulhu_u mulhsu_u mulw_u div_u rem_u divu_u remu_u divw_u divuw_u remw_u remuw_u : cint.
