(* ===== verification/Decode.v ===== *)
(** * Instruction decoding

    Models [emulator/include/cpu/decode.h] and the decoding half of
    [emulator/src/cpu/cpu.c]: the opcodes, [decode_imm], [decode] and the [INSTPAT]
    matching.  Each pair [MASK_X], [GOLDEN_X] of the header is an [instpat] of
    module [Inst], kept with the bit pattern of its comment, from which the
    repository's script generates the pair. *)
From Stdlib Require Import String Ascii.
From stdpp Require Import base tactics numbers option list.
From S2P Require Import Prelude CInt.

#[local] Open Scope Z_scope.

(** ** Instruction patterns *)
Record instpat := mk_instpat { ip_pattern : string; ip_mask : Z; ip_golden : Z }.

(** [(inst & MASK_##name) == GOLDEN_##name] *)
Definition matches (inst : Z) (p : instpat) : bool := Z.land inst (ip_mask p) =? ip_golden p.

Module Inst.
Definition ADDI : instpat := mk_instpat "????_????_????_????_?000_????_?001_0011" 0x0000707f 0x00000013.
Definition SLTI : instpat := mk_instpat "????_????_????_????_?010_????_?001_0011" 0x0000707f 0x00002013.
Definition SLTIU : instpat := mk_instpat "????_????_????_????_?011_????_?001_0011" 0x0000707f 0x00003013.
Definition XORI : instpat := mk_instpat "????_????_????_????_?100_????_?001_0011" 0x0000707f 0x00004013.
Definition ORI : instpat := mk_instpat "????_????_????_????_?110_????_?001_0011" 0x0000707f 0x00006013.
Definition ANDI : instpat := mk_instpat "????_????_????_????_?111_????_?001_0011" 0x0000707f 0x00007013.
Definition SLLI : instpat := mk_instpat "0000_00??_????_????_?001_????_?001_0011" 0xfc00707f 0x00001013.
Definition SRLI : instpat := mk_instpat "0000_00??_????_????_?101_????_?001_0011" 0xfc00707f 0x00005013.
Definition SRAI : instpat := mk_instpat "0100_00??_????_????_?101_????_?001_0011" 0xfc00707f 0x40005013.
Definition ADDIW : instpat := mk_instpat "????_????_????_????_?000_????_?001_1011" 0x0000707f 0x0000001b.
Definition SLLIW : instpat := mk_instpat "0000_000?_????_????_?001_????_?001_1011" 0xfe00707f 0x0000101b.
Definition SRLIW : instpat := mk_instpat "0000_000?_????_????_?101_????_?001_1011" 0xfe00707f 0x0000501b.
Definition SRAIW : instpat := mk_instpat "0100_000?_????_????_?101_????_?001_1011" 0xfe00707f 0x4000501b.
Definition ADD : instpat := mk_instpat "0000_000?_????_????_?000_????_?011_0011" 0xfe00707f 0x00000033.
Definition SUB : instpat := mk_instpat "0100_000?_????_????_?000_????_?011_0011" 0xfe00707f 0x40000033.
Definition SLL : instpat := mk_instpat "0000_000?_????_????_?001_????_?011_0011" 0xfe00707f 0x00001033.
Definition SLT : instpat := mk_instpat "0000_000?_????_????_?010_????_?011_0011" 0xfe00707f 0x00002033.
Definition SLTU : instpat := mk_instpat "0000_000?_????_????_?011_????_?011_0011" 0xfe00707f 0x00003033.
Definition XOR : instpat := mk_instpat "0000_000?_????_????_?100_????_?011_0011" 0xfe00707f 0x00004033.
Definition SRL : instpat := mk_instpat "0000_000?_????_????_?101_????_?011_0011" 0xfe00707f 0x00005033.
Definition SRA : instpat := mk_instpat "0100_000?_????_????_?101_????_?011_0011" 0xfe00707f 0x40005033.
Definition OR : instpat := mk_instpat "0000_000?_????_????_?110_????_?011_0011" 0xfe00707f 0x00006033.
Definition AND : instpat := mk_instpat "0000_000?_????_????_?111_????_?011_0011" 0xfe00707f 0x00007033.
Definition ADDW : instpat := mk_instpat "0000_000?_????_????_?000_????_?011_1011" 0xfe00707f 0x0000003b.
Definition SUBW : instpat := mk_instpat "0100_000?_????_????_?000_????_?011_1011" 0xfe00707f 0x4000003b.
Definition SLLW : instpat := mk_instpat "0000_000?_????_????_?001_????_?011_1011" 0xfe00707f 0x0000103b.
Definition SRLW : instpat := mk_instpat "0000_000?_????_????_?101_????_?011_1011" 0xfe00707f 0x0000503b.
Definition SRAW : instpat := mk_instpat "0100_000?_????_????_?101_????_?011_1011" 0xfe00707f 0x4000503b.
Definition LUI : instpat := mk_instpat "????_????_????_????_????_????_?011_0111" 0x0000007f 0x00000037.
Definition AUIPC : instpat := mk_instpat "????_????_????_????_????_????_?001_0111" 0x0000007f 0x00000017.
Definition LB : instpat := mk_instpat "????_????_????_????_?000_????_?000_0011" 0x0000707f 0x00000003.
Definition LH : instpat := mk_instpat "????_????_????_????_?001_????_?000_0011" 0x0000707f 0x00001003.
Definition LW : instpat := mk_instpat "????_????_????_????_?010_????_?000_0011" 0x0000707f 0x00002003.
Definition LBU : instpat := mk_instpat "????_????_????_????_?100_????_?000_0011" 0x0000707f 0x00004003.
Definition LHU : instpat := mk_instpat "????_????_????_????_?101_????_?000_0011" 0x0000707f 0x00005003.
Definition LWU : instpat := mk_instpat "????_????_????_????_?110_????_?000_0011" 0x0000707f 0x00006003.
Definition LD : instpat := mk_instpat "????_????_????_????_?011_????_?000_0011" 0x0000707f 0x00003003.
Definition SB : instpat := mk_instpat "????_????_????_????_?000_????_?010_0011" 0x0000707f 0x00000023.
Definition SH : instpat := mk_instpat "????_????_????_????_?001_????_?010_0011" 0x0000707f 0x00001023.
Definition SW : instpat := mk_instpat "????_????_????_????_?010_????_?010_0011" 0x0000707f 0x00002023.
Definition SD : instpat := mk_instpat "????_????_????_????_?011_????_?010_0011" 0x0000707f 0x00003023.
Definition JAL : instpat := mk_instpat "????_????_????_????_????_????_?110_1111" 0x0000007f 0x0000006f.
Definition JALR : instpat := mk_instpat "????_????_????_????_?000_????_?110_0111" 0x0000707f 0x00000067.
Definition BEQ : instpat := mk_instpat "????_????_????_????_?000_????_?110_0011" 0x0000707f 0x00000063.
Definition BNE : instpat := mk_instpat "????_????_????_????_?001_????_?110_0011" 0x0000707f 0x00001063.
Definition BLT : instpat := mk_instpat "????_????_????_????_?100_????_?110_0011" 0x0000707f 0x00004063.
Definition BGE : instpat := mk_instpat "????_????_????_????_?101_????_?110_0011" 0x0000707f 0x00005063.
Definition BLTU : instpat := mk_instpat "????_????_????_????_?110_????_?110_0011" 0x0000707f 0x00006063.
Definition BGEU : instpat := mk_instpat "????_????_????_????_?111_????_?110_0011" 0x0000707f 0x00007063.
Definition FENCE : instpat := mk_instpat "????_????_????_????_?000_????_?000_1111" 0x0000707f 0x0000000f.
Definition FENCEI : instpat := mk_instpat "????_????_????_????_?001_????_?000_1111" 0x0000707f 0x0000100f.
Definition ECALL : instpat := mk_instpat "0000_0000_0000_0000_0000_0000_0111_0011" 0xffffffff 0x00000073.
Definition EBREAK : instpat := mk_instpat "0000_0000_0001_0000_0000_0000_0111_0011" 0xffffffff 0x00100073.
Definition MUL : instpat := mk_instpat "0000_001?_????_????_?000_????_?011_0011" 0xfe00707f 0x02000033.
Definition MULH : instpat := mk_instpat "0000_001?_????_????_?001_????_?011_0011" 0xfe00707f 0x02001033.
Definition MULHSU : instpat := mk_instpat "0000_001?_????_????_?010_????_?011_0011" 0xfe00707f 0x02002033.
Definition MULHU : instpat := mk_instpat "0000_001?_????_????_?011_????_?011_0011" 0xfe00707f 0x02003033.
Definition DIV : instpat := mk_instpat "0000_001?_????_????_?100_????_?011_0011" 0xfe00707f 0x02004033.
Definition DIVU : instpat := mk_instpat "0000_001?_????_????_?101_????_?011_0011" 0xfe00707f 0x02005033.
Definition REM : instpat := mk_instpat "0000_001?_????_????_?110_????_?011_0011" 0xfe00707f 0x02006033.
Definition REMU : instpat := mk_instpat "0000_001?_????_????_?111_????_?011_0011" 0xfe00707f 0x02007033.
Definition MULW : instpat := mk_instpat "0000_001?_????_????_?000_????_?011_1011" 0xfe00707f 0x0200003b.
Definition DIVW : instpat := mk_instpat "0000_001?_????_????_?100_????_?011_1011" 0xfe00707f 0x0200403b.
Definition DIVUW : instpat := mk_instpat "0000_001?_????_????_?101_????_?011_1011" 0xfe00707f 0x0200503b.
Definition REMW : instpat := mk_instpat "0000_001?_????_????_?110_????_?011_1011" 0xfe00707f 0x0200603b.
Definition REMUW : instpat := mk_instpat "0000_001?_????_????_?111_????_?011_1011" 0xfe00707f 0x0200703b.
Definition LR_W : instpat := mk_instpat "0001_0??0_0000_????_?010_????_?010_1111" 0xf9f0707f 0x1000202f.
Definition SC_W : instpat := mk_instpat "0001_1???_????_????_?010_????_?010_1111" 0xf800707f 0x1800202f.
Definition AMOSWAP_W : instpat := mk_instpat "0000_1???_????_????_?010_????_?010_1111" 0xf800707f 0x0800202f.
Definition AMOADD_W : instpat := mk_instpat "0000_0???_????_????_?010_????_?010_1111" 0xf800707f 0x0000202f.
Definition AMOXOR_W : instpat := mk_instpat "0010_0???_????_????_?010_????_?010_1111" 0xf800707f 0x2000202f.
Definition AMOAND_W : instpat := mk_instpat "0110_0???_????_????_?010_????_?010_1111" 0xf800707f 0x6000202f.
Definition AMOOR_W : instpat := mk_instpat "0100_0???_????_????_?010_????_?010_1111" 0xf800707f 0x4000202f.
Definition AMOMIN_W : instpat := mk_instpat "1000_0???_????_????_?010_????_?010_1111" 0xf800707f 0x8000202f.
Definition AMOMAX_W : instpat := mk_instpat "1010_0???_????_????_?010_????_?010_1111" 0xf800707f 0xa000202f.
Definition AMOMINU_W : instpat := mk_instpat "1100_0???_????_????_?010_????_?010_1111" 0xf800707f 0xc000202f.
Definition AMOMAXU_W : instpat := mk_instpat "1110_0???_????_????_?010_????_?010_1111" 0xf800707f 0xe000202f.
Definition LR_D : instpat := mk_instpat "0001_0??0_0000_????_?011_????_?010_1111" 0xf9f0707f 0x1000302f.
Definition SC_D : instpat := mk_instpat "0001_1???_????_????_?011_????_?010_1111" 0xf800707f 0x1800302f.
Definition AMOSWAP_D : instpat := mk_instpat "0000_1???_????_????_?011_????_?010_1111" 0xf800707f 0x0800302f.
Definition AMOADD_D : instpat := mk_instpat "0000_0???_????_????_?011_????_?010_1111" 0xf800707f 0x0000302f.
Definition AMOXOR_D : instpat := mk_instpat "0010_0???_????_????_?011_????_?010_1111" 0xf800707f 0x2000302f.
Definition AMOAND_D : instpat := mk_instpat "0110_0???_????_????_?011_????_?010_1111" 0xf800707f 0x6000302f.
Definition AMOOR_D : instpat := mk_instpat "0100_0???_????_????_?011_????_?010_1111" 0xf800707f 0x4000302f.
Definition AMOMIN_D : instpat := mk_instpat "1000_0???_????_????_?011_????_?010_1111" 0xf800707f 0x8000302f.
Definition AMOMAX_D : instpat := mk_instpat "1010_0???_????_????_?011_????_?010_1111" 0xf800707f 0xa000302f.
Definition AMOMINU_D : instpat := mk_instpat "1100_0???_????_????_?011_????_?010_1111" 0xf800707f 0xc000302f.
Definition AMOMAXU_D : instpat := mk_instpat "1110_0???_????_????_?011_????_?010_1111" 0xf800707f 0xe000302f.
Definition CSRRW : instpat := mk_instpat "????_????_????_????_?001_????_?111_0011" 0x0000707f 0x00001073.
Definition CSRRS : instpat := mk_instpat "????_????_????_????_?010_????_?111_0011" 0x0000707f 0x00002073.
Definition CSRRC : instpat := mk_instpat "????_????_????_????_?011_????_?111_0011" 0x0000707f 0x00003073.
Definition CSRRWI : instpat := mk_instpat "????_????_????_????_?101_????_?111_0011" 0x0000707f 0x00005073.
Definition CSRRSI : instpat := mk_instpat "????_????_????_????_?110_????_?111_0011" 0x0000707f 0x00006073.
Definition CSRRCI : instpat := mk_instpat "????_????_????_????_?111_????_?111_0011" 0x0000707f 0x00007073.
Definition SRET : instpat := mk_instpat "0001_0000_0010_0000_0000_0000_0111_0011" 0xffffffff 0x10200073.
Definition MRET : instpat := mk_instpat "0011_0000_0010_0000_0000_0000_0111_0011" 0xffffffff 0x30200073.
Definition WFI : instpat := mk_instpat "0001_0000_0101_0000_0000_0000_0111_0011" 0xffffffff 0x10500073.
Definition SFENCE_VMA : instpat := mk_instpat "0001_001?_????_????_?000_0000_0111_0011" 0xfe007fff 0x12000073.

(** Every pattern of the header, in its order. *)
Definition all : list instpat := [
  ADDI; SLTI; SLTIU; XORI; ORI; ANDI; SLLI; SRLI; SRAI; ADDIW;
  SLLIW; SRLIW; SRAIW; ADD; SUB; SLL; SLT; SLTU; XOR; SRL;
  SRA; OR; AND; ADDW; SUBW; SLLW; SRLW; SRAW; LUI; AUIPC;
  LB; LH; LW; LBU; LHU; LWU; LD; SB; SH; SW;
  SD; JAL; JALR; BEQ; BNE; BLT; BGE; BLTU; BGEU; FENCE;
  FENCEI; ECALL; EBREAK; MUL; MULH; MULHSU; MULHU; DIV; DIVU; REM;
  REMU; MULW; DIVW; DIVUW; REMW; REMUW; LR_W; SC_W; AMOSWAP_W; AMOADD_W;
  AMOXOR_W; AMOAND_W; AMOOR_W; AMOMIN_W; AMOMAX_W; AMOMINU_W; AMOMAXU_W; LR_D; SC_D; AMOSWAP_D;
  AMOADD_D; AMOXOR_D; AMOAND_D; AMOOR_D; AMOMIN_D; AMOMAX_D; AMOMINU_D; AMOMAXU_D; CSRRW; CSRRS;
  CSRRC; CSRRWI; CSRRSI; CSRRCI; SRET; MRET; WFI; SFENCE_VMA ].
End Inst.

(** ** Opcodes *)
Definition OPCODE_LUI : Z := 0x37.
Definition OPCODE_AUIPC : Z := 0x17.
Definition OPCODE_JAL : Z := 0x6F.
Definition OPCODE_JALR : Z := 0x67.
Definition OPCODE_BRANCH : Z := 0x63.
Definition OPCODE_LOAD : Z := 0x03.
Definition OPCODE_STORE : Z := 0x23.
Definition OPCODE_OP_IMM : Z := 0x13.
Definition OPCODE_OP_IMM_32 : Z := 0x1B.
Definition OPCODE_OP : Z := 0x33.
Definition OPCODE_OP_32 : Z := 0x3B.
Definition OPCODE_MISC_MEM : Z := 0x0F.
Definition OPCODE_SYSTEM : Z := 0x73.
Definition OPCODE_AMO : Z := 0x2F.

(** ** Fields and immediates *)
Record inst_dec_t := mk_inst_dec {
  dec_opcode : Z; dec_rs1 : Z; dec_rs2 : Z; dec_rd : Z; dec_imm : Z; dec_csr : Z;
}.

Definition IMM_I (i : Z) : Z := sext (bits i 31 20) 12.
Definition IMM_S (i : Z) : Z := sext (Z.lor (bits i 11 7) (shl64 (bits i 31 25) 5)) 12.
Definition IMM_B (i : Z) : Z :=
  sext (Z.lor (Z.lor (Z.lor (shl64 (bits i 31 31) 12) (shl64 (bits i 30 25) 5))
                     (shl64 (bits i 11 8) 1)) (shl64 (bits i 7 7) 11)) 13.
Definition IMM_U (i : Z) : Z := sext (Z.land i 0xFFFFF000) 32.
Definition IMM_J (i : Z) : Z :=
  sext (Z.lor (Z.lor (Z.lor (shl64 (bits i 31 31) 20) (shl64 (bits i 30 21) 1))
                     (shl64 (bits i 20 20) 11)) (shl64 (bits i 19 12) 12)) 21.

Definition decode_imm (inst opcode : Z) : Z :=
  if (opcode =? OPCODE_LOAD) || (opcode =? OPCODE_OP_IMM) || (opcode =? OPCODE_OP_IMM_32)
     || (opcode =? OPCODE_JALR) then IMM_I inst
  else if (opcode =? OPCODE_AUIPC) || (opcode =? OPCODE_LUI) then IMM_U inst
  else if opcode =? OPCODE_STORE then IMM_S inst
  else if opcode =? OPCODE_JAL then IMM_J inst
  else if opcode =? OPCODE_BRANCH then IMM_B inst
  else if opcode =? OPCODE_SYSTEM then uext (bits inst 19 15) 5
  else 0.

Definition decode (inst : Z) : inst_dec_t :=
  let opcode := w8 (bits inst 6 0) in
  mk_inst_dec opcode (w8 (bits inst 19 15)) (w8 (bits inst 24 20)) (w8 (bits inst 11 7))
    (decode_imm inst opcode) (s32 (bits inst 31 20)).

(** ** Patterns *)

#[export] Instance instpat_eq_dec : EqDecision instpat.
Proof. intros [p1 m1 g1] [p2 m2 g2]. destruct (string_dec p1 p2), (Z.eq_dec m1 m2), (Z.eq_dec g1 g2);
  (left; congruence) || (right; congruence). Defined.

(** The mask and the golden value a pattern string denotes: [?] is a free bit and
    [_] a separator. *)
Fixpoint parse_pattern (s : string) (mask golden : Z) : option (Z * Z) :=
  match s with
  | EmptyString => Some (mask, golden)
  | String c s =>
      if ascii_dec c "_" then parse_pattern s mask golden
      else if ascii_dec c "?" then parse_pattern s (2 * mask) (2 * golden)
      else if ascii_dec c "0" then parse_pattern s (2 * mask + 1) (2 * golden)
      else if ascii_dec c "1" then parse_pattern s (2 * mask + 1) (2 * golden + 1)
      else None
  end.

(** Some bit is fixed by both patterns to different values. *)
Definition conflict (p q : instpat) : bool :=
  negb (Z.land (Z.land (ip_mask p) (ip_mask q)) (Z.lxor (ip_golden p) (ip_golden q)) =? 0).

Lemma conflict_no_match inst p q : conflict p q = true -> matches inst p = true -> matches inst q = true -> False.
Proof.
  unfold conflict, matches. rewrite negb_true_iff, Z.eqb_neq, !Z.eqb_eq. intros Hc Hp Hq. apply Hc.
  rewrite <- Hp, <- Hq. apply Z.bits_inj'. intros i Hi. autorewrite with zbits.
  by destruct (Z.testbit inst i), (Z.testbit (ip_mask p) i), (Z.testbit (ip_mask q) i).
Qed.

(** The low seven bits of a pattern are fixed. *)
Definition fixes_opcode (p : instpat) : bool := Z.land (ip_mask p) 0x7f =? 0x7f.
Definition opcode_of (p : instpat) : Z := Z.land (ip_golden p) 0x7f.

Lemma opcode_of_match inst p :
  fixes_opcode p = true -> matches inst p = true -> dec_opcode (decode inst) = opcode_of p.
Proof.
  unfold fixes_opcode, matches, opcode_of. rewrite !Z.eqb_eq. intros Hf Hm. cbn [decode dec_opcode].
  rewrite <- Hm. unfold w8. change 0x7f with (Z.ones 7) in *.
  apply Z.bits_inj'. intros i Hi. rewrite testbit_mod_pow2, testbit_bits, !Z.land_spec, testbit_ones by lia.
  change (6 - 0 + 1) with 7. rewrite Z.add_0_r.
  assert (Z.testbit (Z.land (ip_mask p) (Z.ones 7)) i = Z.testbit (Z.ones 7) i) as Hb by (by rewrite Hf).
  rewrite Z.land_spec, testbit_ones in Hb by lia.
  destruct (Z.ltb_spec i 7), (Z.ltb_spec i 8), (Z.testbit inst i), (Z.testbit (ip_mask p) i); cbn in *; (done || lia).
Qed.

(** ** Immediate encodings: the formats of the architecture *)
Definition enc_I (op rd f3 rs1 imm : Z) : Z :=
  op + 2 ^ 7 * rd + 2 ^ 12 * f3 + 2 ^ 15 * rs1 + 2 ^ 20 * (imm mod 2 ^ 12).
Definition enc_S (op f3 rs1 rs2 imm : Z) : Z :=
  let i := imm mod 2 ^ 12 in
  op + 2 ^ 7 * (i mod 2 ^ 5) + 2 ^ 12 * f3 + 2 ^ 15 * rs1 + 2 ^ 20 * rs2 + 2 ^ 25 * (i / 2 ^ 5).
Definition enc_B (op f3 rs1 rs2 imm : Z) : Z :=
  let i := imm mod 2 ^ 13 in
  op + 2 ^ 7 * (i / 2 ^ 11 mod 2) + 2 ^ 8 * (i / 2 mod 2 ^ 4) + 2 ^ 12 * f3 + 2 ^ 15 * rs1 + 2 ^ 20 * rs2
  + 2 ^ 25 * (i / 2 ^ 5 mod 2 ^ 6) + 2 ^ 31 * (i / 2 ^ 12).
Definition enc_U (op rd imm : Z) : Z := op + 2 ^ 7 * rd + 2 ^ 12 * (imm / 2 ^ 12 mod 2 ^ 20).
Definition enc_J (op rd imm : Z) : Z :=
  let i := imm mod 2 ^ 21 in
  op + 2 ^ 7 * rd + 2 ^ 12 * (i / 2 ^ 12 mod 2 ^ 8) + 2 ^ 20 * (i / 2 ^ 11 mod 2)
  + 2 ^ 21 * (i / 2 mod 2 ^ 10) + 2 ^ 31 * (i / 2 ^ 20).

(** The operand fields fit their widths. *)
Definition fields_ok (op rd f3 rs1 rs2 : Z) : Prop :=
  is_u 7 op /\ is_u 5 rd /\ is_u 3 f3 /\ is_u 5 rs1 /\ is_u 5 rs2.

Lemma lor_shl_disjoint a b n w :
  0 <= n -> 0 <= w -> is_u n a -> is_u w b -> n + w <= 64 -> Z.lor a (shl64 b n) = a + 2 ^ n * b.
Proof.
  intros Hn Hw Ha Hb Hs.
  assert (2 ^ n * b < 2 ^ 64).
  { apply Z.lt_le_trans with (2 ^ n * 2 ^ w); [apply Z.mul_lt_mono_pos_l; [apply Z.pow_pos_nonneg|]; lia|].
    rewrite <- Z.pow_add_r by lia. apply Z.pow_le_mono_r; lia. }
  unfold shl64. rewrite Z.shiftl_mul_pow2, Z.mul_comm, w64_small by nia.
  apply lor_disjoint_add. apply Z.bits_inj'. intros i Hi. rewrite Z.land_spec, Z.bits_0.
  destruct (decide (n <= i)).
  - by rewrite (testbit_high n a) by done.
  - rewrite Z.mul_comm. by rewrite Z.mul_pow2_bits_low, andb_false_r by lia.
Qed.

Lemma s64_sext_of v w imm :
  1 <= w <= 64 -> - 2 ^ (w - 1) <= imm < 2 ^ (w - 1) -> v = imm mod 2 ^ w -> s64 (sext v w) = imm.
Proof.
  intros Hw Hi ->. rewrite sext_spec by done. apply signed_unique; [lia|done|].
  rewrite Z.mod_mod; [done|]. apply Z.pow_nonzero; lia.
Qed.

(** Reassembling disjoint fields, low parts first. *)
Lemma imm_S_value i :
  is_u 32 i -> Z.lor (bits i 11 7) (shl64 (bits i 31 25) 5) = (i / 2 ^ 7) mod 2 ^ 5 + 2 ^ 5 * (i / 2 ^ 25).
Proof.
  intros Hi. rewrite (lor_shl_disjoint _ _ 5 7) by first [lia | apply (bits_u i 11 7); lia | apply (bits_u i 31 25); lia].
  rewrite !bits_div_mod by lia. change (11 - 7 + 1) with 5. change (31 - 25 + 1) with 7. div_lia.
Qed.


Lemma lor_reorder a b c d : Z.lor (Z.lor (Z.lor a b) c) d = Z.lor (Z.lor (Z.lor c b) d) a.
Proof. apply Z.bits_inj'. intros i Hi. rewrite !Z.lor_spec. bool_tauto. Qed.
Lemma lor_reorder' a b c d : Z.lor (Z.lor (Z.lor a b) c) d = Z.lor (Z.lor (Z.lor b c) d) a.
Proof. apply Z.bits_inj'. intros i Hi. rewrite !Z.lor_spec. bool_tauto. Qed.

Lemma imm_B_value a b c d :
  is_u 1 a -> is_u 6 b -> is_u 4 c -> is_u 1 d ->
  Z.lor (Z.lor (Z.lor (shl64 a 12) (shl64 b 5)) (shl64 c 1)) (shl64 d 11)
  = 2 * c + 2 ^ 5 * b + 2 ^ 11 * d + 2 ^ 12 * a.
Proof.
  intros Ha Hb Hc Hd. rewrite lor_reorder.
  assert (shl64 c 1 = 2 * c) as -> by (unfold shl64; rewrite Z.shiftl_mul_pow2, w64_small; lia).
  rewrite (lor_shl_disjoint _ b 5 6), (lor_shl_disjoint _ d 11 1), (lor_shl_disjoint _ a 12 1) by lia. lia.
Qed.

Lemma imm_J_value a b c d :
  is_u 1 a -> is_u 10 b -> is_u 1 c -> is_u 8 d ->
  Z.lor (Z.lor (Z.lor (shl64 a 20) (shl64 b 1)) (shl64 c 11)) (shl64 d 12)
  = 2 * b + 2 ^ 11 * c + 2 ^ 12 * d + 2 ^ 20 * a.
Proof.
  intros Ha Hb Hc Hd. rewrite lor_reorder'.
  assert (shl64 b 1 = 2 * b) as -> by (unfold shl64; rewrite Z.shiftl_mul_pow2, w64_small; lia).
  rewrite (lor_shl_disjoint _ c 11 1), (lor_shl_disjoint _ d 12 8), (lor_shl_disjoint _ a 20 1) by lia. lia.
Qed.

Lemma field_value x hi lo :
  0 <= lo <= hi -> hi - lo + 1 <= 8 -> w8 (bits x hi lo) = (x / 2 ^ lo) mod 2 ^ (hi - lo + 1).
Proof.
  intros H1 H2. rewrite bits_div_mod by lia. unfold w8. apply Z.mod_small.
  pose proof (Z.mod_pos_bound (x / 2 ^ lo) (2 ^ (hi - lo + 1)) ltac:(apply Z.pow_pos_nonneg; lia)).
  assert (2 ^ (hi - lo + 1) <= 2 ^ 8) by (apply Z.pow_le_mono_r; lia). lia.
Qed.

Lemma decode_I op rd f3 rs1 imm :
  fields_ok op rd f3 rs1 0 -> - 2 ^ 11 <= imm < 2 ^ 11 ->
  let i := enc_I op rd f3 rs1 imm in
  w8 (bits i 6 0) = op /\ w8 (bits i 11 7) = rd /\ w8 (bits i 19 15) = rs1 /\ s64 (IMM_I i) = imm.
Proof.
  intros (Hop & Hrd & Hf3 & Hrs1 & _) Hi. cbv zeta. rewrite !field_value by lia. unfold enc_I.
  split; [div_lia|]. split; [div_lia|]. split; [div_lia|].
  apply s64_sext_of; [lia|done|]. rewrite bits_div_mod by lia. div_lia.
Qed.

Lemma decode_S op f3 rs1 rs2 imm :
  fields_ok op 0 f3 rs1 rs2 -> - 2 ^ 11 <= imm < 2 ^ 11 ->
  let i := enc_S op f3 rs1 rs2 imm in
  w8 (bits i 6 0) = op /\ w8 (bits i 19 15) = rs1 /\ w8 (bits i 24 20) = rs2 /\ s64 (IMM_S i) = imm.
Proof.
  intros (Hop & _ & Hf3 & Hrs1 & Hrs2) Hi. cbv zeta. rewrite !field_value by lia. unfold enc_S. cbv zeta.
  split; [div_lia|]. split; [div_lia|]. split; [div_lia|].
  apply s64_sext_of; [lia|done|]. rewrite imm_S_value by div_lia. div_lia.
Qed.

Lemma decode_B op f3 rs1 rs2 imm :
  fields_ok op 0 f3 rs1 rs2 -> - 2 ^ 12 <= imm < 2 ^ 12 -> imm mod 2 = 0 ->
  let i := enc_B op f3 rs1 rs2 imm in
  w8 (bits i 6 0) = op /\ w8 (bits i 19 15) = rs1 /\ w8 (bits i 24 20) = rs2 /\ s64 (IMM_B i) = imm.
Proof.
  intros (Hop & _ & Hf3 & Hrs1 & Hrs2) Hi He. cbv zeta. rewrite !field_value by lia.
  assert (0 <= imm mod 2 ^ 13 < 2 ^ 13 /\ imm mod 2 ^ 13 mod 2 = 0) as [Hm Hme] by div_lia.
  assert (forall m, 0 <= m < 2 ^ 13 -> m mod 2 = 0 -> imm mod 2 ^ 13 = m ->
    forall i, i = op + 2 ^ 7 * (m / 2 ^ 11 mod 2) + 2 ^ 8 * (m / 2 mod 2 ^ 4) + 2 ^ 12 * f3 + 2 ^ 15 * rs1 + 2 ^ 20 * rs2
      + 2 ^ 25 * (m / 2 ^ 5 mod 2 ^ 6) + 2 ^ 31 * (m / 2 ^ 12) ->
    (i / 2 ^ 0) mod 2 ^ (6 - 0 + 1) = op /\ (i / 2 ^ 15) mod 2 ^ (19 - 15 + 1) = rs1 /\
    (i / 2 ^ 20) mod 2 ^ (24 - 20 + 1) = rs2 /\ s64 (IMM_B i) = imm) as H; [|by apply (H _ Hm Hme eq_refl)].
  clear Hm Hme. intros m Hm Hme Hmi i Ei.
  split; [div_lia|]. split; [div_lia|]. split; [div_lia|].
  apply s64_sext_of; [lia|done|].
  rewrite imm_B_value by first [apply (bits_u i 31 31); lia | apply (bits_u i 30 25); lia
                               | apply (bits_u i 11 8); lia | apply (bits_u i 7 7); lia].
  rewrite !bits_div_mod by lia. rewrite Hmi. clear Hi He Hmi.
  change (31 - 31 + 1) with 1. change (30 - 25 + 1) with 6. change (11 - 8 + 1) with 4. change (7 - 7 + 1) with 1.
  assert (i / 2 ^ 31 = m / 2 ^ 12) as -> by div_lia.
  assert ((i / 2 ^ 25) mod 2 ^ 6 = m / 2 ^ 5 mod 2 ^ 6) as -> by div_lia.
  assert ((i / 2 ^ 8) mod 2 ^ 4 = m / 2 mod 2 ^ 4) as -> by div_lia.
  assert ((i / 2 ^ 7) mod 2 ^ 1 = m / 2 ^ 11 mod 2) as -> by div_lia.
  clear Ei. div_lia.
Qed.

Lemma decode_J op rd imm :
  fields_ok op rd 0 0 0 -> - 2 ^ 20 <= imm < 2 ^ 20 -> imm mod 2 = 0 ->
  let i := enc_J op rd imm in
  w8 (bits i 6 0) = op /\ w8 (bits i 11 7) = rd /\ s64 (IMM_J i) = imm.
Proof.
  intros (Hop & Hrd & _) Hi He. cbv zeta. rewrite !field_value by lia.
  assert (0 <= imm mod 2 ^ 21 < 2 ^ 21 /\ imm mod 2 ^ 21 mod 2 = 0) as [Hm Hme] by div_lia.
  assert (forall m, 0 <= m < 2 ^ 21 -> m mod 2 = 0 -> imm mod 2 ^ 21 = m ->
    forall i, i = op + 2 ^ 7 * rd + 2 ^ 12 * (m / 2 ^ 12 mod 2 ^ 8) + 2 ^ 20 * (m / 2 ^ 11 mod 2)
      + 2 ^ 21 * (m / 2 mod 2 ^ 10) + 2 ^ 31 * (m / 2 ^ 20) ->
    (i / 2 ^ 0) mod 2 ^ (6 - 0 + 1) = op /\ (i / 2 ^ 7) mod 2 ^ (11 - 7 + 1) = rd /\ s64 (IMM_J i) = imm)
    as H; [|by apply (H _ Hm Hme eq_refl)].
  clear Hm Hme. intros m Hm Hme Hmi i Ei.
  split; [div_lia|]. split; [div_lia|].
  apply s64_sext_of; [lia|done|].
  rewrite imm_J_value by first [apply (bits_u i 31 31); lia | apply (bits_u i 30 21); lia
                               | apply (bits_u i 20 20); lia | apply (bits_u i 19 12); lia].
  rewrite !bits_div_mod by lia. rewrite Hmi. clear Hi He Hmi.
  change (31 - 31 + 1) with 1. change (30 - 21 + 1) with 10. change (20 - 20 + 1) with 1. change (19 - 12 + 1) with 8.
  assert (i / 2 ^ 31 = m / 2 ^ 20) as -> by div_lia.
  assert ((i / 2 ^ 21) mod 2 ^ 10 = m / 2 mod 2 ^ 10) as -> by div_lia.
  assert ((i / 2 ^ 20) mod 2 ^ 1 = m / 2 ^ 11 mod 2) as -> by div_lia.
  assert ((i / 2 ^ 12) mod 2 ^ 8 = m / 2 ^ 12 mod 2 ^ 8) as -> by div_lia.
  clear Ei. div_lia.
Qed.

Lemma decode_U op rd imm :
  fields_ok op rd 0 0 0 -> - 2 ^ 31 <= imm < 2 ^ 31 -> imm mod 2 ^ 12 = 0 ->
  let i := enc_U op rd imm in
  w8 (bits i 6 0) = op /\ w8 (bits i 11 7) = rd /\ s64 (IMM_U i) = imm.
Proof.
  intros (Hop & Hrd & _) Hi He. cbv zeta. rewrite !field_value by lia. unfold enc_U.
  split; [div_lia|]. split; [div_lia|]. unfold IMM_U.
  assert (forall x, is_u 32 x -> Z.land x 0xFFFFF000 = 2 ^ 12 * (x / 2 ^ 12)) as Hl.
  { intros x Hx. change 0xFFFFF000 with (Z.shiftl (Z.ones 20) 12).
    rewrite Z.mul_comm, <- Z.shiftl_mul_pow2, <- Z.shiftr_div_pow2 by lia.
    apply Z.bits_inj'. intros i Hi'. rewrite Z.land_spec, !testbit_shiftl by lia.
    destruct (Z.leb_spec 12 i); cbn [andb]; [|apply andb_false_r].
    rewrite Z.shiftr_spec, testbit_ones by lia. replace (i - 12 + 12) with i by lia.
    destruct (Z.ltb_spec (i - 12) 20); [apply andb_true_r|]. by rewrite (testbit_high 32 x) by lia. }
  rewrite Hl by div_lia. apply s64_sext_of; [lia|done|]. div_lia.
Qed.

(** ** Properties *)

(** C24: no instruction word matches two patterns, so the order of the tests of the
    core does not matter, and the opcode field selects the pattern's group; each
    mask and golden value is the one its pattern string denotes. *)
Theorem patterns_unambiguous inst p q :
  In p Inst.all -> matches inst p = true ->
  (In q Inst.all -> matches inst q = true -> p = q) /\
  dec_opcode (decode inst) = opcode_of p /\
  parse_pattern (ip_pattern p) 0 0 = Some (ip_mask p, ip_golden p).
Proof.
  intros Hp Hm.
  assert (forallb (fun p => fixes_opcode p && bool_decide (parse_pattern (ip_pattern p) 0 0 = Some (ip_mask p, ip_golden p))
                   && forallb (fun q => bool_decide (p = q) || conflict p q) Inst.all) Inst.all = true) as Hall
    by (vm_compute; reflexivity).
  rewrite forallb_forall in Hall. specialize (Hall p Hp).
  apply andb_true_iff in Hall as [Hall Hpq]. apply andb_true_iff in Hall as [Hf Hparse%bool_decide_eq_true].
  split; [|split; [by apply opcode_of_match|done]].
  intros Hq Hmq. rewrite forallb_forall in Hpq. specialize (Hpq q Hq).
  apply orb_true_iff in Hpq as [?%bool_decide_eq_true|Hc]; [done|]. by destruct (conflict_no_match inst p q).
Qed.

Lemma patterns_unambiguous_witness : dec_opcode (decode 0x00A50533) = opcode_of Inst.ADD.
Proof.
  refine (proj1 (proj2 (patterns_unambiguous 0x00A50533 Inst.ADD Inst.ADD _ eq_refl))).
  vm_compute. tauto.
Defined.

(** C23: the immediates of the five instruction formats survive encoding and
    decoding: [decode] on a word assembled by the architecture's bit layout returns
    the sign-extended immediate and the operand fields. *)
Theorem decode_encode op rd f3 rs1 rs2 imm :
  fields_ok op rd f3 rs1 rs2 ->
  (- 2 ^ 11 <= imm < 2 ^ 11 -> op ∈ [OPCODE_LOAD; OPCODE_OP_IMM; OPCODE_OP_IMM_32; OPCODE_JALR] ->
     let d := decode (enc_I op rd f3 rs1 imm) in
     dec_opcode d = op /\ dec_rd d = rd /\ dec_rs1 d = rs1 /\ s64 (dec_imm d) = imm) /\
  (- 2 ^ 11 <= imm < 2 ^ 11 -> op = OPCODE_STORE ->
     let d := decode (enc_S op f3 rs1 rs2 imm) in
     dec_opcode d = op /\ dec_rs1 d = rs1 /\ dec_rs2 d = rs2 /\ s64 (dec_imm d) = imm) /\
  (- 2 ^ 12 <= imm < 2 ^ 12 -> imm mod 2 = 0 -> op = OPCODE_BRANCH ->
     let d := decode (enc_B op f3 rs1 rs2 imm) in
     dec_opcode d = op /\ dec_rs1 d = rs1 /\ dec_rs2 d = rs2 /\ s64 (dec_imm d) = imm) /\
  (- 2 ^ 31 <= imm < 2 ^ 31 -> imm mod 2 ^ 12 = 0 -> op ∈ [OPCODE_LUI; OPCODE_AUIPC] ->
     let d := decode (enc_U op rd imm) in
     dec_opcode d = op /\ dec_rd d = rd /\ s64 (dec_imm d) = imm) /\
  (- 2 ^ 20 <= imm < 2 ^ 20 -> imm mod 2 = 0 -> op = OPCODE_JAL ->
     let d := decode (enc_J op rd imm) in
     dec_opcode d = op /\ dec_rd d = rd /\ s64 (dec_imm d) = imm).
Proof.
  intros (Hop & Hrd & Hf3 & Hrs1 & Hrs2). split; [|split; [|split; [|split]]].
  - intros Hi Ho. destruct (decode_I op rd f3 rs1 imm) as (E1 & E2 & E3 & E4); [unfold fields_ok; lia|done|].
    cbn [decode dec_opcode dec_rd dec_rs1 dec_imm]. rewrite E1. split_and!; try done. rewrite <- E4 at 2.
    repeat (apply elem_of_cons in Ho as [-> | Ho]; [done|]). by apply elem_of_nil in Ho.
  - intros Hi ->. destruct (decode_S OPCODE_STORE f3 rs1 rs2 imm) as (E1 & E2 & E3 & E4); [unfold fields_ok; lia|done|].
    cbn [decode dec_opcode dec_rd dec_rs1 dec_rs2 dec_imm]. rewrite E1. by split_and!.
  - intros Hi He ->. destruct (decode_B OPCODE_BRANCH f3 rs1 rs2 imm) as (E1 & E2 & E3 & E4); [unfold fields_ok; lia|done..|].
    cbn [decode dec_opcode dec_rd dec_rs1 dec_rs2 dec_imm]. rewrite E1. by split_and!.
  - intros Hi He Ho. destruct (decode_U op rd imm) as (E1 & E2 & E3); [unfold fields_ok; lia|done..|].
    cbn [decode dec_opcode dec_rd dec_imm]. rewrite E1. split_and!; try done. rewrite <- E3 at 2.
    repeat (apply elem_of_cons in Ho as [-> | Ho]; [done|]). by apply elem_of_nil in Ho.
  - intros Hi He ->. destruct (decode_J OPCODE_JAL rd imm) as (E1 & E2 & E3); [unfold fields_ok; lia|done..|].
    cbn [decode dec_opcode dec_rd dec_imm]. rewrite E1. by split_and!.
Qed.

Lemma decode_encode_witness :
  let d := decode (enc_B OPCODE_BRANCH 0 5 6 (-4096)) in
  dec_opcode d = OPCODE_BRANCH /\ dec_rs1 d = 5 /\ dec_rs2 d = 6 /\ s64 (dec_imm d) = -4096.
Proof.
  exact (proj1 (proj2 (proj2 (decode_encode OPCODE_BRANCH 0 0 5 6 (-4096)
    ltac:(unfold fields_ok, OPCODE_BRANCH; lia)))) ltac:(lia) eq_refl eq_refl).
Defined.

(** ** Ranges of the decoded fields *)
Lemma w8_bits_u inst hi lo w :
  0 <= lo -> hi - lo + 1 = w -> 0 < w <= 8 -> is_u w (w8 (bits inst hi lo)).
Proof. intros ? <- ?. rewrite field_value by lia. apply Z.mod_pos_bound, Z.pow_pos_nonneg; lia. Qed.

Lemma decode_ranges inst :
  is_u 5 (dec_rd (decode inst)) /\ is_u 5 (dec_rs1 (decode inst)) /\ is_u 5 (dec_rs2 (decode inst)) /\
  is_u 64 (dec_imm (decode inst)) /\ is_u 12 (dec_csr (decode inst)).
Proof.
  cbn [decode dec_rd dec_rs1 dec_rs2 dec_imm dec_csr].
  split; [by apply (w8_bits_u inst 11 7 5)|]. split; [by apply (w8_bits_u inst 19 15 5)|].
  split; [by apply (w8_bits_u inst 24 20 5)|]. split.
  - unfold decode_imm, IMM_I, IMM_U, IMM_S, IMM_J, IMM_B. repeat apply u64_if; try apply sext_u; [|lia].
    rewrite uext_spec by lia. apply (u_weaken 5); [lia|]. apply Z.mod_pos_bound. lia.
  - pose proof (bits_u inst 31 20 ltac:(lia) ltac:(lia)) as H. change (31 - 20 + 1) with 12 in H.
    unfold s32. rewrite (signed_unique 32 _ (bits inst 31 20)); [done|lia|lia|done].
Qed.
