(* ===== verification/Cpu.v ===== *)
(** * The core

    Models [emulator/src/cpu/cpu.c] and [cpu.h]: the register file, the LR/SC
    reservation, instruction execution and [cpu_step].  A machine is the core, the
    bus behind it and the events it hands to the tracing code ([iringbuf_write],
    [trace_call], [trace_return], [trace_trap]).  An instruction is a computation
    in the [exec] monad of [Prelude]: [goto raise_exception] is [raise] with
    [trap_cause] and [trap_val], and the result is [next_pc].  The macros of the
    source are definitions of the same names. *)
From stdpp Require Import base tactics numbers option list.
From S2P Require Import Prelude CInt Bus Csr Mmu Tlb Decode Alu.

#[local] Open Scope record_scope.
#[local] Open Scope Z_scope.

(** ** cpu.h *)
Definition RST_VEC : Z := 0x80000000.

Record reservation_t := mk_reservation { res_valid : bool; addr_start : Z; addr_end : Z }.
#[export] Instance eta_reservation : Eta reservation_t := fun r =>
  mk_reservation (res_valid r) (addr_start r) (addr_end r).

Record cpu_t := mk_cpu {
  regs : list Z; pc : Z;
  csr : csr_t; i_tlb : tlb_t; d_tlb : tlb_t;
  msip : bool; mtip : bool; meip : bool; seip : bool;
  halted : bool; wfi : bool;
  priv : Z;
  res : reservation_t;
}.
#[export] Instance eta_cpu : Eta cpu_t := fun c =>
  mk_cpu (regs c) (pc c) (csr c) (i_tlb c) (d_tlb c) (msip c) (mtip c) (meip c) (seip c)
    (halted c) (wfi c) (priv c) (res c).

(** The calls into the tracing code. *)
Inductive trace_event :=
  | IRING (pc inst : Z)
  | CALL (pc target priv : Z)
  | RETURN (pc target priv : Z)
  | TRAP (pc target priv : Z).

Record mach (B : Type) := mk_mach { m_cpu : cpu_t; m_bus : B; m_trace : list trace_event }.
Arguments mk_mach {B}.
Arguments m_cpu {B}.
Arguments m_bus {B}.
Arguments m_trace {B}.
#[export] Instance eta_mach B : Eta (mach B) := fun m => mk_mach (m_cpu m) (m_bus m) (m_trace m).

Definition TRAP_INTERRUPT : Z := 2 ^ 63.

(** [memset] to zero, then the reset values. *)
Definition tlb_zero : tlb_t := tlb_void (mk_tlb [] 0 0).
Definition cpu_init : cpu_t :=
  mk_cpu (replicate 32 0) RST_VEC csr_init tlb_zero tlb_zero false false false false false false PRIV_M
    (mk_reservation false 0 0).

(** ** Comparisons of the AMO macros *)
Definition CMP64U (a b : Z) (op : Z -> Z -> bool) : Z := if op a b then a else b.
Definition CMP32U (a b : Z) (op : Z -> Z -> bool) : Z := sext (if op (w32 a) (w32 b) then a else b) 32.
Definition CMP64S (a b : Z) (op : Z -> Z -> bool) : Z := if op (s64 a) (s64 b) then a else b.
Definition CMP32S (a b : Z) (op : Z -> Z -> bool) : Z := sext (if op (s32 a) (s32 b) then a else b) 32.
Definition NOEXT (value _bits : Z) : Z := value.

Section core.
Context {B : Type} `{!BusOps B}.

Abbreviation M := (exec (mach B) (Z * Z)).

Definition upd_cpu (f : cpu_t -> cpu_t) : mach B -> mach B := fun s => s <| m_cpu ::= f |>.
Definition upd_csr (f : csr_t -> csr_t) : mach B -> mach B := upd_cpu (fun c => c <| csr ::= f |>).
Definition emit (on : bool) (e : trace_event) : M unit :=
  modify (fun s => if on then s <| m_trace ::= fun l => l ++ [e] |> else s).

(** [RD() = v], [RS1()], [PC()] *)
Definition rX (n : Z) : M Z := gets (fun s => aget 0 (regs (m_cpu s)) n).
Definition wX (n v : Z) : M unit := modify (upd_cpu (fun c => c <| regs ::= fun l => aset l n v |>)).
Definition get_pc : M Z := gets (fun s => pc (m_cpu s)).
Definition get_priv : M Z := gets (fun s => priv (m_cpu s)).
(** [next_pc = PC() + 4] *)
Definition next : M Z := gets (fun s => add64 (pc (m_cpu s)) 4).

Definition CHECK_MA_FETCH (addr : Z) : M unit :=
  if negb (Z.land addr 0x3 =? 0) then raise (INST_ADDR_MISALIGNED, addr) else mret tt.

Definition CHECK_MA_LS (addr size cause vaddr : Z) : M unit :=
  let ma_addr := ((size =? 2) && negb (Z.land addr 0x1 =? 0))
              || ((size =? 4) && negb (Z.land addr 0x3 =? 0))
              || ((size =? 8) && negb (Z.land addr 0x7 =? 0)) in
  if ma_addr then raise (cause, vaddr) else mret tt.

(** The macro takes [effective_priv] from the enclosing block, where it is
    [effective_priv_mode] of the current state. *)
Definition MMU (vaddr : Z) (mode : mmu_access_mode) : M Z := fun s =>
  let c := m_cpu s in
  let effective_priv := effective_priv_mode (csr c) (priv c) in
  let '(r, t, b) := tlb_lookup (d_tlb c) vaddr (satp (csr_reg (csr c))) (mstatus (csr_reg (csr c)))
                               mode effective_priv (m_bus s) in
  let s := upd_cpu (fun c => c <| d_tlb := t |>) (s <| m_bus := b |>) in
  if negb (to_result r =? MMU_VALID) then (inl (to_result r, vaddr), s)
  else (inr (default 0 (to_pa r)), s).

(** A bus access that traps on failure. *)
Definition bus_load (paddr size fault_cause vaddr : Z) : M Z := fun s =>
  let '(v, b) := bread (m_bus s) paddr size in
  let s := s <| m_bus := b |> in
  match v with Some v => (inr v, s) | None => (inl (fault_cause, vaddr), s) end.
Definition bus_store (paddr size data vaddr : Z) : M unit := fun s =>
  let '(r, b) := bwrite (m_bus s) paddr size data in
  let s := s <| m_bus := b |> in
  if negb (r =? 0) then (inl (STORE_AMO_ACCESS_FAULT, vaddr), s) else (inr tt, s).

(** The result is the value assigned to [target]. *)
Definition EXEC_LOAD_HELPER (vaddr size : Z) (ext : Z -> Z -> Z) (access_fault_cause : Z)
    (mmu_mode : mmu_access_mode) : M Z :=
  addr ← MMU vaddr mmu_mode;
  CHECK_MA_LS addr size LOAD_ADDR_MISALIGNED vaddr;;
  data ← bus_load addr size access_fault_cause vaddr;
  mret (ext data (size * 8)).

Definition EXEC_LOAD (rd vaddr size : Z) (ext : Z -> Z -> Z) : M unit :=
  v ← EXEC_LOAD_HELPER vaddr size ext LOAD_ACCESS_FAULT MMU_READ;
  wX rd v.

Definition EXEC_STORE (vaddr data size : Z) : M unit :=
  addr ← MMU vaddr MMU_WRITE;
  CHECK_MA_LS addr size STORE_AMO_ADDR_MISALIGNED vaddr;;
  bus_store addr size data vaddr.

(** [priv] is [cpu->priv]; [rs1] is the field, a register number or an immediate. *)
Definition EXEC_CSR (inst : Z) (d : inst_dec_t) (op : csr_op_t) (value : Z) : M unit := fun s =>
  let is_rw := match op with CSR_OP_RW => true | _ => false end in
  let read := negb ((dec_rd d =? 0) && is_rw) in
  let write := negb ((dec_rs1 d =? 0) && negb is_rw) in
  let '(r, c) := csr_access (csr (m_cpu s)) (dec_csr d) op value read write (bmtime (m_bus s)) (priv (m_cpu s)) in
  let s := upd_csr (fun _ => c) s in
  match r with
  | None => (inl (ILLEGAL_INSTRUCTION, inst), s)
  | Some rdata => if negb (dec_rd d =? 0) then wX (dec_rd d) (default 0 rdata) s else (inr tt, s)
  end.

Definition EXEC_LR (d : inst_dec_t) (size : Z) : M unit :=
  lr_addr ← rX (dec_rs1 d);
  EXEC_LOAD (dec_rd d) lr_addr size sext;;
  modify (upd_cpu (fun c => c <| res := mk_reservation true lr_addr (add64 lr_addr size) |>)).

Definition EXEC_SC (d : inst_dec_t) (size : Z) : M unit :=
  a ← rX (dec_rs1 d);
  CHECK_MA_LS a size STORE_AMO_ADDR_MISALIGNED a;;
  r ← gets (fun s => res (m_cpu s));
  modify (upd_cpu (fun c => c <| res ::= fun r => r <| res_valid := false |> |>));;
  if negb (res_valid r) || (a <? addr_start r) || (sub64 (addr_end r) size <? a) then wX (dec_rd d) 1
  else
    v ← rX (dec_rs2 d);
    EXEC_STORE a v size;;
    wX (dec_rd d) 0.

(** [op amo_src read_value] is the last argument of the macro. *)
Definition EXEC_AMO (d : inst_dec_t) (size : Z) (op : Z -> Z -> Z) : M unit :=
  amo_addr ← rX (dec_rs1 d);
  amo_src ← rX (dec_rs2 d);
  CHECK_MA_LS amo_addr size STORE_AMO_ADDR_MISALIGNED amo_addr;;
  read_value ← EXEC_LOAD_HELPER amo_addr size sext STORE_AMO_ACCESS_FAULT MMU_AMO;
  EXEC_STORE amo_addr (op amo_src read_value) size;;
  wX (dec_rd d) read_value.

Definition EXEC_BRANCH (d : inst_dec_t) (cond : Z -> Z -> bool) : M Z :=
  a ← rX (dec_rs1 d);
  b ← rX (dec_rs2 d);
  if cond a b then
    pc ← get_pc;
    let next_pc := add64 pc (dec_imm d) in
    CHECK_MA_FETCH next_pc;;
    mret next_pc
  else next.

(** [RD() = f(RS1(), RS2())] and [RD() = f(RS1(), IMM())] *)
Definition op_rr (d : inst_dec_t) (f : Z -> Z -> Z) : M Z :=
  a ← rX (dec_rs1 d); b ← rX (dec_rs2 d); wX (dec_rd d) (f a b);; next.
Definition op_ri (d : inst_dec_t) (f : Z -> Z -> Z) : M Z :=
  a ← rX (dec_rs1 d); wX (dec_rd d) (f a (dec_imm d));; next.
(** An instruction that falls through to [PC() + 4]. *)
Definition then_next (m : M unit) : M Z := m;; next.
(** A load or store at [RS1() + IMM()]. *)
Definition at_rs1_imm (d : inst_dec_t) (k : Z -> M unit) : M Z :=
  a ← rX (dec_rs1 d); k (add64 a (dec_imm d));; next.

(** ** The instructions, one list per case of the switch *)
Definition group : Type := list (instpat * M Z).

(** [INSTPAT]s in sequence, then [goto illegal_instruction]. *)
Definition INSTPAT (inst : Z) (l : group) : M Z :=
  match find (fun p => matches inst p.1) l with
  | Some (_, op) => op
  | None => raise (ILLEGAL_INSTRUCTION, inst)
  end.

Definition grp_lui (d : inst_dec_t) : group := [(Inst.LUI, then_next (wX (dec_rd d) (dec_imm d)))].

Definition grp_auipc (d : inst_dec_t) : group :=
  [(Inst.AUIPC, pc ← get_pc; wX (dec_rd d) (add64 pc (dec_imm d));; next)].

Definition grp_jal (ftrace : bool) (d : inst_dec_t) : group :=
  [(Inst.JAL,
    pc ← get_pc;
    let next_pc := add64 pc (dec_imm d) in
    CHECK_MA_FETCH next_pc;;
    priv ← get_priv;
    emit (ftrace && (dec_rd d =? 1)) (CALL pc next_pc priv);;
    wX (dec_rd d) (add64 pc 4);;
    mret next_pc)].

Definition grp_jalr (ftrace : bool) (d : inst_dec_t) : group :=
  [(Inst.JALR,
    pc ← get_pc;
    a ← rX (dec_rs1 d);
    let next_pc := Z.land (add64 (dec_imm d) a) (not64 1) in
    CHECK_MA_FETCH next_pc;;
    priv ← get_priv;
    emit (ftrace && (dec_rd d =? 1)) (CALL pc next_pc priv);;
    emit (ftrace && ((dec_rd d =? 0) && (dec_rs1 d =? 1) && (dec_imm d =? 0))) (RETURN pc next_pc priv);;
    wX (dec_rd d) (add64 pc 4);;
    mret next_pc)].

Definition grp_branch (d : inst_dec_t) : group :=
  [(Inst.BEQ, EXEC_BRANCH d (fun a b => a =? b));
   (Inst.BNE, EXEC_BRANCH d (fun a b => negb (a =? b)));
   (Inst.BLT, EXEC_BRANCH d (fun a b => s64 a <? s64 b));
   (Inst.BGE, EXEC_BRANCH d (fun a b => s64 b <=? s64 a));
   (Inst.BLTU, EXEC_BRANCH d (fun a b => a <? b));
   (Inst.BGEU, EXEC_BRANCH d (fun a b => b <=? a))].

Definition grp_load (d : inst_dec_t) : group :=
  [(Inst.LB, at_rs1_imm d (fun a => EXEC_LOAD (dec_rd d) a 1 sext));
   (Inst.LH, at_rs1_imm d (fun a => EXEC_LOAD (dec_rd d) a 2 sext));
   (Inst.LW, at_rs1_imm d (fun a => EXEC_LOAD (dec_rd d) a 4 sext));
   (Inst.LBU, at_rs1_imm d (fun a => EXEC_LOAD (dec_rd d) a 1 NOEXT));
   (Inst.LHU, at_rs1_imm d (fun a => EXEC_LOAD (dec_rd d) a 2 NOEXT));
   (Inst.LWU, at_rs1_imm d (fun a => EXEC_LOAD (dec_rd d) a 4 NOEXT));
   (Inst.LD, at_rs1_imm d (fun a => EXEC_LOAD (dec_rd d) a 8 NOEXT))].

Definition grp_store (d : inst_dec_t) : group :=
  let st size := at_rs1_imm d (fun a => v ← rX (dec_rs2 d); EXEC_STORE a v size) in
  [(Inst.SB, st 1); (Inst.SH, st 2); (Inst.SW, st 4); (Inst.SD, st 8)].

Definition grp_op_imm (d : inst_dec_t) : group :=
  [(Inst.ADDI, op_ri d add64);
   (Inst.SLTI, op_ri d (fun a i => Z.b2z (s64 a <? s64 i)));
   (Inst.SLTIU, op_ri d (fun a i => Z.b2z (a <? i)));
   (Inst.XORI, op_ri d Z.lxor);
   (Inst.ORI, op_ri d Z.lor);
   (Inst.ANDI, op_ri d Z.land);
   (Inst.SLLI, op_ri d (fun a i => shl64 a (Z.land i 0x3F)));
   (Inst.SRLI, op_ri d (fun a i => shr64 a (Z.land i 0x3F)));
   (Inst.SRAI, op_ri d (fun a i => sar64 a (Z.land i 0x3F)))].

(** The 32-bit shifts. *)
Definition sllw (a n : Z) : Z := sext (w32 (Z.shiftl (w32 a) (Z.land n 0x1F))) 32.
Definition srlw (a n : Z) : Z := sext (Z.shiftr (w32 a) (Z.land n 0x1F)) 32.
Definition sraw (a n : Z) : Z := sext (w32 (Z.shiftr (s32 a) (Z.land n 0x1F))) 32.

Definition grp_op_imm_32 (d : inst_dec_t) : group :=
  [(Inst.ADDIW, op_ri d (fun a i => sext (add64 a i) 32));
   (Inst.SLLIW, op_ri d sllw);
   (Inst.SRLIW, op_ri d srlw);
   (Inst.SRAIW, op_ri d sraw)].

Definition grp_op (d : inst_dec_t) : group :=
  [(Inst.ADD, op_rr d add64);
   (Inst.SUB, op_rr d sub64);
   (Inst.SLL, op_rr d (fun a b => shl64 a (Z.land b 0x3F)));
   (Inst.SLT, op_rr d (fun a b => Z.b2z (s64 a <? s64 b)));
   (Inst.SLTU, op_rr d (fun a b => Z.b2z (a <? b)));
   (Inst.XOR, op_rr d Z.lxor);
   (Inst.SRL, op_rr d (fun a b => shr64 a (Z.land b 0x3F)));
   (Inst.SRA, op_rr d (fun a b => sar64 a (Z.land b 0x3F)));
   (Inst.OR, op_rr d Z.lor);
   (Inst.AND, op_rr d Z.land);
   (Inst.MUL, op_rr d mul64);
   (Inst.MULH, op_rr d mulh);
   (Inst.MULHU, op_rr d mulhu);
   (Inst.MULHSU, op_rr d mulhsu);
   (Inst.DIV, op_rr d div);
   (Inst.DIVU, op_rr d divu);
   (Inst.REM, op_rr d rem);
   (Inst.REMU, op_rr d remu)].

Definition grp_op_32 (d : inst_dec_t) : group :=
  [(Inst.ADDW, op_rr d (fun a b => sext (add64 a b) 32));
   (Inst.SUBW, op_rr d (fun a b => sext (sub64 a b) 32));
   (Inst.SLLW, op_rr d sllw);
   (Inst.SRLW, op_rr d srlw);
   (Inst.SRAW, op_rr d sraw);
   (Inst.MULW, op_rr d mulw);
   (Inst.DIVW, op_rr d divw);
   (Inst.DIVUW, op_rr d divuw);
   (Inst.REMW, op_rr d remw);
   (Inst.REMUW, op_rr d remuw)].

Definition grp_misc_mem (d : inst_dec_t) : group :=
  [(Inst.FENCE, then_next (mret tt)); (Inst.FENCEI, then_next (mret tt))].

(** MRET and SRET: the privilege check, the return, the trace event. *)
Definition exec_xret (ftrace : bool) (inst : Z) (trap : csr_t -> Z -> bool)
    (exit : csr_t -> Z -> Z * csr_t * Z) : M Z := fun s =>
  let c := m_cpu s in
  if trap (csr c) (priv c) then (inl (ILLEGAL_INSTRUCTION, inst), s)
  else
    let prev_priv := priv c in
    let '(next_pc, csr', priv') := exit (csr c) (priv c) in
    let s := upd_cpu (fun c => c <| csr := csr' |> <| priv := priv' |>) s in
    (emit ftrace (RETURN (pc c) next_pc prev_priv);; mret next_pc) s.

(** An operation that is illegal when [trap] holds. *)
Definition unless_trap (inst : Z) (trap : csr_t -> Z -> bool) (k : M Z) : M Z := fun s =>
  if trap (csr (m_cpu s)) (priv (m_cpu s)) then (inl (ILLEGAL_INSTRUCTION, inst), s) else k s.

Definition flush_tlbs (c : cpu_t) : cpu_t := c <| i_tlb ::= tlb_void |> <| d_tlb ::= tlb_void |>.

Definition ecall_cause (priv : Z) : Z :=
  if priv =? PRIV_M then ECALL_FROM_M_MODE
  else if priv =? PRIV_S then ECALL_FROM_S_MODE else ECALL_FROM_U_MODE.

Definition grp_system (ftrace : bool) (inst : Z) (d : inst_dec_t) : group :=
  let csr_reg op := then_next (v ← rX (dec_rs1 d); EXEC_CSR inst d op v) in
  let csr_imm op := then_next (EXEC_CSR inst d op (dec_imm d)) in
  [(Inst.CSRRW, csr_reg CSR_OP_RW);
   (Inst.CSRRS, csr_reg CSR_OP_RS);
   (Inst.CSRRC, csr_reg CSR_OP_RC);
   (Inst.CSRRWI, csr_imm CSR_OP_RW);
   (Inst.CSRRSI, csr_imm CSR_OP_RS);
   (Inst.CSRRCI, csr_imm CSR_OP_RC);
   (Inst.ECALL, priv ← get_priv; raise (ecall_cause priv, 0));
   (Inst.EBREAK, pc ← get_pc; raise (BREAKPOINT, pc));
   (Inst.MRET, exec_xret ftrace inst (fun _ priv => check_mret_privilege priv) trap_exit_mret);
   (Inst.SRET, exec_xret ftrace inst check_sret_trap trap_exit_sret);
   (Inst.WFI, unless_trap inst check_wfi_trap
      (then_next (modify (upd_cpu (fun c => c <| wfi := true |>)))));
   (Inst.SFENCE_VMA, unless_trap inst check_sfence_vma (then_next (modify (upd_cpu flush_tlbs))))].

Definition grp_amo (d : inst_dec_t) : group :=
  let amo size op := then_next (EXEC_AMO d size op) in
  [(Inst.LR_D, then_next (EXEC_LR d 8));
   (Inst.LR_W, then_next (EXEC_LR d 4));
   (Inst.SC_D, then_next (EXEC_SC d 8));
   (Inst.SC_W, then_next (EXEC_SC d 4));
   (Inst.AMOSWAP_D, amo 8 (fun src _ => src));
   (Inst.AMOSWAP_W, amo 4 (fun src _ => src));
   (Inst.AMOADD_D, amo 8 add64);
   (Inst.AMOADD_W, amo 4 add64);
   (Inst.AMOAND_D, amo 8 Z.land);
   (Inst.AMOAND_W, amo 4 Z.land);
   (Inst.AMOOR_D, amo 8 Z.lor);
   (Inst.AMOOR_W, amo 4 Z.lor);
   (Inst.AMOXOR_D, amo 8 Z.lxor);
   (Inst.AMOXOR_W, amo 4 Z.lxor);
   (Inst.AMOMAXU_D, amo 8 (fun a b => CMP64U a b Z.gtb));
   (Inst.AMOMAXU_W, amo 4 (fun a b => CMP32U a b Z.gtb));
   (Inst.AMOMAX_D, amo 8 (fun a b => CMP64S a b Z.gtb));
   (Inst.AMOMAX_W, amo 4 (fun a b => CMP32S a b Z.gtb));
   (Inst.AMOMINU_D, amo 8 (fun a b => CMP64U a b Z.ltb));
   (Inst.AMOMINU_W, amo 4 (fun a b => CMP32U a b Z.ltb));
   (Inst.AMOMIN_D, amo 8 (fun a b => CMP64S a b Z.ltb));
   (Inst.AMOMIN_W, amo 4 (fun a b => CMP32S a b Z.ltb))].

(** The switch on the opcode. *)
Definition group_of (ftrace : bool) (inst : Z) (d : inst_dec_t) : group :=
  let opcode := dec_opcode d in
  if opcode =? OPCODE_LUI then grp_lui d
  else if opcode =? OPCODE_AUIPC then grp_auipc d
  else if opcode =? OPCODE_JAL then grp_jal ftrace d
  else if opcode =? OPCODE_JALR then grp_jalr ftrace d
  else if opcode =? OPCODE_BRANCH then grp_branch d
  else if opcode =? OPCODE_LOAD then grp_load d
  else if opcode =? OPCODE_STORE then grp_store d
  else if opcode =? OPCODE_OP_IMM then grp_op_imm d
  else if opcode =? OPCODE_OP_IMM_32 then grp_op_imm_32 d
  else if opcode =? OPCODE_OP then grp_op d
  else if opcode =? OPCODE_OP_32 then grp_op_32 d
  else if opcode =? OPCODE_MISC_MEM then grp_misc_mem d
  else if opcode =? OPCODE_SYSTEM then grp_system ftrace inst d
  else if opcode =? OPCODE_AMO then grp_amo d
  else [].

Definition execute (ftrace : bool) (inst : Z) : M Z := INSTPAT inst (group_of ftrace inst (decode inst)).

(** ** cpu_step *)

(** Translation of the PC and the read of the instruction. *)
Definition fetch : M Z := fun s =>
  let c := m_cpu s in
  let '(r, t, b) := tlb_lookup (i_tlb c) (pc c) (satp (csr_reg (csr c))) (mstatus (csr_reg (csr c)))
                               MMU_EXECUTE (priv c) (m_bus s) in
  let s := upd_cpu (fun c => c <| i_tlb := t |>) (s <| m_bus := b |>) in
  if negb (to_result r =? MMU_VALID) then (inl (to_result r, pc c), s)
  else (inst ← bus_load (default 0 (to_pa r)) 4 INST_ACCESS_FAULT (pc c); mret (w32 inst)) s.

Definition take_interrupt : M unit := fun s =>
  match interrupt_pending_and_enabled (csr (m_cpu s)) (priv (m_cpu s)) with
  | Some int_id => (inl (Z.lor TRAP_INTERRUPT int_id, 0), s)
  | None => (inr tt, s)
  end.

(** From the translation of the PC to [end_exec] or [raise_exception]. *)
Definition run_inst (itrace ftrace : bool) : M Z :=
  inst ← fetch;
  pc ← get_pc;
  emit itrace (IRING pc inst);;
  take_interrupt;;
  execute ftrace inst.

Definition raise_exception (ftrace : bool) (trap_cause trap_val : Z) (s : mach B) : Z * mach B :=
  let c := m_cpu s in
  let prev_priv := priv c in
  let '(next_pc, csr', priv') := trap_enter (csr c) trap_cause trap_val (pc c) (priv c) in
  let s := upd_cpu (fun c => c <| csr := csr' |> <| priv := priv' |>) s in
  (next_pc, (emit ftrace (TRAP (pc c) next_pc prev_priv) s).2).

Definition end_exec (next_pc : Z) (enter_trap : bool) : mach B -> mach B :=
  upd_cpu (fun c =>
    let c := c <| regs ::= fun l => aset l 0 0 |> <| pc := next_pc |> in
    let c := if satp_written (csr c) then flush_tlbs c else c in
    c <| csr ::= fun r => csr_end_update r (negb enter_trap) |>).

(** The part of a step after the WFI check. *)
Definition step_awake (itrace ftrace : bool) (s : mach B) : mach B :=
  match run_inst itrace ftrace s with
  | (inr next_pc, s) => end_exec next_pc false s
  | (inl (trap_cause, trap_val), s) =>
      let '(next_pc, s) := raise_exception ftrace trap_cause trap_val s in
      end_exec next_pc true s
  end.

Definition cpu_step (itrace ftrace : bool) (s : mach B) : mach B :=
  let s := upd_cpu (fun c => c <| csr ::= fun r => csr_begin_update r (meip c) (msip c) (mtip c) (seip c) |>) s in
  let c := m_cpu s in
  if wfi c then
    if interrupt_pending (csr c)
    then step_awake itrace ftrace (upd_cpu (fun c => c <| wfi := false |>) s)
    else s
  else step_awake itrace ftrace s.
End core.
