(* ===== verification/CpuInv.v ===== *)
(** * The machine invariant

    Well-formed machines ([mach_ok]): 32 registers of 64 bits with x0 zero, an
    aligned pc, legal CSRs and privilege mode, TLBs of their size, a well-formed
    bus.  Every operation of [Cpu] keeps it; the operations are registered in the
    database [exec] as [keeps] lemmas and the instruction groups follow by
    automation. *)
From stdpp Require Import base tactics numbers option list sets relations.
From S2P Require Import Prelude CInt Bus Csr Mmu Tlb Decode Alu Cpu.

#[local] Open Scope record_scope.
#[local] Open Scope Z_scope.

(** Between two instructions; [core_mid] is what holds inside one, where x0 may
    have been written. *)
Record core_mid (c : cpu_t) : Prop := {
  mid_len : length (regs c) = 32%nat;
  mid_regs : Forall (fun v => is_u 64 v) (regs c);
  mid_pc : is_u 64 (pc c) /\ pc c mod 4 = 0;
  mid_csr : csr_wf (csr c);
  mid_priv : priv_ok (priv c);
  mid_itlb : length (tlb (i_tlb c)) = 256%nat;
  mid_dtlb : length (tlb (d_tlb c)) = 256%nat;
  mid_res : is_u 64 (addr_start (res c)) /\ is_u 64 (addr_end (res c));
}.
Definition core_ok (c : cpu_t) : Prop := core_mid c /\ aget 0 (regs c) 0 = 0.

(** What a trap may carry, and where an instruction may continue. *)
Definition exc_ok (e : Z * Z) : Prop := is_u 64 e.1 /\ 0 <= e.1 mod 2 ^ 63 < 64 /\ is_u 64 e.2.
Definition npc_ok (a : Z) : Prop := is_u 64 a /\ a mod 4 = 0.

Section invariant.
Context {B : Type} `{HB : BusLaws B}.

Definition mid (s : mach B) : Prop := core_mid (m_cpu s) /\ bus_ok (m_bus s).
Definition mach_ok (s : mach B) : Prop := core_ok (m_cpu s) /\ bus_ok (m_bus s).

Abbreviation M := (exec (mach B) (Z * Z)).
Abbreviation keep Q m := (keeps mid Q exc_ok m).
Abbreviation u64 := (fun v => 0 <= v < 2 ^ 64).

Lemma mid_upd_cpu f s : mid s -> (core_mid (m_cpu s) -> core_mid (f (m_cpu s))) -> mid (upd_cpu f s).
Proof. intros [Hc Hb] Hf. split; [by apply Hf|done]. Qed.

Lemma keep_unit {Q : unit -> Prop} (m : M unit) : keep (fun _ => True) m -> Q tt -> keep Q m.
Proof. intros Hm HQ. eapply keeps_weaken; [exact Hm|]. by intros []. Qed.

Lemma keep_rX n : keep u64 (rX n).
Proof.
  apply keeps_gets. intros s [Hc _]. apply (aget_Forall (fun v => 0 <= v < 2 ^ 64)); [lia|apply Hc].
Qed.
Lemma keep_wX n v : is_u 64 v -> keep (fun _ => True) (wX n v).
Proof.
  intros Hv. apply keeps_modify; [|done]. intros s Hs. apply mid_upd_cpu; [done|]. intros Hc.
  destruct Hc. constructor; try done; cbn.
  - by rewrite aset_length.
  - by apply (aset_Forall (fun v => 0 <= v < 2 ^ 64)).
Qed.
Lemma keep_get_pc : keep npc_ok get_pc.
Proof. apply keeps_gets. intros s [Hc _]. apply Hc. Qed.
Lemma keep_get_priv : keep priv_ok get_priv.
Proof. apply keeps_gets. intros s [Hc _]. apply Hc. Qed.

Lemma add64_aligned a b : a mod 4 = 0 -> b mod 4 = 0 -> add64 a b mod 4 = 0.
Proof. intros Ha Hb. unfold add64, w64. change (2 ^ 64) with (4 * 2 ^ 62). div_lia. Qed.

Lemma keep_next : keep npc_ok next.
Proof.
  apply keeps_gets. intros s [Hc _]. destruct (mid_pc _ Hc). split; [apply add64_u|by apply add64_aligned].
Qed.
Lemma keep_emit on e : keep (fun _ => True) (emit on e).
Proof. apply keeps_modify; [|done]. intros s Hs. by destruct on. Qed.

Lemma exc_code cause v : 0 <= cause < 64 -> is_u 64 v -> exc_ok (cause, v).
Proof. intros Hc Hv. split; cbn; [lia|]. split; [|done]. rewrite Z.mod_small by lia. done. Qed.

Lemma fault_code_range c : c ∈ fault_codes -> 0 <= c < 64.
Proof.
  unfold fault_codes. intros H. repeat (apply elem_of_cons in H as [->|H]; [vm_compute; intuition congruence|]).
  by apply elem_of_nil in H.
Qed.

Lemma keep_ma_fetch a : is_u 64 a -> keep (fun _ => a mod 4 = 0) (CHECK_MA_FETCH a).
Proof.
  intros Ha. unfold CHECK_MA_FETCH. change 0x3 with (Z.ones 2). rewrite Z.land_ones by lia. change (2 ^ 2) with 4.
  destruct (Z.eqb_spec (a mod 4) 0); cbn [negb]; [by apply keeps_ret|].
  apply keeps_raise, exc_code; [vm_compute; intuition congruence|done].
Qed.
Lemma keep_ma_ls a size cause v : 0 <= cause < 64 -> is_u 64 v -> keep (fun _ => True) (CHECK_MA_LS a size cause v).
Proof.
  intros Hc Hv. unfold CHECK_MA_LS. cbv zeta. apply keeps_if; intros _; [by apply keeps_raise, exc_code|by apply keeps_ret].
Qed.

Lemma satp_u c : core_mid c -> is_u 64 (satp (csr_reg (csr c))).
Proof. intros Hc. destruct (mid_csr _ Hc) as [Hr _]. exact (csr_legal_u _ R_satp Hr). Qed.

Lemma keep_MMU v mode : is_u 64 v -> keep u64 (MMU v mode).
Proof.
  intros Hv s [Hc Hb]. unfold MMU. pose proof (satp_u _ Hc) as Hs.
  pose proof (tlb_lookup_out (d_tlb (m_cpu s)) v (satp (csr_reg (csr (m_cpu s)))) (mstatus (csr_reg (csr (m_cpu s))))
    mode (effective_priv_mode (csr (m_cpu s)) (priv (m_cpu s))) (m_bus s) Hv Hs Hb (mid_dtlb _ Hc)) as Ht.
  destruct (tlb_lookup _ _ _ _ _ _ _) as [[r t'] b']. destruct Ht as (-> & Hlen & Hcode & Hpa). cbv zeta.
  assert (mid (upd_cpu (fun c => c <| d_tlb := t' |>) (s <| m_bus := m_bus s |>))) as Hmid.
  { split; [|done]. destruct Hc. by constructor. }
  destruct (Z.eqb_spec (to_result r) MMU_VALID) as [E|E]; cbn [negb].
  - split; [done|]. by destruct (Hpa E) as (pa & -> & ?).
  - split; [done|]. apply exc_code; [by apply fault_code_range|done].
Qed.

Lemma keep_bus_load a size cause v :
  0 <= cause < 64 -> is_u 64 v -> keep u64 (bus_load a size cause v).
Proof.
  intros Hc Hv s [Hcore Hb]. unfold bus_load. pose proof (bread_ok (m_bus s) a size Hb) as Hok.
  pose proof (bread_u64 (m_bus s) a size) as Hu. destruct (bread _ _ _) as [[x|] b']; cbn [fst snd] in *.
  - split; [by split|]. by apply Hu.
  - split; [by split|]. by apply exc_code.
Qed.
Lemma keep_bus_store a size data v : is_u 64 v -> keep (fun _ => True) (bus_store a size data v).
Proof.
  intros Hv s [Hcore Hb]. unfold bus_store. pose proof (bwrite_ok (m_bus s) a size data Hb) as Hok.
  destruct (bwrite _ _ _ _) as [r b']; cbn [snd] in *. destruct (negb _).
  - split; [by split|]. apply exc_code; [vm_compute; intuition congruence|done].
  - split; [by split|done].
Qed.
End invariant.


#[export] Hint Resolve keep_rX keep_wX keep_get_pc keep_get_priv keep_next keep_emit keep_ma_fetch keep_ma_ls
  keep_MMU keep_bus_load keep_bus_store : exec.

Section instructions.
Context {B : Type} `{HB : BusLaws B}.
Abbreviation M := (exec (mach B) (Z * Z)).
Abbreviation keep Q m := (keeps mid Q exc_ok m).
Abbreviation u64 := (fun v => 0 <= v < 2 ^ 64).

(** What [ext] must do with the data of a load. *)
Definition ext_ok (ext : Z -> Z -> Z) : Prop := forall v n, is_u 64 v -> is_u 64 (ext v n).
Lemma ext_ok_sext : ext_ok sext. Proof. intros v n _. apply sext_u. Qed.
Lemma ext_ok_noext : ext_ok NOEXT. Proof. by intros v n. Qed.

Lemma small_cause c : bool_decide (0 <= c < 64) = true -> 0 <= c < 64.
Proof. apply bool_decide_eq_true. Qed.

Lemma keep_load_helper v size ext cause mode :
  is_u 64 v -> ext_ok ext -> 0 <= cause < 64 -> keep u64 (EXEC_LOAD_HELPER v size ext cause mode).
Proof.
  intros Hv He Hc. unfold EXEC_LOAD_HELPER.
  eapply keeps_bind; [by apply keep_MMU|]. intros pa Hpa.
  eapply keeps_bind; [apply keep_ma_ls; [by apply small_cause|done]|]. intros _ _.
  eapply keeps_bind; [by apply keep_bus_load|]. intros d Hd. apply keeps_ret. by apply He.
Qed.

Lemma keep_load rd v size ext : is_u 64 v -> ext_ok ext -> keep (fun _ => True) (EXEC_LOAD rd v size ext).
Proof.
  intros Hv He. unfold EXEC_LOAD. eapply keeps_bind; [apply keep_load_helper; [done|done|by apply small_cause]|].
  intros d Hd. by apply keep_wX.
Qed.

Lemma keep_store v data size : is_u 64 v -> keep (fun _ => True) (EXEC_STORE v data size).
Proof.
  intros Hv. unfold EXEC_STORE. eapply keeps_bind; [by apply keep_MMU|]. intros pa Hpa.
  eapply keeps_bind; [apply keep_ma_ls; [by apply small_cause|done]|]. intros _ _. by apply keep_bus_store.
Qed.

Lemma keep_csr inst op v :
  is_u 32 inst -> is_u 64 v -> keep (fun _ => True) (EXEC_CSR inst (decode inst) op v).
Proof.
  intros Hi Hv s [Hc Hb]. unfold EXEC_CSR.
  pose proof (bmtime_u64 (m_bus s) Hb) as Ht. set (d := decode inst).
  set (rd := negb (_ && _)). set (wr := negb (_ && _)).
  pose proof (csr_access_wf (csr (m_cpu s)) (dec_csr d) op v rd wr (bmtime (m_bus s)) (priv (m_cpu s))
    (mid_csr _ Hc) Hv Ht) as Hwf.
  pose proof (fun x => csr_access_read_u (csr (m_cpu s)) (dec_csr d) op v rd wr (bmtime (m_bus s)) (priv (m_cpu s)) x
    (mid_csr _ Hc) Ht) as Hrd.
  destruct (csr_access _ _ _ _ _ _ _ _) as [r c]. cbn [fst snd] in *. cbv zeta.
  assert (mid (upd_csr (fun _ => c) s)) as Hmid.
  { apply mid_upd_cpu; [by split|]. intros []. by constructor. }
  destruct r as [rdata|].
  - destruct (negb (dec_rd d =? 0)); [|exact (conj Hmid I)].
    assert (is_u 64 (default 0 rdata)) as Hdef by (destruct rdata; [by apply Hrd|cbn; lia]).
    exact (keep_wX (dec_rd d) (default 0 rdata) Hdef _ Hmid).
  - split; [done|]. apply exc_code; [by apply small_cause|]. by apply (u_weaken 32).
Qed.

Lemma keep_set_res f :
  (forall r, is_u 64 (addr_start r) /\ is_u 64 (addr_end r) -> is_u 64 (addr_start (f r)) /\ is_u 64 (addr_end (f r))) ->
  keep (fun _ => True) (modify (E := Z * Z) (upd_cpu (B := B) (fun c => c <| res ::= f |>))).
Proof.
  intros Hf. apply keeps_modify; [|done]. intros s Hs. apply mid_upd_cpu; [done|]. intros [].
  constructor; try done. by apply Hf.
Qed.

Lemma keep_lr d size : keep (fun _ => True) (EXEC_LR d size).
Proof.
  unfold EXEC_LR. eapply keeps_bind; [apply keep_rX|]. intros a Ha.
  eapply keeps_bind; [apply keep_load; [done|apply ext_ok_sext]|]. intros _ _.
  apply (keep_set_res (fun _ => mk_reservation true a (add64 a size))). intros _ _. cbn. split; [done|apply add64_u].
Qed.

Lemma keep_sc d size : keep (fun _ => True) (EXEC_SC d size).
Proof.
  unfold EXEC_SC. eapply keeps_bind; [apply keep_rX|]. intros a Ha.
  eapply keeps_bind; [apply keep_ma_ls; [by apply small_cause|done]|]. intros _ _.
  eapply keeps_bind; [by apply (keeps_gets _ _ (fun _ => True))|]. intros r _.
  eapply keeps_bind; [by apply (keep_set_res (fun r => r <| res_valid := false |>))|]. intros _ _.
  apply keeps_if; intros _; [by apply keep_wX|].
  eapply keeps_bind; [apply keep_rX|]. intros v Hv.
  eapply keeps_bind; [by apply keep_store|]. intros _ _. by apply keep_wX.
Qed.

Lemma keep_amo d size op : keep (fun _ => True) (EXEC_AMO d size op).
Proof.
  unfold EXEC_AMO. eapply keeps_bind; [apply keep_rX|]. intros a Ha.
  eapply keeps_bind; [apply keep_rX|]. intros v Hv.
  eapply keeps_bind; [apply keep_ma_ls; [by apply small_cause|done]|]. intros _ _.
  eapply keeps_bind; [apply keep_load_helper; [done|apply ext_ok_sext|by apply small_cause]|]. intros x Hx.
  eapply keeps_bind; [by apply keep_store|]. intros _ _. by apply keep_wX.
Qed.

Lemma keep_branch inst cond : keep npc_ok (EXEC_BRANCH (decode inst) cond).
Proof.
  unfold EXEC_BRANCH. eapply keeps_bind; [apply keep_rX|]. intros a Ha.
  eapply keeps_bind; [apply keep_rX|]. intros b Hb. apply keeps_if; intros _; [|apply keep_next].
  eapply keeps_bind; [apply keep_get_pc|]. intros p Hp. cbv zeta.
  eapply keeps_bind; [apply keep_ma_fetch, add64_u|]. cbv beta. intros _ Hal. apply keeps_ret. split; [apply add64_u|done].
Qed.

Lemma keep_op_rr d f :
  (forall a b, is_u 64 a -> is_u 64 b -> is_u 64 (f a b)) -> keep npc_ok (op_rr d f).
Proof.
  intros Hf. unfold op_rr. eapply keeps_bind; [apply keep_rX|]. intros a Ha.
  eapply keeps_bind; [apply keep_rX|]. intros b Hb.
  eapply keeps_bind; [apply keep_wX; by apply Hf|]. intros _ _. apply keep_next.
Qed.
Lemma keep_op_ri inst f :
  (forall a b, is_u 64 a -> is_u 64 b -> is_u 64 (f a b)) -> keep npc_ok (op_ri (decode inst) f).
Proof.
  intros Hf. unfold op_ri. eapply keeps_bind; [apply keep_rX|]. intros a Ha.
  destruct (decode_ranges inst) as (_ & _ & _ & Himm & _).
  eapply keeps_bind; [apply keep_wX; by apply Hf|]. intros _ _. apply keep_next.
Qed.
Lemma keep_then_next (m : M unit) : keep (fun _ => True) m -> keep npc_ok (then_next m).
Proof. intros Hm. eapply keeps_bind; [exact Hm|]. intros _ _. apply keep_next. Qed.
Lemma keep_at_rs1_imm d k :
  (forall a, is_u 64 a -> keep (fun _ => True) (k a)) -> keep npc_ok (at_rs1_imm d k).
Proof.
  intros Hk. unfold at_rs1_imm. eapply keeps_bind; [apply keep_rX|]. intros a Ha.
  eapply keeps_bind; [apply Hk, add64_u|]. intros _ _. apply keep_next.
Qed.

Lemma keep_xret ftrace inst trap exit :
  is_u 32 inst ->
  (forall c p, csr_wf c -> csr_wf (exit c p).1.2 /\ priv_ok (exit c p).2 /\ npc_ok (exit c p).1.1) ->
  keep npc_ok (exec_xret ftrace inst trap exit).
Proof.
  intros Hi Hx s [Hc Hb]. unfold exec_xret. destruct (trap _ _).
  - split; [by split|]. apply exc_code; [by apply small_cause|]. by apply (u_weaken 32).
  - destruct (Hx (csr (m_cpu s)) (priv (m_cpu s)) (mid_csr _ Hc)) as (H1 & H2 & H3).
    destruct (exit _ _) as [[npc c'] p']. cbn [fst snd] in *. cbv zeta.
    match goal with |- match ?m ?s0 with _ => _ end =>
      assert (keep npc_ok m) as Hm; [|apply Hm; apply mid_upd_cpu; [by split|]; intros []; by constructor] end.
    eapply keeps_bind; [apply keep_emit|]. intros _ _. by apply keeps_ret.
Qed.

Lemma keep_unless inst trap (k : M Z) Q : is_u 32 inst -> keep Q k -> keep Q (unless_trap inst trap k).
Proof.
  intros Hi Hk s Hs. unfold unless_trap. destruct (trap _ _); [|by apply Hk].
  split; [done|]. apply exc_code; [by apply small_cause|]. by apply (u_weaken 32).
Qed.
End instructions.

#[export] Hint Resolve keep_load keep_store keep_csr keep_lr keep_sc keep_amo keep_branch keep_op_rr keep_op_ri
  keep_then_next keep_at_rs1_imm ext_ok_sext ext_ok_noext : exec.

(** ** The groups and the step *)
Section step.
Context {B : Type} `{HB : BusLaws B}.
Abbreviation M := (exec (mach B) (Z * Z)).
Abbreviation keep Q m := (keeps mid Q exc_ok m).

Definition group_keeps (l : group) : Prop := Forall (fun p => keep npc_ok p.2) l.

Lemma sllw_u a n : is_u 64 (sllw a n). Proof. apply sext_u. Qed.
Lemma srlw_u a n : is_u 64 (srlw a n). Proof. apply sext_u. Qed.
Lemma sraw_u a n : is_u 64 (sraw a n). Proof. apply sext_u. Qed.
Lemma shr64_u' a n : is_u 64 a -> is_u 64 (shr64 a (Z.land n 0x3F)).
Proof. intros. apply shr64_u; [apply Z.land_nonneg; by right|done]. Qed.
#[local] Hint Resolve sllw_u srlw_u sraw_u shr64_u' : cint.

Ltac group_entry :=
  cbn [snd];
  lazymatch goal with
  | |- keeps _ _ _ (EXEC_BRANCH _ _) => apply keep_branch
  | |- keeps _ _ _ (op_rr _ _) => apply keep_op_rr; intros; solve [auto with cint]
  | |- keeps _ _ _ (op_ri _ _) => apply keep_op_ri; intros; solve [auto with cint]
  | |- keeps _ _ _ (then_next _) => try (apply keep_then_next; solve [auto with exec])
  | |- keeps _ _ _ (at_rs1_imm _ _) => try (apply keep_at_rs1_imm; intros; solve [auto with exec])
  | |- _ => idtac
  end.
Ltac group_tac := unfold group_keeps; repeat (apply Forall_cons_2; [group_entry|]); try apply Forall_nil_2.

Lemma keep_grp_lui inst : group_keeps (grp_lui (decode inst)).
Proof. group_tac. apply keep_then_next, keep_wX. apply decode_ranges. Qed.
Lemma keep_grp_branch inst : group_keeps (grp_branch (decode inst)).
Proof. group_tac. Qed.
Lemma keep_grp_load d : group_keeps (grp_load d).
Proof. group_tac. Qed.
Lemma keep_grp_op_imm inst : group_keeps (grp_op_imm (decode inst)).
Proof. group_tac. Qed.
Lemma keep_grp_op_imm_32 inst : group_keeps (grp_op_imm_32 (decode inst)).
Proof. group_tac. Qed.
Lemma keep_grp_op d : group_keeps (grp_op d).
Proof. group_tac. Qed.
Lemma keep_grp_op_32 d : group_keeps (grp_op_32 d).
Proof. group_tac. Qed.
Lemma keep_grp_amo d : group_keeps (grp_amo d).
Proof. group_tac. Qed.
Lemma keep_grp_store d : group_keeps (grp_store d).
Proof.
  group_tac.
  all: apply keep_at_rs1_imm; intros a Ha; eapply keeps_bind; [apply keep_rX|intros v Hv; by apply keep_store].
Qed.
Lemma keep_grp_misc_mem d : group_keeps (grp_misc_mem d).
Proof. group_tac. all: by apply keep_then_next, keeps_ret. Qed.
Lemma keep_grp_auipc inst : group_keeps (grp_auipc (decode inst)).
Proof.
  group_tac. eapply keeps_bind; [apply keep_get_pc|]. intros p Hp.
  eapply keeps_bind; [apply keep_wX, add64_u|]. intros _ _. apply keep_next.
Qed.

(** The common end of the jumps. *)
Lemma keep_jump d p np (evs : Z -> M unit) :
  npc_ok p -> is_u 64 np -> (forall pr, keep (fun _ => True) (evs pr)) ->
  keep npc_ok (CHECK_MA_FETCH np;; pr ← get_priv; evs pr;; wX (dec_rd d) (add64 p 4);; mret np).
Proof.
  intros Hp Hnp He. eapply keeps_bind; [by apply keep_ma_fetch|]. cbv beta. intros _ Hal.
  eapply keeps_bind; [apply keep_get_priv|]. intros pr _.
  eapply keeps_bind; [apply He|]. intros _ _.
  eapply keeps_bind; [apply keep_wX, add64_u|]. intros _ _. by apply keeps_ret.
Qed.

Lemma keep_grp_jal ftrace d : group_keeps (grp_jal ftrace d).
Proof.
  group_tac. eapply keeps_bind; [apply keep_get_pc|]. intros p Hp. cbv zeta.
  apply (keep_jump d p _ (fun pr => emit _ (CALL p _ pr))); [done|apply add64_u|intros; apply keep_emit].
Qed.
Lemma keep_grp_jalr ftrace d : group_keeps (grp_jalr ftrace d).
Proof.
  group_tac. eapply keeps_bind; [apply keep_get_pc|]. intros p Hp.
  eapply keeps_bind; [apply keep_rX|]. intros a Ha. cbv zeta.
  eapply keeps_bind; [apply keep_ma_fetch, land_u_r; [lia|apply not64_u]|]. cbv beta. intros _ Hal.
  eapply keeps_bind; [apply keep_get_priv|]. intros pr _.
  eapply keeps_bind; [apply keep_emit|]. intros _ _. eapply keeps_bind; [apply keep_emit|]. intros _ _.
  eapply keeps_bind; [apply keep_wX, add64_u|]. intros _ _. apply keeps_ret. split; [|done].
  apply land_u_r; [lia|apply not64_u].
Qed.

Lemma keep_csr_reg inst op :
  is_u 32 inst -> keep npc_ok (then_next (v ← rX (dec_rs1 (decode inst)); EXEC_CSR inst (decode inst) op v)).
Proof. intros Hi. apply keep_then_next. eapply keeps_bind; [apply keep_rX|]. intros v Hv. by apply keep_csr. Qed.

Lemma keep_grp_system ftrace inst : is_u 32 inst -> group_keeps (grp_system ftrace inst (decode inst)).
Proof.
  intros Hi. unfold grp_system. cbv zeta. group_tac.
  all: try (by apply keep_csr_reg).
  all: try (apply keep_then_next, keep_csr; [done|apply decode_ranges]).
  - eapply keeps_bind; [apply keep_get_priv|]. intros pr _. apply keeps_raise, exc_code; [|lia].
    unfold ecall_cause. destruct (_ =? _); [by apply small_cause|]. destruct (_ =? _); by apply small_cause.
  - eapply keeps_bind; [apply keep_get_pc|]. intros p [Hp _]. apply keeps_raise, exc_code; [by apply small_cause|done].
  - apply keep_xret; [done|]. intros c p Hc. destruct (trap_exit_mret_wf c p Hc).
    split; [done|]. split; [done|]. apply trap_exit_mret_pc.
  - apply keep_xret; [done|]. intros c p Hc. destruct (trap_exit_sret_wf c p Hc).
    split; [done|]. split; [done|]. apply trap_exit_sret_pc.
  - apply keep_unless; [done|]. apply keep_then_next. apply keeps_modify; [|done]. intros s Hs.
    apply mid_upd_cpu; [done|]. intros []. by constructor.
  - apply keep_unless; [done|]. apply keep_then_next. apply keeps_modify; [|done]. intros s Hs.
    apply mid_upd_cpu; [done|]. intros []. by constructor.
Qed.

Lemma keep_execute ftrace inst : is_u 32 inst -> keep npc_ok (execute ftrace inst).
Proof.
  intros Hi. unfold execute, INSTPAT.
  assert (group_keeps (group_of ftrace inst (decode inst))) as Hg.
  { unfold group_of. cbv zeta.
    repeat (match goal with |- group_keeps (if ?c then _ else _) => destruct c end;
      [by first [apply keep_grp_lui | apply keep_grp_auipc | apply keep_grp_jal | apply keep_grp_jalr
                | apply keep_grp_branch | apply keep_grp_load | apply keep_grp_store | apply keep_grp_op_imm
                | apply keep_grp_op_imm_32 | apply keep_grp_op | apply keep_grp_op_32 | apply keep_grp_misc_mem
                | apply keep_grp_system | apply keep_grp_amo] |]).
    apply Forall_nil_2. }
  unfold group_keeps in Hg. rewrite Forall_forall in Hg.
  destruct (find _ _) as [[p m]|] eqn:E.
  - apply find_some in E as [Hin _]. apply (Hg (p, m)). by apply list_elem_of_In.
  - apply keeps_raise, exc_code; [by apply small_cause|]. by apply (u_weaken 32).
Qed.

Lemma keep_fetch : keep (fun i => is_u 32 i) fetch.
Proof.
  intros s [Hc Hb]. unfold fetch. pose proof (satp_u _ Hc) as Hs. destruct (mid_pc _ Hc) as [Hpc Hal].
  pose proof (tlb_lookup_out (i_tlb (m_cpu s)) (pc (m_cpu s)) (satp (csr_reg (csr (m_cpu s))))
    (mstatus (csr_reg (csr (m_cpu s)))) MMU_EXECUTE (priv (m_cpu s)) (m_bus s) Hpc Hs Hb (mid_itlb _ Hc)) as Ht.
  destruct (tlb_lookup _ _ _ _ _ _ _) as [[r t'] b']. destruct Ht as (-> & Hlen & Hcode & Hpa). cbv zeta.
  assert (mid (upd_cpu (fun c => c <| i_tlb := t' |>) (s <| m_bus := m_bus s |>))) as Hmid.
  { split; [|done]. destruct Hc. by constructor. }
  destruct (negb _).
  - split; [done|]. apply exc_code; [by apply fault_code_range|done].
  - refine (keeps_bind mid exc_ok _ _ _ _ _ _ _ Hmid).
    + by apply keep_bus_load; [apply small_cause|].
    + intros i _. apply keeps_ret, w32_u.
Qed.

Lemma interrupt_id_range c p id : interrupt_pending_and_enabled c p = Some id -> id ∈ [11; 3; 7; 9; 1; 5].
Proof. intros H. apply find_some in H as [H _]. by apply list_elem_of_In. Qed.

Lemma keep_take_interrupt : keep (fun _ => True) take_interrupt.
Proof.
  intros s Hs. unfold take_interrupt.
  destruct (interrupt_pending_and_enabled _ _) as [id|] eqn:E; [|done]. split; [done|].
  apply interrupt_id_range in E.
  repeat (apply elem_of_cons in E as [->|E]; [vm_compute; intuition congruence|]). by apply elem_of_nil in E.
Qed.

Lemma keep_run_inst itrace ftrace : keep npc_ok (run_inst itrace ftrace).
Proof.
  unfold run_inst. eapply keeps_bind; [apply keep_fetch|]. cbv beta. intros i Hi.
  eapply keeps_bind; [apply keep_get_pc|]. intros p _.
  eapply keeps_bind; [apply keep_emit|]. intros _ _.
  eapply keeps_bind; [apply keep_take_interrupt|]. intros _ _. by apply keep_execute.
Qed.

Lemma end_exec_ok npc trap s : mid s -> npc_ok npc -> mach_ok (end_exec npc trap s).
Proof.
  intros [Hc Hb] Hn. split; [|done]. unfold end_exec. cbn [upd_cpu m_cpu update]. destruct Hc.
  set (c1 := if satp_written _ then _ else _).
  assert (core_mid c1 /\ aget 0 (regs c1) 0 = 0) as [Hc1 Hz].
  { unfold c1. assert (aget 0 (aset (regs (m_cpu s)) 0 0) 0 = 0) as Hz by (apply aget_aset_eq; lia).
    assert (Forall (fun v => 0 <= v < 2 ^ 64) (aset (regs (m_cpu s)) 0 0)) as Hr
      by (apply (aset_Forall (fun v => 0 <= v < 2 ^ 64)); [lia|done]).
    assert (length (aset (regs (m_cpu s)) 0 0) = 32%nat) as Hl by (by rewrite aset_length).
    destruct (satp_written _); (split; [by constructor|exact Hz]). }
  clearbody c1. split; [|exact Hz]. destruct Hc1. constructor; try done. by apply csr_end_update_wf.
Qed.

Lemma step_awake_ok itrace ftrace s : mid s -> mach_ok (step_awake itrace ftrace s).
Proof.
  intros Hs. unfold step_awake. pose proof (keep_run_inst itrace ftrace s Hs) as H.
  destruct (run_inst itrace ftrace s) as [[[cause v]|npc] s']; destruct H as [[Hc Hb] Ho].
  - destruct Ho as (Hcause & _ & Hv). cbn [fst snd] in *. unfold raise_exception.
    destruct (mid_pc _ Hc) as [Hpc _].
    destruct (trap_enter_wf (csr (m_cpu s')) cause v (pc (m_cpu s')) (priv (m_cpu s')) (mid_csr _ Hc) Hcause Hv
      Hpc (mid_priv _ Hc)) as [Hwf Hp].
    pose proof (trap_enter_vec (csr (m_cpu s')) cause v (pc (m_cpu s')) (priv (m_cpu s'))) as Hvec.
    destruct (trap_enter _ _ _ _ _) as [[vec c'] p']. cbn [fst snd] in *. cbv zeta.
    apply end_exec_ok; [|done].
    assert (mid (upd_cpu (fun c => c <| csr := c' |> <| priv := p' |>) s')) as Hmid.
    { apply mid_upd_cpu; [by split|]. intros []. by constructor. }
    unfold emit, modify. cbn [snd]. by destruct ftrace.
  - by apply end_exec_ok.
Qed.

Lemma cpu_step_ok itrace ftrace s : mach_ok s -> mach_ok (cpu_step itrace ftrace s).
Proof.
  intros [[Hc Hz] Hb]. unfold cpu_step. set (s1 := upd_cpu _ s).
  assert (mach_ok s1) as H1.
  { split; [split; [|done]|done]. destruct Hc. constructor; try done. by apply csr_begin_update_wf. }
  clearbody s1. cbv zeta. destruct (wfi (m_cpu s1)); [destruct (interrupt_pending _)|]; [|done|].
  - apply step_awake_ok. destruct H1 as [[[] _] ?]. by split.
  - apply step_awake_ok. by destruct H1 as [[] ?].
Qed.

Lemma mach_reset_ok b : bus_ok b -> mach_ok (mk_mach cpu_init b []).
Proof.
  intros Hb. split; [|done]. split; [|reflexivity]. constructor; try reflexivity; cbn.
  - repeat constructor; lia.
  - split; [vm_compute; intuition congruence|reflexivity].
  - apply csr_init_wf.
  - right; by right.
  - lia.
Qed.
End step.

(** ** Reachable machines *)
Section reachable.
Context {B : Type} `{HB : BusLaws B}.

Definition set_lines (a b c d : bool) : cpu_t -> cpu_t :=
  fun m => m <| msip := a |> <| mtip := b |> <| meip := c |> <| seip := d |>.

(** A step of the core, or of what surrounds it between two steps: the interrupt
    lines and the devices. *)
Inductive mach_step : mach B -> mach B -> Prop :=
  | step_core itrace ftrace s : mach_step s (cpu_step itrace ftrace s)
  | step_lines a b c d s : mach_step s (upd_cpu (set_lines a b c d) s)
  | step_bus b s : bus_ok b -> mach_step s (s <| m_bus := b |>).

Lemma mach_step_ok s s' : mach_ok s -> mach_step s s' -> mach_ok s'.
Proof.
  intros H0 Hst. destruct Hst; [by apply cpu_step_ok| |].
  - destruct H0 as [[[] ?] ?]. split; [split; [by constructor|done]|done].
  - destruct H0 as [? _]. by split.
Qed.

Lemma mach_steps_ok s s' : mach_ok s -> rtc mach_step s s' -> mach_ok s'.
Proof. intros H0 H. induction H as [|s s1 s2 Hst _ IH]; [done|]. by apply IH, (mach_step_ok s). Qed.
End reachable.
