(* ===== verification/CpuFrame.v ===== *)
(** * Frames of a step

    What an instruction does to the part of the machine other than the register
    file: the CSRs, the privilege mode, the TLBs, the halt flag and the bus.  An
    instruction reads, translates and loads, and makes at most one store or one
    change of CSRs or privilege, after which it only writes registers.  So a
    predicate [V] of that part that the first phase keeps and a predicate [W] that
    the last action establishes from [V] give the outcome of any instruction
    ([phased_run_inst]); the hypotheses are about six operations, and the groups of
    the instruction set follow by automation. *)
From stdpp Require Import base tactics numbers option list sets.
From S2P Require Import Prelude CInt Bus Csr Mmu Tlb Decode Alu Cpu CpuInv.

#[local] Open Scope record_scope.
#[local] Open Scope Z_scope.

(** The part of a machine the frames are about. *)
Record view (B : Type) := mk_view {
  v_csr : csr_t; v_priv : Z; v_itlb : tlb_t; v_dtlb : tlb_t; v_halted : bool; v_bus : B;
}.
Arguments mk_view {B}.
Arguments v_csr {B}.
Arguments v_priv {B}.
Arguments v_itlb {B}.
Arguments v_dtlb {B}.
Arguments v_halted {B}.
Arguments v_bus {B}.

Definition view_of {B} (s : mach B) : view B :=
  mk_view (csr (m_cpu s)) (priv (m_cpu s)) (i_tlb (m_cpu s)) (d_tlb (m_cpu s)) (halted (m_cpu s)) (m_bus s).

Section frame.
Context {B : Type} `{HB : BusLaws B}.
Abbreviation M := (exec (mach B) (Z * Z)).
Abbreviation keep Q m := (keeps mid Q exc_ok m).

Context (V W : view B -> Prop).

(** The first phase, the last phase, and a whole instruction. *)
Definition vkeep {A} (m : M A) : Prop :=
  triple (fun s => mid s /\ V (view_of s)) m (fun _ s => V (view_of s)) (fun _ s => V (view_of s)).
Definition wkeep {A} (m : M A) : Prop :=
  triple (fun s => W (view_of s)) m (fun _ s => W (view_of s)) (fun _ s => W (view_of s)).
Definition phased {A} (m : M A) : Prop :=
  triple (fun s => mid s /\ V (view_of s)) m (fun _ s => W (view_of s)) (fun _ s => W (view_of s)).

Definition V_W : Prop := forall v, V v -> W v.
Context (HVW : V_W).

Lemma vkeep_state {A} (m : M A) : (forall s, V (view_of s) -> V (view_of (m s).2)) -> vkeep m.
Proof. intros H s [_ Hs]. specialize (H s Hs). by destruct (m s) as [[e|a] s']. Qed.
Lemma wkeep_state {A} (m : M A) : (forall s, view_of (m s).2 = view_of s) -> wkeep m.
Proof. intros H s Hs. specialize (H s). destruct (m s) as [[e|a] s']; cbn in H; by rewrite H. Qed.
Lemma vkeep_same {A} (m : M A) : (forall s, view_of (m s).2 = view_of s) -> vkeep m.
Proof. intros H. apply vkeep_state. intros s Hs. by rewrite H. Qed.

Lemma phased_vkeep {A} (m : M A) : vkeep m -> phased m.
Proof. intros H. eapply triple_conseq; [exact H|done|intros a s; apply HVW|intros a s; apply HVW]. Qed.

Lemma vkeep_bind {A C} Q (m : M A) (k : A -> M C) :
  keep Q m -> vkeep m -> (forall a, Q a -> vkeep (k a)) -> vkeep (m ≫= k).
Proof.
  intros Hk Hm Hn s [Hs Hv]. specialize (Hk s Hs). specialize (Hm s (conj Hs Hv)). unfold mbind, exec_bind.
  destruct (m s) as [[e|a] s']; [done|]. destruct Hk as [Hs' HQ]. by apply (Hn a HQ).
Qed.
Lemma phased_bind {A C} Q (m : M A) (k : A -> M C) :
  keep Q m -> vkeep m -> (forall a, Q a -> phased (k a)) -> phased (m ≫= k).
Proof.
  intros Hk Hm Hn s [Hs Hv]. specialize (Hk s Hs). specialize (Hm s (conj Hs Hv)). unfold mbind, exec_bind.
  destruct (m s) as [[e|a] s']; [by apply HVW|]. destruct Hk as [Hs' HQ]. by apply (Hn a HQ).
Qed.
Lemma phased_then {A C} (m : M A) (k : A -> M C) : phased m -> (forall a, wkeep (k a)) -> phased (m ≫= k).
Proof.
  intros Hm Hk s Hs. specialize (Hm s Hs). unfold mbind, exec_bind.
  destruct (m s) as [[e|a] s']; [done|]. by apply Hk.
Qed.
Lemma wkeep_bind {A C} (m : M A) (k : A -> M C) : wkeep m -> (forall a, wkeep (k a)) -> wkeep (m ≫= k).
Proof.
  intros Hm Hk s Hs. specialize (Hm s Hs). unfold mbind, exec_bind. destruct (m s) as [[e|a] s']; [done|]. by apply Hk.
Qed.
End frame.

(** Operations that leave the view alone. *)
Definition same_view {B} {A} (m : exec (mach B) (Z * Z) A) : Prop := forall s, view_of (m s).2 = view_of s.

Create HintDb same_view discriminated.
#[export] Hint Constants Opaque : same_view.

Section same_view.
Context {B : Type} `{!BusOps B}.
Abbreviation M := (exec (mach B) (Z * Z)).
Lemma same_ret {A} (a : A) : same_view (mret a : M A). Proof. by intros s. Qed.
Lemma same_raise {A} e : same_view (raise e : M A). Proof. by intros s. Qed.
Lemma same_rX n : same_view (rX (B := B) n). Proof. by intros s. Qed.
Lemma same_wX n v : same_view (wX (B := B) n v). Proof. by intros s. Qed.
Lemma same_get_pc : same_view (get_pc (B := B)). Proof. by intros s. Qed.
Lemma same_get_priv : same_view (get_priv (B := B)). Proof. by intros s. Qed.
Lemma same_next : same_view (next (B := B)). Proof. by intros s. Qed.
Lemma same_emit on e : same_view (emit (B := B) on e). Proof. intros s. by destruct on. Qed.
Lemma same_set_res f : same_view (modify (upd_cpu (fun c => c <| res ::= f |>)) : M unit). Proof. by intros s. Qed.
Lemma same_set_wfi b : same_view (modify (upd_cpu (fun c => c <| wfi := b |>)) : M unit). Proof. by intros s. Qed.
Lemma same_get_res : same_view (gets (fun s => res (m_cpu s)) : M reservation_t). Proof. by intros s. Qed.
Lemma same_ma_fetch a : same_view (CHECK_MA_FETCH (B := B) a).
Proof. intros s. unfold CHECK_MA_FETCH. by destruct (negb _). Qed.
Lemma same_ma_ls a n c v : same_view (CHECK_MA_LS (B := B) a n c v).
Proof. intros s. unfold CHECK_MA_LS. cbv zeta. by destruct (_ || _). Qed.
Lemma same_take_interrupt : same_view (take_interrupt (B := B)).
Proof. intros s. unfold take_interrupt. by destruct (interrupt_pending_and_enabled _ _). Qed.
Lemma same_bind {A C} (m : M A) (k : A -> M C) : same_view m -> (forall a, same_view (k a)) -> same_view (m ≫= k).
Proof.
  intros Hm Hk s. unfold mbind, exec_bind. specialize (Hm s). destruct (m s) as [[e|a] s']; [exact Hm|].
  rewrite (Hk a s'). exact Hm.
Qed.
End same_view.
#[export] Hint Resolve same_ret same_raise same_rX same_wX same_get_pc same_get_priv same_next same_emit same_set_res
  same_set_wfi same_get_res same_ma_fetch same_ma_ls same_take_interrupt : same_view.

Ltac same_tac :=
  repeat lazymatch goal with
  | |- same_view (_ ≫= _) => apply same_bind; [|intros ?]
  | |- same_view (if ?b then _ else _) => destruct b
  | |- same_view _ => solve [auto with same_view]
  end.

(** ** The instructions *)
Section instructions.
Context {B : Type} `{HB : BusLaws B}.
Abbreviation M := (exec (mach B) (Z * Z)).
Context (V W : view B -> Prop).

(** What is asked of the operations that touch the view. *)
Record frame_ops : Prop := {
  fo_weaken : V_W V W;
  fo_mmu va mode : is_u 64 va -> vkeep V (MMU va mode);
  fo_load pa n cause va : is_u 64 pa -> vkeep V (bus_load pa n cause va);
  fo_fetch : vkeep V fetch;
  fo_store va data size : is_u 64 va -> size ∈ [1; 2; 4; 8] -> phased V W (EXEC_STORE va data size);
  fo_csr inst op v : is_u 32 inst -> is_u 64 v -> phased V W (EXEC_CSR inst (decode inst) op v);
  fo_mret ftrace inst : phased V W (exec_xret ftrace inst (fun _ priv => check_mret_privilege priv) trap_exit_mret);
  fo_sret ftrace inst : phased V W (exec_xret ftrace inst check_sret_trap trap_exit_sret);
  fo_sfence inst : phased V W (unless_trap inst check_sfence_vma (then_next (modify (upd_cpu flush_tlbs))));
}.
Context (F : frame_ops).

Lemma phased_same {A} (m : M A) : same_view m -> phased V W m.
Proof. intros H. apply phased_vkeep; [apply (fo_weaken F)|by apply vkeep_same]. Qed.
Lemma wkeep_same {A} (m : M A) : same_view m -> wkeep W m.
Proof. apply wkeep_state. Qed.

Lemma vkeep_load_helper va size ext cause mode :
  is_u 64 va -> ext_ok ext -> 0 <= cause < 64 -> vkeep V (EXEC_LOAD_HELPER va size ext cause mode).
Proof.
  intros Hv He Hc. unfold EXEC_LOAD_HELPER. eapply vkeep_bind; [by apply keep_MMU|by apply (fo_mmu F)|]. intros pa Hpa.
  eapply vkeep_bind; [apply keep_ma_ls; [by apply small_cause|done]|apply vkeep_same, same_ma_ls|]. intros _ _.
  eapply vkeep_bind; [by apply keep_bus_load|by apply (fo_load F)|]. intros d Hd. apply vkeep_same. by intros s.
Qed.

Lemma vkeep_load rd va size ext : is_u 64 va -> ext_ok ext -> vkeep V (EXEC_LOAD rd va size ext).
Proof.
  intros Hv He. unfold EXEC_LOAD. eapply vkeep_bind; [by apply keep_load_helper; [..|apply small_cause]| |].
  - by apply vkeep_load_helper; [..|apply small_cause].
  - intros v Hx. apply vkeep_same, same_wX.
Qed.

Lemma phased_lr d size : phased V W (EXEC_LR d size).
Proof.
  unfold EXEC_LR. eapply phased_bind; [apply (fo_weaken F)|apply keep_rX|apply vkeep_same, same_rX|]. intros a Ha.
  eapply phased_then; [apply phased_vkeep; [apply (fo_weaken F)|apply vkeep_load; [done|apply ext_ok_sext]]|].
  intros _. apply wkeep_same. by intros s.
Qed.

Lemma phased_sc d size : size ∈ [1; 2; 4; 8] -> phased V W (EXEC_SC d size).
Proof.
  intros Hn. unfold EXEC_SC. eapply phased_bind; [apply (fo_weaken F)|apply keep_rX|apply vkeep_same, same_rX|]. intros a Ha.
  eapply phased_bind; [apply (fo_weaken F)|apply keep_ma_ls; [by apply small_cause|done]|apply vkeep_same, same_ma_ls|]. intros _ _.
  eapply phased_bind; [apply (fo_weaken F)|by apply (keeps_gets _ _ (fun _ => True))|by apply vkeep_same|]. intros r _.
  eapply phased_bind; [apply (fo_weaken F)|by apply (keep_set_res (fun r => r <| res_valid := false |>))|by apply vkeep_same|]. intros _ _.
  destruct (_ || _); [apply phased_same, same_wX|].
  eapply phased_bind; [apply (fo_weaken F)|apply keep_rX|apply vkeep_same, same_rX|]. intros v Hv.
  apply phased_then; [by apply (fo_store F)|]. intros _. apply wkeep_same, same_wX.
Qed.

Lemma phased_amo d size op : size ∈ [1; 2; 4; 8] -> phased V W (EXEC_AMO d size op).
Proof.
  intros Hn. unfold EXEC_AMO. eapply phased_bind; [apply (fo_weaken F)|apply keep_rX|apply vkeep_same, same_rX|]. intros a Ha.
  eapply phased_bind; [apply (fo_weaken F)|apply keep_rX|apply vkeep_same, same_rX|]. intros v Hv.
  eapply phased_bind; [apply (fo_weaken F)|apply keep_ma_ls; [by apply small_cause|done]|apply vkeep_same, same_ma_ls|]. intros _ _.
  eapply phased_bind; [apply (fo_weaken F)|apply keep_load_helper; [done|apply ext_ok_sext|by apply small_cause]
                      |apply vkeep_load_helper; [done|apply ext_ok_sext|by apply small_cause]|]. intros x Hx.
  apply phased_then; [by apply (fo_store F)|]. intros _. apply wkeep_same, same_wX.
Qed.

Lemma phased_then_next (m : M unit) : phased V W m -> phased V W (then_next m).
Proof. intros H. apply phased_then; [done|]. intros _. apply wkeep_same, same_next. Qed.
Lemma phased_at_rs1_imm d k : (forall a, is_u 64 a -> phased V W (k a)) -> phased V W (at_rs1_imm d k).
Proof.
  intros H. unfold at_rs1_imm. eapply phased_bind; [apply (fo_weaken F)|apply keep_rX|apply vkeep_same, same_rX|]. intros a _.
  apply phased_then; [apply H, add64_u|]. intros _. apply wkeep_same, same_next.
Qed.
Lemma phased_csr_reg inst op :
  is_u 32 inst -> phased V W (v ← rX (dec_rs1 (decode inst)); EXEC_CSR inst (decode inst) op v).
Proof.
  intros Hi. eapply phased_bind; [apply (fo_weaken F)|apply keep_rX|apply vkeep_same, same_rX|]. intros v Hv. by apply (fo_csr F).
Qed.
Lemma phased_unless inst trap k : phased V W k -> phased V W (unless_trap inst trap k).
Proof.
  intros Hk s Hs. unfold unless_trap. destruct (trap _ _); [apply (fo_weaken F), Hs|by apply Hk].
Qed.

Definition group_phased (l : group (B := B)) : Prop := Forall (fun p => phased V W p.2) l.

Ltac size_tac := apply (bool_decide_unpack (_ ∈ _)); exact I.
Ltac phased_entry :=
  cbn [snd];
  lazymatch goal with
  | |- phased _ _ (exec_xret _ _ check_sret_trap _) => apply (fo_sret F)
  | |- phased _ _ (exec_xret _ _ _ _) => apply (fo_mret F)
  | |- phased _ _ (unless_trap _ check_sfence_vma _) => apply (fo_sfence F)
  | |- phased _ _ (unless_trap _ _ _) => apply phased_unless, phased_then_next, phased_same, same_set_wfi
  | |- phased _ _ (then_next (EXEC_LR _ _)) => apply phased_then_next, phased_lr
  | |- phased _ _ (then_next (EXEC_SC _ _)) => apply phased_then_next, phased_sc; size_tac
  | |- phased _ _ (then_next (EXEC_AMO _ _ _)) => apply phased_then_next, phased_amo; size_tac
  | |- phased _ _ (then_next (_ ≫= _)) => by apply phased_then_next, phased_csr_reg
  | |- phased _ _ (then_next (EXEC_CSR _ _ _ _)) => apply phased_then_next, (fo_csr F); [done|apply decode_ranges]
  | |- phased _ _ (at_rs1_imm _ _) => apply phased_at_rs1_imm; intros ? ?
  | |- phased _ _ _ => apply phased_same; unfold op_rr, op_ri, then_next, EXEC_BRANCH; cbv zeta; same_tac
  end.
Ltac group_phased_tac := unfold group_phased; repeat (apply Forall_cons_2; [phased_entry|]); try apply Forall_nil_2.

Lemma phased_group ftrace inst : is_u 32 inst -> group_phased (group_of ftrace inst (decode inst)).
Proof.
  intros Hi. unfold group_of. cbv zeta.
  repeat (match goal with |- group_phased (if ?c then _ else _) => destruct c end; [|]).
  - unfold grp_lui. group_phased_tac.
  - unfold grp_auipc. group_phased_tac.
  - unfold grp_jal. group_phased_tac.
  - unfold grp_jalr. group_phased_tac.
  - unfold grp_branch. group_phased_tac.
  - unfold grp_load. group_phased_tac.
    all: apply phased_vkeep; [apply (fo_weaken F)|apply vkeep_load; [done|apply ext_ok_sext || apply ext_ok_noext]].
  - unfold grp_store. cbv zeta. group_phased_tac.
    all: eapply phased_bind; [apply (fo_weaken F)|apply keep_rX|apply vkeep_same, same_rX|]; intros v Hv; apply (fo_store F); [done|size_tac].
  - unfold grp_op_imm. group_phased_tac.
  - unfold grp_op_imm_32. group_phased_tac.
  - unfold grp_op. group_phased_tac.
  - unfold grp_op_32. group_phased_tac.
  - unfold grp_misc_mem. group_phased_tac.
  - unfold grp_system. cbv zeta. group_phased_tac.
  - unfold grp_amo. cbv zeta. group_phased_tac.
  - apply Forall_nil_2.
Qed.

Lemma phased_execute ftrace inst : is_u 32 inst -> phased V W (execute ftrace inst).
Proof.
  intros Hi. unfold execute, INSTPAT. pose proof (phased_group ftrace inst Hi) as Hg.
  unfold group_phased in Hg. rewrite Forall_forall in Hg.
  destruct (find _ _) as [[p m]|] eqn:E.
  - apply find_some in E as [Hin _]. apply (Hg (p, m)). by apply list_elem_of_In.
  - apply phased_same, same_raise.
Qed.

(** An instruction, from the first phase to the last. *)
Lemma phased_run_inst itrace ftrace : phased V W (run_inst itrace ftrace).
Proof.
  unfold run_inst. eapply phased_bind; [apply (fo_weaken F)|apply keep_fetch|apply (fo_fetch F)|]. cbv beta. intros i Hi.
  eapply phased_bind; [apply (fo_weaken F)|apply keep_get_pc|apply vkeep_same, same_get_pc|]. intros p _.
  eapply phased_bind; [apply (fo_weaken F)|apply keep_emit|apply vkeep_same, same_emit|]. intros _ _.
  eapply phased_bind; [apply (fo_weaken F)|apply keep_take_interrupt|apply vkeep_same, same_take_interrupt|]. intros _ _.
  by apply phased_execute.
Qed.
End instructions.

(** ** What the operations do to the view *)
#[export] Instance eta_view B : Eta (view B) := fun v =>
  mk_view (v_csr v) (v_priv v) (v_itlb v) (v_dtlb v) (v_halted v) (v_bus v).

Section views.
Context {B : Type} `{HB : BusLaws B}.
Abbreviation M := (exec (mach B) (Z * Z)).

(** The look-up of a data access, and of the fetch. *)
Definition data_lookup (s : mach B) (va : Z) (mode : mmu_access_mode) : tlb_out * tlb_t * B :=
  let c := m_cpu s in
  tlb_lookup (d_tlb c) va (satp (csr_reg (csr c))) (mstatus (csr_reg (csr c))) mode
    (effective_priv_mode (csr c) (priv c)) (m_bus s).
Definition fetch_lookup (s : mach B) : tlb_out * tlb_t * B :=
  let c := m_cpu s in
  tlb_lookup (i_tlb c) (pc c) (satp (csr_reg (csr c))) (mstatus (csr_reg (csr c))) MMU_EXECUTE (priv c) (m_bus s).

Lemma data_lookup_bus s va mode : mid s -> is_u 64 va -> (data_lookup s va mode).2 = m_bus s.
Proof.
  intros [Hc Hb] Hva. unfold data_lookup.
  pose proof (tlb_lookup_out (d_tlb (m_cpu s)) va (satp (csr_reg (csr (m_cpu s)))) (mstatus (csr_reg (csr (m_cpu s))))
    mode (effective_priv_mode (csr (m_cpu s)) (priv (m_cpu s))) (m_bus s) Hva (satp_u _ Hc) Hb (mid_dtlb _ Hc)) as Ht.
  destruct (tlb_lookup _ _ _ _ _ _ _) as [[r t] b]. apply Ht.
Qed.
Lemma fetch_lookup_bus s : mid s -> (fetch_lookup s).2 = m_bus s.
Proof.
  intros [Hc Hb]. unfold fetch_lookup. destruct (mid_pc _ Hc) as [Hpc _].
  pose proof (tlb_lookup_out (i_tlb (m_cpu s)) (pc (m_cpu s)) (satp (csr_reg (csr (m_cpu s))))
    (mstatus (csr_reg (csr (m_cpu s)))) MMU_EXECUTE (priv (m_cpu s)) (m_bus s) Hpc (satp_u _ Hc) Hb (mid_itlb _ Hc)) as Ht.
  destruct (tlb_lookup _ _ _ _ _ _ _) as [[r t] b]. apply Ht.
Qed.

Lemma MMU_view s va mode :
  mid s -> is_u 64 va ->
  view_of (MMU va mode s).2 = (view_of s) <| v_dtlb := (data_lookup s va mode).1.2 |> /\
  match (MMU va mode s).1 with
  | inr pa => to_result (data_lookup s va mode).1.1 = MMU_VALID /\ pa = default 0 (to_pa (data_lookup s va mode).1.1)
  | inl _ => True
  end.
Proof.
  intros Hs Hva. pose proof (data_lookup_bus s va mode Hs Hva) as Hbus. unfold MMU. fold (data_lookup s va mode).
  destruct (data_lookup s va mode) as [[r t] b]. cbn [fst snd] in *. subst b.
  destruct (Z.eqb_spec (to_result r) MMU_VALID); by destruct s as [[] b tr].
Qed.

Lemma bus_load_view s pa n cause va :
  view_of (bus_load pa n cause va s).2 = (view_of s) <| v_bus := (bread (m_bus s) pa n).2 |>.
Proof. unfold bus_load. destruct (bread _ _ _) as [[x|] b]; by destruct s as [[] b0 tr]. Qed.

Lemma fetch_view s :
  mid s ->
  exists b, view_of (fetch s).2 = (view_of s) <| v_itlb := (fetch_lookup s).1.2 |> <| v_bus := b |> /\
    (b = m_bus s \/ exists pa n, b = (bread (m_bus s) pa n).2).
Proof.
  intros Hs. pose proof (fetch_lookup_bus s Hs) as Hbus. unfold fetch. fold (fetch_lookup s).
  destruct (fetch_lookup s) as [[r t] b]. cbn [fst snd] in *. subst b. cbv zeta.
  destruct (negb _); [exists (m_bus s); split; [by destruct s as [[] b0 tr]|by left]|].
  exists (bread (m_bus s) (default 0 (to_pa r)) 4).2. split; [|right; by eexists _, _].
  unfold mbind, exec_bind, bus_load. cbn. destruct (bread _ _ _) as [[x|] b]; by destruct s as [[] b0 tr].
Qed.

(** A store changes the bus by at most one write, at the translation of its
    address, aligned. *)
Lemma store_view s va data size :
  mid s -> is_u 64 va ->
  exists b, view_of (EXEC_STORE va data size s).2 =
      (view_of s) <| v_dtlb := (data_lookup s va MMU_WRITE).1.2 |> <| v_bus := b |> /\
    (b = m_bus s \/
     exists pa, to_result (data_lookup s va MMU_WRITE).1.1 = MMU_VALID /\
       pa = default 0 (to_pa (data_lookup s va MMU_WRITE).1.1) /\ (size ∈ [1; 2; 4; 8] -> pa mod size = 0) /\
       b = (bwrite (m_bus s) pa size data).2).
Proof.
  intros Hs Hva. unfold EXEC_STORE. unfold mbind, exec_bind. destruct (MMU_view s va MMU_WRITE Hs Hva) as [Hv Hr].
  assert (m_bus (MMU va MMU_WRITE s).2 = m_bus s) as Hb by (apply (f_equal v_bus) in Hv; exact Hv).
  destruct (MMU va MMU_WRITE s) as [[e|pa] s1]; cbn [fst snd] in *.
  { exists (m_bus s). split; [|by left]. rewrite Hv. by destruct s as [[] b0 tr]. }
  unfold CHECK_MA_LS. cbv zeta. destruct (_ || _) eqn:Ea.
  { exists (m_bus s). split; [|by left]. cbn. rewrite Hv. by destruct s as [[] b0 tr]. }
  exists (bwrite (m_bus s) pa size data).2. split.
  - unfold bus_store, mret, exec_ret. rewrite Hb. destruct (bwrite _ _ _ _) as [x b]. cbv zeta.
    transitivity ((view_of s1) <| v_bus := b |>); [|by rewrite Hv].
    clear Hv Hb. destruct s1 as [[] b1 tr1]. by destruct (negb (x =? 0)).
  - right. exists pa. destruct Hr as [H1 H2]. split_and!; try done. intros Hsz.
    rewrite !orb_false_iff, !andb_false_iff, !Z.eqb_neq, !negb_false_iff, !Z.eqb_eq in Ea.
    change 0x1 with (Z.ones 1) in Ea. change 0x3 with (Z.ones 2) in Ea. change 0x7 with (Z.ones 3) in Ea.
    rewrite !Z.land_ones in Ea by lia.
    repeat (apply elem_of_cons in Hsz as [->|Hsz]; [rewrite ?Z.mod_1_r; intuition lia|]). by apply elem_of_nil in Hsz.
Qed.
End views.

Section views_system.
Context {B : Type} `{!BusOps B}.

(** The result of a CSR instruction's access. *)
Definition csr_result (inst : Z) (op : csr_op_t) (v : Z) (s : mach B) : option (option Z) * csr_t :=
  let d := decode inst in
  let is_rw := match op with CSR_OP_RW => true | _ => false end in
  csr_access (csr (m_cpu s)) (dec_csr d) op v (negb ((dec_rd d =? 0) && is_rw)) (negb ((dec_rs1 d =? 0) && negb is_rw))
    (bmtime (m_bus s)) (priv (m_cpu s)).

Lemma EXEC_CSR_view inst op v s :
  view_of (EXEC_CSR inst (decode inst) op v s).2 = (view_of s) <| v_csr := (csr_result inst op v s).2 |>.
Proof.
  unfold EXEC_CSR, csr_result. destruct (csr_access _ _ _ _ _ _ _ _) as [[rdata|] c]; cbv zeta.
  - by destruct (negb (dec_rd _ =? 0)), s as [[] b tr].
  - by destruct s as [[] b tr].
Qed.

Lemma exec_xret_view ftrace inst trap exit (s : mach B) :
  view_of (exec_xret ftrace inst trap exit s).2 =
    if trap (csr (m_cpu s)) (priv (m_cpu s)) then view_of s
    else (view_of s) <| v_csr := (exit (csr (m_cpu s)) (priv (m_cpu s))).1.2 |>
                     <| v_priv := (exit (csr (m_cpu s)) (priv (m_cpu s))).2 |>.
Proof.
  unfold exec_xret. destruct (trap _ _); [done|]. destruct (exit _ _) as [[npc c'] p']. cbv zeta.
  rewrite (same_bind _ _ (same_emit _ _) (fun _ => same_ret _)). by destruct s as [[] b tr].
Qed.

Lemma sfence_view inst (s : mach B) :
  view_of (unless_trap inst check_sfence_vma (then_next (modify (upd_cpu flush_tlbs))) s).2 =
    if check_sfence_vma (csr (m_cpu s)) (priv (m_cpu s)) then view_of s
    else (view_of s) <| v_itlb ::= tlb_void |> <| v_dtlb ::= tlb_void |>.
Proof. unfold unless_trap. destruct (check_sfence_vma _ _); [done|]. by destruct s as [[] b tr]. Qed.

(** From a statement about views to a phase. *)
Lemma phased_view {A} (V W : view B -> Prop) (m : exec (mach B) (Z * Z) A) :
  (forall s, V (view_of s) -> W (view_of (m s).2)) ->
  triple (fun s => V (view_of s)) m (fun _ s => W (view_of s)) (fun _ s => W (view_of s)).
Proof. intros H s Hs. specialize (H s Hs). by destruct (m s) as [[e|a] s']. Qed.
End views_system.

(** ** Frames stated on views *)
Section view_ops.
Context {B : Type} `{HB : BusLaws B}.
Context (V W : view B -> Prop).

Record view_ops : Prop := {
  vo_weaken : V_W V W;
  vo_data s va mode : mid s -> is_u 64 va -> V (view_of s) ->
    V ((view_of s) <| v_dtlb := (data_lookup s va mode).1.2 |>);
  vo_fetch s : mid s -> V (view_of s) -> V ((view_of s) <| v_itlb := (fetch_lookup s).1.2 |>);
  vo_read v a n : V v -> V (v <| v_bus := (bread (v_bus v) a n).2 |>);
  vo_write s va data size : mid s -> is_u 64 va -> size ∈ [1; 2; 4; 8] -> V (view_of s) ->
    let r := (data_lookup s va MMU_WRITE).1.1 in
    to_result r = MMU_VALID -> default 0 (to_pa r) mod size = 0 ->
    W ((view_of s) <| v_dtlb := (data_lookup s va MMU_WRITE).1.2 |>
                   <| v_bus := (bwrite (m_bus s) (default 0 (to_pa r)) size data).2 |>);
  vo_csr s inst op v : mid s -> is_u 32 inst -> is_u 64 v -> V (view_of s) ->
    W ((view_of s) <| v_csr := (csr_result inst op v s).2 |>);
  vo_mret s : mid s -> V (view_of s) -> check_mret_privilege (priv (m_cpu s)) = false ->
    let x := trap_exit_mret (csr (m_cpu s)) (priv (m_cpu s)) in
    W ((view_of s) <| v_csr := x.1.2 |> <| v_priv := x.2 |>);
  vo_sret s : mid s -> V (view_of s) -> check_sret_trap (csr (m_cpu s)) (priv (m_cpu s)) = false ->
    let x := trap_exit_sret (csr (m_cpu s)) (priv (m_cpu s)) in
    W ((view_of s) <| v_csr := x.1.2 |> <| v_priv := x.2 |>);
  vo_sfence s : mid s -> V (view_of s) -> check_sfence_vma (csr (m_cpu s)) (priv (m_cpu s)) = false ->
    W ((view_of s) <| v_itlb ::= tlb_void |> <| v_dtlb ::= tlb_void |>);
}.

Lemma phased_of {A} (m : exec (mach B) (Z * Z) A) :
  (forall s, mid s -> V (view_of s) -> W (view_of (m s).2)) -> phased V W m.
Proof. intros H s [H1 H2]. specialize (H s H1 H2). by destruct (m s) as [[e|a] s']. Qed.
Lemma vkeep_of {A} (m : exec (mach B) (Z * Z) A) :
  (forall s, mid s -> V (view_of s) -> V (view_of (m s).2)) -> vkeep V m.
Proof. intros H s [H1 H2]. specialize (H s H1 H2). by destruct (m s) as [[e|a] s']. Qed.

Lemma view_ops_frame : view_ops -> frame_ops V W.
Proof.
  intros F. constructor.
  - apply (vo_weaken F).
  - intros va mode Hva. apply vkeep_of. intros s Hs Hv. destruct (MMU_view s va mode Hs Hva) as [-> _].
    by apply (vo_data F).
  - intros pa n cause va _. apply vkeep_of. intros s Hs Hv. rewrite bus_load_view. exact (vo_read F (view_of s) pa n Hv).
  - apply vkeep_of. intros s Hs Hv. destruct (fetch_view s Hs) as (b & -> & Hb). pose proof (vo_fetch F s Hs Hv) as H.
    destruct Hb as [-> | (pa & n & ->)]; [exact H|]. exact (vo_read F _ pa n H).
  - intros va data size Hva Hsz. apply phased_of. intros s Hs Hv.
    destruct (store_view s va data size Hs Hva) as (b & -> & Hb). pose proof (vo_data F s va MMU_WRITE Hs Hva Hv) as H.
    destruct Hb as [-> | (pa & H1 & -> & H2 & ->)]; [exact (vo_weaken F _ H)|].
    exact (vo_write F s va data size Hs Hva Hsz Hv H1 (H2 Hsz)).
  - intros inst op v Hi Hv. apply phased_of. intros s Hs HV. rewrite EXEC_CSR_view. by apply (vo_csr F).
  - intros ftrace inst. apply phased_of. intros s Hs HV. rewrite exec_xret_view.
    destruct (check_mret_privilege _) eqn:E; [by apply (vo_weaken F)|by apply (vo_mret F)].
  - intros ftrace inst. apply phased_of. intros s Hs HV. rewrite exec_xret_view.
    destruct (check_sret_trap _ _) eqn:E; [by apply (vo_weaken F)|by apply (vo_sret F)].
  - intros inst. apply phased_of. intros s Hs HV. rewrite sfence_view.
    destruct (check_sfence_vma _ _) eqn:E; [by apply (vo_weaken F)|by apply (vo_sfence F)].
Qed.

(** The outcome of an instruction. *)
Lemma view_run_inst itrace ftrace s :
  view_ops -> mid s -> V (view_of s) -> W (view_of (run_inst itrace ftrace s).2).
Proof.
  intros F Hs Hv. pose proof (phased_run_inst V W (view_ops_frame F) itrace ftrace s (conj Hs Hv)) as H.
  by destruct (run_inst itrace ftrace s) as [[e|a] s'].
Qed.
End view_ops.
