(* ===== verification/CpuProps.v ===== *)
(** * Properties of the core

    The machine invariant over every reachable state, and precise exceptions: an
    instruction that traps leaves the architectural state of the instruction before
    it.  [same_arch] is what a computation keeps until its last effect; the
    instructions are shown to raise only before that. *)
From stdpp Require Import base tactics numbers option list sets relations.
From S2P Require Import Prelude CInt Bus Csr Mmu Tlb Decode Alu Cpu CpuInv.

#[local] Open Scope record_scope.
#[local] Open Scope Z_scope.

(** ** Reachable machines *)
Section reachable.
Context {B : Type} `{HB : BusLaws B}.

(** C1: every machine reachable from reset is well formed, whatever the program,
    the devices and the interrupt lines do: x0 is zero, the registers hold 64-bit
    values, the pc is aligned, and the CSRs and the privilege mode are legal. *)
Theorem machine_invariant b s :
  bus_ok b -> rtc mach_step (mk_mach cpu_init b []) s -> mach_ok s.
Proof. intros Hb. by apply mach_steps_ok, mach_reset_ok. Qed.
End reachable.

(** ADDI x1, x0, 5; ADDI x11, x1, 10; then an illegal word. *)
Definition mach_example : mach bus_t :=
  mk_mach cpu_init (bus_write bus_example 0x80000000 8 0x00A0859300500093).2 [].

Lemma mach_example_bus_wf : bus_wf (m_bus mach_example).
Proof. apply bus_write_wf, bus_example_wf. Qed.

Lemma machine_invariant_witness :
  mach_ok (cpu_step true true (cpu_step true true mach_example)) /\
  aget 0 (regs (m_cpu (cpu_step true true (cpu_step true true mach_example)))) 11 = 15.
Proof.
  split; [|vm_compute; reflexivity].
  apply (machine_invariant (HB := bus_laws) (m_bus mach_example) _ mach_example_bus_wf).
  eapply rtc_l; [apply (step_core true true)|]. eapply rtc_l; [apply (step_core true true)|]. apply rtc_refl.
Defined.

(** ** Quiet computations: registers, pc, privilege and CSRs stay *)
Section precise.
Context {B : Type} `{!BusOps B}.
Abbreviation M := (exec (mach B) (Z * Z)).

(** Equal CSRs, up to the shadow of the timer that a CSR instruction refreshes. *)
Definition csr_same (c c' : csr_t) : Prop :=
  forall n, n <> R_mtime -> csr_get n (csr_reg c') = csr_get n (csr_reg c).

Definition same_arch (s0 s : mach B) : Prop :=
  regs (m_cpu s) = regs (m_cpu s0) /\ pc (m_cpu s) = pc (m_cpu s0) /\ priv (m_cpu s) = priv (m_cpu s0) /\
  csr_same (csr (m_cpu s0)) (csr (m_cpu s)).

Definition quiet {A} (m : M A) : Prop :=
  forall s0, keeps (same_arch s0) (fun _ => True) (fun _ => True) m.
(** An exception leaves the architectural state of the start. *)
Definition precise {A} (m : M A) : Prop :=
  forall s0, triple (same_arch s0) m (fun _ _ => True) (fun _ s => same_arch s0 s).
Definition no_raise {A} (m : M A) : Prop :=
  triple (fun _ => True) m (fun _ _ => True) (fun _ _ => False).

Lemma quiet_of_state {A} (m : M A) :
  (forall s s0, same_arch s0 s -> same_arch s0 (m s).2) -> quiet m.
Proof. intros H s0 s Hs. specialize (H s s0 Hs). by destruct (m s) as [[e|a] s']. Qed.

Lemma quiet_ret {A} (a : A) : quiet (mret a).
Proof. by apply quiet_of_state. Qed.
Lemma quiet_raise {A} e : quiet (raise e : M A).
Proof. by apply quiet_of_state. Qed.
Lemma quiet_rX n : quiet (rX n). Proof. by apply quiet_of_state. Qed.
Lemma quiet_get_pc : quiet get_pc. Proof. by apply quiet_of_state. Qed.
Lemma quiet_get_priv : quiet get_priv. Proof. by apply quiet_of_state. Qed.
Lemma quiet_next : quiet next. Proof. by apply quiet_of_state. Qed.
Lemma quiet_emit on e : quiet (emit on e).
Proof. apply quiet_of_state. intros s s0 Hs. by destruct on. Qed.
Lemma quiet_bind {A A'} (m : M A) (k : A -> M A') : quiet m -> (forall a, quiet (k a)) -> quiet (m ≫= k).
Proof. intros Hm Hk s0. eapply keeps_bind; [apply Hm|]. intros a _. apply Hk. Qed.
Lemma quiet_ma_fetch a : quiet (CHECK_MA_FETCH a).
Proof. unfold CHECK_MA_FETCH. destruct (negb _); [apply quiet_raise|apply quiet_ret]. Qed.
Lemma quiet_ma_ls a n c v : quiet (CHECK_MA_LS a n c v).
Proof. unfold CHECK_MA_LS. cbv zeta. destruct (_ || _); [apply quiet_raise|apply quiet_ret]. Qed.
Lemma quiet_MMU v mode : quiet (MMU v mode).
Proof.
  apply quiet_of_state. intros s s0 Hs. unfold MMU. destruct (tlb_lookup _ _ _ _ _ _ _) as [[r t] b].
  cbv zeta. by destruct (negb _).
Qed.
Lemma quiet_bus_load a n c v : quiet (bus_load a n c v).
Proof. apply quiet_of_state. intros s s0 Hs. unfold bus_load. by destruct (bread _ _ _) as [[x|] b]. Qed.
Lemma quiet_bus_store a n d v : quiet (bus_store a n d v).
Proof.
  apply quiet_of_state. intros s s0 Hs. unfold bus_store. destruct (bwrite _ _ _ _) as [r b]. cbv zeta.
  by destruct (negb _).
Qed.
Lemma quiet_set_res f : quiet (modify (E := Z * Z) (upd_cpu (B := B) (fun c => c <| res ::= f |>))).
Proof. by apply quiet_of_state. Qed.
Lemma quiet_get_res : quiet (gets (E := Z * Z) (fun s : mach B => res (m_cpu s))).
Proof. by apply quiet_of_state. Qed.
End precise.

Create HintDb quiet discriminated.
#[export] Hint Constants Opaque : quiet.
#[export] Hint Resolve quiet_ret quiet_raise quiet_rX quiet_get_pc quiet_get_priv quiet_next quiet_emit quiet_ma_fetch
  quiet_ma_ls quiet_MMU quiet_bus_load quiet_bus_store quiet_set_res quiet_get_res : quiet.

(** Binds are split, leaves come from the database. *)
Ltac quiet_tac :=
  repeat lazymatch goal with
  | |- quiet (_ ≫= _) => apply quiet_bind; [|intros ?]
  | |- quiet (if ?b then _ else _) => destruct b
  | |- quiet _ => solve [auto with quiet]
  end.

Section precise_instructions.
Context {B : Type} `{!BusOps B}.
Abbreviation M := (exec (mach B) (Z * Z)).

Lemma quiet_load_helper v size ext cause mode : quiet (B := B) (EXEC_LOAD_HELPER v size ext cause mode).
Proof. unfold EXEC_LOAD_HELPER. quiet_tac. Qed.
Lemma quiet_store v data size : quiet (B := B) (EXEC_STORE v data size).
Proof. unfold EXEC_STORE. quiet_tac. Qed.

Lemma precise_quiet {A} (m : M A) : quiet m -> precise m.
Proof.
  intros H s0. eapply triple_conseq; [apply H|done|done|]. by intros e s [? _].
Qed.
Lemma precise_bind {A A'} (m : M A) (k : A -> M A') : quiet m -> (forall a, precise (k a)) -> precise (m ≫= k).
Proof.
  intros Hm Hk s0 s Hs. specialize (Hm s0 s Hs). unfold mbind, exec_bind.
  destruct (m s) as [[e|a] s']; [by destruct Hm|]. apply Hk. by destruct Hm.
Qed.
Lemma precise_bind_last {A A'} (m : M A) (k : A -> M A') : precise m -> (forall a, no_raise (k a)) -> precise (m ≫= k).
Proof.
  intros Hm Hk s0 s Hs. specialize (Hm s0 s Hs). unfold mbind, exec_bind.
  destruct (m s) as [[e|a] s']; [done|]. specialize (Hk a s' I). destruct (k a s') as [[e|x] s'']; done.
Qed.
Lemma no_raise_precise {A} (m : M A) : no_raise m -> precise m.
Proof. intros H s0 s Hs. specialize (H s I). by destruct (m s) as [[e|x] s']. Qed.
Lemma no_raise_bind {A A'} (m : M A) (k : A -> M A') : no_raise m -> (forall a, no_raise (k a)) -> no_raise (m ≫= k).
Proof.
  intros Hm Hk s _. specialize (Hm s I). unfold mbind, exec_bind. destruct (m s) as [[e|a] s']; [done|]. by apply Hk.
Qed.
Lemma no_raise_fun {A} (m : M A) : (forall s, exists a, (m s).1 = inr a) -> no_raise m.
Proof. intros H s _. destruct (H s) as [a Ha]. by destruct (m s) as [[e|x] s']. Qed.
Lemma no_raise_wX n v : no_raise (wX n v : M unit). Proof. apply no_raise_fun. by eexists. Qed.
Lemma no_raise_next : no_raise (next : M Z). Proof. apply no_raise_fun. by eexists. Qed.
Lemma no_raise_ret {A} (a : A) : no_raise (mret a : M A). Proof. apply no_raise_fun. by eexists. Qed.
Lemma no_raise_modify f : no_raise (modify f : M unit). Proof. apply no_raise_fun. by eexists. Qed.
Hint Resolve no_raise_wX no_raise_next no_raise_ret no_raise_modify quiet_load_helper quiet_store : quiet.

(** Quiet steps, then steps that cannot raise. *)
Ltac last_tac :=
  repeat lazymatch goal with
  | |- no_raise (_ ≫= _) => apply no_raise_bind; [|intros ?]
  | |- no_raise _ => solve [auto with quiet]
  end.
Ltac precise_tac :=
  lazymatch goal with
  | |- precise (if ?b then _ else _) => destruct b; precise_tac
  | |- precise (_ ≫= _) =>
      first [ apply precise_bind; [solve [quiet_tac]|intros ?; precise_tac]
            | apply precise_bind_last; [precise_tac|intros ?; solve [last_tac]] ]
  | |- precise _ => first [ solve [apply precise_quiet; quiet_tac] | solve [apply no_raise_precise; last_tac]
                          | solve [auto with quiet] ]
  end.

Lemma precise_load rd v size ext : precise (B := B) (EXEC_LOAD rd v size ext).
Proof. unfold EXEC_LOAD. precise_tac. Qed.
Lemma precise_lr d size : precise (B := B) (EXEC_LR d size).
Proof.
  unfold EXEC_LR. apply precise_bind; [quiet_tac|intros a].
  apply precise_bind_last; [apply precise_load|intros _; last_tac].
Qed.
Lemma precise_sc d size : precise (B := B) (EXEC_SC d size).
Proof.
  unfold EXEC_SC. apply precise_bind; [quiet_tac|intros a]. apply precise_bind; [quiet_tac|intros _].
  apply precise_bind; [quiet_tac|intros r]. apply precise_bind; [apply quiet_set_res|intros _].
  destruct (_ || _); [by apply no_raise_precise, no_raise_wX|].
  apply precise_bind; [quiet_tac|intros v]. apply precise_bind; [apply quiet_store|intros _].
  apply no_raise_precise, no_raise_wX.
Qed.
Lemma precise_amo d size op : precise (B := B) (EXEC_AMO d size op).
Proof. unfold EXEC_AMO. precise_tac. Qed.
Lemma precise_branch d c : precise (B := B) (EXEC_BRANCH d c).
Proof.
  unfold EXEC_BRANCH. apply precise_quiet. cbv zeta. quiet_tac.
Qed.
Lemma precise_then_next (m : M unit) : precise m -> precise (then_next m).
Proof. intros H. unfold then_next. apply precise_bind_last; [done|intros _; apply no_raise_next]. Qed.

(** A refused CSR access changes nothing but the shadow of the timer. *)
Lemma csr_access_refused c addr op value rd wr t p :
  (csr_access c addr op value rd wr t p).1 = None ->
  csr_same c (csr_access c addr op value rd wr t p).2.
Proof.
  intros H n Hn.
  assert ((csr_access c addr op value rd wr t p).2 = upd_csr_reg (fun r => r <| csr_mtime := t |>) c) as ->.
  { destruct (csr_access_inv c addr op value rd wr t p) as [[E _]|(k & _ & _ & _ & Hs & _)]; [done|].
    rewrite H in Hs. by destruct (is_Some_None Hs). }
  by destruct n.
Qed.

Lemma precise_csr inst d op v : precise (B := B) (EXEC_CSR inst d op v).
Proof.
  intros s0 s Hs. unfold EXEC_CSR. set (rd := negb (_ && _)). set (wr := negb (_ && _)).
  pose proof (csr_access_refused (csr (m_cpu s)) (dec_csr d) op v rd wr (bmtime (m_bus s)) (priv (m_cpu s))) as H.
  destruct (csr_access _ _ _ _ _ _ _ _) as [[rdata|] c]; cbn [fst snd] in H; cbv zeta.
  - by destruct (negb (dec_rd d =? 0)).
  - destruct Hs as (H1 & H2 & H3 & H4). split; [exact H1|]. split; [exact H2|]. split; [exact H3|].
    intros n Hn. cbn. rewrite (H eq_refl n Hn). by apply H4.
Qed.

Lemma precise_xret ftrace inst trap exit : precise (B := B) (exec_xret ftrace inst trap exit).
Proof.
  intros s0 s Hs. unfold exec_xret. destruct (trap _ _); [done|]. destruct (exit _ _) as [[npc c] p]. cbv zeta.
  assert (no_raise (emit ftrace (RETURN (pc (m_cpu s)) npc (priv (m_cpu s)));; mret npc : M Z)) as H.
  { apply no_raise_bind; [apply no_raise_modify|intros _; apply no_raise_ret]. }
  match goal with |- match ?m ?x with _ => _ end => specialize (H x I); destruct (m x) as [[e|a] s'] end; done.
Qed.
Lemma precise_unless inst trap (k : M Z) : precise k -> precise (unless_trap inst trap k).
Proof. intros Hk s0 s Hs. unfold unless_trap. destruct (trap _ _); [done|]. by apply Hk. Qed.

Hint Resolve precise_load : quiet.

Definition group_precise (l : group (B := B)) : Prop := Forall (fun p => precise p.2) l.

Ltac precise_entry :=
  cbn [snd];
  lazymatch goal with
  | |- precise (EXEC_BRANCH _ _) => apply precise_branch
  | |- precise (exec_xret _ _ _ _) => apply precise_xret
  | |- precise (unless_trap _ _ _) =>
      apply precise_unless; apply precise_then_next; apply no_raise_precise, no_raise_modify
  | |- precise (then_next (EXEC_LR _ _)) => apply precise_then_next, precise_lr
  | |- precise (then_next (EXEC_SC _ _)) => apply precise_then_next, precise_sc
  | |- precise (then_next (EXEC_AMO _ _ _)) => apply precise_then_next, precise_amo
  | |- precise (then_next (EXEC_CSR _ _ _ _)) => apply precise_then_next, precise_csr
  | |- precise (then_next (_ ≫= _)) => apply precise_then_next, precise_bind; [solve [quiet_tac]|intros ?; apply precise_csr]
  | |- precise _ => unfold op_rr, op_ri, at_rs1_imm, then_next; precise_tac
  end.
Ltac group_precise_tac := unfold group_precise; repeat (apply Forall_cons_2; [precise_entry|]); try apply Forall_nil_2.

Lemma precise_group ftrace inst d : group_precise (group_of ftrace inst d).
Proof.
  unfold group_of. cbv zeta.
  repeat (match goal with |- group_precise (if ?c then _ else _) => destruct c end; [|]).
  - unfold grp_lui. group_precise_tac.
  - unfold grp_auipc. group_precise_tac.
  - unfold grp_jal. group_precise_tac.
  - unfold grp_jalr. group_precise_tac.
  - unfold grp_branch. group_precise_tac.
  - unfold grp_load. group_precise_tac.
  - unfold grp_store. group_precise_tac.
  - unfold grp_op_imm. group_precise_tac.
  - unfold grp_op_imm_32. group_precise_tac.
  - unfold grp_op. group_precise_tac.
  - unfold grp_op_32. group_precise_tac.
  - unfold grp_misc_mem. group_precise_tac.
  - unfold grp_system. cbv zeta. group_precise_tac.
  - unfold grp_amo. cbv zeta. group_precise_tac.
  - apply Forall_nil_2.
Qed.

Lemma precise_execute ftrace inst : precise (B := B) (execute ftrace inst).
Proof.
  unfold execute, INSTPAT. pose proof (precise_group ftrace inst (decode inst)) as Hg.
  unfold group_precise in Hg. rewrite Forall_forall in Hg.
  destruct (find _ _) as [[p m]|] eqn:E.
  - apply find_some in E as [Hin _]. apply (Hg (p, m)). by apply list_elem_of_In.
  - apply precise_quiet, quiet_raise.
Qed.

Lemma quiet_fetch : quiet (B := B) fetch.
Proof.
  apply quiet_of_state. intros s s0 Hs. unfold fetch. destruct (tlb_lookup _ _ _ _ _ _ _) as [[r t] b]. cbv zeta.
  destruct (negb _); [done|]. unfold mbind, exec_bind, bus_load.
  by destruct (bread _ _ _) as [[x|] b'].
Qed.
Lemma quiet_take_interrupt : quiet (B := B) take_interrupt.
Proof.
  apply quiet_of_state. intros s s0 Hs. unfold take_interrupt.
  by destruct (interrupt_pending_and_enabled _ _).
Qed.

Lemma precise_run_inst itrace ftrace : precise (B := B) (run_inst itrace ftrace).
Proof.
  unfold run_inst. apply precise_bind; [apply quiet_fetch|intros i].
  apply precise_bind; [apply quiet_get_pc|intros p].
  apply precise_bind; [apply quiet_emit|intros _].
  apply precise_bind; [apply quiet_take_interrupt|intros _]. apply precise_execute.
Qed.
End precise_instructions.

Section exceptions.
Context {B : Type} `{HB : BusLaws B}.

Lemma aset_same (l : list Z) i : 0 <= i < Z.of_nat (length l) -> aset l i (aget 0 l i) = l.
Proof. intros Hi. unfold aset. apply list_insert_id. by apply aget_lookup. Qed.

Lemma end_exec_fields npc trap (s : mach B) :
  let s' := end_exec npc trap s in
  regs (m_cpu s') = aset (regs (m_cpu s)) 0 0 /\ pc (m_cpu s') = npc /\ priv (m_cpu s') = priv (m_cpu s) /\
  csr (m_cpu s') = csr_end_update (csr (m_cpu s)) (negb trap) /\ m_bus s' = m_bus s.
Proof. destruct s as [[] bus tr]. unfold end_exec. cbn. by destruct (satp_written _). Qed.

(** C4: exceptions and interrupts are precise: when an instruction traps, at
    whatever point of its execution, the integer registers are those before it,
    the handler is entered from the pc and the privilege of the instruction with
    the CSRs unchanged up to then, and the instruction does not count as retired. *)
Theorem precise_exceptions itrace ftrace (s s' : mach B) cause val :
  mach_ok s -> run_inst itrace ftrace s = (inl (cause, val), s') ->
  let s2 := step_awake itrace ftrace s in
  let '(vec, c, p) := trap_enter (csr (m_cpu s')) cause val (pc (m_cpu s)) (priv (m_cpu s)) in
  csr_same (csr (m_cpu s)) (csr (m_cpu s')) /\
  regs (m_cpu s2) = regs (m_cpu s) /\ pc (m_cpu s2) = vec /\ priv (m_cpu s2) = p /\
  csr (m_cpu s2) = csr_end_update c false.
Proof.
  intros [[Hc Hz] Hb] E. cbv zeta.
  pose proof (precise_run_inst itrace ftrace s s) as H. rewrite E in H.
  destruct H as (H1 & H2 & H3 & H4); [by repeat split|].
  unfold step_awake. rewrite E. unfold raise_exception. rewrite H2, H3.
  destruct (trap_enter _ _ _ _ _) as [[vec c] p]. cbv zeta. split; [exact H4|].
  assert (aset (regs (m_cpu s)) 0 0 = regs (m_cpu s)) as Hr.
  { rewrite <- Hz at 2. apply aset_same. rewrite (mid_len _ Hc). lia. }
  match goal with |- context [end_exec vec true ?x] =>
    destruct (end_exec_fields vec true x) as (-> & -> & -> & -> & _) end.
  unfold emit, modify. cbn [snd]. destruct ftrace; cbn [m_cpu upd_cpu update regs priv csr]; rewrite <- Hr, <- H1; done.
Qed.
End exceptions.

(** The illegal word at 0x80000008. *)
Definition mach_trap_example : mach bus_t := cpu_step true true (cpu_step true true mach_example).

Lemma mach_trap_example_ok : mach_ok mach_trap_example.
Proof. apply cpu_step_ok, cpu_step_ok, mach_reset_ok, mach_example_bus_wf. Qed.

Lemma precise_exceptions_witness :
  let s2 := step_awake false true mach_trap_example in
  regs (m_cpu s2) = regs (m_cpu mach_trap_example) /\ mepc (csr_reg (csr (m_cpu s2))) = 0x80000008.
Proof.
  cbv zeta. split; [|vm_compute; reflexivity].
  destruct (run_inst false true mach_trap_example) as [r s'] eqn:E.
  assert (r = inl (ILLEGAL_INSTRUCTION, 0)) as ->.
  { change r with (r, s').1. rewrite <- E. vm_compute. reflexivity. }
  pose proof (precise_exceptions (HB := bus_laws) false true mach_trap_example s' ILLEGAL_INSTRUCTION 0
    mach_trap_example_ok E) as H. revert H. destruct (trap_enter _ _ _ _ _) as [[vec c] p].
  intros (_ & H & _). exact H.
Defined.
