(* ===== verification/Isa.v ===== *)
(** * The integer instructions against the architecture

    [isa] gives the meaning of every computational and control-transfer instruction
    of RV64IM as the manual words it: on the integers the operands denote, exact
    arithmetic, reduced modulo 2^64 only when a result is stored.  The theorem of
    the file refines [Cpu.execute] to it: dispatch of the pattern, operand fields,
    shifts and masks, sign extensions, the special cases of division, the targets
    and alignment of jumps.  A word that matches no pattern traps. *)
From stdpp Require Import base tactics numbers option list.
From S2P Require Import Prelude CInt Bus Csr Mmu Tlb Decode Alu Cpu CpuInv.

#[local] Open Scope record_scope.
#[local] Open Scope Z_scope.

(** ** The reference *)

(** The outcome of an instruction at [pc]: an exception with its value, or the next
    pc and what the destination register receives. *)
Definition isa_outcome : Type := (Z * Z) + (Z * option Z).

(** The meaning of an instruction from the pc, the two source registers (unsigned)
    and the immediate (signed). *)
Definition isa_meaning : Type := Z -> Z -> Z -> Z -> isa_outcome.

Definition isa_rr (f : Z -> Z -> Z) : isa_meaning := fun pc a b i => inr (pc + 4, Some (f a b)).
Definition isa_ri (f : Z -> Z -> Z) : isa_meaning := fun pc a b i => inr (pc + 4, Some (f a i)).
Definition isa_jump (target : Z) (link : option Z) : isa_outcome :=
  if target mod 4 =? 0 then inr (target, link) else inl (INST_ADDR_MISALIGNED, target mod 2 ^ 64).
Definition isa_branch (c : Z -> Z -> bool) : isa_meaning := fun pc a b i =>
  if c a b then isa_jump (pc + i) None else inr (pc + 4, None).

Definition isa : list (instpat * isa_meaning) :=
  [ (Inst.LUI, fun pc a b i => inr (pc + 4, Some i));
    (Inst.AUIPC, fun pc a b i => inr (pc + 4, Some (pc + i)));
    (Inst.JAL, fun pc a b i => isa_jump (pc + i) (Some (pc + 4)));
    (Inst.JALR, fun pc a b i => isa_jump ((a + i) / 2 * 2) (Some (pc + 4)));
    (Inst.BEQ, isa_branch Z.eqb);
    (Inst.BNE, isa_branch (fun a b => negb (a =? b)));
    (Inst.BLT, isa_branch (fun a b => s64 a <? s64 b));
    (Inst.BGE, isa_branch (fun a b => negb (s64 a <? s64 b)));
    (Inst.BLTU, isa_branch Z.ltb);
    (Inst.BGEU, isa_branch (fun a b => negb (a <? b)));
    (Inst.ADDI, isa_ri Z.add);
    (Inst.SLTI, isa_ri (fun a i => if s64 a <? i then 1 else 0));
    (Inst.SLTIU, isa_ri (fun a i => if a <? i mod 2 ^ 64 then 1 else 0));
    (Inst.XORI, isa_ri Z.lxor);
    (Inst.ORI, isa_ri Z.lor);
    (Inst.ANDI, isa_ri Z.land);
    (Inst.SLLI, isa_ri (fun a i => a * 2 ^ (i mod 64)));
    (Inst.SRLI, isa_ri (fun a i => a / 2 ^ (i mod 64)));
    (Inst.SRAI, isa_ri (fun a i => s64 a / 2 ^ (i mod 64)));
    (Inst.ADDIW, isa_ri (fun a i => s32 (a + i)));
    (Inst.SLLIW, isa_ri (fun a i => s32 (a * 2 ^ (i mod 32))));
    (Inst.SRLIW, isa_ri (fun a i => s32 (a mod 2 ^ 32 / 2 ^ (i mod 32))));
    (Inst.SRAIW, isa_ri (fun a i => s32 a / 2 ^ (i mod 32)));
    (Inst.ADD, isa_rr Z.add);
    (Inst.SUB, isa_rr Z.sub);
    (Inst.SLL, isa_rr (fun a b => a * 2 ^ (b mod 64)));
    (Inst.SLT, isa_rr (fun a b => if s64 a <? s64 b then 1 else 0));
    (Inst.SLTU, isa_rr (fun a b => if a <? b then 1 else 0));
    (Inst.XOR, isa_rr Z.lxor);
    (Inst.SRL, isa_rr (fun a b => a / 2 ^ (b mod 64)));
    (Inst.SRA, isa_rr (fun a b => s64 a / 2 ^ (b mod 64)));
    (Inst.OR, isa_rr Z.lor);
    (Inst.AND, isa_rr Z.land);
    (Inst.ADDW, isa_rr (fun a b => s32 (a + b)));
    (Inst.SUBW, isa_rr (fun a b => s32 (a - b)));
    (Inst.SLLW, isa_rr (fun a b => s32 (a * 2 ^ (b mod 32))));
    (Inst.SRLW, isa_rr (fun a b => s32 (a mod 2 ^ 32 / 2 ^ (b mod 32))));
    (Inst.SRAW, isa_rr (fun a b => s32 a / 2 ^ (b mod 32)));
    (Inst.MUL, isa_rr Z.mul);
    (Inst.MULH, isa_rr (fun a b => s64 a * s64 b / 2 ^ 64));
    (Inst.MULHU, isa_rr (fun a b => a * b / 2 ^ 64));
    (Inst.MULHSU, isa_rr (fun a b => s64 a * b / 2 ^ 64));
    (Inst.DIV, isa_rr (fun a b => if b =? 0 then -1 else Z.quot (s64 a) (s64 b)));
    (Inst.DIVU, isa_rr (fun a b => if b =? 0 then -1 else a / b));
    (Inst.REM, isa_rr (fun a b => if b =? 0 then a else Z.rem (s64 a) (s64 b)));
    (Inst.REMU, isa_rr (fun a b => if b =? 0 then a else a mod b));
    (Inst.MULW, isa_rr (fun a b => s32 (a * b)));
    (Inst.DIVW, isa_rr (fun a b => if s32 b =? 0 then -1 else s32 (Z.quot (s32 a) (s32 b))));
    (Inst.DIVUW, isa_rr (fun a b => if s32 b =? 0 then -1 else s32 (a mod 2 ^ 32 / (b mod 2 ^ 32))));
    (Inst.REMW, isa_rr (fun a b => if s32 b =? 0 then s32 a else s32 (Z.rem (s32 a) (s32 b))));
    (Inst.REMUW, isa_rr (fun a b => if s32 b =? 0 then s32 a else s32 (a mod 2 ^ 32 mod (b mod 2 ^ 32))));
    (Inst.FENCE, fun pc a b i => inr (pc + 4, None));
    (Inst.FENCEI, fun pc a b i => inr (pc + 4, None)) ].

(** ** Dispatch *)
Section dispatch.
Context {B : Type} `{!BusOps B}.

Lemma INSTPAT_hit inst p op (l : group (B := B)) : matches inst p = true -> INSTPAT inst ((p, op) :: l) = op.
Proof. intros H. unfold INSTPAT. cbn. by rewrite H. Qed.
Lemma INSTPAT_skip inst p q op (l : group (B := B)) :
  matches inst p = true -> conflict p q = true -> INSTPAT inst ((q, op) :: l) = INSTPAT inst l.
Proof.
  intros H Hc. unfold INSTPAT. cbn. destruct (matches inst q) eqn:E; [|done]. by destruct (conflict_no_match inst p q).
Qed.
End dispatch.

(** Selects the group of the matching pattern [p] and its entry. *)
Ltac dispatch p H :=
  let Hop := fresh in
  pose proof (opcode_of_match _ p eq_refl H) as Hop;
  let k := eval vm_compute in (opcode_of p) in change (opcode_of p) with k in Hop;
  unfold execute, group_of; cbv zeta; rewrite Hop; clear Hop;
  repeat match goal with |- context [if ?a =? ?b then _ else _] =>
    let v := eval vm_compute in (a =? b) in change (a =? b) with v; cbv iota end;
  unfold grp_lui, grp_auipc, grp_jal, grp_jalr, grp_branch, grp_load, grp_store, grp_op_imm, grp_op_imm_32, grp_op,
    grp_op_32, grp_misc_mem, grp_system, grp_amo; cbv zeta;
  repeat (rewrite (INSTPAT_skip _ p _ _ _ H) by (vm_compute; reflexivity));
  rewrite (INSTPAT_hit _ p _ _ H).

(** ** The functions of the code against the reference *)
(** Shift amounts are the low six, or five, bits; a word result is determined by the
    low 32 bits. *)
Lemma ref_amount x n : 0 <= n -> Z.land x (Z.ones n) = x mod 2 ^ n.
Proof. intros. by apply Z.land_ones. Qed.
Lemma ref_shl a n : 0 <= n -> shl64 a n = (a * 2 ^ n) mod 2 ^ 64.
Proof. intros. unfold shl64. by rewrite Z.shiftl_mul_pow2. Qed.
Lemma ref_sar a n : 0 <= n -> sar64 a n = (s64 a / 2 ^ n) mod 2 ^ 64.
Proof. intros. unfold sar64. by rewrite Z.shiftr_div_pow2. Qed.
Lemma ref_word x y : x mod 2 ^ 32 = y mod 2 ^ 32 -> sext x 32 = s32 y mod 2 ^ 64.
Proof. intros H. rewrite sext_signed by lia. unfold s32, signed. by rewrite H. Qed.
Lemma ref_word_small y : - 2 ^ 31 <= y < 2 ^ 31 -> s32 y = y.
Proof. intros. by apply signed_unique. Qed.
Lemma ref_w64_word x : w64 x mod 2 ^ 32 = x mod 2 ^ 32.
Proof. unfold w64. apply Z.mod_mod_divide. by exists (2 ^ 32). Qed.
Lemma ref_w32_word x : w32 x mod 2 ^ 32 = x mod 2 ^ 32.
Proof. unfold w32. by rewrite Z.mod_mod. Qed.
Lemma ref_flag c : Z.b2z c = (if c then 1 else 0) mod 2 ^ 64.
Proof. by destruct c. Qed.
Lemma ref_small x : is_u 64 x -> x = x mod 2 ^ 64.
Proof. intros. symmetry. by apply Z.mod_small. Qed.
Lemma amount6 x : Z.land x 0x3F = x mod 64 /\ 0 <= x mod 64.
Proof. split; [exact (ref_amount x 6 ltac:(lia))|div_lia]. Qed.
Lemma amount5 x : Z.land x 0x1F = x mod 32 /\ 0 <= x mod 32.
Proof. split; [exact (ref_amount x 5 ltac:(lia))|div_lia]. Qed.

Section immediate.
Context (i : Z) (Hi : is_u 64 i).

Lemma ref_imm : s64 i mod 2 ^ 64 = i.
Proof. unfold s64. rewrite signed_mod by lia. by apply Z.mod_small. Qed.
Lemma ref_imm_amount n : 0 <= n <= 64 -> s64 i mod 2 ^ n = i mod 2 ^ n.
Proof.
  intros Hn. rewrite <- ref_imm at 2. symmetry. apply Z.mod_mod_divide.
  exists (2 ^ (64 - n)). rewrite <- Z.pow_add_r by lia. f_equal. lia.
Qed.
Lemma ref_imm_bit j : 0 <= j < 64 -> Z.testbit (s64 i) j = Z.testbit i j.
Proof. intros Hj. rewrite <- ref_imm at 2. rewrite testbit_mod_pow2 by lia. by rewrite (proj2 (Z.ltb_lt j 64)) by lia. Qed.
Lemma imm_amount6 : s64 i mod 64 = i mod 64. Proof. exact (ref_imm_amount 6 ltac:(lia)). Qed.
Lemma imm_amount5 : s64 i mod 32 = i mod 32. Proof. exact (ref_imm_amount 5 ltac:(lia)). Qed.

Context (a : Z) (Ha : is_u 64 a).

Lemma ref_add_imm : add64 a i = (a + s64 i) mod 2 ^ 64.
Proof. unfold add64, w64. by rewrite <- (Z.add_mod_idemp_r a (s64 i)), ref_imm by lia. Qed.
Lemma ref_bitwise op f :
  (forall x y j, 0 <= j -> Z.testbit (op x y) j = f (Z.testbit x j) (Z.testbit y j)) -> f false false = false ->
  op a i = op a (s64 i) mod 2 ^ 64.
Proof.
  intros Hop Hf. apply Z.bits_inj'. intros j Hj. rewrite testbit_mod_pow2, !Hop by lia.
  destruct (Z.ltb_spec j 64); cbn [andb]; [by rewrite ref_imm_bit|].
  by rewrite (testbit_high 64 a), (testbit_high 64 i) by lia.
Qed.
Lemma ref_xori : Z.lxor a i = Z.lxor a (s64 i) mod 2 ^ 64.
Proof. apply (ref_bitwise _ xorb); [intros; apply Z.lxor_spec|done]. Qed.
Lemma ref_ori : Z.lor a i = Z.lor a (s64 i) mod 2 ^ 64.
Proof. apply (ref_bitwise _ orb); [intros; apply Z.lor_spec|done]. Qed.
Lemma ref_andi : Z.land a i = Z.land a (s64 i) mod 2 ^ 64.
Proof. apply (ref_bitwise _ andb); [intros; apply Z.land_spec|done]. Qed.
Lemma ref_sltiu : Z.b2z (a <? i) = (if a <? s64 i mod 2 ^ 64 then 1 else 0) mod 2 ^ 64.
Proof. rewrite ref_imm. apply ref_flag. Qed.
Lemma ref_addiw : sext (add64 a i) 32 = s32 (a + s64 i) mod 2 ^ 64.
Proof. apply ref_word. rewrite ref_add_imm. apply ref_w64_word. Qed.
Lemma ref_jalr : Z.land (add64 i a) (not64 1) = ((a + s64 i) / 2 * 2) mod 2 ^ 64.
Proof.
  assert (forall x, Z.land (x mod 2 ^ 64) (not64 1) = (x / 2 * 2) mod 2 ^ 64) as H.
  { intros x. apply Z.bits_inj'. intros j Hj. rewrite Z.land_spec, not64_testbit, !testbit_mod_pow2 by lia.
    change (x / 2) with (x / 2 ^ 1). rewrite <- (Z.shiftr_div_pow2 x 1), <- (Z.shiftl_mul_pow2 _ 1) by lia.
    rewrite testbit_shiftl by lia. change 1 with (Z.ones 1) at 1. rewrite testbit_ones by lia.
    destruct (Z.ltb_spec j 64); cbn [andb]; [|done].
    destruct (Z.ltb_spec j 1); [by rewrite (proj2 (Z.leb_gt 1 j)), andb_false_r by lia|].
    rewrite (proj2 (Z.leb_le 1 j)), Z.shiftr_spec, andb_true_r by lia. cbn [andb]. f_equal. lia. }
  rewrite <- H, <- ref_add_imm. unfold add64. by rewrite Z.add_comm.
Qed.
End immediate.

Lemma ref_shr a n : is_u 64 a -> 0 <= n -> shr64 a n = (a / 2 ^ n) mod 2 ^ 64.
Proof.
  intros Ha Hn. unfold shr64. rewrite Z.shiftr_div_pow2 by lia. symmetry. apply Z.mod_small.
  assert (0 < 2 ^ n) by (apply Z.pow_pos_nonneg; lia).
  split; [apply Z.div_pos; lia|]. apply Z.div_lt_upper_bound; nia.
Qed.

Section registers.
Context (a b : Z) (Ha : is_u 64 a) (Hb : is_u 64 b).

Lemma ref_sllw n : 0 <= n -> sext (w32 (Z.shiftl (w32 a) n)) 32 = s32 (a * 2 ^ n) mod 2 ^ 64.
Proof.
  intros. apply ref_word. rewrite ref_w32_word, Z.shiftl_mul_pow2 by lia.
  unfold w32. by rewrite Z.mul_mod_idemp_l.
Qed.
Lemma ref_srlw n : 0 <= n -> sext (Z.shiftr (w32 a) n) 32 = s32 (a mod 2 ^ 32 / 2 ^ n) mod 2 ^ 64.
Proof. intros. apply ref_word. by rewrite Z.shiftr_div_pow2. Qed.
Lemma ref_sraw n : 0 <= n -> sext (w32 (Z.shiftr (s32 a) n)) 32 = (s32 a / 2 ^ n) mod 2 ^ 64.
Proof.
  intros. rewrite (ref_word _ (s32 a / 2 ^ n)) by (by rewrite ref_w32_word, Z.shiftr_div_pow2).
  rewrite ref_word_small; [done|]. pose proof (s32_range a). assert (1 <= 2 ^ n) by (apply Z.pow_le_mono_r with (b := 0); lia).
  split; [apply Z.div_le_lower_bound; nia|apply Z.div_lt_upper_bound; nia].
Qed.
Lemma ref_mulh : mulh a b = (s64 a * s64 b / 2 ^ 64) mod 2 ^ 64.
Proof. unfold mulh. cbv zeta. by rewrite Z.shiftr_div_pow2. Qed.
Lemma ref_mulhu : mulhu a b = (a * b / 2 ^ 64) mod 2 ^ 64.
Proof. unfold mulhu, w128. rewrite Z.shiftr_div_pow2, (Z.mod_small (a * b)) by nia. done. Qed.
Lemma ref_mulhsu : mulhsu a b = (s64 a * b / 2 ^ 64) mod 2 ^ 64.
Proof.
  unfold mulhsu, w128. cbv zeta. rewrite Z.mul_mod_idemp_l, Z.shiftr_div_pow2 by lia. unfold w64.
  change (2 ^ 128) with (2 ^ 64 * 2 ^ 64). set (x := s64 a * b). div_lia.
Qed.
Lemma ref_mulw : mulw a b = s32 (a * b) mod 2 ^ 64.
Proof. unfold mulw. apply ref_word. rewrite ref_w32_word. unfold w32. by rewrite <- Z.mul_mod. Qed.
Lemma ref_div : div a b = (if b =? 0 then -1 else Z.quot (s64 a) (s64 b)) mod 2 ^ 64.
Proof.
  unfold div. cbv zeta. destruct (b =? 0); [done|]. destruct (_ && _) eqn:E; [|done].
  apply andb_true_iff in E as [->%Z.eqb_eq ->%Z.eqb_eq]. reflexivity.
Qed.
Lemma ref_divu : divu a b = (if b =? 0 then -1 else a / b) mod 2 ^ 64.
Proof.
  pose proof (divu_u a b Ha Hb) as Hu. revert Hu. unfold divu. destruct (Z.eqb_spec b 0); [done|].
  rewrite Z.quot_div_nonneg by lia. intros Hu. symmetry. by apply Z.mod_small.
Qed.
Lemma ref_rem : rem a b = (if b =? 0 then a else Z.rem (s64 a) (s64 b)) mod 2 ^ 64.
Proof.
  unfold rem. cbv zeta. destruct (b =? 0); [symmetry; by apply Z.mod_small|]. destruct (_ && _) eqn:E; [|done].
  apply andb_true_iff in E as [->%Z.eqb_eq ->%Z.eqb_eq]. reflexivity.
Qed.
Lemma ref_remu : remu a b = (if b =? 0 then a else a mod b) mod 2 ^ 64.
Proof.
  rewrite <- (Z.mod_small (remu a b) (2 ^ 64)) by (by apply remu_u). f_equal. unfold remu.
  destruct (Z.eqb_spec b 0); [done|]. apply Z.rem_mod_nonneg; lia.
Qed.
Lemma ref_word_zero : (w32 b =? 0) = (s32 b =? 0).
Proof.
  destruct (Z.eqb_spec (s32 b) 0) as [E|E]; [by rewrite (u32_zero _ E)|].
  apply Z.eqb_neq. intros Hw. apply E. unfold s32, signed. unfold w32 in Hw. by rewrite Hw.
Qed.
Lemma ref_divw : divw a b = (if s32 b =? 0 then -1 else s32 (Z.quot (s32 a) (s32 b))) mod 2 ^ 64.
Proof.
  unfold divw. cbv zeta. destruct (s32 b =? 0); [done|]. destruct (_ && _) eqn:E.
  - apply andb_true_iff in E as [->%Z.eqb_eq ->%Z.eqb_eq]. reflexivity.
  - apply ref_word. apply ref_w64_word.
Qed.
Lemma ref_remw : remw a b = (if s32 b =? 0 then s32 a else s32 (Z.rem (s32 a) (s32 b))) mod 2 ^ 64.
Proof.
  unfold remw. cbv zeta. destruct (s32 b =? 0); [by apply ref_word|]. destruct (_ && _) eqn:E.
  - apply andb_true_iff in E as [->%Z.eqb_eq ->%Z.eqb_eq]. reflexivity.
  - apply ref_word. apply ref_w64_word.
Qed.
Lemma ref_divuw : divuw a b = (if s32 b =? 0 then -1 else s32 (a mod 2 ^ 32 / (b mod 2 ^ 32))) mod 2 ^ 64.
Proof.
  unfold divuw. cbv zeta. rewrite ref_word_zero. destruct (Z.eqb_spec (s32 b) 0) as [|E]; [done|].
  apply ref_word. rewrite Z.quot_div_nonneg; [done|apply w32_u|].
  pose proof (w32_u b). assert (w32 b <> 0); [|lia]. intros Hw. apply E. apply Z.eqb_eq. by rewrite <- ref_word_zero, Hw.
Qed.
Lemma ref_remuw : remuw a b = (if s32 b =? 0 then s32 a else s32 (a mod 2 ^ 32 mod (b mod 2 ^ 32))) mod 2 ^ 64.
Proof.
  unfold remuw. cbv zeta. rewrite ref_word_zero. destruct (Z.eqb_spec (s32 b) 0) as [|E]; [apply ref_word, ref_w32_word|].
  apply ref_word. rewrite Z.rem_mod_nonneg; [done|apply w32_u|].
  pose proof (w32_u b). assert (w32 b <> 0); [|lia]. intros Hw. apply E. apply Z.eqb_eq. by rewrite <- ref_word_zero, Hw.
Qed.
Lemma ref_addw : sext (add64 a b) 32 = s32 (a + b) mod 2 ^ 64.
Proof. apply ref_word, ref_w64_word. Qed.
Lemma ref_subw : sext (sub64 a b) 32 = s32 (a - b) mod 2 ^ 64.
Proof. apply ref_word, ref_w64_word. Qed.
Lemma ref_sll : shl64 a (Z.land b 0x3F) = (a * 2 ^ (b mod 64)) mod 2 ^ 64.
Proof. destruct (amount6 b) as [-> ?]. by apply ref_shl. Qed.
Lemma ref_srl : shr64 a (Z.land b 0x3F) = (a / 2 ^ (b mod 64)) mod 2 ^ 64.
Proof. destruct (amount6 b) as [-> ?]. by apply ref_shr. Qed.
Lemma ref_sra : sar64 a (Z.land b 0x3F) = (s64 a / 2 ^ (b mod 64)) mod 2 ^ 64.
Proof. destruct (amount6 b) as [-> ?]. by apply ref_sar. Qed.
Lemma ref_sllw_rr : sllw a b = s32 (a * 2 ^ (b mod 32)) mod 2 ^ 64.
Proof. unfold sllw. destruct (amount5 b) as [-> ?]. by apply ref_sllw. Qed.
Lemma ref_srlw_rr : srlw a b = s32 (a mod 2 ^ 32 / 2 ^ (b mod 32)) mod 2 ^ 64.
Proof. unfold srlw. destruct (amount5 b) as [-> ?]. by apply ref_srlw. Qed.
Lemma ref_sraw_rr : sraw a b = (s32 a / 2 ^ (b mod 32)) mod 2 ^ 64.
Proof. unfold sraw. destruct (amount5 b) as [-> ?]. by apply ref_sraw. Qed.
End registers.

(** ** Refinement *)
Section refinement.
Context {B : Type} `{HB : BusLaws B}.

Abbreviation M := (exec (mach B) (Z * Z)).

(** A run of an instruction with destination [rd] agrees with the reference: the
    same exception with the machine as it was, or the same next pc, the register
    written and nothing else of the core or the bus changed. *)
Definition isa_agrees (o : isa_outcome) (rd : Z) (s : mach B) (r : (Z * Z + Z) * mach B) : Prop :=
  match o, r with
  | inl e, (inl e', s') => e' = e /\ s' = s
  | inr (npc, v), (inr npc', s') =>
      npc' = npc mod 2 ^ 64 /\ m_bus s' = m_bus s /\
      m_cpu s' = match v with
                 | Some v => (m_cpu s) <| regs ::= fun l => aset l rd (v mod 2 ^ 64) |>
                 | None => m_cpu s
                 end
  | _, _ => False
  end.

Definition reg (s : mach B) (n : Z) : Z := aget 0 (regs (m_cpu s)) n.
Definition isa_at (f : isa_meaning) (d : inst_dec_t) (s : mach B) : isa_outcome :=
  f (pc (m_cpu s)) (reg s (dec_rs1 d)) (reg s (dec_rs2 d)) (s64 (dec_imm d)).

Lemma reg_u s n : mid s -> is_u 64 (reg s n).
Proof. intros [Hc _]. apply (aget_Forall (fun v => 0 <= v < 2 ^ 64)); [lia|apply Hc]. Qed.

Lemma op_rr_agrees inst f g s :
  let d := decode inst in
  (forall a b, is_u 64 a -> is_u 64 b -> f a b = g a b mod 2 ^ 64) -> mid s ->
  isa_agrees (isa_at (isa_rr g) d s) (dec_rd d) s (op_rr d f s).
Proof. intros d Hf Hs. cbn. rewrite <- Hf by (by apply reg_u). by repeat split. Qed.

Lemma op_ri_agrees inst f g s :
  let d := decode inst in
  (forall a i, is_u 64 a -> is_u 64 i -> f a i = g a (s64 i) mod 2 ^ 64) -> mid s ->
  isa_agrees (isa_at (isa_ri g) d s) (dec_rd d) s (op_ri d f s).
Proof. intros d Hf Hs. cbn. rewrite <- Hf by (apply decode_ranges || by apply reg_u). by repeat split. Qed.

Lemma aligned_target x : (Z.land (x mod 2 ^ 64) 0x3 =? 0) = (x mod 4 =? 0).
Proof.
  change 0x3 with (Z.ones 2). rewrite Z.land_ones by lia. change (2 ^ 2) with 4.
  rewrite Z.mod_mod_divide; [done|]. by exists (2 ^ 62).
Qed.

Lemma branch_agrees inst c c' s :
  let d := decode inst in
  (forall a b, c a b = c' a b) -> mid s ->
  isa_agrees (isa_at (isa_branch c') d s) (dec_rd d) s (EXEC_BRANCH d c s).
Proof.
  intros d Hc Hs. destruct (decode_ranges inst) as (_ & _ & _ & Himm & _). fold d in Himm.
  unfold isa_at, isa_branch, EXEC_BRANCH, mbind, exec_bind, rX, gets. cbn [fst snd].
  fold (reg s (dec_rs1 d)). fold (reg s (dec_rs2 d)). rewrite Hc. destruct (c' _ _); [|by repeat split].
  unfold get_pc, gets, CHECK_MA_FETCH, isa_jump. cbv zeta. rewrite ref_add_imm, aligned_target by done.
  by destruct (_ mod 4 =? 0).
Qed.

(** The jumps: the link register is written, and the trace records calls and returns. *)
Lemma jump_agrees rd target link (k : M Z) (s : mach B) :
  (exists tr, k s = (inr (target mod 2 ^ 64),
     mk_mach ((m_cpu s) <| regs ::= fun l => aset l rd (link mod 2 ^ 64) |>) (m_bus s) tr)) ->
  isa_agrees (isa_jump target (Some link)) rd s ((CHECK_MA_FETCH (target mod 2 ^ 64);; k) s).
Proof.
  intros [tr Hk]. unfold isa_jump, CHECK_MA_FETCH. rewrite aligned_target. destruct (target mod 4 =? 0); [|done].
  unfold mbind, exec_bind. cbn [negb]. unfold mret, exec_ret. rewrite Hk. by repeat split.
Qed.

Lemma emit_run {A} on e (k : M A) (s : mach B) :
  exists tr, (emit on e;; k) s = k (mk_mach (m_cpu s) (m_bus s) tr).
Proof. destruct s as [c b t]. destruct on; by eexists. Qed.

Definition isa_entry_ok (ftrace : bool) (e : instpat * isa_meaning) : Prop := forall inst s,
  matches inst e.1 = true -> mid s ->
  isa_agrees (isa_at e.2 (decode inst) s) (dec_rd (decode inst)) s (execute ftrace inst s).

(** The shape of an entry. *)
Ltac shape_tac :=
  lazymatch goal with
  | |- isa_agrees _ _ _ (op_rr _ _ _) => apply op_rr_agrees; [intros a b Ha Hb|assumption]
  | |- isa_agrees _ _ _ (op_ri _ _ _) => apply op_ri_agrees; [intros a i Ha Hi|assumption]
  | |- isa_agrees _ _ _ (EXEC_BRANCH _ _ _) => apply branch_agrees; [intros a b|assumption]
  | |- _ => idtac
  end.

(** The lemma of each function; immediate amounts first become register operands. *)
Ltac function_tac :=
  rewrite ?imm_amount6, ?imm_amount5 by assumption;
  lazymatch goal with
  | |- Z.b2z (_ <? _) = (if _ <? _ mod _ then _ else _) mod _ => by apply ref_sltiu
  | |- Z.b2z _ = _ => apply ref_flag
  | |- add64 _ _ = (_ + s64 _) mod _ => by apply ref_add_imm
  | |- Z.lxor _ _ = Z.lxor _ (s64 _) mod _ => by apply ref_xori
  | |- Z.lor _ _ = Z.lor _ (s64 _) mod _ => by apply ref_ori
  | |- Z.land _ _ = Z.land _ (s64 _) mod _ => by apply ref_andi
  | |- sext (add64 _ _) _ = s32 (_ + s64 _) mod _ => by apply ref_addiw
  | |- sext (add64 _ _) _ = _ => by apply ref_addw
  | |- sext (sub64 _ _) _ = _ => by apply ref_subw
  | |- shl64 _ _ = _ => by apply ref_sll
  | |- shr64 _ _ = _ => by apply ref_srl
  | |- sar64 _ _ = _ => by apply ref_sra
  | |- sllw _ _ = _ => by apply ref_sllw_rr
  | |- srlw _ _ = _ => by apply ref_srlw_rr
  | |- sraw _ _ = _ => by apply ref_sraw_rr
  | |- mulh _ _ = _ => by apply ref_mulh
  | |- mulhu _ _ = _ => by apply ref_mulhu
  | |- mulhsu _ _ = _ => by apply ref_mulhsu
  | |- mulw _ _ = _ => by apply ref_mulw
  | |- div _ _ = _ => by apply ref_div
  | |- divu _ _ = _ => by apply ref_divu
  | |- rem _ _ = _ => by apply ref_rem
  | |- remu _ _ = _ => by apply ref_remu
  | |- divw _ _ = _ => by apply ref_divw
  | |- divuw _ _ = _ => by apply ref_divuw
  | |- remw _ _ = _ => by apply ref_remw
  | |- remuw _ _ = _ => by apply ref_remuw
  | |- ?op _ _ = ?op _ _ mod _ => apply ref_small; by auto with cint
  | |- _ => exact eq_refl
  end.

Ltac get_pc_tac :=
  lazymatch goal with |- isa_agrees _ _ ?s ((get_pc ≫= ?k) ?s) =>
    change ((get_pc ≫= k) s) with (k (pc (m_cpu s)) s); cbv beta zeta end.

Ltac rX_tac :=
  lazymatch goal with |- isa_agrees _ _ ?s ((rX ?n ≫= ?k) ?s) =>
    change ((rX n ≫= k) s) with (k (reg s n) s); cbv beta zeta end.
Ltac trace_tac :=
  lazymatch goal with |- exists tr, (get_priv ≫= ?k) ?s = _ =>
    change ((get_priv ≫= k) s) with (k (priv (m_cpu s)) s); cbv beta end;
  repeat lazymatch goal with |- exists tr, (emit ?on ?e ≫= ?k) ?s = _ =>
    let E := fresh in let t := fresh in destruct (emit_run on e (k tt) s) as [t E]; cbv beta in E; setoid_rewrite E; clear E end;
  eexists; reflexivity.

Lemma isa_ok ftrace : Forall (isa_entry_ok ftrace) isa.
Proof.
  unfold isa. repeat (apply Forall_cons_2;
    [intros inst s H Hs; cbn [fst snd] in *; lazymatch type of H with matches _ ?p = _ => dispatch p H end|]);
    [..|apply Forall_nil_2].
  all: shape_tac.
  all: lazymatch goal with |- isa_agrees _ _ _ _ => idtac | |- @eq bool _ _ => idtac | |- _ => function_tac end.
  all: try reflexivity; try apply Z.leb_antisym.
  all: destruct (decode_ranges inst) as (_ & _ & _ & Himm & _).
  - split; [done|]. split; [done|]. cbn. by rewrite ref_imm.
  - split; [done|]. split; [done|]. cbn [m_cpu]. rewrite <- ref_add_imm by done. reflexivity.
  - get_pc_tac. rewrite ref_add_imm by done. apply jump_agrees. trace_tac.
  - get_pc_tac. rX_tac. rewrite ref_jalr by (done || by apply reg_u). apply jump_agrees. trace_tac.
  - by repeat split.
  - by repeat split.
Qed.

Definition listed (p : instpat) : bool := existsb (fun q => bool_decide (p = q)) Inst.all.

Lemma group_patterns ftrace inst d : forallb listed (map fst (group_of (B := B) ftrace inst d)) = true.
Proof. unfold group_of. cbv zeta. by repeat (destruct (_ =? _); [vm_compute; reflexivity|]). Qed.

(** C5: the integer instructions are those of the architecture: a word that matches
    a pattern of [isa] is executed as the manual defines that instruction on the
    integers its operands denote, for every operand: same result modulo 2^64, same
    next pc, a misaligned jump target raising before the link register is written;
    nothing else of the core changes, and the bus is not touched. *)
Theorem isa_refined ftrace inst p f s :
  In (p, f) isa -> matches inst p = true -> mid s ->
  isa_agrees (isa_at f (decode inst) s) (dec_rd (decode inst)) s (execute ftrace inst s).
Proof. intros Hin. apply (proj1 (List.Forall_forall _ _) (isa_ok ftrace) (p, f) Hin). Qed.

(** C18: a word that matches no pattern raises an illegal-instruction exception that
    reports the word, and changes nothing. *)
Theorem illegal_instruction ftrace inst s :
  (forall p, In p Inst.all -> matches inst p = false) ->
  execute ftrace inst s = (inl (ILLEGAL_INSTRUCTION, inst), s).
Proof.
  intros H. unfold execute, INSTPAT. destruct (find _ _) as [[p op]|] eqn:E; [|done].
  apply find_some in E as [Hin Hm]. exfalso.
  pose proof (proj1 (forallb_forall _ _) (group_patterns ftrace inst (decode inst)) p (in_map fst _ (p, op) Hin)) as Hp.
  apply existsb_exists in Hp as (q & Hq & Hpq%bool_decide_eq_true). subst q.
  change (matches inst p = true) in Hm. by rewrite (H p Hq) in Hm.
Qed.
End refinement.

(** Register x5 holds -8, the pc is the reset vector. *)
Definition isa_mach : mach bus_t :=
  mk_mach (cpu_init <| regs := aset (replicate 32 0) 5 (2 ^ 64 - 8) |>) bus_example [].
Lemma isa_mach_mid : mid isa_mach.
Proof.
  destruct (mach_reset_ok (HB := bus_laws) bus_example bus_example_wf) as [[[] _] Hb].
  split; [|exact Hb]. constructor; try done. apply (aset_Forall (fun v => 0 <= v < 2 ^ 64)); [lia|].
  apply Forall_replicate. lia.
Qed.

(** SRAI x6, x5, 2. *)
Lemma isa_refined_witness :
  isa_agrees (inr (0x80000004, Some (-2))) 6 isa_mach (execute false 0x4022D313 isa_mach).
Proof.
  exact (isa_refined (HB := bus_laws) false 0x4022D313 Inst.SRAI (isa_ri (fun a i => s64 a / 2 ^ (i mod 64))) isa_mach
    ltac:(cbn; do 18 right; left; reflexivity) eq_refl isa_mach_mid).
Defined.

Lemma illegal_instruction_witness : execute false 0 isa_mach = (inl (ILLEGAL_INSTRUCTION, 0), isa_mach).
Proof.
  apply (illegal_instruction (B := bus_t) false 0 isa_mach).
  apply List.Forall_forall. unfold Inst.all. repeat constructor.
Defined.
