(* ===== verification/MemOps.v ===== *)
(** * The memory instructions

    What the theorems about loads, stores and atomics are stated with: RAM behind
    the bus as the values of its byte ranges ([ram_value], [stored]), the tables of
    the instructions with their sizes and their meaning ([stores], [loads], [amos],
    [lrs], [scs]), the reduction of each instruction to the macro of [cpu.c] that
    implements it, and the agreement of the AMO functions of the code with the
    operations of the architecture. *)
From stdpp Require Import base tactics numbers option list sets.
From S2P Require Import Prelude CInt Memory Bus Csr Mmu Tlb Decode Alu Cpu CpuInv Isa.

#[local] Open Scope record_scope.
#[local] Open Scope Z_scope.

(** The value of the [n] bytes at [a]. *)
Definition ram_value (b : bus_t) (a n : Z) : Z := default 0 (ram_read (bus_memory b) a n).
(** The bus after a store of [n] bytes at [a]. *)
Definition ram_store (b : bus_t) (a n d : Z) : bus_t := b <| bus_memory := (ram_write (bus_memory b) a n d).2 |>.

(** ** RAM behind the bus *)
Section ram.
Context (b : bus_t) (a n : Z) (Hb : bus_wf b) (Ha : ram_span b a n).

Lemma ram_read_some : ram_read (bus_memory b) a n = Some (ram_value b a n).
Proof.
  unfold ram_value, ram_read. destruct (ram_span_access b a n Hb Ha) as [-> _]. done.
Qed.

Lemma ram_value_u : is_u (8 * n) (ram_value b a n).
Proof.
  unfold ram_value, ram_read. destruct (ram_span_access b a n Hb Ha) as [-> _]. cbn [negb default].
  destruct Ha as (_ & Hn & _). apply size_cases in Hn.
  pose proof (le_value_u (mem_load (bus_memory b) (sub64 a (mem_base (bus_memory b))) (Z.to_nat n))) as H.
  rewrite mem_load_length in H. replace (8 * Z.of_nat (Z.to_nat n)) with (8 * n) in H by lia. apply H.
  unfold mem_load. apply Forall_fmap, Forall_true. intros i. apply mem_byte_ok, bwf_ram, Hb.
Qed.

Lemma ram_store_write d : ram_write (bus_memory b) a n d = (0, bus_memory (ram_store b a n d)).
Proof.
  unfold ram_store. cbn [bus_memory update]. unfold ram_write.
  destruct (ram_span_access b a n Hb Ha) as [-> _]. done.
Qed.

Lemma ram_store_wf d : bus_wf (ram_store b a n d).
Proof. pose proof (bus_write_wf b a n d Hb) as H. by rewrite bus_write_ram in H. Qed.

Lemma ram_store_span d a' n' : ram_span b a' n' -> ram_span (ram_store b a n d) a' n'.
Proof.
  intros (H1 & H2 & H3 & H4). split; [done|]. split; [done|]. split; [|done].
  pose proof (bus_write_size b a n d) as H. rewrite bus_write_ram in H by done. unfold contains in *. cbn [region_bounds] in *.
  change (bus_memory (ram_store b a n d)) with (bus_memory (0, ram_store b a n d).2). cbn [snd] in *. unfold ram_store. by rewrite H.
Qed.

(** A store is read back, and no disjoint word sees it. *)
Lemma ram_store_value d : ram_value (ram_store b a n d) a n = d mod 2 ^ (8 * n).
Proof.
  destruct (ram_write_then_read (bus_memory b) a n d _ (bwf_ram b Hb) (proj1 Ha) (ram_store_write d)) as [H _].
  unfold ram_value. by rewrite H.
Qed.
Lemma ram_store_other d a' n' :
  is_u 64 a' -> a' + n' <= a \/ a + n <= a' -> ram_value (ram_store b a n d) a' n' = ram_value b a' n'.
Proof.
  intros H1 H2.
  destruct (ram_write_then_read (bus_memory b) a n d _ (bwf_ram b Hb) (proj1 Ha) (ram_store_write d)) as [_ H].
  unfold ram_value. by rewrite H.
Qed.
End ram.

Lemma le_bytes_mod n v : le_bytes n (v mod 2 ^ (8 * Z.of_nat n)) = le_bytes n v.
Proof.
  revert v. induction n as [|n IH]; intros v; [done|]. cbn [le_bytes].
  replace (8 * Z.of_nat (S n)) with (8 + 8 * Z.of_nat n) by lia. rewrite Z.pow_add_r by lia.
  change (2 ^ 8) with 256. rewrite Z.rem_mul_r, (Z.mul_comm 256) by lia.
  rewrite Z.mod_add, Z.mod_mod, Z.div_add, (Z.div_small (v mod 256)) by div_lia.
  f_equal. apply IH.
Qed.

Lemma ram_store_mod b a n d d' :
  bus_wf b -> ram_span b a n -> d mod 2 ^ (8 * n) = d' mod 2 ^ (8 * n) -> ram_store b a n d = ram_store b a n d'.
Proof.
  intros Hb Ha H. unfold ram_store, ram_write. destruct (ram_span_access b a n Hb Ha) as [-> _]. cbn [negb snd].
  destruct Ha as (_ & Hn & _). rewrite <- (le_bytes_mod _ d), <- (le_bytes_mod _ d').
  replace (8 * Z.of_nat (Z.to_nat n)) with (8 * n) by (apply size_cases in Hn; lia). by rewrite H.
Qed.

(** What the memory holds after [d] is written to the [n] bytes at [a]: those bytes
    read [d], every disjoint word is what it was. *)
Definition stored (b b' : bus_t) (a n d : Z) : Prop :=
  ram_value b' a n = d mod 2 ^ (8 * n) /\
  forall a' n', is_u 64 a' -> a' + n' <= a \/ a + n <= a' -> ram_value b' a' n' = ram_value b a' n'.

Lemma ram_store_stored b a n d : bus_wf b -> ram_span b a n -> stored b (ram_store b a n d) a n d.
Proof. intros Hb Ha. split; [by apply ram_store_value|]. intros a' n'. by apply ram_store_other. Qed.

(** ** State updates *)
Definition set_reg (n v : Z) (s : mach bus_t) : mach bus_t := upd_cpu (fun c => c <| regs ::= fun l => aset l n v |>) s.

Definition set_res (f : reservation_t -> reservation_t) (s : mach bus_t) : mach bus_t := upd_cpu (fun c => c <| res ::= f |>) s.
Definition unreserved (r : reservation_t) : reservation_t := r <| res_valid := false |>.
Lemma reg_set s n v : mid s -> is_u 5 n -> reg (set_reg n v s) n = v.
Proof. intros Hs Hn. apply aget_aset_eq. rewrite (mid_len _ (proj1 Hs)). lia. Qed.
Lemma reg_set_ne s n v k : 0 <= n -> 0 <= k -> k <> n -> reg (set_reg n v s) k = reg s k.
Proof. intros. apply aget_aset_ne; lia. Qed.
Lemma mid_set_reg s n v : mid s -> is_u 64 v -> mid (set_reg n v s).
Proof.
  intros Hs Hv. apply mid_upd_cpu; [done|]. intros Hc. destruct Hc. constructor; try done; cbn [regs update].
  - by rewrite aset_length.
  - by apply (aset_Forall (fun v => 0 <= v < 2 ^ 64)).
Qed.
Lemma mid_set_res s f :
  mid s -> (is_u 64 (addr_start (f (res (m_cpu s)))) /\ is_u 64 (addr_end (f (res (m_cpu s))))) -> mid (set_res f s).
Proof. intros Hs Hf. apply mid_upd_cpu; [done|]. intros Hc. by destruct Hc. Qed.
Lemma mid_store s a n d : mid s -> ram_span (m_bus s) a n -> mid (s <| m_bus := ram_store (m_bus s) a n d |>).
Proof. intros [Hc Hb] Ha. split; [done|]. by apply ram_store_wf. Qed.

Lemma aligned_check (s : mach bus_t) a n cause v : n ∈ [1; 2; 4; 8] -> a mod n = 0 -> CHECK_MA_LS a n cause v s = (inr tt, s).
Proof.
  intros Hn Ha. unfold CHECK_MA_LS. cbv zeta. change 0x1 with (Z.ones 1). change 0x3 with (Z.ones 2).
  change 0x7 with (Z.ones 3). rewrite !Z.land_ones by lia.
  by destruct (size_cases n Hn) as [-> |[-> |[-> | ->]]]; cbn [Z.eqb Pos.eqb andb orb]; rewrite ?Z.pow_1_r in *;
    change (2 ^ 2) with 4 in *; change (2 ^ 3) with 8 in *; rewrite ?Ha.
Qed.

(** ** Loads and stores *)
Definition address (d : inst_dec_t) (s : mach bus_t) : Z := add64 (reg s (dec_rs1 d)) (dec_imm d).

Definition stores : list (instpat * Z) := [(Inst.SB, 1); (Inst.SH, 2); (Inst.SW, 4); (Inst.SD, 8)].
(** Pattern, size, whether the value is sign-extended. *)
Definition loads : list (instpat * Z * bool) :=
  [ (Inst.LB, 1, true); (Inst.LH, 2, true); (Inst.LW, 4, true); (Inst.LD, 8, false);
    (Inst.LBU, 1, false); (Inst.LHU, 2, false); (Inst.LWU, 4, false) ].
Definition extend (sgn : bool) (v bits : Z) : Z := if sgn then signed bits v mod 2 ^ 64 else v.

(** The instruction in terms of the macros of the source. *)
Lemma store_dispatch ftrace inst p n s :
  In (p, n) stores -> matches inst p = true ->
  let d := decode inst in
  execute ftrace inst s = (EXEC_STORE (address d s) (reg s (dec_rs2 d)) n;; next) s.
Proof.
  intros Hin H d.
  assert (execute ftrace inst = at_rs1_imm d (fun a => v ← rX (dec_rs2 d); EXEC_STORE a v n)) as ->; [|done].
  unfold stores in Hin. cbn [In] in Hin. destruct_or? Hin; try done; injection Hin as <- <-.
  - by dispatch Inst.SB H.
  - by dispatch Inst.SH H.
  - by dispatch Inst.SW H.
  - by dispatch Inst.SD H.
Qed.

Lemma load_dispatch ftrace inst p n sgn s :
  In (p, n, sgn) loads -> matches inst p = true ->
  let d := decode inst in
  exists ext, execute ftrace inst s = (EXEC_LOAD (dec_rd d) (address d s) n ext;; next) s /\
    forall v, is_u (8 * n) v -> ext v (n * 8) = extend sgn v (8 * n).
Proof.
  intros Hin H d.
  assert (exists ext, execute ftrace inst = at_rs1_imm d (fun a => EXEC_LOAD (dec_rd d) a n ext) /\
    forall v, is_u (8 * n) v -> ext v (n * 8) = extend sgn v (8 * n)) as (ext & -> & Hext); [|by exists ext].
  unfold loads in Hin. cbn [In] in Hin. destruct_or? Hin; try done; injection Hin as <- <- <-.
  - exists sext. split; [by dispatch Inst.LB H|]. intros v _. by apply sext_signed.
  - exists sext. split; [by dispatch Inst.LH H|]. intros v _. by apply sext_signed.
  - exists sext. split; [by dispatch Inst.LW H|]. intros v _. by apply sext_signed.
  - exists NOEXT. split; [by dispatch Inst.LD H|done].
  - exists NOEXT. split; [by dispatch Inst.LBU H|done].
  - exists NOEXT. split; [by dispatch Inst.LHU H|done].
  - exists NOEXT. split; [by dispatch Inst.LWU H|done].
Qed.

(** ** Atomic memory operations *)

(** What an AMO leaves in memory, from the source register and the old value
    (both unsigned) and the width in bits. *)
Definition amo_meaning : Type := Z -> Z -> Z -> Z.
Definition amo_both (f : amo_meaning) (w d : instpat) : list (instpat * Z * amo_meaning) := [(w, 4, f); (d, 8, f)].
Definition amos : list (instpat * Z * amo_meaning) :=
  amo_both (fun bits src old => src) Inst.AMOSWAP_W Inst.AMOSWAP_D ++
  amo_both (fun bits src old => src + old) Inst.AMOADD_W Inst.AMOADD_D ++
  amo_both (fun bits src old => Z.land src old) Inst.AMOAND_W Inst.AMOAND_D ++
  amo_both (fun bits src old => Z.lor src old) Inst.AMOOR_W Inst.AMOOR_D ++
  amo_both (fun bits src old => Z.lxor src old) Inst.AMOXOR_W Inst.AMOXOR_D ++
  amo_both (fun bits src old => Z.max (src mod 2 ^ bits) old) Inst.AMOMAXU_W Inst.AMOMAXU_D ++
  amo_both (fun bits src old => Z.max (signed bits src) (signed bits old)) Inst.AMOMAX_W Inst.AMOMAX_D ++
  amo_both (fun bits src old => Z.min (src mod 2 ^ bits) old) Inst.AMOMINU_W Inst.AMOMINU_D ++
  amo_both (fun bits src old => Z.min (signed bits src) (signed bits old)) Inst.AMOMIN_W Inst.AMOMIN_D.

(** A function of the code computes a meaning, on the sign-extended value it loads. *)
Definition amo_computes (n : Z) (op : Z -> Z -> Z) (f : amo_meaning) : Prop :=
  forall src old, is_u 64 src -> is_u (8 * n) old ->
    op src (sext old (n * 8)) mod 2 ^ (8 * n) = f (8 * n) src old mod 2 ^ (8 * n).

Lemma mod_bitwise (op : Z -> Z -> Z) (g : bool -> bool -> bool) n a x y :
  (forall i, Z.testbit (op a x) i = g (Z.testbit a i) (Z.testbit x i)) ->
  (forall i, Z.testbit (op a y) i = g (Z.testbit a i) (Z.testbit y i)) ->
  0 <= n -> x mod 2 ^ n = y mod 2 ^ n -> op a x mod 2 ^ n = op a y mod 2 ^ n.
Proof.
  intros Hx Hy Hn H. apply Z.bits_inj'. intros i Hi. destruct (decide (i < n)) as [Hlt|Hge].
  - rewrite !Z.mod_pow2_bits_low, Hx, Hy by done. f_equal.
    by rewrite <- (Z.mod_pow2_bits_low x n), H, Z.mod_pow2_bits_low.
  - by rewrite !Z.mod_pow2_bits_high by lia.
Qed.

Lemma sext_64 v : is_u 64 v -> sext v 64 = v.
Proof. intros Hv. rewrite sext_signed by lia. rewrite signed_mod by lia. by apply Z.mod_small. Qed.
Lemma sext_32_low v : sext v 32 mod 2 ^ 32 = v mod 2 ^ 32.
Proof.
  rewrite sext_signed by lia. rewrite Z.mod_mod_divide by (by exists (2 ^ 32)). by apply signed_mod.
Qed.
Lemma sext_32_signed v : s32 (sext v 32) = s32 v.
Proof. unfold s32, signed. by rewrite sext_32_low. Qed.
Lemma amo_swap n : amo_computes n (fun src _ => src) (fun bits src old => src).
Proof. done. Qed.

Lemma amo_add n : n = 4 \/ n = 8 -> amo_computes n add64 (fun bits src old => src + old).
Proof.
  intros Hn src old Hs Ho. unfold add64, w64. destruct Hn as [-> | ->]; change (8 * 8) with 64 in *; change (8 * 4) with 32 in *; change (4 * 8) with 32 in *.
  - rewrite Z.mod_mod_divide by (by exists (2 ^ 32)).
    by rewrite <- Z.add_mod_idemp_r, sext_32_low, Z.add_mod_idemp_r by lia.
  - by rewrite Z.mod_mod, sext_64 by done.
Qed.

Lemma amo_bitwise n op g :
  n = 4 \/ n = 8 -> (forall a x i, Z.testbit (op a x) i = g (Z.testbit a i) (Z.testbit x i)) ->
  amo_computes n op (fun bits => op).
Proof.
  intros Hn Hop src old Hs Ho. apply (mod_bitwise op g); try done; [lia|].
  destruct Hn as [-> | ->]; change (8 * 8) with 64 in *; change (8 * 4) with 32 in *; change (4 * 8) with 32 in *; [apply sext_32_low|by rewrite sext_64].
Qed.

Lemma amo_and n : n = 4 \/ n = 8 -> amo_computes n Z.land (fun bits src old => Z.land src old).
Proof. intros Hn. exact (amo_bitwise n Z.land andb Hn Z.land_spec). Qed.
Lemma amo_or n : n = 4 \/ n = 8 -> amo_computes n Z.lor (fun bits src old => Z.lor src old).
Proof. intros Hn. exact (amo_bitwise n Z.lor orb Hn Z.lor_spec). Qed.
Lemma amo_xor n : n = 4 \/ n = 8 -> amo_computes n Z.lxor (fun bits src old => Z.lxor src old).
Proof. intros Hn. exact (amo_bitwise n Z.lxor xorb Hn Z.lxor_spec). Qed.

(** The comparisons: unfold the macros, read the operands, and compare. *)
Ltac minmax := intros src old Hs Ho;
  change (8 * 8) with 64 in *; change (8 * 4) with 32 in *; change (4 * 8) with 32 in *;
  unfold CMP64U, CMP64S, CMP32U, CMP32S, w32; cbv beta; rewrite ?Z.gtb_ltb;
  rewrite ?sext_64 by done; rewrite ?sext_32_signed, ?sext_32_low;
  rewrite ?(Z.mod_small old), ?(Z.mod_small src) by done;
  lazymatch goal with |- context [?a <? ?b] => destruct (Z.ltb_spec a b) end;
  rewrite ?Z.max_l, ?Z.max_r, ?Z.min_l, ?Z.min_r by (first [lia | unfold s32, s64 in *; lia]);
  rewrite ?signed_mod, ?sext_32_low, ?Z.mod_mod by lia; reflexivity.

Lemma amo_maxu_d : amo_computes 8 (fun a b => CMP64U a b Z.gtb) (fun bits src old => Z.max (src mod 2 ^ bits) old).
Proof. minmax. Qed.
Lemma amo_minu_d : amo_computes 8 (fun a b => CMP64U a b Z.ltb) (fun bits src old => Z.min (src mod 2 ^ bits) old).
Proof. minmax. Qed.
Lemma amo_max_d :
  amo_computes 8 (fun a b => CMP64S a b Z.gtb) (fun bits src old => Z.max (signed bits src) (signed bits old)).
Proof. minmax. Qed.
Lemma amo_min_d :
  amo_computes 8 (fun a b => CMP64S a b Z.ltb) (fun bits src old => Z.min (signed bits src) (signed bits old)).
Proof. minmax. Qed.
Lemma amo_maxu_w : amo_computes 4 (fun a b => CMP32U a b Z.gtb) (fun bits src old => Z.max (src mod 2 ^ bits) old).
Proof. minmax. Qed.
Lemma amo_minu_w : amo_computes 4 (fun a b => CMP32U a b Z.ltb) (fun bits src old => Z.min (src mod 2 ^ bits) old).
Proof. minmax. Qed.
Lemma amo_max_w :
  amo_computes 4 (fun a b => CMP32S a b Z.gtb) (fun bits src old => Z.max (signed bits src) (signed bits old)).
Proof. minmax. Qed.
Lemma amo_min_w :
  amo_computes 4 (fun a b => CMP32S a b Z.ltb) (fun bits src old => Z.min (signed bits src) (signed bits old)).
Proof. minmax. Qed.

Create HintDb amo.
#[export] Hint Resolve amo_swap amo_add amo_and amo_or amo_xor amo_maxu_d amo_minu_d amo_max_d amo_min_d
  amo_maxu_w amo_minu_w amo_max_w amo_min_w : amo.

Lemma amo_dispatch ftrace inst p n f :
  In (p, n, f) amos -> matches inst p = true ->
  exists op, execute (B := bus_t) ftrace inst = then_next (EXEC_AMO (decode inst) n op) /\ amo_computes n op f.
Proof.
  intros Hin H. unfold amos, amo_both in Hin. cbn [In app] in Hin. destruct_or? Hin; try done; injection Hin as <- <- <-;
    lazymatch type of H with matches _ ?p = _ => dispatch p H end; eexists; (split; [reflexivity|]).
  all: auto with amo.
Qed.

Lemma amos_size p n f : In (p, n, f) amos -> n = 4 \/ n = 8.
Proof. unfold amos, amo_both. cbn [In app]. intros Hin. destruct_or? Hin; try done; injection Hin as <- <- <-; auto. Qed.

(** ** LR and SC *)
Definition lrs : list (instpat * Z) := [(Inst.LR_W, 4); (Inst.LR_D, 8)].
Definition scs : list (instpat * Z) := [(Inst.SC_W, 4); (Inst.SC_D, 8)].

(** The reservation covers the [n] bytes at [a]. *)
Definition reserves (r : reservation_t) (a n : Z) : bool :=
  res_valid r && (addr_start r <=? a) && (a <=? sub64 (addr_end r) n).

Lemma lr_dispatch ftrace inst p n :
  In (p, n) lrs -> matches inst p = true -> execute (B := bus_t) ftrace inst = then_next (EXEC_LR (decode inst) n).
Proof.
  intros Hin H. unfold lrs in Hin. cbn [In] in Hin. destruct_or? Hin; try done; injection Hin as <- <-;
    lazymatch type of H with matches _ ?p = _ => by dispatch p H end.
Qed.
Lemma sc_dispatch ftrace inst p n :
  In (p, n) scs -> matches inst p = true -> execute (B := bus_t) ftrace inst = then_next (EXEC_SC (decode inst) n).
Proof.
  intros Hin H. unfold scs in Hin. cbn [In] in Hin. destruct_or? Hin; try done; injection Hin as <- <-;
    lazymatch type of H with matches _ ?p = _ => by dispatch p H end.
Qed.
Lemma lrs_size p n : In (p, n) lrs -> n = 4 \/ n = 8.
Proof. unfold lrs. cbn [In]. intros Hin. destruct_or? Hin; try done; injection Hin as <- <-; auto. Qed.
Lemma scs_size p n : In (p, n) scs -> n = 4 \/ n = 8.
Proof. unfold scs. cbn [In]. intros Hin. destruct_or? Hin; try done; injection Hin as <- <-; auto. Qed.

(** What an LR reserves, for an SC of [m] bytes.  The side condition [m <= a + n]
    keeps the difference in the code from wrapping: it fails for an LR.W at address 0
    followed by an SC.D ([reserves_wraps]). *)
Lemma lr_reserves a n a' m :
  is_u 64 a -> n = 4 \/ n = 8 -> m = 4 \/ m = 8 -> a + n <= 2 ^ 64 -> m <= a + n ->
  reserves (mk_reservation true a (add64 a n)) a' m = (a <=? a') && (a' + m <=? a + n).
Proof.
  intros Ha Hn Hm Hend Hlow. unfold reserves. cbn [res_valid addr_start addr_end andb]. f_equal.
  replace (sub64 (add64 a n) m) with (a + n - m).
  - apply eq_iff_eq_true. rewrite !Z.leb_le. lia.
  - unfold sub64, add64, w64. rewrite Zminus_mod_idemp_l, Z.mod_small by lia. done.
Qed.

Lemma reserves_wraps : reserves (mk_reservation true 0 (add64 0 4)) 0x80001000 8 = true.
Proof. vm_compute. reflexivity. Qed.

(** What a store conditional of [n] bytes at [a] does, when it succeeds or not. *)
Definition sc_outcome (ok : bool) (d : inst_dec_t) (a n : Z) (s s' : mach bus_t) : Prop :=
  reg s' (dec_rd d) = (if ok then 0 else 1) /\
  (if ok then stored (m_bus s) (m_bus s') a n (reg s (dec_rs2 d)) else m_bus s' = m_bus s) /\
  res (m_cpu s') = unreserved (res (m_cpu s)) /\ pc (m_cpu s') = pc (m_cpu s) /\
  forall k, 0 <= k -> k <> dec_rd d -> reg s' k = reg s k.

(** A decidable form of [ram_span]. *)
Definition ram_spanb (b : bus_t) (a n : Z) : bool :=
  (0 <=? a) && (a <? 2 ^ 64) && existsb (Z.eqb n) [1; 2; 4; 8] && (RAM_BASE <=? a) &&
  (a + n <=? RAM_BASE + mem_size (bus_memory b)) && (a mod n =? 0).
Lemma ram_spanb_spec b a n : ram_spanb b a n = true -> ram_span b a n.
Proof.
  unfold ram_spanb. rewrite !andb_true_iff, !Z.leb_le, Z.ltb_lt, Z.eqb_eq.
  intros (((((H1 & H2) & H3) & H4) & H5) & H6). split; [done|]. split; [|done].
  apply existsb_exists in H3 as (k & Hk & ->%Z.eqb_eq). by apply list_elem_of_In.
Qed.
