(* ===== verification/Isolation.v ===== *)
(** * Protection

    What a whole step of the core can change, obtained from the frames of
    [CpuFrame] by choosing the predicate of the view: MPRV stays confined to
    machine mode; the TLBs stay in agreement with the page tables until the program
    changes them, and a write of satp or an SFENCE.VMA empties them; a user-mode
    step writes memory only through pages the tables give it, and leaves user mode
    only through the handler its supervisor installed. *)
From stdpp Require Import base tactics numbers option list sets relations.
From S2P Require Import Prelude CInt Memory Bus Csr CsrProps Mmu Tlb Decode Alu Cpu CpuInv CpuFrame CpuProps Isa.

#[local] Open Scope record_scope.
#[local] Open Scope Z_scope.

(** ** The start of a step *)
Section start.
Context {B : Type} `{HB : BusLaws B}.

(** [csr_begin_update] with the lines of the core. *)
Definition latched (s : mach B) : mach B :=
  upd_cpu (fun c => c <| csr ::= fun r => csr_begin_update r (meip c) (msip c) (mtip c) (seip c) |>) s.
Definition resume (s : mach B) : mach B := upd_cpu (fun c => c <| wfi := false |>) (latched s).

Lemma cpu_step_waiting itrace ftrace s :
  wfi (m_cpu s) = true ->
  cpu_step itrace ftrace s =
    if interrupt_pending (csr (m_cpu (latched s))) then step_awake itrace ftrace (resume s) else latched s.
Proof. intros Hw. unfold cpu_step. cbv zeta. fold (latched s). change (wfi (m_cpu (latched s))) with (wfi (m_cpu s)). by rewrite Hw. Qed.

Lemma cpu_step_running itrace ftrace s :
  wfi (m_cpu s) = false -> cpu_step itrace ftrace s = step_awake itrace ftrace (latched s).
Proof. intros Hw. unfold cpu_step. cbv zeta. fold (latched s). change (wfi (m_cpu (latched s))) with (wfi (m_cpu s)). by rewrite Hw. Qed.

Lemma resume_running (s : mach B) : wfi (m_cpu s) = false -> resume s = latched s.
Proof. destruct s as [[] b tr]. cbn. by intros ->. Qed.

(** A fetch changes the instruction TLB and the bus. *)
Lemma fetch_core (s : mach B) : exists t, m_cpu (fetch s).2 = (m_cpu s) <| i_tlb := t |>.
Proof.
  unfold fetch. destruct (tlb_lookup _ _ _ _ _ _ _) as [[r t] b]. exists t. cbv zeta. destruct (negb _); [done|].
  unfold mbind, exec_bind, bus_load. by destruct (bread _ _ _) as [[x|] b'].
Qed.

(** [inst] is the instruction that the step from [s] executes: the core does not
    wait, no interrupt is taken and the fetch succeeds. *)
Definition executes (s : mach B) (inst : Z) : Prop :=
  (wfi (m_cpu s) = true -> interrupt_pending (csr (m_cpu (latched s))) = true) /\
  interrupt_pending_and_enabled (csr (m_cpu (latched s))) (priv (m_cpu s)) = None /\
  (fetch (resume s)).1 = inr inst.

Lemma cpu_step_executes itrace ftrace s inst :
  executes s inst ->
  exists t s1, m_cpu s1 = (m_cpu (latched s)) <| wfi := false |> <| i_tlb := t |> /\
    cpu_step itrace ftrace s =
      match execute ftrace inst s1 with
      | (inr npc, s2) => end_exec npc false s2
      | (inl (cause, val), s2) => let '(npc, s3) := raise_exception ftrace cause val s2 in end_exec npc true s3
      end.
Proof.
  intros (Hw & Hi & Hf). destruct (fetch_core (resume s)) as [t Ht].
  assert (cpu_step itrace ftrace s = step_awake itrace ftrace (resume s)) as ->.
  { destruct (wfi (m_cpu s)) eqn:E; [by rewrite cpu_step_waiting, Hw|by rewrite cpu_step_running, resume_running]. }
  unfold step_awake, run_inst, mbind, exec_bind. destruct (fetch (resume s)) as [r s1]. cbn [fst snd] in Hf, Ht. subst r.
  exists t, (if itrace then s1 <| m_trace ::= fun l => l ++ [IRING (pc (m_cpu s1)) inst] |> else s1).
  unfold get_pc, gets, emit, modify, take_interrupt.
  set (s2 := if itrace then _ else s1). assert (m_cpu s2 = m_cpu s1) as E by (unfold s2; by destruct itrace).
  rewrite E, Ht. split; [done|]. cbn [csr priv update].
  change (csr (m_cpu (resume s))) with (csr (m_cpu (latched s))). change (priv (m_cpu (resume s))) with (priv (m_cpu s)).
  by rewrite Hi.
Qed.
End start.

(** ** The ends of a step, on views *)
Section ends.
Context {B : Type} `{HB : BusLaws B}.

Lemma end_exec_view npc trap (s : mach B) :
  view_of (end_exec npc trap s) =
    (if satp_written (v_csr (view_of s))
     then (view_of s) <| v_itlb ::= tlb_void |> <| v_dtlb ::= tlb_void |> else view_of s)
    <| v_csr ::= fun c => csr_end_update c (negb trap) |>.
Proof. destruct s as [[] b tr]. unfold end_exec, view_of. cbn. by destruct (satp_written _). Qed.

(** The trap taken from [s]. *)
Definition trap_of (s : mach B) (cause val : Z) : Z * csr_t * Z :=
  trap_enter (csr (m_cpu s)) cause val (pc (m_cpu s)) (priv (m_cpu s)).

Lemma raise_exception_view ftrace cause val (s : mach B) :
  (raise_exception ftrace cause val s).1 = (trap_of s cause val).1.1 /\
  view_of (raise_exception ftrace cause val s).2 =
    (view_of s) <| v_csr := (trap_of s cause val).1.2 |> <| v_priv := (trap_of s cause val).2 |>.
Proof.
  unfold raise_exception, trap_of. destruct (trap_enter _ _ _ _ _) as [[vec c] p]. cbv zeta. cbn [fst snd].
  split; [done|]. unfold emit, modify. by destruct ftrace, s as [[] b tr].
Qed.

(** The view after the interrupt lines are latched into [mip]. *)
Definition begin_view (s : mach B) (v : view B) : view B :=
  let m := m_cpu s in v <| v_csr ::= fun c => csr_begin_update c (meip m) (msip m) (mtip m) (seip m) |>.

(** [end_exec] on the view. *)
Definition end_view (v : view B) (retired : bool) : view B :=
  (if satp_written (v_csr v) then v <| v_itlb ::= tlb_void |> <| v_dtlb ::= tlb_void |> else v)
  <| v_csr ::= fun c => csr_end_update c retired |>.

Lemma end_view_csr v r : v_csr (end_view v r) = csr_end_update (v_csr v) r.
Proof. unfold end_view. by destruct (satp_written _). Qed.
Lemma end_view_priv v r : v_priv (end_view v r) = v_priv v.
Proof. unfold end_view. by destruct (satp_written _). Qed.
Lemma end_view_bus v r : v_bus (end_view v r) = v_bus v.
Proof. unfold end_view. by destruct (satp_written _). Qed.
Lemma end_view_halted v r : v_halted (end_view v r) = v_halted v.
Proof. unfold end_view. by destruct (satp_written _). Qed.

(** A step, given what holds of the view when the instruction ends: it waits, or
    the instruction retires, or it ends in a trap taken from a view with the
    privilege and, but for the shadow of the timer, the CSRs of its start. *)
Inductive step_outcome (W : view B -> Prop) (s s' : mach B) : Prop :=
  | outcome_wait : wfi (m_cpu s) = true -> pc (m_cpu s') = pc (m_cpu s) ->
      view_of s' = begin_view s (view_of s) -> step_outcome W s s'
  | outcome_retire v : W v -> view_of s' = end_view v true -> step_outcome W s s'
  | outcome_trap v cause val : W v -> csr_wf (v_csr v) -> priv_ok (v_priv v) ->
      csr_same (v_csr (begin_view s (view_of s))) (v_csr v) -> v_priv v = priv (m_cpu s) ->
      let t := trap_enter (v_csr v) cause val (pc (m_cpu s)) (v_priv v) in
      pc (m_cpu s') = t.1.1 -> view_of s' = end_view (v <| v_csr := t.1.2 |> <| v_priv := t.2 |>) false ->
      step_outcome W s s'.

Lemma mid_begin s : mach_ok s -> forall b,
  mid (upd_cpu (fun c => c <| wfi := b |>)
    (upd_cpu (fun c => c <| csr ::= fun r => csr_begin_update r (meip c) (msip c) (mtip c) (seip c) |>) s)).
Proof. intros [[[] _] Hb] b. split; [|done]. constructor; try done. by apply csr_begin_update_wf. Qed.

Context (V W : view B -> Prop).

Lemma step_awake_outcome itrace ftrace s s1 :
  view_ops V W -> mid s1 -> view_of s1 = begin_view s (view_of s) -> V (view_of s1) -> pc (m_cpu s1) = pc (m_cpu s) ->
  step_outcome W s (step_awake itrace ftrace s1).
Proof.
  intros F Hm Hv HV Hp. unfold step_awake. pose proof (view_run_inst V W itrace ftrace s1 F Hm HV) as HW.
  pose proof (keep_run_inst itrace ftrace s1 Hm) as Hk. pose proof (precise_run_inst itrace ftrace s1 s1) as Hpr.
  destruct (run_inst itrace ftrace s1) as [[[cause val]|npc] s2]; cbn [snd] in HW.
  - destruct Hk as [[Hc _] _]. destruct Hpr as (_ & H2 & H3 & H4); [by repeat split|].
    pose proof (raise_exception_view ftrace cause val s2) as [E1 E2].
    destruct (raise_exception _ _ _ _) as [vec s3]. cbn [fst snd] in *. unfold trap_of in *. rewrite H2, Hp in E1, E2.
    apply (outcome_trap W s _ (view_of s2) cause val); [exact HW|apply Hc|apply Hc| | | |].
    + rewrite <- Hv. exact H4.
    + change (priv (m_cpu s2) = priv (m_cpu s)). rewrite H3. exact (f_equal v_priv Hv).
    + destruct (end_exec_fields vec true s3) as (_ & -> & _). exact E1.
    + by rewrite end_exec_view, E2.
  - apply (outcome_retire W s _ (view_of s2)); [exact HW|]. by rewrite end_exec_view.
Qed.

Lemma cpu_step_outcome itrace ftrace s :
  view_ops V W -> mach_ok s -> V (begin_view s (view_of s)) -> step_outcome W s (cpu_step itrace ftrace s).
Proof.
  intros F Hs HV. unfold cpu_step. cbv zeta. set (s1 := upd_cpu _ s).
  assert (view_of s1 = begin_view s (view_of s) /\ pc (m_cpu s1) = pc (m_cpu s) /\
    mid (upd_cpu (fun c => c <| wfi := wfi (m_cpu s1) |>) s1) /\ mid (upd_cpu (fun c => c <| wfi := false |>) s1))
    as (Hv & Hp & Hm1 & Hm2).
  { split; [by destruct s as [[] b tr]|]. split; [done|]. by split; apply mid_begin. }
  assert (upd_cpu (fun c => c <| wfi := wfi (m_cpu s1) |>) s1 = s1) as E by (by destruct s1 as [[] b tr]).
  assert (forall b, view_of (upd_cpu (fun c => c <| wfi := b |>) s1) = view_of s1) as E2
    by (intros b; by destruct s1 as [[] ? tr]).
  rewrite E in Hm1. destruct (wfi (m_cpu s1)) eqn:Hw; [destruct (interrupt_pending _)|].
  - apply step_awake_outcome; rewrite ?E2; [done..|by rewrite Hv|done].
  - by constructor.
  - apply step_awake_outcome; [done..|by rewrite Hv|done].
Qed.
End ends.

(** ** The halt flag *)
Section halt.
Context {B : Type} `{HB : BusLaws B}.

Lemma halt_ops h : view_ops (fun v : view B => v_halted v = h) (fun v => v_halted v = h).
Proof. constructor; try (by intros ?); done. Qed.

(** No step halts the core. *)
Lemma step_halted itrace ftrace s : mach_ok s -> halted (m_cpu (cpu_step itrace ftrace s)) = halted (m_cpu s).
Proof.
  intros Hs. change (halted (m_cpu ?x)) with (v_halted (view_of x)).
  destruct (cpu_step_outcome _ _ itrace ftrace s (halt_ops (halted (m_cpu s))) Hs eq_refl) as
    [_ _ E|v Hw E|v cause val Hw _ _ _ _ t _ E]; rewrite E, ?end_view_halted; done.
Qed.
End halt.

(** ** MPRV *)

(** Loads and stores are redirected to another privilege in machine mode only. *)
Definition mprv_safe (c : csr_t) (p : Z) : Prop :=
  p = PRIV_M \/ Z.testbit (mstatus (csr_reg c)) MSTATUS_MPRV_POS = false.

Lemma mprv_same_mstatus c c' p :
  mstatus (csr_reg c') = mstatus (csr_reg c) -> mprv_safe c p -> mprv_safe c' p.
Proof. unfold mprv_safe. by intros ->. Qed.

Lemma begin_update_mstatus c a b d e : mstatus (csr_reg (csr_begin_update c a b d e)) = mstatus (csr_reg c).
Proof. reflexivity. Qed.
Lemma end_update_mstatus c b : mstatus (csr_reg (csr_end_update c b)) = mstatus (csr_reg c).
Proof. unfold csr_end_update. cbv zeta. by destruct (_ && _ && _), (_ && _). Qed.

Lemma mprv_csr_access c addr op v rd wr t p :
  csr_wf c -> priv_ok p -> mprv_safe c p -> mprv_safe (csr_access c addr op v rd wr t p).2 p.
Proof.
  intros Hc [Hp|[Hp|Hp]] [?|H]; try (by left); right;
    destruct (csr_access_confined c addr op v rd wr t p Hc ltac:(auto)) as (_ & _ & _ & Hm & _); by rewrite Hm.
Qed.

Lemma mprv_trap c cause val pc p :
  csr_wf c -> priv_ok p -> mprv_safe c p ->
  mprv_safe (trap_enter c cause val pc p).1.2 (trap_enter c cause val pc p).2.
Proof.
  intros [Hr _] Hp H. destruct (trap_enter_mstatus c cause val pc p) as [Ep Em]. unfold mprv_safe.
  rewrite Ep, Em. destruct (Z.eqb_spec (trap_target c cause p) PRIV_M) as [|Ht]; [by left|]. right.
  assert (p = PRIV_U \/ p = PRIV_S) as Hp'.
  { destruct Hp as [?|[?| ->]]; auto. }
  destruct (s_push_spec (mstatus (csr_reg c)) p (csr_legal_u _ R_mstatus Hr) Hp') as (_ & _ & _ & _ & Hbits).
  rewrite Hbits by done. by destruct H as [-> |H]; [destruct Hp'|].
Qed.

Lemma mprv_mret c p : csr_wf c -> mprv_safe c PRIV_M -> mprv_safe (trap_exit_mret c p).1.2 (trap_exit_mret c p).2.
Proof.
  intros Hc _. destruct (priv_of_mpp c Hc) as [E|[E|E]]; destruct (trap_exit_mret_eq c p) as (c' & -> & Hm);
    cbn [fst snd]; unfold mprv_safe; rewrite Hm, E; [right|right|by left];
    rewrite m_pop_spec by (done || exact (csr_legal_u _ R_mstatus (proj1 Hc)));
    change MSTATUS_MPP_POS with 11 in E; by rewrite E.
Qed.
Lemma mprv_sret c p : csr_wf c -> mprv_safe (trap_exit_sret c p).1.2 (trap_exit_sret c p).2.
Proof.
  intros Hc. destruct (trap_exit_sret_eq c p) as (c' & -> & Hm). right. cbn [fst snd].
  rewrite Hm, s_pop_spec by (done || exact (csr_legal_u _ R_mstatus (proj1 Hc))). done.
Qed.

Section mprv.
Context {B : Type} `{HB : BusLaws B}.

Definition mprv_view (v : view B) : Prop := mprv_safe (v_csr v) (v_priv v).

Lemma mprv_ops : view_ops mprv_view mprv_view.
Proof.
  constructor; try (by intros ?); try done.
  - intros s inst op v [Hc _] _ _ Hv. apply mprv_csr_access; [apply Hc|apply Hc|exact Hv].
  - intros s [Hc _] Hv Hp. apply mprv_mret; [apply Hc|]. unfold mprv_view in Hv. cbn in Hv.
    destruct (mid_priv _ Hc) as [E|[E|E]]; rewrite E in Hp, Hv; done.
  - intros s [Hc _] Hv Hp. apply mprv_sret. apply Hc.
Qed.

Lemma mprv_step itrace ftrace s :
  mach_ok s -> mprv_view (view_of s) -> mprv_view (view_of (cpu_step itrace ftrace s)).
Proof.
  intros Hs Hv. destruct (cpu_step_outcome _ _ itrace ftrace s mprv_ops Hs Hv) as
    [_ _ E|v Hw E|v cause val Hw Hc Hp _ _ t _ E]; rewrite E; [done|..].
  all: unfold mprv_view; rewrite end_view_csr, end_view_priv; eapply mprv_same_mstatus; [apply end_update_mstatus|].
  - exact Hw.
  - by apply mprv_trap.
Qed.
End mprv.

(** ** The TLBs follow the tables *)

(** The privilege the core passes is the one the access is made with. *)
Lemma access_priv_effective c p mode :
  access_priv (mstatus (csr_reg c)) mode (effective_priv_mode c p) = effective_priv_mode c p.
Proof.
  unfold access_priv, effective_priv_mode. rewrite csr_field_get_1 by (vm_compute; congruence).
  destruct (Z.testbit _ _); [|done]. by destruct (negb _).
Qed.
Lemma effective_no_mprv c p :
  Z.testbit (mstatus (csr_reg c)) MSTATUS_MPRV_POS = false -> effective_priv_mode c p = p.
Proof. intros H. unfold effective_priv_mode. rewrite csr_field_get_1 by (vm_compute; congruence). by rewrite H. Qed.
Lemma access_priv_execute m p : access_priv m MMU_EXECUTE p = p.
Proof. unfold access_priv. by rewrite andb_false_r. Qed.

Section tlbs.
Context {B : Type} `{HB : BusLaws B}.

Definition satp_of (s : mach B) : Z := satp (csr_reg (csr (m_cpu s))).
Definition mstatus_of (s : mach B) : Z := mstatus (csr_reg (csr (m_cpu s))).

(** Both TLBs agree with the tables [satp] points to. *)
Definition tlbs_coherent (s : mach B) : Prop :=
  tlb_coherent (i_tlb (m_cpu s)) (satp_of s) (m_bus s) /\ tlb_coherent (d_tlb (m_cpu s)) (satp_of s) (m_bus s).

(** Every leaf of the tables of [rd] is one of [rd']. *)
Definition leaves_kept (satp : Z) (rd rd' : Z -> option Z) : Prop :=
  forall va k pte, sv39_leaf rd satp va k pte -> sv39_leaf rd' satp va k pte.

Lemma tlb_coherent_kept t satp b b' :
  leaves_kept satp (rd_of b) (rd_of b') -> tlb_coherent t satp b -> tlb_coherent t satp b'.
Proof.
  intros Hk [Hlen Hall]. split; [done|]. eapply Forall_impl; [exact Hall|]. intros e He Hv Has.
  destruct (He Hv Has) as (Ht & k & pte & Hl & H). split; [done|]. exists k, pte. split; [by apply Hk|done].
Qed.

(** A data look-up keeps the data TLB in agreement, a fetch the instruction TLB. *)
Lemma data_lookup_coherent s va mode :
  mid s -> is_u 64 va -> tlb_coherent (d_tlb (m_cpu s)) (satp_of s) (m_bus s) ->
  tlb_coherent (data_lookup s va mode).1.2 (satp_of s) (m_bus s).
Proof.
  intros [Hc Hb] Hva Hco. unfold data_lookup.
  pose proof (tlb_lookup_ok (d_tlb (m_cpu s)) va (satp_of s) (mstatus_of s) mode
    (effective_priv_mode (csr (m_cpu s)) (priv (m_cpu s))) (m_bus s) Hva (satp_u _ Hc) Hb Hco
    (access_priv_effective _ _ _)) as H.
  unfold satp_of, mstatus_of in *. destruct (tlb_lookup _ _ _ _ _ _ _) as [[r t] b]. apply H.
Qed.
Lemma fetch_lookup_coherent s :
  mid s -> tlb_coherent (i_tlb (m_cpu s)) (satp_of s) (m_bus s) ->
  tlb_coherent (fetch_lookup s).1.2 (satp_of s) (m_bus s).
Proof.
  intros [Hc Hb] Hco. unfold fetch_lookup. destruct (mid_pc _ Hc) as [Hpc _].
  pose proof (tlb_lookup_ok (i_tlb (m_cpu s)) (pc (m_cpu s)) (satp_of s) (mstatus_of s) MMU_EXECUTE
    (priv (m_cpu s)) (m_bus s) Hpc (satp_u _ Hc) Hb Hco (access_priv_execute _ _)) as H.
  unfold satp_of, mstatus_of in *. destruct (tlb_lookup _ _ _ _ _ _ _) as [[r t] b]. apply H.
Qed.
End tlbs.

(** A CSR access sets [satp_written] when it changes satp. *)
Lemma csr_access_satp c addr op v rd wr t p :
  let c' := (csr_access c addr op v rd wr t p).2 in
  satp_written c' = true \/ satp (csr_reg c') = satp (csr_reg c).
Proof.
  cbv zeta. destruct (csr_access_inv c addr op v rd wr t p) as [[E _]|(n & Hd & _ & _ & _ & _ & E)];
    rewrite E; [by right|].
  destruct (decide (n = R_satp)) as [->|Hn].
  - left. csr_cases Hd; try discriminate; reflexivity.
  - right. set (c1 := upd_csr_reg _ c). change (satp (csr_reg c)) with (satp (csr_reg c1)).
    change (satp (csr_reg ?x)) with (csr_get R_satp (csr_reg x)). by rewrite csr_write_other.
Qed.
Lemma trap_enter_satp c cause val pc p : satp (csr_reg (trap_enter c cause val pc p).1.2) = satp (csr_reg c) /\
  satp_written (trap_enter c cause val pc p).1.2 = satp_written c.
Proof. unfold trap_enter. by destruct (_ =? _). Qed.
Lemma trap_mret_satp c p : satp (csr_reg (trap_exit_mret c p).1.2) = satp (csr_reg c).
Proof. unfold trap_exit_mret. cbn [fst snd]. by destruct (_ <? _). Qed.
Lemma trap_sret_satp c p : satp (csr_reg (trap_exit_sret c p).1.2) = satp (csr_reg c).
Proof. unfold trap_exit_sret. cbn [fst snd]. by destruct (_ <? _). Qed.
Lemma end_update_satp c b : satp (csr_reg (csr_end_update c b)) = satp (csr_reg c).
Proof. unfold csr_end_update. cbv zeta. by destruct (_ && _ && _), (_ && _). Qed.

Section sync.
Context {B : Type} `{HB : BusLaws B} `{!BusMem B}.

(** The instruction starts with satp [satp0] and the bus [b0]. *)
Context (satp0 : Z) (b0 : B).

Definition sync_view (v : view B) : Prop :=
  satp (csr_reg (v_csr v)) = satp0 /\ tlb_coherent (v_itlb v) satp0 b0 /\ tlb_coherent (v_dtlb v) satp0 b0.
Definition synced (v : view B) : Prop := sync_view v /\ forall a, rd_of (v_bus v) a = rd_of b0 a.
Definition unsynced (v : view B) : Prop := satp_written (v_csr v) = true \/ sync_view v.

Lemma sync_ops : view_ops synced unsynced.
Proof.
  constructor.
  - intros v [H _]. by right.
  - intros s va mode Hm Hva [(Hs & Hi & Hd) Hr]. split; [split; [done|]; split; [done|]|done]. cbn in Hs, Hd, Hr.
    eapply tlb_coherent_ext; [intros a; symmetry; apply Hr|]. rewrite <- Hs. apply data_lookup_coherent; [done..|].
    unfold satp_of. rewrite Hs. by eapply tlb_coherent_ext.
  - intros s Hm [(Hs & Hi & Hd) Hr]. split; [split; [done|]; split; [|done]|done]. cbn in Hs, Hi, Hr.
    eapply tlb_coherent_ext; [intros a; symmetry; apply Hr|]. rewrite <- Hs. apply fetch_lookup_coherent; [done..|].
    unfold satp_of. rewrite Hs. by eapply tlb_coherent_ext.
  - intros v a n [H Hr]. split; [done|]. intros a'. cbn. rewrite <- Hr. apply bread_stable.
  - intros s va data size Hm Hva _ [(Hs & Hi & Hd) Hr] r _ _. subst r. right. split; [done|]. split; [done|]. cbn in *.
    eapply tlb_coherent_ext; [intros a; symmetry; apply Hr|]. rewrite <- Hs. apply data_lookup_coherent; [done..|].
    unfold satp_of. rewrite Hs. by eapply tlb_coherent_ext.
  - intros s inst op v Hm _ _ [(Hs & Hi & Hd) _]. unfold csr_result, unsynced. cbv zeta. cbn [v_csr update].
    match goal with |- context [csr_access ?c ?a ?o ?x ?r ?w ?t ?p] =>
      destruct (csr_access_satp c a o x r w t p) as [H|H] end; [by left|].
    right. split; [|done]. etransitivity; [exact H|exact Hs].
  - intros s Hm [(Hs & Hi & Hd) _] _ x. subst x. right. split; [|done]. etransitivity; [exact (trap_mret_satp (csr (m_cpu s)) (priv (m_cpu s)))|exact Hs].
  - intros s Hm [(Hs & Hi & Hd) _] _ x. subst x. right. split; [|done]. etransitivity; [exact (trap_sret_satp (csr (m_cpu s)) (priv (m_cpu s)))|exact Hs].
  - intros s Hm [(Hs & Hi & Hd) _] _. right. split; [done|]. split; apply tlb_void_coherent.
Qed.

Lemma unsynced_end v r b :
  unsynced v -> v_bus (end_view v r) = b -> leaves_kept satp0 (rd_of b0) (rd_of b) ->
  tlb_coherent (v_itlb (end_view v r)) (satp (csr_reg (v_csr (end_view v r)))) b /\
  tlb_coherent (v_dtlb (end_view v r)) (satp (csr_reg (v_csr (end_view v r)))) b.
Proof.
  intros H _ Hk. rewrite end_view_csr, end_update_satp. unfold end_view.
  destruct (satp_written (v_csr v)) eqn:E; [split; apply tlb_void_coherent|].
  destruct H as [H|(Hs & Hi & Hd)]; [congruence|]. rewrite Hs. split; by eapply tlb_coherent_kept.
Qed.
End sync.

Section sync_step.
Context {B : Type} `{HB : BusLaws B} `{!BusMem B}.

Lemma tlbs_step itrace ftrace s :
  mach_ok s -> tlbs_coherent s ->
  let s' := cpu_step itrace ftrace s in
  leaves_kept (satp_of s) (rd_of (m_bus s)) (rd_of (m_bus s')) -> tlbs_coherent s'.
Proof.
  intros Hs [Hi Hd] s' Hk.
  assert (synced (satp_of s) (m_bus s) (begin_view s (view_of s))) as Hv by (split; [split; [done|by split]|done]).
  destruct (cpu_step_outcome _ _ itrace ftrace s (sync_ops _ _) Hs Hv) as
    [_ _ E|v Hw E|v cause val Hw Hc Hp _ _ t _ E]; fold s' in E.
  - unfold tlbs_coherent, satp_of.
    assert (i_tlb (m_cpu s') = i_tlb (m_cpu s)) as -> by exact (f_equal v_itlb E).
    assert (d_tlb (m_cpu s') = d_tlb (m_cpu s)) as -> by exact (f_equal v_dtlb E).
    assert (m_bus s' = m_bus s) as -> by exact (f_equal v_bus E).
    assert (csr (m_cpu s') = v_csr (begin_view s (view_of s))) as -> by exact (f_equal v_csr E). done.
  - unfold tlbs_coherent, satp_of. change (i_tlb (m_cpu s')) with (v_itlb (view_of s')).
    change (d_tlb (m_cpu s')) with (v_dtlb (view_of s')). change (csr (m_cpu s')) with (v_csr (view_of s')). rewrite E.
    eapply unsynced_end; [exact Hw|rewrite <- E; reflexivity|exact Hk].
  - unfold tlbs_coherent, satp_of. change (i_tlb (m_cpu s')) with (v_itlb (view_of s')).
    change (d_tlb (m_cpu s')) with (v_dtlb (view_of s')). change (csr (m_cpu s')) with (v_csr (view_of s')). rewrite E.
    eapply unsynced_end; [|rewrite <- E; reflexivity|exact Hk].
    destruct (trap_enter_satp (v_csr v) cause val (pc (m_cpu s)) (v_priv v)) as [E1 E2]. fold t in E1, E2.
    destruct Hw as [Hw|(H1 & H2)]; [left; cbn; by rewrite E2|]. right. split; [|done]. cbn. by rewrite E1.
Qed.
End sync_step.

(** ** What empties the TLBs *)

(** No entry is left. *)
Definition tlb_empty (t : tlb_t) : Prop := Forall (fun e => te_valid e = false) (tlb t).

(** The mode may manage the address translation: machine mode, and the supervisor
    unless TVM withholds it. *)
Definition may_manage (c : csr_t) (p : Z) : Prop :=
  p = PRIV_M \/ p = PRIV_S /\ Z.testbit (mstatus (csr_reg c)) MSTATUS_TVM_POS = false.

(** The instructions that write satp, with any value: CSRRW and CSRRWI, and the set
    and clear forms unless their source is x0 or the immediate 0. *)
Definition writes_satp (inst : Z) : Prop :=
  dec_csr (decode inst) = CSR_SATP /\
  (Exists (fun p => matches inst p = true) [Inst.CSRRW; Inst.CSRRWI] \/
   Exists (fun p => matches inst p = true) [Inst.CSRRS; Inst.CSRRC; Inst.CSRRSI; Inst.CSRRCI] /\
   dec_rs1 (decode inst) <> 0).

Lemma tlb_void_empty t : tlb_empty (tlb_void t).
Proof. by apply Forall_replicate. Qed.

Lemma may_manage_tvm c p :
  may_manage c p ->
  (p =? PRIV_U) = false /\ (p =? PRIV_S) && negb (csr_field_get (mstatus (csr_reg c)) MSTATUS_TVM_POS 1 =? 0) = false.
Proof. intros [->|[-> H]]; [done|]. rewrite csr_field_get_1 by (vm_compute; congruence). by rewrite H. Qed.

(** A permitted write of satp raises the flag, whatever is written. *)
Lemma csr_access_satp_written c op v rd t p :
  may_manage c p ->
  exists r, (csr_access c CSR_SATP op v rd true t p).1 = Some r /\
    satp_written (csr_access c CSR_SATP op v rd true t p).2 = true.
Proof.
  intros [Hu Hs]%may_manage_tvm. unfold csr_access. cbv zeta.
  change (csr_field_get CSR_SATP 8 2) with PRIV_S. rewrite Hu, Z.ltb_irrefl, andb_false_r. cbn [andb].
  change (csr_decode CSR_SATP) with (Some (R_satp, false)). cbv iota beta.
  change (CSR_SATP =? CSR_SATP) with true. rewrite andb_true_l.
  match goal with |- context [if ?x then (None, _) else _] =>
    change x with ((p =? PRIV_S) && negb (csr_field_get (mstatus (csr_reg c)) MSTATUS_TVM_POS 1 =? 0)) end.
  rewrite Hs. destruct rd; by eexists.
Qed.

Section empties.
Context {B : Type} `{HB : BusLaws B} `{!BusMem B}.

Definition tlbs_empty (s : mach B) : Prop := tlb_empty (i_tlb (m_cpu s)) /\ tlb_empty (d_tlb (m_cpu s)).

Lemma end_view_empty (v : view B) r :
  satp_written (v_csr v) = true -> tlb_empty (v_itlb (end_view v r)) /\ tlb_empty (v_dtlb (end_view v r)).
Proof. intros H. unfold end_view. rewrite H. split; apply tlb_void_empty. Qed.

Lemma end_exec_empty npc trap (s : mach B) :
  satp_written (csr (m_cpu s)) = true \/ tlbs_empty s -> tlbs_empty (end_exec npc trap s).
Proof.
  destruct s as [[] b tr]. unfold tlbs_empty, end_exec. cbn. intros H. destruct (satp_written _).
  - split; apply tlb_void_empty.
  - by destruct H as [H|H].
Qed.

(** satp is unchanged unless the flag is raised. *)
Definition flag_view (satp0 : Z) (v : view B) : Prop :=
  satp_written (v_csr v) = true \/ satp (csr_reg (v_csr v)) = satp0.

Lemma flag_ops satp0 :
  view_ops (fun v : view B => satp (csr_reg (v_csr v)) = satp0) (flag_view satp0).
Proof.
  constructor; try (by intros ?); try (by intros; right).
  - intros s inst op v Hm _ _ Hv. unfold csr_result, flag_view. cbv zeta. cbn [v_csr update].
    match goal with |- context [csr_access ?c ?a ?o ?x ?r ?w ?t ?p] =>
      destruct (csr_access_satp c a o x r w t p) as [H|H] end; [by left|right; by rewrite H].
  - intros s Hm Hv _ x. subst x. right. etransitivity; [exact (trap_mret_satp (csr (m_cpu s)) (priv (m_cpu s)))|exact Hv].
  - intros s Hm Hv _ x. subst x. right. etransitivity; [exact (trap_sret_satp (csr (m_cpu s)) (priv (m_cpu s)))|exact Hv].
Qed.

Lemma flag_end satp0 (v : view B) r :
  flag_view satp0 v -> satp (csr_reg (v_csr (end_view v r))) <> satp0 ->
  tlb_empty (v_itlb (end_view v r)) /\ tlb_empty (v_dtlb (end_view v r)).
Proof. intros [H|H] Hn; [by apply end_view_empty|]. destruct Hn. by rewrite end_view_csr, end_update_satp. Qed.

Lemma satp_change_empties itrace ftrace s :
  mach_ok s -> satp_of (cpu_step itrace ftrace s) <> satp_of s -> tlbs_empty (cpu_step itrace ftrace s).
Proof.
  intros Hs. set (s' := cpu_step itrace ftrace s).
  change (satp_of s') with (satp (csr_reg (v_csr (view_of s')))).
  change (tlbs_empty s') with (tlb_empty (v_itlb (view_of s')) /\ tlb_empty (v_dtlb (view_of s'))).
  destruct (cpu_step_outcome _ _ itrace ftrace s (flag_ops (satp_of s)) Hs eq_refl) as
    [_ _ E|v Hw E|v cause val Hw Hc Hp _ _ t _ E]; fold s' in E; rewrite E.
  - intros Hn. by destruct Hn.
  - by apply flag_end.
  - apply flag_end. destruct (trap_enter_satp (v_csr v) cause val (pc (m_cpu s)) (v_priv v)) as [E1 E2]. fold t in E1, E2.
    unfold flag_view. cbn [v_csr update]. by rewrite E1, E2.
Qed.

(** The two instructions, executed. *)
Lemma execute_sfence ftrace inst (s : mach B) :
  matches inst Inst.SFENCE_VMA = true -> may_manage (csr (m_cpu s)) (priv (m_cpu s)) ->
  execute ftrace inst s = (inr (add64 (pc (m_cpu s)) 4), upd_cpu flush_tlbs s).
Proof.
  intros H [Hu Hs]%may_manage_tvm. dispatch Inst.SFENCE_VMA H. unfold unless_trap, check_sfence_vma. by rewrite Hu, Hs.
Qed.

Lemma exec_csr_satp inst op v (s : mach B) :
  dec_csr (decode inst) = CSR_SATP -> op = CSR_OP_RW \/ dec_rs1 (decode inst) <> 0 ->
  may_manage (csr (m_cpu s)) (priv (m_cpu s)) ->
  exists npc s2, then_next (EXEC_CSR inst (decode inst) op v) s = (inr npc, s2) /\ satp_written (csr (m_cpu s2)) = true.
Proof.
  intros Hd Hw Hm. unfold then_next, mbind, exec_bind, EXEC_CSR. rewrite Hd. cbv zeta.
  assert (negb ((dec_rs1 (decode inst) =? 0) && negb match op with CSR_OP_RW => true | _ => false end) = true) as ->.
  { destruct Hw as [->|Hw]; [by rewrite andb_false_r|]. by rewrite (proj2 (Z.eqb_neq _ _) Hw). }
  match goal with |- context [csr_access _ _ _ _ ?rd _ ?t _] =>
    destruct (csr_access_satp_written _ op v rd t _ Hm) as (r & E1 & E2) end.
  destruct (csr_access _ _ _ _ _ _ _ _) as [r' c']. cbn [fst snd] in E1, E2. subst r'.
  by destruct (negb _); eexists _, _.
Qed.

Lemma execute_writes_satp ftrace inst (s : mach B) :
  writes_satp inst -> may_manage (csr (m_cpu s)) (priv (m_cpu s)) ->
  exists npc s2, execute ftrace inst s = (inr npc, s2) /\ satp_written (csr (m_cpu s2)) = true.
Proof.
  intros [Hd Hp] Hm.
  destruct Hp as [Hp|[Hp Hr]]; repeat (apply Exists_cons in Hp as [H|Hp]); try by apply Exists_nil in Hp.
  all: lazymatch type of H with matches _ ?p = _ => dispatch p H end.
  all: apply exec_csr_satp; auto.
Qed.

Lemma executes_empties itrace ftrace s inst :
  executes s inst -> may_manage (csr (m_cpu s)) (priv (m_cpu s)) ->
  matches inst Inst.SFENCE_VMA = true \/ writes_satp inst -> tlbs_empty (cpu_step itrace ftrace s).
Proof.
  intros (t & s1 & E1 & ->)%(cpu_step_executes itrace ftrace) Hm Hi.
  assert (may_manage (csr (m_cpu s1)) (priv (m_cpu s1))) as Hm1 by (rewrite E1; exact Hm).
  destruct Hi as [Hi|Hi].
  - rewrite execute_sfence by done. apply end_exec_empty. right. split; apply tlb_void_empty.
  - destruct (execute_writes_satp ftrace inst s1 Hi Hm1) as (npc & s2 & -> & Hw). apply end_exec_empty. by left.
Qed.
End empties.

(** ** User mode *)

Lemma csr_same_trans c1 c2 c3 : csr_same c1 c2 -> csr_same c2 c3 -> csr_same c1 c3.
Proof. intros H1 H2 n Hn. by rewrite H2, H1. Qed.

(** A naturally aligned access of a store lies in one page. *)
Lemma access_in_page a n i : n ∈ [1; 2; 4; 8] -> a mod n = 0 -> a <= i < a + n -> i / 4096 = a / 4096.
Proof.
  intros Hn Ha Hi. repeat (apply elem_of_cons in Hn as [->|Hn]; [div_lia|]). by apply elem_of_nil in Hn.
Qed.

Section user.
Context {B : Type} `{HB : BusLaws B} `{!BusMem B}.

(** The bytes the tables of [b] let user mode write. *)
Definition user_writable (satp mstatus : Z) (b : B) (i : Z) : Prop :=
  exists va k pte, is_u 64 va /\ sv39_leaf (rd_of b) satp va k pte /\
    permitted (pte_flags pte) mstatus MMU_WRITE PRIV_U /\ leaf_pa va k pte / 4096 = i / 4096.

(** User mode with Sv39 on. *)
Definition paged_user (c : csr_t) : Prop :=
  satp (csr_reg c) / 2 ^ 60 <> 0 /\ Z.testbit (mstatus (csr_reg c)) MSTATUS_MPRV_POS = false.

Context (c0 : csr_t) (b0 : B).

Definition user_view (v : view B) : Prop :=
  csr_same c0 (v_csr v) /\ v_priv v = PRIV_U /\ tlb_coherent (v_dtlb v) (satp (csr_reg c0)) b0 /\
  (forall a, rd_of (v_bus v) a = rd_of b0 a) /\ (forall i, bbyte (v_bus v) i = bbyte b0 i) /\
  (forall a, bram (v_bus v) a <-> bram b0 a).
Definition user_done (v : view B) : Prop :=
  csr_same c0 (v_csr v) /\ v_priv v = PRIV_U /\
  (forall i, bbyte (v_bus v) i <> bbyte b0 i ->
     user_writable (satp (csr_reg c0)) (mstatus (csr_reg c0)) b0 i) /\
  (forall a, bram (v_bus v) a <-> bram b0 a).

Lemma user_satp c : csr_same c0 c -> satp (csr_reg c) = satp (csr_reg c0).
Proof. intros H. exact (H R_satp ltac:(done)). Qed.
Lemma user_mstatus c : csr_same c0 c -> mstatus (csr_reg c) = mstatus (csr_reg c0).
Proof. intros H. exact (H R_mstatus ltac:(done)). Qed.

Lemma data_lookup_pa s va mode :
  mid s -> is_u 64 va -> to_result (data_lookup s va mode).1.1 = MMU_VALID ->
  is_u 64 (default 0 (to_pa (data_lookup s va mode).1.1)).
Proof.
  intros [Hc Hb] Hva. unfold data_lookup.
  pose proof (tlb_lookup_out (d_tlb (m_cpu s)) va (satp (csr_reg (csr (m_cpu s)))) (mstatus (csr_reg (csr (m_cpu s)))) mode
    (effective_priv_mode (csr (m_cpu s)) (priv (m_cpu s))) (m_bus s) Hva (satp_u _ Hc) Hb (mid_dtlb _ Hc)) as Ho.
  destruct (tlb_lookup _ _ _ _ _ _ _) as [[r t] b]. cbn [fst]. intros Hr. destruct Ho as (_ & _ & _ & Ho).
  by destruct (Ho Hr) as (pa & -> & ?).
Qed.

(** A user-mode store is made through a leaf that permits it. *)
Lemma user_store_leaf s va :
  mid s -> is_u 64 va -> paged_user c0 -> user_view (view_of s) ->
  let r := (data_lookup s va MMU_WRITE).1.1 in
  to_result r = MMU_VALID -> exists k pte, sv39_leaf (rd_of b0) (satp (csr_reg c0)) va k pte /\
    permitted (pte_flags pte) (mstatus (csr_reg c0)) MMU_WRITE PRIV_U /\ default 0 (to_pa r) = leaf_pa va k pte.
Proof.
  intros [Hc Hb] Hva Hu (Hcsr & Hp & Hco & Hrd & _) r. cbn in Hcsr, Hp, Hco, Hrd.
  assert (paged_user (csr (m_cpu s))) as Hu' by (unfold paged_user; by rewrite (user_satp _ Hcsr), (user_mstatus _ Hcsr)).
  unfold r, data_lookup. rewrite (effective_no_mprv _ _ (proj2 Hu')), Hp, (user_satp _ Hcsr), (user_mstatus _ Hcsr).
  assert (access_priv (mstatus (csr_reg c0)) MMU_WRITE PRIV_U = PRIV_U) as Hap
    by (unfold access_priv; by rewrite (proj2 Hu)).
  assert (is_u 64 (satp (csr_reg c0))) as Hs by (rewrite <- (user_satp _ Hcsr); by apply satp_u).
  assert (bypass_address_translation (satp (csr_reg c0)) (mstatus (csr_reg c0)) MMU_WRITE PRIV_U = false) as Hby.
  { apply not_true_iff_false. intros [H|H]%bypass_iff; [by apply Hu|by rewrite Hap in H|done]. }
  pose proof (tlb_lookup_leaf (d_tlb (m_cpu s)) va (satp (csr_reg c0)) (mstatus (csr_reg c0)) MMU_WRITE PRIV_U (m_bus s)
    Hva Hs Hb (tlb_coherent_ext _ _ _ _ Hrd Hco) Hap Hby) as H.
  destruct (tlb_lookup _ _ _ _ _ _ _) as [[r' t] b]. cbn [fst]. intros Hr. destruct (H Hr) as (k & pte & Hl & Hpm & ->).
  exists k, pte. split; [|done]. eapply sv39_leaf_ext; [|exact Hl]. intros a. symmetry. apply Hrd.
Qed.

Lemma user_ops : paged_user c0 -> view_ops user_view user_done.
Proof.
  intros Hu. constructor.
  - intros v (H1 & H2 & _ & _ & H3 & H4). split_and!; try done. intros i Hi. by destruct (Hi (H3 i)).
  - intros s va mode Hm Hva (H1 & H2 & H3 & H4 & H5). split_and!; try done; [|apply H5..]. cbn in *.
    eapply tlb_coherent_ext; [intros a; symmetry; apply H4|]. rewrite <- (user_satp _ H1).
    apply data_lookup_coherent; [done..|]. unfold satp_of. rewrite (user_satp _ H1). by eapply tlb_coherent_ext.
  - done.
  - intros v a n (H1 & H2 & H3 & H4 & H5 & H6). split_and!; try done; cbn.
    + intros a'. rewrite <- H4. apply bread_stable.
    + intros i. rewrite <- H5. apply bread_bytes.
    + intros a'. rewrite <- H6. apply bram_read.
  - intros s va data size Hm Hva Hsz HV r Hr Hal. destruct (user_store_leaf s va Hm Hva Hu HV Hr) as (k & pte & Hl & Hp & Epa).
    fold r in Epa. destruct HV as (H1 & H2 & H3 & H4 & H5 & H6). split_and!; try done.
    + intros i Hi. change (bbyte (bwrite (m_bus s) (default 0 (to_pa r)) size data).2 i <> bbyte b0 i) in Hi.
      exists va, k, pte. split; [done|]. split; [done|]. split; [done|]. rewrite <- Epa. symmetry. eapply access_in_page; [exact Hsz|done|].
      destruct (decide (default 0 (to_pa r) <= i < default 0 (to_pa r) + size)) as [|Hout]; [done|].
      exfalso. apply Hi. rewrite <- H5. apply bwrite_bytes; [apply Hm| | |lia].
      * exact (data_lookup_pa s va MMU_WRITE Hm Hva Hr).
      * revert Hsz. clear. intros Hsz. repeat (apply elem_of_cons in Hsz as [->|Hsz]; [lia|]). by apply elem_of_nil in Hsz.
    + intros a. rewrite <- H6. exact (bram_write (m_bus s) (default 0 (to_pa r)) size data a).
  - intros s inst op v Hm _ _ (H1 & H2 & _ & _ & H5 & H6). split_and!; try done; cbn.
    + eapply csr_same_trans; [exact H1|]. cbn in H1, H2. unfold csr_result. rewrite H2. cbv zeta. intros n Hn.
      refine (proj1 (proj2 (csr_access_confined _ _ _ _ _ _ _ _ _ _)) eq_refl n Hn); [apply (mid_csr _ (proj1 Hm))|by left].
    + intros i Hi. by destruct (Hi (H5 i)).
  - intros s _ (_ & H2 & _) H. cbn in H2. by rewrite H2 in H.
  - intros s _ (_ & H2 & _) H. cbn in H2. by rewrite H2 in H.
  - intros s _ (_ & H2 & _) H. cbn in H2. by rewrite H2 in H.
Qed.
End user.

(** The registers a user-mode step may change: those of the timer, the counters and
    the interrupt lines. *)
Definition user_kept (c c' : csr_t) : Prop :=
  forall n, n ∉ [R_mtime; R_mcycle; R_minstret; R_mip] -> csr_get n (csr_reg c') = csr_get n (csr_reg c).

Lemma user_kept_trans c1 c2 c3 : user_kept c1 c2 -> user_kept c2 c3 -> user_kept c1 c3.
Proof. intros H1 H2 n Hn. by rewrite H2, H1. Qed.
Lemma user_kept_begin c a b d e : user_kept c (csr_begin_update c a b d e).
Proof. intros n Hn. destruct n; try reflexivity. exfalso. apply Hn. set_solver. Qed.
Lemma user_kept_end c r : user_kept c (csr_end_update c r).
Proof.
  intros n Hn. unfold csr_end_update. cbv zeta.
  destruct n, (_ && _ && _), (_ && _); try reflexivity; exfalso; apply Hn; set_solver.
Qed.
Lemma user_kept_same c c' : csr_same c c' -> user_kept c c'.
Proof. intros H n Hn. apply H. intros ->. apply Hn. set_solver. Qed.

Section user_step.
Context {B : Type} `{HB : BusLaws B} `{!BusMem B}.

(** A machine at the handler that the trap vector of [c] names, entered from user
    mode at [pc0], the registers of [c] otherwise as the trap found them. *)
Definition user_trapped (c : csr_t) (pc0 : Z) (s' : mach B) : Prop :=
  exists c1 cause val, user_kept c c1 /\
    let t := trap_enter c1 cause val pc0 PRIV_U in
    pc (m_cpu s') = t.1.1 /\ priv (m_cpu s') = t.2 /\ user_kept t.1.2 (csr (m_cpu s')).

Lemma user_trapped_priv c pc0 s : user_trapped c pc0 s -> priv (m_cpu s) <> PRIV_U.
Proof.
  intros (c1 & cause & val & _ & H). cbv zeta in H. destruct H as (_ & -> & _).
  destruct (trap_enter_mstatus c1 cause val pc0 PRIV_U) as [-> _]. by destruct (_ =? _).
Qed.
Lemma user_trapped_weaken c c' pc0 s : user_kept c c' -> user_trapped c' pc0 s -> user_trapped c pc0 s.
Proof.
  intros Hk (c1 & cause & val & H1 & H2). exists c1, cause, val. split; [by eapply user_kept_trans|exact H2].
Qed.

Lemma user_step itrace ftrace (s : mach B) :
  mach_ok s -> priv (m_cpu s) = PRIV_U -> paged_user (csr (m_cpu s)) ->
  tlb_coherent (d_tlb (m_cpu s)) (satp_of s) (m_bus s) ->
  let s' := cpu_step itrace ftrace s in
  (forall i, bbyte (m_bus s') i <> bbyte (m_bus s) i -> user_writable (satp_of s) (mstatus_of s) (m_bus s) i) /\
  (forall a, bram (m_bus s') a <-> bram (m_bus s) a) /\
  ((priv (m_cpu s') = PRIV_U /\ user_kept (csr (m_cpu s)) (csr (m_cpu s'))) \/
   user_trapped (csr (m_cpu s)) (pc (m_cpu s)) s').
Proof.
  intros Hs Hp Hu Hd s'. set (c0 := v_csr (begin_view s (view_of s))).
  assert (user_kept (csr (m_cpu s)) c0) as Hk by apply user_kept_begin.
  assert (user_view c0 (m_bus s) (begin_view s (view_of s))) as Hv by (by split_and!).
  destruct (cpu_step_outcome _ _ itrace ftrace s (user_ops c0 (m_bus s) Hu) Hs Hv) as
    [_ _ E|v (H1 & H2 & H3 & H4) E|v cause val (H1 & H2 & H3 & H4) Hc Hpr Hsame Hvp t Hpc E]; fold s' in E.
  all: change (m_bus s') with (v_bus (view_of s')); unfold user_trapped;
    change (csr (m_cpu s')) with (v_csr (view_of s')); change (priv (m_cpu s')) with (v_priv (view_of s')); rewrite E.
  - split; [intros i Hi; by destruct Hi|]. split; [done|]. left. by split.
  - rewrite end_view_bus, end_view_priv, end_view_csr. split; [done|]. split; [done|]. left. split; [done|].
    eapply user_kept_trans; [exact Hk|]. eapply user_kept_trans; [apply user_kept_same, H1|apply user_kept_end].
  - rewrite end_view_bus, end_view_priv, end_view_csr. split; [done|]. split; [done|]. right.
    exists (v_csr v), cause, val. split; [eapply user_kept_trans; [exact Hk|apply user_kept_same, H1]|].
    fold s' in Hpc. unfold t in *. rewrite H2 in *. split; [exact Hpc|]. split; [done|]. apply user_kept_end.
Qed.
End user_step.

(** ** Runs of user mode *)

(** The table entries a walk for [va] may read. *)
Inductive visits (rd : Z -> option Z) (va : Z) : nat -> Z -> Z -> Prop :=
  | visit_here l base : visits rd va l base (base + 8 * vpn_at va l)
  | visit_next l base pte a :
      rd (base + 8 * vpn_at va (S l)) = Some pte -> pte_ok pte = true -> pte_is_table pte = true ->
      visits rd va l (4096 * PPN pte) a -> visits rd va (S l) base a.

Definition table_entry (rd : Z -> option Z) (satp : Z) (a : Z) : Prop :=
  exists va, visits rd va 2 (table_root satp) a.

Lemma leaf_at_agree rd rd' va l base k pte :
  (forall a, visits rd va l base a -> rd' a = rd a) -> leaf_at rd va l base k pte <-> leaf_at rd' va l base k pte.
Proof.
  intros H. split; intros Hl.
  - induction Hl as [l base pte Hr Ho Hlf|l base pte k lf Hr Ho Ht Hl IH].
    + apply leaf_here; [|done..]. rewrite H; [done|constructor].
    + eapply leaf_next; [rewrite H; [exact Hr|constructor]|done..|]. apply IH. intros a Ha. apply H. by econstructor.
  - induction Hl as [l base pte Hr Ho Hlf|l base pte k lf Hr Ho Ht Hl IH]; rewrite H in Hr by constructor.
    + by apply leaf_here.
    + eapply leaf_next; [done..|]. apply IH. intros a Ha. apply H. by econstructor.
Qed.

Lemma sv39_leaf_agree rd rd' satp va k pte :
  (forall a, table_entry rd satp a -> rd' a = rd a) -> sv39_leaf rd satp va k pte <-> sv39_leaf rd' satp va k pte.
Proof.
  intros H. unfold sv39_leaf. rewrite (leaf_at_agree rd rd'); [done|]. intros a Ha. apply H. by exists va.
Qed.

Section sandbox.
Context {B : Type} `{HB : BusLaws B} `{!BusMem B}.

(** The tables lie in RAM, out of reach of user mode. *)
Definition tables_protected (satp mstatus : Z) (b : B) : Prop :=
  forall a, table_entry (rd_of b) satp a -> bram b a /\ forall i, a <= i < a + 8 -> ~ user_writable satp mstatus b i.

(** What happens between two steps of the core: the interrupt lines change, and the
    devices, but not the memory. *)
Inductive between : mach B -> mach B -> Prop :=
  | between_lines a b c d s : between s (upd_cpu (set_lines a b c d) s)
  | between_bus b s : bus_ok b -> (forall i, bbyte b i = bbyte (m_bus s) i) -> (forall a, bram b a <-> bram (m_bus s) a) ->
      between s (s <| m_bus := b |>).

(** Runs in which every step of the core starts in user mode. *)
Inductive user_run (s : mach B) : mach B -> Prop :=
  | user_run_refl : user_run s s
  | user_run_step itrace ftrace s1 :
      user_run s s1 -> priv (m_cpu s1) = PRIV_U -> user_run s (cpu_step itrace ftrace s1)
  | user_run_between s1 s2 : user_run s s1 -> between s1 s2 -> user_run s s2.

Context (s0 : mach B).
Abbreviation satp0 := (satp_of s0).
Abbreviation mstatus0 := (mstatus_of s0).
Abbreviation b0 := (m_bus s0).

(** What a run does to the memory. *)
Record contained (b : B) : Prop := {
  cnt_ok : bus_ok b;
  cnt_bytes i : bbyte b i <> bbyte b0 i -> user_writable satp0 mstatus0 b0 i;
  cnt_ram a : bram b a <-> bram b0 a;
}.

Lemma contained_tables b a :
  tables_protected satp0 mstatus0 b0 -> bus_ok b0 -> contained b -> table_entry (rd_of b0) satp0 a ->
  rd_of b a = rd_of b0 a.
Proof.
  intros Ht H0 [Hok Hby Hr] Ha. destruct (Ht a Ha) as [Hram Hno]. apply bread_ram; try done; [by apply Hr|].
  intros i Hi. destruct (Z.eq_dec (bbyte b i) (bbyte b0 i)) as [|Hne]; [done|]. by destruct (Hno i Hi (Hby i Hne)).
Qed.

Lemma contained_leaves b va k pte :
  tables_protected satp0 mstatus0 b0 -> bus_ok b0 -> contained b ->
  sv39_leaf (rd_of b0) satp0 va k pte <-> sv39_leaf (rd_of b) satp0 va k pte.
Proof. intros. apply sv39_leaf_agree. intros a. by apply contained_tables. Qed.

Lemma contained_kept b b' :
  tables_protected satp0 mstatus0 b0 -> bus_ok b0 -> contained b -> contained b' ->
  leaves_kept satp0 (rd_of b) (rd_of b').
Proof. intros Ht H0 Hb Hb' va k pte Hl. by rewrite <- contained_leaves, contained_leaves in Hl by done. Qed.

Lemma contained_writable b i :
  tables_protected satp0 mstatus0 b0 -> bus_ok b0 -> contained b ->
  user_writable satp0 mstatus0 b i -> user_writable satp0 mstatus0 b0 i.
Proof.
  intros Ht H0 Hb (va & k & pte & Hva & Hl & H). exists va, k, pte. split; [done|]. split; [|done].
  by apply contained_leaves in Hl.
Qed.

(** The invariant of a run, in user mode and after it. *)
Definition confined (s : mach B) : Prop :=
  mach_ok s /\ contained (m_bus s) /\
  ((priv (m_cpu s) = PRIV_U /\ user_kept (csr (m_cpu s0)) (csr (m_cpu s)) /\ tlbs_coherent s) \/
   exists pc0, user_trapped (csr (m_cpu s0)) pc0 s).

Context (H0 : mach_ok s0) (Hu : paged_user (csr (m_cpu s0))).
Context (Ht : tables_protected satp0 mstatus0 b0).

Lemma confined_satp c : user_kept (csr (m_cpu s0)) c ->
  satp (csr_reg c) = satp0 /\ mstatus (csr_reg c) = mstatus0.
Proof. intros H. split; [exact (H R_satp ltac:(set_solver))|exact (H R_mstatus ltac:(set_solver))]. Qed.

Lemma confined_step itrace ftrace s :
  confined s -> priv (m_cpu s) = PRIV_U -> confined (cpu_step itrace ftrace s).
Proof.
  intros (Hs & Hb & [(_ & Hk & Hi & Hd)|[pc0 Hx]]) Hp; [|by destruct (user_trapped_priv _ _ _ Hx)].
  destruct (confined_satp _ Hk) as [Es Em]. pose proof Hb as [Hok Hby Hram].
  assert (paged_user (csr (m_cpu s))) as Hu' by (unfold paged_user; by rewrite Es, Em).
  pose proof (cpu_step_ok itrace ftrace s Hs) as Hok'.
  destruct (user_step itrace ftrace s Hs Hp Hu' Hd) as (Hw & Hr & Hend). set (s' := cpu_step itrace ftrace s) in *.
  assert (contained (m_bus s')) as Hcs'.
  { constructor; [apply Hok'| |intros a; by rewrite Hr].
    intros i Hch. destruct (Z.eq_dec (bbyte (m_bus s') i) (bbyte (m_bus s) i)) as [E|Hne].
    - apply Hby. by rewrite <- E.
    - apply (contained_writable (m_bus s)); [done|apply H0|done|].
      specialize (Hw i Hne). unfold satp_of in Hw at 1. unfold mstatus_of in Hw at 1. by rewrite Es, Em in Hw. }
  split; [done|]. split; [done|]. destruct Hend as [[Hp' Hk']|Hx].
  - left. split; [done|]. split; [by eapply user_kept_trans|]. apply tlbs_step; [done..|]. unfold satp_of. rewrite Es.
    apply contained_kept; [done|apply H0|done..].
  - right. exists (pc (m_cpu s)). by eapply user_trapped_weaken.
Qed.

Lemma confined_between s s' : confined s -> between s s' -> confined s'.
Proof.
  intros (Hs & Hb & Hend) Hst. destruct Hst as [a b c d s|b s Hok Hby Hram].
  - split; [by apply (mach_step_ok _ _ Hs), step_lines|]. by split.
  - assert (contained b) as Hcb.
    { constructor; [done| |intros a; by rewrite Hram, (cnt_ram _ Hb)]. intros i. rewrite Hby. apply Hb. }
    split; [split; [apply Hs|done]|]. split; [done|]. destruct Hend as [(Hp & Hk & Hi & Hd)|Hx]; [left|by right].
    split; [done|]. split; [done|]. destruct (confined_satp _ Hk) as [Es _].
    assert (leaves_kept (satp_of s) (rd_of (m_bus s)) (rd_of b)) as Hlk.
    { unfold satp_of. rewrite Es. apply contained_kept; [done|apply H0|done..]. }
    split; by apply (tlb_coherent_kept _ _ _ _ Hlk).
Qed.
End sandbox.

(** ** Properties *)
Section properties.
Context {B : Type} `{HB : BusLaws B} `{!BusMem B}.

(** C10: loads and stores are redirected by MPRV in machine mode only: in every
    machine reachable from reset, whatever the programs, the devices and the
    interrupt lines do, a lower mode runs with MPRV clear, so that its accesses are
    made and checked with its own privilege. *)
Theorem mprv_confined b (s : mach B) :
  bus_ok b -> rtc mach_step (mk_mach cpu_init b []) s -> priv (m_cpu s) <> PRIV_M ->
  Z.testbit (mstatus_of s) MSTATUS_MPRV_POS = false /\ effective_priv_mode (csr (m_cpu s)) (priv (m_cpu s)) = priv (m_cpu s).
Proof.
  intros Hb Hrun Hp.
  assert (mach_ok s /\ mprv_view (view_of s)) as [_ [H|H]].
  { assert (mprv_view (view_of (mk_mach cpu_init b []))) as Hm0 by by left.
    pose proof (mach_reset_ok b Hb) as Hok0. revert Hok0 Hm0.
    induction Hrun as [s|s s1 s2 Hst _ IH]; intros Hok Hm; [done|]. specialize (IH Hp).
    apply IH; [by apply (mach_step_ok s)|]. destruct Hst; [by apply mprv_step|exact Hm..]. }
  - by destruct Hp.
  - split; [exact H|]. by apply effective_no_mprv.
Qed.

(** The answers of both TLBs are those of the tables in memory. *)
Definition translates_as_tables (s : mach B) : Prop :=
  (forall va mode, is_u 64 va ->
     let o := (mmu_translation va (satp_of s) (mstatus_of s) mode
       (effective_priv_mode (csr (m_cpu s)) (priv (m_cpu s))) (m_bus s)).1 in
     let r := (data_lookup s va mode).1.1 in
     to_result r = mo_result o /\ (to_result r = MMU_VALID -> to_pa r = mo_pa o)) /\
  let o := (mmu_translation (pc (m_cpu s)) (satp_of s) (mstatus_of s) MMU_EXECUTE (priv (m_cpu s)) (m_bus s)).1 in
  let r := (fetch_lookup s).1.1 in
  to_result r = mo_result o /\ (to_result r = MMU_VALID -> to_pa r = mo_pa o).

Lemma coherent_translates s : mach_ok s -> tlbs_coherent s -> translates_as_tables s.
Proof.
  intros [[Hc _] Hb] [Hi Hd]. pose proof (satp_u _ Hc) as Hs. split.
  - intros va mode Hva o r.
    pose proof (tlb_lookup_ok (d_tlb (m_cpu s)) va (satp_of s) (mstatus_of s) mode
      (effective_priv_mode (csr (m_cpu s)) (priv (m_cpu s))) (m_bus s) Hva Hs Hb Hd (access_priv_effective _ _ _)) as H.
    unfold r, o, data_lookup, satp_of, mstatus_of in *. destruct (tlb_lookup _ _ _ _ _ _ _) as [[x t] b].
    cbn [fst]. by destruct H as (H1 & H2 & _).
  - intros o r. destruct (mid_pc _ Hc) as [Hpc _].
    pose proof (tlb_lookup_ok (i_tlb (m_cpu s)) (pc (m_cpu s)) (satp_of s) (mstatus_of s) MMU_EXECUTE
      (priv (m_cpu s)) (m_bus s) Hpc Hs Hb Hi (access_priv_execute _ _)) as H.
    unfold r, o, fetch_lookup, satp_of, mstatus_of in *. destruct (tlb_lookup _ _ _ _ _ _ _) as [[x t] b].
    cbn [fst]. by destruct H as (H1 & H2 & _).
Qed.

(** C8: the TLBs follow the program's translation. (1) No instruction makes them
    stale but a store to the page tables: if both agree with the tables before a
    step that leaves the leaves of the old address space in place, they agree after
    it, also when the step changes satp, flushes, takes a trap or changes privilege;
    so every later data access and fetch is translated as the tables in memory say.
    (2) Whatever changes satp leaves both TLBs empty. (3) So does every SFENCE.VMA
    and every instruction that writes satp, also with the value it holds, executed
    in a mode that may manage the translation, whatever the TLBs held before. *)
Theorem tlbs_stay_coherent itrace ftrace s :
  mach_ok s ->
  let s' := cpu_step itrace ftrace s in
  (tlbs_coherent s -> leaves_kept (satp_of s) (rd_of (m_bus s)) (rd_of (m_bus s')) ->
     tlbs_coherent s' /\ translates_as_tables s') /\
  (satp_of s' <> satp_of s -> tlbs_empty s') /\
  (forall inst, executes s inst -> may_manage (csr (m_cpu s)) (priv (m_cpu s)) ->
     matches inst Inst.SFENCE_VMA = true \/ writes_satp inst -> tlbs_empty s').
Proof.
  intros Hs s'. split; [|split].
  - intros Hc Hk. pose proof (tlbs_step itrace ftrace s Hs Hc Hk) as H. split; [exact H|].
    apply coherent_translates; [by apply cpu_step_ok|exact H].
  - by apply satp_change_empties.
  - intros inst. apply executes_empties.
Qed.

(** C2: user mode is a sandbox: when the page tables lie in RAM and give user mode
    no write access to themselves, then whatever instructions run in user mode,
    for any number of steps with devices and interrupt lines changing in between,
    a byte of memory differs only if the tables map its page writable for the
    user; and user mode is left only into the handler of the trap vector, with
    satp, the delegation and every other control register as the supervisor left
    them. *)
Theorem user_sandbox (s s' : mach B) :
  mach_ok s -> priv (m_cpu s) = PRIV_U -> paged_user (csr (m_cpu s)) -> tlbs_coherent s ->
  tables_protected (satp_of s) (mstatus_of s) (m_bus s) -> user_run s s' ->
  mach_ok s' /\
  (forall i, bbyte (m_bus s') i <> bbyte (m_bus s) i -> user_writable (satp_of s) (mstatus_of s) (m_bus s) i) /\
  ((priv (m_cpu s') = PRIV_U /\ user_kept (csr (m_cpu s)) (csr (m_cpu s')) /\ tlbs_coherent s') \/
   exists pc0, user_trapped (csr (m_cpu s)) pc0 s').
Proof.
  intros Hs Hp Hu Hc Ht Hrun. assert (confined s s') as (H1 & [_ H2 _] & H3); [|done].
  induction Hrun as [|itrace ftrace s1 _ IH Hp1|s1 s2 _ IH Hb].
  - split; [done|]. split; [constructor; [apply Hs|intros i Hi; by destruct Hi|done]|]. by left.
  - by apply confined_step.
  - by eapply confined_between.
Qed.
End properties.

(** ** Example: a user program behind three levels of tables

    The tables are at 0x80000000, 0x80001000 and 0x80002000; page 0 is the code at
    0x80003000, readable and executable, page 1 the data at 0x80004000, writable.
    The program is LUI x1, 1; SW x1, 0(x1); ECALL. *)
Definition user_pages : list (Z * Z) :=
  [ (0x0000, 0x20000401); (0x1000, 0x20000801); (0x2000, 0x20000C5B); (0x2008, 0x200010D7);
    (0x3000, 0x0010A023000010B7); (0x3008, 0x00000073) ].
Definition user_ram : memory_t :=
  foldr (fun w m => mem_store m w.1 (le_bytes 8 w.2)) (mk_memory ∅ 0 RAM_BASE 0x5000) user_pages.
Definition user_bus : bus_t := bus_example <| bus_memory := user_ram |>.
Definition user_csr : csr_t := (csr_access csr_init CSR_SATP CSR_OP_RW satp_example false true 0 PRIV_M).2.
Definition user_mach : mach bus_t :=
  mk_mach (cpu_init <| csr := user_csr |> <| priv := PRIV_U |> <| pc := 0 |>) user_bus [].

Lemma user_bus_wf : bus_wf user_bus.
Proof.
  destruct bus_example_wf. constructor; try done. change (memory_wf user_ram). unfold user_ram, user_pages.
  cbn [foldr fst snd]. repeat (apply mem_store_wf; [|apply le_bytes_ok]). by constructor.
Qed.

Lemma user_csr_wf : csr_wf user_csr.
Proof. apply csr_access_wf; [apply csr_init_wf|apply satp_example_u|lia]. Qed.

Lemma user_mach_ok : mach_ok user_mach.
Proof.
  destruct (mach_reset_ok (HB := bus_laws) user_bus user_bus_wf) as [[[] Hz] Hb].
  split; [split; [|exact Hz]|exact Hb]. constructor; try done; [exact user_csr_wf|by left].
Qed.

Lemma user_mach_paged : paged_user (csr (m_cpu user_mach)).
Proof. split; [|reflexivity]. assert (satp (csr_reg (csr (m_cpu user_mach))) / 2 ^ 60 = 8) as -> by (vm_compute; reflexivity). done. Qed.
Lemma user_mach_coherent : tlbs_coherent user_mach.
Proof. split; apply tlb_void_coherent. Qed.

(** The words of the tables. *)
Definition user_word (a : Z) : Z :=
  if a =? 0x80000000 then 0x20000401 else if a =? 0x80001000 then 0x20000801
  else if a =? 0x80002000 then 0x20000C5B else if a =? 0x80002008 then 0x200010D7 else 0.

Lemma user_tables_read a :
  0x80000000 <= a < 0x80003000 -> a mod 8 = 0 -> ram_word user_bus a /\ rd_of user_bus a = Some (user_word a).
Proof.
  intros Ha Hal. assert (ram_word user_bus a) as Hw.
  { split; [lia|]. split; [|done]. unfold contains. cbn. unfold RAM_BASE, DRAM_BASE. lia. }
  split; [done|]. unfold rd_of. change (bread user_bus a 8) with (bus_read user_bus a 8).
  rewrite bus_read_ram_word by (done || apply user_bus_wf). f_equal. change (bus_memory user_bus) with user_ram.
  unfold user_word.
  destruct (Z.eqb_spec a 0x80000000) as [->|N1]; [vm_compute; reflexivity|].
  destruct (Z.eqb_spec a 0x80001000) as [->|N2]; [vm_compute; reflexivity|].
  destruct (Z.eqb_spec a 0x80002000) as [->|N3]; [vm_compute; reflexivity|].
  destruct (Z.eqb_spec a 0x80002008) as [->|N4]; [vm_compute; reflexivity|].
  unfold user_ram, user_pages, RAM_BASE, DRAM_BASE. cbn [foldr fst snd].
  rewrite !mem_load_store_disjoint by (rewrite le_bytes_length; change (Z.of_nat 8) with 8; div_lia).
  change 0 with (le_value (replicate 8 0)). f_equal.
Qed.

(** The entries on the way down, for any address. *)
Lemma user_word_table a :
  pte_ok (user_word a) = true -> pte_is_table (user_word a) = true ->
  a = 0x80000000 /\ 4096 * PPN (user_word a) = 0x80001000 \/ a = 0x80001000 /\ 4096 * PPN (user_word a) = 0x80002000.
Proof.
  unfold user_word.
  destruct (Z.eqb_spec a 0x80000000); [by left|]. destruct (Z.eqb_spec a 0x80001000); [by right|].
  destruct (Z.eqb_spec a 0x80002000); [done|]. by destruct (Z.eqb_spec a 0x80002008).
Qed.
Lemma user_word_leaf a :
  pte_ok (user_word a) = true -> pte_is_leaf (user_word a) = true ->
  (a = 0x80002000 /\ user_word a = 0x20000C5B) \/ (a = 0x80002008 /\ user_word a = 0x200010D7).
Proof.
  unfold user_word.
  destruct (Z.eqb_spec a 0x80000000); [done|]. destruct (Z.eqb_spec a 0x80001000); [done|].
  destruct (Z.eqb_spec a 0x80002000); [by left|]. destruct (Z.eqb_spec a 0x80002008); [by right|done].
Qed.

(** A walk stays in the three tables. *)
Definition user_table (l : nat) : Z := 0x80002000 - 4096 * Z.of_nat l.

Lemma user_entry va l :
  (l <= 2)%nat -> let a := user_table l + 8 * vpn_at va l in 0x80000000 <= a < 0x80003000 /\ a mod 8 = 0.
Proof. intros Hl. pose proof (vpn_at_range va l). unfold user_table. destruct l as [|[|[|l]]]; [..|lia]; cbn; div_lia. Qed.

Lemma user_descend va l pte :
  (S l <= 2)%nat -> rd_of user_bus (user_table (S l) + 8 * vpn_at va (S l)) = Some pte ->
  pte_ok pte = true -> pte_is_table pte = true -> 4096 * PPN pte = user_table l.
Proof.
  intros Hl Hr Ho Ht. destruct (user_entry va (S l) Hl) as [Ha Hal]. pose proof (vpn_at_range va (S l)).
  rewrite (proj2 (user_tables_read _ Ha Hal)) in Hr. injection Hr as <-.
  destruct (user_word_table _ Ho Ht) as [[E ->]|[E ->]]; unfold user_table in *;
    destruct l as [|[|l]]; cbn in *; lia.
Qed.

Lemma user_visits va l base a :
  visits (rd_of user_bus) va l base a -> (l <= 2)%nat -> base = user_table l ->
  0x80000000 <= a < 0x80003000 /\ a mod 8 = 0.
Proof.
  induction 1 as [l base|l base pte a Hr Ho Ht _ IH]; intros Hl ->.
  - by apply user_entry.
  - apply IH; [lia|]. by eapply user_descend.
Qed.

Lemma user_leaf va l base k pte :
  leaf_at (rd_of user_bus) va l base k pte -> (l <= 2)%nat -> base = user_table l ->
  pte = 0x20000C5B \/ (k = 0%nat /\ pte = 0x200010D7).
Proof.
  induction 1 as [l base pte Hr Ho Hlf|l base pte k lf Hr Ho Ht _ IH]; intros Hl ->.
  - destruct (user_entry va l Hl) as [Ha Hal]. rewrite (proj2 (user_tables_read _ Ha Hal)) in Hr. injection Hr as <-.
    destruct (user_word_leaf _ Ho Hlf) as [[_ ->]|[E ->]]; [by left|]. right. split; [|done].
    pose proof (vpn_at_range va l). unfold user_table in E. destruct l as [|[|l]]; [done|cbn in E; lia..].
  - apply IH; [lia|]. by eapply user_descend.
Qed.

Lemma user_protected : tables_protected (satp_of user_mach) (mstatus_of user_mach) (m_bus user_mach).
Proof.
  change (m_bus user_mach) with user_bus.
  assert (table_root (satp_of user_mach) = user_table 2) as Hroot by (vm_compute; reflexivity).
  intros a [va Hv]. rewrite Hroot in Hv. destruct (user_visits va 2 _ a Hv ltac:(lia) eq_refl) as [Ha Hal].
  split; [by apply user_tables_read|]. intros i Hi (va' & k & pte & _ & (_ & Hl & _) & Hp & Hpa).
  rewrite Hroot in Hl. destruct (user_leaf va' 2 _ k pte Hl ltac:(lia) eq_refl) as [->|[-> ->]].
  - by destruct Hp as (_ & _ & [H _] & _).
  - rewrite leaf_pa_page in Hpa. unfold leaf_pa in Hpa. change (page_span 0) with 4096 in Hpa.
    change (PPN 0x200010D7) with 0x80004 in Hpa. div_lia.
Qed.

(** The machine after the three instructions, in the handler of the ECALL. *)
Definition user_end : mach bus_t := cpu_step false false (cpu_step false false (cpu_step false false user_mach)).

Lemma user_end_run : user_run user_mach user_end.
Proof.
  apply user_run_step; [apply user_run_step; [apply user_run_step; [apply user_run_refl|]|]|]; vm_compute; reflexivity.
Qed.

Lemma user_sandbox_witness :
  mach_ok user_end /\ ram_byte (m_bus user_end) 0x80004001 = 0x10 /\ priv (m_cpu user_end) = PRIV_M /\
  (forall i, bbyte (m_bus user_end) i <> bbyte (m_bus user_mach) i ->
     user_writable (satp_of user_mach) (mstatus_of user_mach) (m_bus user_mach) i).
Proof.
  destruct (user_sandbox (HB := bus_laws) user_mach user_end user_mach_ok eq_refl user_mach_paged user_mach_coherent
    user_protected user_end_run) as (H1 & H2 & _).
  split; [exact H1|]. split; [vm_compute; reflexivity|]. split; [vm_compute; reflexivity|]. exact H2.
Defined.

(** At the reset vector in machine mode, an SFENCE.VMA and then CSRRW x0, satp, x1;
    both TLBs are full. *)
Definition stale_entry : tlb_entry_t := mk_tlb_entry true (mk_pte_flag true true true true true true) 0 0 0.
Definition stale_tlb : tlb_t := mk_tlb (replicate 256 stale_entry) 0 0.
Definition sfence_mach : mach bus_t :=
  mk_mach (cpu_init <| i_tlb := stale_tlb |> <| d_tlb := stale_tlb |>)
    (bus_write bus_example 0x80000000 8 0x1800907312000073).2 [].
Definition satp_mach : mach bus_t := upd_cpu (fun c => c <| pc := 0x80000004 |>) sfence_mach.

Lemma stale_mach_ok pc0 : npc_ok pc0 -> mach_ok (upd_cpu (fun c => c <| pc := pc0 |>) sfence_mach).
Proof.
  intros Hp. destruct (mach_reset_ok (HB := bus_laws) _ (bus_write_wf bus_example 0x80000000 8 0x1800907312000073 bus_example_wf))
    as [[[] Hz] Hb]. split; [split; [|exact Hz]|exact Hb]. by constructor.
Qed.

Lemma tlbs_stay_coherent_witness :
  tlbs_coherent (cpu_step false false user_mach) /\
  tlbs_empty (cpu_step false false sfence_mach) /\ tlbs_empty (cpu_step false false satp_mach) /\
  ~ tlbs_empty sfence_mach.
Proof.
  split; [|split; [|split]].
  - apply (tlbs_stay_coherent (HB := bus_laws) false false user_mach user_mach_ok); [exact user_mach_coherent|].
    assert (m_bus (cpu_step false false user_mach) = user_bus) as -> by (vm_compute; reflexivity). by intros va k pte H.
  - apply (tlbs_stay_coherent (HB := bus_laws) false false sfence_mach
      (stale_mach_ok RST_VEC ltac:(vm_compute; split; [split; congruence|reflexivity])) ) with (inst := 0x12000073).
    + split; [done|]. split; vm_compute; reflexivity.
    + by left.
    + left. vm_compute. reflexivity.
  - apply (tlbs_stay_coherent (HB := bus_laws) false false satp_mach
      (stale_mach_ok 0x80000004 ltac:(vm_compute; split; [split; congruence|reflexivity]))) with (inst := 0x18009073).
    + split; [done|]. split; vm_compute; reflexivity.
    + by left.
    + right. split; [vm_compute; reflexivity|]. left. left. vm_compute. reflexivity.
  - intros [H _]. change (tlb_empty stale_tlb) in H. unfold tlb_empty in H. by apply Forall_cons in H as [H _].
Defined.

(** MRET at the reset vector, into user mode. *)
Definition mret_mach : mach bus_t := mk_mach cpu_init (bus_write bus_example 0x80000000 4 0x30200073).2 [].

Definition mret_end : mach bus_t := cpu_step false false mret_mach.

Lemma mprv_confined_witness : effective_priv_mode (csr (m_cpu mret_end)) (priv (m_cpu mret_end)) = priv (m_cpu mret_end).
Proof.
  assert (priv (m_cpu mret_end) = PRIV_U) as Hp by (vm_compute; reflexivity).
  apply (mprv_confined (HB := bus_laws) (m_bus mret_mach) mret_end (bus_write_wf _ _ _ _ bus_example_wf)).
  - apply rtc_once, step_core.
  - rewrite Hp. discriminate.
Defined.
