(* ===== verification/Paging.v ===== *)
(** * Loads and stores through the page tables

    The accesses of [MemOps] with the address translation in between: an address
    reads and writes the RAM the tables map it to, through the data TLB, so that two
    virtual addresses of one physical word are two names of one variable.  Machine
    mode and a core with translation off are the case where the map is the
    identity. *)
From stdpp Require Import base tactics numbers option list sets.
From S2P Require Import Prelude CInt Memory Bus Csr Mmu Tlb Decode Alu Cpu CpuInv CpuFrame Isa MemOps Isolation.

#[local] Open Scope record_scope.
#[local] Open Scope Z_scope.

Abbreviation M := (exec (mach bus_t) (Z * Z)).

(** Whether translation is on, the privilege of data accesses, and what the tables
    say of an address. *)
Definition paging (s : mach bus_t) : Prop := satp_of s / 2 ^ 60 <> 0.
Definition data_priv (s : mach bus_t) : Z := effective_priv_mode (csr (m_cpu s)) (priv (m_cpu s)).
Definition translates (satp mstatus : Z) (b : bus_t) (p va : Z) (mode : mmu_access_mode) (pa : Z) : Prop :=
  if bypass_address_translation satp mstatus mode p then pa = va
  else exists k pte, sv39_leaf (rd_of b) satp va k pte /\
    permitted (pte_flags pte) mstatus mode p /\ pa = leaf_pa va k pte.
Definition maps (s : mach bus_t) (va : Z) (mode : mmu_access_mode) (pa : Z) : Prop :=
  translates (satp_of s) (mstatus_of s) (m_bus s) (data_priv s) va mode pa.
Definition data_coherent (s : mach bus_t) : Prop :=
  paging s -> tlb_coherent (d_tlb (m_cpu s)) (satp_of s) (m_bus s).

(** The table entries are words of RAM apart from the [n] bytes at [pa]. *)
Definition tables_apart (s : mach bus_t) (pa n : Z) : Prop :=
  paging s -> forall a, table_entry (rd_of (m_bus s)) (satp_of s) a ->
    ram_word (m_bus s) a /\ (a + 8 <= pa \/ pa + n <= a).

Definition set_dtlb (t : tlb_t) (s : mach bus_t) : mach bus_t := upd_cpu (fun c => c <| d_tlb := t |>) s.

(** A look-up finds what the tables say. *)
Lemma bypass_paging satp mstatus mode p :
  is_u 64 satp -> bypass_address_translation satp mstatus mode p = false -> satp / 2 ^ 60 <> 0.
Proof.
  intros Hu Hby E. assert (bypass_address_translation satp mstatus mode p = true) as H; [|congruence].
  apply bypass_iff; [done|]. by left.
Qed.

Lemma lookup_translates t satp mstatus b p va mode pa :
  is_u 64 va -> is_u 64 satp -> bus_ok b -> access_priv mstatus mode p = p -> length (tlb t) = 256%nat ->
  (satp / 2 ^ 60 <> 0 -> tlb_coherent t satp b) -> translates satp mstatus b p va mode pa ->
  exists r t', tlb_lookup t va satp mstatus mode p b = (r, t', b) /\ to_result r = MMU_VALID /\ to_pa r = Some pa /\
    length (tlb t') = 256%nat /\ (satp / 2 ^ 60 <> 0 -> tlb_coherent t' satp b).
Proof.
  intros Hva Hs Hb Hp Hlen Hco Hm. unfold translates in Hm.
  destruct (bypass_address_translation satp mstatus mode p) eqn:Hby.
  { subst pa. eexists _, t. unfold tlb_lookup. rewrite Hby. by split_and!. }
  specialize (Hco (bypass_paging _ _ _ _ Hs Hby)). destruct Hm as (k & pte & Hl & Hperm & ->).
  pose proof (tlb_lookup_ok t va satp mstatus mode p b Hva Hs Hb Hco Hp) as H.
  destruct (mmu_translation_leaf va satp mstatus mode p b k pte Hva Hs Hb Hby Hl ltac:(by rewrite Hp)) as [Hr Hpa].
  destruct (tlb_lookup _ _ _ _ _ _ _) as [[r t'] b']. destruct H as (H1 & H2 & -> & H3).
  exists r, t'. split; [done|]. split; [by rewrite H1|]. split; [rewrite H2, Hpa by (by rewrite H1); done|].
  split; [apply H3|by intros _].
Qed.

(** The translation of the core, for data and for the pc. *)
Lemma MMU_maps s va mode pa :
  mid s -> is_u 64 va -> data_coherent s -> maps s va mode pa ->
  exists t, MMU va mode s = (inr pa, set_dtlb t s) /\ mid (set_dtlb t s) /\ data_coherent (set_dtlb t s).
Proof.
  intros Hs Hva Hco Hm. pose proof Hs as [Hc Hb].
  destruct (lookup_translates (d_tlb (m_cpu s)) _ _ _ _ va mode pa Hva (satp_u _ Hc) Hb
    (access_priv_effective _ _ _) (mid_dtlb _ Hc) Hco Hm) as (r & t & E & Hr & Hpa & Hlen & Hco').
  exists t. unfold MMU. cbv zeta. rewrite E, Hr, Hpa.
  split; [by destruct s as [[] b tr]|]. split; [|exact Hco'].
  apply mid_upd_cpu; [done|]. clear -Hlen. intros Hm'. by destruct Hm'.
Qed.

(** The TLB is no part of what the tables say. *)
Lemma set_dtlb_bus t b s : set_dtlb t (s <| m_bus := b |>) = (set_dtlb t s) <| m_bus := b |>.
Proof. by destruct s as [[] ? ?]. Qed.
Lemma apart_dtlb t s pa n : tables_apart s pa n -> tables_apart (set_dtlb t s) pa n.
Proof. exact (fun H => H). Qed.
Lemma maps_dtlb t s va mode pa : maps s va mode pa -> maps (set_dtlb t s) va mode pa.
Proof. exact (fun H => H). Qed.

(** ** What a store leaves of the translation *)
Section store.
Context (s : mach bus_t) (pa n d : Z) (Hs : mid s) (Hpa : ram_span (m_bus s) pa n) (Hap : tables_apart s pa n).
Let s1 : mach bus_t := s <| m_bus := ram_store (m_bus s) pa n d |>.

Lemma store_tables a : paging s -> table_entry (rd_of (m_bus s)) (satp_of s) a -> rd_of (m_bus s1) a = rd_of (m_bus s) a.
Proof.
  intros Hp Ha. destruct (Hap Hp a Ha) as [Hw Hd]. pose proof Hs as [_ Hb]. pose proof (proj1 Hpa) as Hpa64.
  pose proof Hpa as (_ & Hn & _). apply size_cases in Hn.
  pose proof (bus_write_ram (m_bus s) pa n d Hb Hpa) as Hst. unfold s1, ram_store. cbn [m_bus update].
  assert ((m_bus s) <| bus_memory := (ram_write (bus_memory (m_bus s)) pa n d).2 |> = (bus_write (m_bus s) pa n d).2) as -> by (by rewrite Hst).
  unfold rd_of. apply (bread_ram (m_bus s)); [done|by apply bus_write_wf|done|by apply ram_word_write|].
  intros i Hi. apply (bus_write_bytes (m_bus s) pa n d i); [done|done|lia|lia].
Qed.

Lemma store_leaf va k pte :
  paging s -> sv39_leaf (rd_of (m_bus s)) (satp_of s) va k pte <-> sv39_leaf (rd_of (m_bus s1)) (satp_of s) va k pte.
Proof. intros Hp. apply sv39_leaf_agree. intros a. by apply store_tables. Qed.

Lemma maps_store va mode p : maps s va mode p -> maps s1 va mode p.
Proof.
  unfold maps. change (satp_of s1) with (satp_of s). change (mstatus_of s1) with (mstatus_of s).
  change (data_priv s1) with (data_priv s). unfold translates. destruct (bypass_address_translation _ _ _ _) eqn:Hby; [done|].
  intros (k & pte & Hl & H). exists k, pte. split; [|done]. apply store_leaf; [|done].
  exact (bypass_paging _ _ _ _ (satp_u _ (proj1 Hs)) Hby).
Qed.

Lemma coherent_store : data_coherent s -> data_coherent s1.
Proof.
  intros Hco Hp. apply (tlb_coherent_kept _ _ (m_bus s)); [|by apply Hco]. intros va k pte. by apply store_leaf.
Qed.
End store.

(** ** The accesses of the core *)
Lemma aligned_check_ram s a n cause v : ram_span (m_bus s) a n -> forall s' : mach bus_t, CHECK_MA_LS a n cause v s' = (inr tt, s').
Proof. intros (_ & Hn & _ & Hal) s'. by apply aligned_check. Qed.

Lemma store_maps s va pa n d :
  mid s -> is_u 64 va -> data_coherent s -> maps s va MMU_WRITE pa -> ram_span (m_bus s) pa n -> tables_apart s pa n ->
  exists t, let s1 := set_dtlb t (s <| m_bus := ram_store (m_bus s) pa n d |>) in
    EXEC_STORE va d n s = (inr tt, s1) /\ mid s1 /\ data_coherent s1.
Proof.
  intros Hs Hva Hco Hm Hpa Hap. destruct (MMU_maps s va MMU_WRITE pa Hs Hva Hco Hm) as (t & E & Hs1 & Hco1).
  exists t. unfold EXEC_STORE, mbind, exec_bind. rewrite E, (aligned_check_ram s _ _ _ _ Hpa).
  unfold bus_store. change (bwrite (m_bus (set_dtlb t s)) pa n d) with (bus_write (m_bus s) pa n d).
  rewrite (bus_write_ram (m_bus s) pa n d (proj2 Hs) Hpa). cbn [Z.eqb negb]. split; [reflexivity|]. split.
  - rewrite set_dtlb_bus. exact (mid_store (set_dtlb t s) pa n d Hs1 Hpa).
  - rewrite set_dtlb_bus. exact (coherent_store (set_dtlb t s) pa n d Hs1 Hpa (apart_dtlb t s pa n Hap) Hco1).
Qed.

Lemma load_maps s va pa n ext cause mode :
  mid s -> is_u 64 va -> data_coherent s -> maps s va mode pa -> ram_span (m_bus s) pa n ->
  exists t, EXEC_LOAD_HELPER va n ext cause mode s = (inr (ext (ram_value (m_bus s) pa n) (n * 8)), set_dtlb t s) /\
    mid (set_dtlb t s) /\ data_coherent (set_dtlb t s).
Proof.
  intros Hs Hva Hco Hm Hpa. destruct (MMU_maps s va mode pa Hs Hva Hco Hm) as (t & E & Hs1).
  exists t. split; [|exact Hs1]. unfold EXEC_LOAD_HELPER, mbind, exec_bind. rewrite E, (aligned_check_ram s _ _ _ _ Hpa).
  unfold bus_load. change (bread (m_bus (set_dtlb t s)) pa n) with (bus_read (m_bus s) pa n).
  rewrite (bus_read_ram _ pa n (proj2 Hs) Hpa), (ram_read_some _ pa n (proj2 Hs) Hpa). by destruct s as [[] b tr].
Qed.

(** The page offset is not translated. *)
Lemma maps_aligned s va mode pa n : maps s va mode pa -> ram_span (m_bus s) pa n -> va mod n = 0.
Proof.
  intros Hm (_ & Hn & _ & Hal). unfold maps, translates in Hm. destruct (bypass_address_translation _ _ _ _); [by subst|].
  destruct Hm as (k & pte & _ & _ & ->). unfold leaf_pa, page_span in Hal.
  assert ((PPN pte * 4096 + va mod 2 ^ (12 + 9 * Z.of_nat k)) mod 4096 = va mod 4096) as E.
  { rewrite Z.add_comm, Z.mod_add by lia. apply Z.mod_mod_divide. exists (2 ^ (9 * Z.of_nat k)).
    rewrite Z.pow_add_r by lia. change (2 ^ 12) with 4096. lia. }
  set (x := PPN pte * 4096 + _) in *. clearbody x. apply size_cases in Hn. destruct Hn as [-> |[-> |[-> | ->]]]; div_lia.
Qed.

(** ** Atomics *)
Lemma amo_maps s d n op f pa :
  mid s -> data_coherent s -> n = 4 \/ n = 8 ->
  let a := reg s (dec_rs1 d) in let old := ram_value (m_bus s) pa n in
  maps s a MMU_AMO pa -> maps s a MMU_WRITE pa -> ram_span (m_bus s) pa n -> tables_apart s pa n ->
  amo_computes n op f ->
  exists t, let s1 := set_dtlb t (s <| m_bus := ram_store (m_bus s) pa n (f (8 * n) (reg s (dec_rs2 d)) old) |>) in
    then_next (EXEC_AMO d n op) s =
      (inr (add64 (pc (m_cpu s)) 4), set_reg (dec_rd d) (signed (8 * n) old mod 2 ^ 64) s1) /\
    mid s1 /\ data_coherent s1.
Proof.
  intros Hs Hco Hn a old Hm Hw Hpa Hap Hf. pose proof Hs as [_ Hbus]. assert (is_u 64 a) as Ha by (by apply reg_u).
  destruct (load_maps s a pa n sext STORE_AMO_ACCESS_FAULT MMU_AMO Hs Ha Hco Hm Hpa) as (t1 & E1 & Hs1 & Hco1).
  fold old in E1. assert (is_u (8 * n) old) as Hold by exact (ram_value_u (m_bus s) pa n Hbus Hpa).
  set (v := op (reg s (dec_rs2 d)) (sext old (n * 8))).
  destruct (store_maps (set_dtlb t1 s) a pa n v Hs1 Ha Hco1 (maps_dtlb t1 _ _ _ _ Hw) Hpa (apart_dtlb t1 _ _ _ Hap))
    as (t2 & E2 & Hs2 & Hco2).
  assert (ram_store (m_bus s) pa n (f (8 * n) (reg s (dec_rs2 d)) old) = ram_store (m_bus s) pa n v) as ->.
  { apply ram_store_mod; [exact Hbus|exact Hpa|]. symmetry. apply Hf; [by apply reg_u|exact Hold]. }
  assert (set_dtlb t2 ((set_dtlb t1 s) <| m_bus := ram_store (m_bus (set_dtlb t1 s)) pa n v |>)
    = set_dtlb t2 (s <| m_bus := ram_store (m_bus s) pa n v |>)) as Eset.
  { destruct s as [[] ? ?]. reflexivity. }
  exists t2. cbv zeta. cbv zeta in Hs2, Hco2. rewrite Eset in E2, Hs2, Hco2. split; [|by split].
  unfold then_next, EXEC_AMO, rX, gets, mbind, exec_bind.
  change (aget 0 (regs (m_cpu s)) (dec_rs1 d)) with a. change (aget 0 (regs (m_cpu s)) (dec_rs2 d)) with (reg s (dec_rs2 d)).
  rewrite aligned_check by (exact (proj1 (proj2 Hpa)) || exact (maps_aligned s a _ pa n Hm Hpa)).
  rewrite E1. fold v. rewrite E2. unfold wX, modify, next, gets.
  rewrite sext_signed by (destruct Hn; lia). by replace (n * 8) with (8 * n) by lia.
Qed.

Lemma lr_maps s d n pa :
  mid s -> data_coherent s -> n = 4 \/ n = 8 ->
  let a := reg s (dec_rs1 d) in
  maps s a MMU_READ pa -> ram_span (m_bus s) pa n ->
  exists t, let s1 := set_res (fun _ => mk_reservation true a (add64 a n))
      (set_reg (dec_rd d) (signed (8 * n) (ram_value (m_bus s) pa n) mod 2 ^ 64) (set_dtlb t s)) in
    then_next (EXEC_LR d n) s = (inr (add64 (pc (m_cpu s)) 4), s1) /\ mid s1 /\ data_coherent s1.
Proof.
  intros Hs Hco Hn a Hm Hpa. assert (is_u 64 a) as Ha by (by apply reg_u).
  destruct (load_maps s a pa n sext LOAD_ACCESS_FAULT MMU_READ Hs Ha Hco Hm Hpa) as (t & E & Hs1 & Hco1).
  exists t. cbv zeta. split; [|split; [|exact Hco1]].
  - unfold then_next, EXEC_LR, EXEC_LOAD, rX, gets, mbind, exec_bind.
    change (aget 0 (regs (m_cpu s)) (dec_rs1 d)) with a. rewrite E, sext_signed by (destruct Hn; lia).
    replace (n * 8) with (8 * n) by lia. reflexivity.
  - apply mid_set_res; [apply mid_set_reg; [exact Hs1|apply Z.mod_pos_bound; lia]|].
    split; [exact Ha|apply add64_u].
Qed.

(** The conditions under which an SC that succeeds stores. *)
Record stores_to (s : mach bus_t) (a n pa : Z) : Prop := {
  st_maps : maps s a MMU_WRITE pa;
  st_ram : ram_span (m_bus s) pa n;
  st_apart : tables_apart s pa n;
}.

Lemma sc_runs s d n pa :
  mid s -> data_coherent s -> n = 4 \/ n = 8 ->
  let a := reg s (dec_rs1 d) in let ok := reserves (res (m_cpu s)) a n in
  a mod n = 0 -> (ok = true -> stores_to s a n pa) ->
  exists t, let s0 := set_res unreserved s in
    let s1 := if ok then set_dtlb t (s0 <| m_bus := ram_store (m_bus s) pa n (reg s (dec_rs2 d)) |>) else s0 in
    then_next (EXEC_SC d n) s = (inr (add64 (pc (m_cpu s)) 4), set_reg (dec_rd d) (if ok then 0 else 1) s1) /\
    mid s1 /\ data_coherent s1.
Proof.
  intros Hs Hco Hn a ok Hal Hst. assert (is_u 64 a) as Ha by (by apply reg_u).
  set (s0 := set_res unreserved s). assert (mid s0) as Hs0.
  { apply mid_set_res; [exact Hs|]. exact (mid_res _ (proj1 Hs)). }
  assert (n ∈ [1; 2; 4; 8]) as Hsz by (destruct Hn as [-> | ->]; set_solver).
  assert (then_next (EXEC_SC d n) s = if ok then (EXEC_STORE a (reg s (dec_rs2 d)) n;; wX (dec_rd d) 0;; next) s0
              else (wX (dec_rd d) 1;; next) s0) as ->.
  { unfold ok, then_next, EXEC_SC, rX, gets, mbind, exec_bind.
    change (aget 0 (regs (m_cpu s)) (dec_rs1 d)) with a. rewrite aligned_check by assumption.
    unfold reserves, modify. rewrite !Z.leb_antisym.
    change (upd_cpu _ s) with s0. change (aget 0 (regs (m_cpu s0)) (dec_rs2 d)) with (reg s (dec_rs2 d)).
    destruct (res_valid (res (m_cpu s))), (a <? addr_start _), (sub64 _ _ <? a); try reflexivity.
    cbn [negb orb andb]. by destruct (EXEC_STORE a _ n s0) as [[?|[]] ?]. }
  cbv zeta. destruct ok.
  - destruct (Hst eq_refl) as [Hm Hpa Hap]. clear Hst.
    destruct (store_maps s0 a pa n (reg s (dec_rs2 d)) Hs0 Ha Hco Hm Hpa Hap) as (t & E & Hs1 & Hco1).
    exists t. unfold mbind, exec_bind. rewrite E. split; [reflexivity|]. split; [exact Hs1|exact Hco1].
  - exists (d_tlb (m_cpu s)). split; [reflexivity|]. split; [exact Hs0|exact Hco].
Qed.

Lemma sc_maps s d n pa :
  mid s -> data_coherent s -> n = 4 \/ n = 8 ->
  let a := reg s (dec_rs1 d) in let ok := reserves (res (m_cpu s)) a n in
  a mod n = 0 -> (ok = true -> stores_to s a n pa) -> is_u 5 (dec_rd d) ->
  let r := then_next (EXEC_SC d n) s in
  r.1 = inr (add64 (pc (m_cpu s)) 4) /\ sc_outcome ok d pa n s r.2 /\ mid r.2 /\ data_coherent r.2.
Proof.
  intros Hs Hco Hn a ok Hal Hst Hrd r. pose proof Hs as [_ Hbus].
  destruct (sc_runs s d n pa Hs Hco Hn Hal Hst) as (t & E & Hs1 & Hco1). fold a ok in E, Hs1, Hco1. fold r in E.
  rewrite E. cbn [fst snd]. split; [reflexivity|]. destruct ok.
  - split; [|split; [exact (mid_set_reg _ _ 0 Hs1 ltac:(lia))|exact Hco1]].
    split; [exact (reg_set _ _ 0 Hs1 Hrd)|]. split; [exact (ram_store_stored (m_bus s) pa n _ Hbus (st_ram _ _ _ _ (Hst eq_refl)))|].
    do 2 (split; [reflexivity|]). intros k Hk Hne. exact (reg_set_ne _ _ 0 k (proj1 Hrd) Hk Hne).
  - split; [|split; [exact (mid_set_reg _ _ 1 Hs1 ltac:(lia))|exact Hco1]].
    split; [exact (reg_set _ _ 1 Hs1 Hrd)|]. do 3 (split; [reflexivity|]).
    intros k Hk Hne. exact (reg_set_ne _ _ 1 k (proj1 Hrd) Hk Hne).
Qed.

(** ** The theorem *)

(** C15: memory behaves as memory through the page tables: a store to a virtual
    address followed by a load of the same size from any virtual address that the
    tables map to the same RAM, the same one or an alias, under translation by
    hardware tables, cached in the TLB or not, in any privilege mode, returns the
    bytes stored with the extension of the load; nothing else in memory changes,
    nothing else in the registers, and the TLB stays in agreement with the tables. *)
Theorem virtual_roundtrip ftrace st ld p q n sgn pa s :
  In (p, n) stores -> In (q, n, sgn) loads -> matches st p = true -> matches ld q = true ->
  mid s -> data_coherent s ->
  maps s (address (decode st) s) MMU_WRITE pa -> maps s (address (decode ld) s) MMU_READ pa ->
  ram_span (m_bus s) pa n -> tables_apart s pa n ->
  let r1 := execute ftrace st s in let r2 := execute ftrace ld r1.2 in
  let v := reg s (dec_rs2 (decode st)) in
  r1.1 = inr (add64 (pc (m_cpu s)) 4) /\ r2.1 = inr (add64 (pc (m_cpu s)) 4) /\
  stored (m_bus s) (m_bus r1.2) pa n v /\ m_bus r2.2 = m_bus r1.2 /\
  reg r2.2 (dec_rd (decode ld)) = extend sgn (v mod 2 ^ (8 * n)) (8 * n) /\
  (forall k, 0 <= k -> k <> dec_rd (decode ld) -> reg r2.2 k = reg s k) /\
  csr (m_cpu r2.2) = csr (m_cpu s) /\ data_coherent r2.2.
Proof.
  intros Hp Hq Hst Hld Hs Hco Hw Hr Hpa Hap r1 r2 v. destruct (decode_ranges ld) as (Hrd & _). pose proof Hs as [_ Hbus].
  destruct (store_maps s (address (decode st) s) pa n v Hs (add64_u _ _) Hco Hw Hpa Hap) as (t1 & E1 & Hs1 & Hco1).
  set (s1 := set_dtlb t1 _) in *.
  assert (r1 = (inr (add64 (pc (m_cpu s)) 4), s1)) as ->.
  { unfold r1. erewrite store_dispatch by done. unfold mbind, exec_bind. fold v. by rewrite E1. }
  cbn [fst snd] in *. pose proof (ram_store_span (m_bus s) pa n Hbus Hpa v pa n Hpa) as Hpa1.
  assert (maps s1 (address (decode ld) s1) MMU_READ pa) as Hr1
    by exact (maps_dtlb t1 _ _ _ _ (maps_store s pa n v Hs Hpa Hap _ _ _ Hr)).
  destruct (load_dispatch ftrace ld q n sgn s1 Hq Hld) as (ext & E2 & Hext). unfold r2. rewrite E2.
  destruct (load_maps s1 (address (decode ld) s1) pa n ext LOAD_ACCESS_FAULT MMU_READ Hs1 (add64_u _ _) Hco1 Hr1 Hpa1)
    as (t2 & E3 & Hs2 & Hco2).
  unfold EXEC_LOAD, mbind, exec_bind. rewrite E3, Hext by (apply ram_value_u; [exact (proj2 Hs1)|exact Hpa1]).
  assert (ram_value (m_bus s1) pa n = v mod 2 ^ (8 * n)) as -> by exact (ram_store_value (m_bus s) pa n Hbus Hpa v).
  split; [reflexivity|]. split; [reflexivity|]. split; [exact (ram_store_stored (m_bus s) pa n v Hbus Hpa)|].
  split; [reflexivity|]. split; [|split; [|split]].
  - exact (reg_set (set_dtlb t2 s1) _ _ Hs2 Hrd).
  - intros k Hk Hne. exact (reg_set_ne (set_dtlb t2 s1) _ _ k (proj1 Hrd) Hk Hne).
  - reflexivity.
  - exact Hco2.
Qed.

(** C14: every AMO of the A extension is the read-modify-write of the architecture,
    through the page tables: at an address the tables map for atomics and for stores,
    it puts the sign-extended old value in rd, leaves in memory the value its name
    says (signed or unsigned comparison, addition modulo the width, bitwise
    operation, swap) of the source register and the old value, and touches no other
    word of memory and no other register. *)
Theorem amo_refined ftrace inst p n f pa s :
  In (p, n, f) amos -> matches inst p = true -> mid s -> data_coherent s ->
  let d := decode inst in let a := reg s (dec_rs1 d) in let old := ram_value (m_bus s) pa n in
  maps s a MMU_AMO pa -> maps s a MMU_WRITE pa -> ram_span (m_bus s) pa n -> tables_apart s pa n ->
  let r := execute ftrace inst s in
  r.1 = inr (add64 (pc (m_cpu s)) 4) /\
  reg r.2 (dec_rd d) = signed (8 * n) old mod 2 ^ 64 /\
  stored (m_bus s) (m_bus r.2) pa n (f (8 * n) (reg s (dec_rs2 d)) old) /\
  (forall k, 0 <= k -> k <> dec_rd d -> reg r.2 k = reg s k) /\ data_coherent r.2.
Proof.
  intros Hin H Hs Hco d a old Hm Hw Hpa Hap r. destruct (decode_ranges inst) as (Hrd & _).
  destruct (amo_dispatch ftrace inst p n f Hin H) as (op & E & Hop).
  destruct (amo_maps s d n op f pa Hs Hco (amos_size p n f Hin) Hm Hw Hpa Hap Hop) as (t & Er & Hs1 & Hco1).
  unfold r. rewrite E. fold d. rewrite Er. cbn [fst snd]. split; [reflexivity|].
  split; [exact (reg_set _ _ _ Hs1 Hrd)|].
  split; [exact (ram_store_stored (m_bus s) pa n _ (proj2 Hs) Hpa)|]. split; [|exact Hco1].
  intros k Hk Hne. exact (reg_set_ne _ _ _ k (proj1 Hrd) Hk Hne).
Qed.

(** C13: LR and SC pair as the architecture says, through the page tables: the LR
    loads the word and reserves its bytes, the next SC succeeds exactly when the
    bytes it addresses lie within those, storing its operand and returning 0, and
    otherwise leaves memory alone and returns 1; either way it gives up the
    reservation, so that a further SC fails whatever its address. *)
Theorem lr_sc_pairing ftrace lr sc sc' p q q' n m m' pa pa1 s :
  In (p, n) lrs -> In (q, m) scs -> In (q', m') scs ->
  matches lr p = true -> matches sc q = true -> matches sc' q' = true -> mid s -> data_coherent s ->
  let r1 := execute ftrace lr s in let s1 := r1.2 in
  let r2 := execute ftrace sc s1 in let s2 := r2.2 in
  let r3 := execute ftrace sc' s2 in let s3 := r3.2 in
  let a := reg s (dec_rs1 (decode lr)) in
  let a1 := reg s1 (dec_rs1 (decode sc)) in let a2 := reg s2 (dec_rs1 (decode sc')) in
  let within := (a <=? a1) && (a1 + m <=? a + n) in
  maps s a MMU_READ pa -> ram_span (m_bus s) pa n -> m <= a + n ->
  a1 mod m = 0 -> (within = true -> stores_to s a1 m pa1) -> a2 mod m' = 0 ->
  r1.1 = inr (add64 (pc (m_cpu s)) 4) /\ m_bus s1 = m_bus s /\
  reg s1 (dec_rd (decode lr)) = signed (8 * n) (ram_value (m_bus s) pa n) mod 2 ^ 64 /\
  r2.1 = inr (add64 (pc (m_cpu s)) 4) /\ sc_outcome within (decode sc) pa1 m s1 s2 /\
  r3.1 = inr (add64 (pc (m_cpu s)) 4) /\ sc_outcome false (decode sc') a2 m' s2 s3.
Proof.
  intros Hp Hq Hq' Hlr Hsc Hsc' Hs Hco r1 s1 r2 s2 r3 s3 a a1 a2 within Hm Hpa Hlow Hal1 Hst Hal2.
  destruct (decode_ranges lr) as (Hrd & _). pose proof (lrs_size p n Hp) as Hn. pose proof (scs_size q m Hq) as Hn1.
  destruct (lr_maps s (decode lr) n pa Hs Hco Hn Hm Hpa) as (t & E1 & Hs1 & Hco1).
  rewrite <- (lr_dispatch ftrace lr p n Hp Hlr) in E1. fold a r1 in E1. cbv zeta in Hs1, Hco1. fold a in Hs1, Hco1.
  set (x1 := set_res _ _) in *. assert (s1 = x1) as Ex by (unfold s1; by rewrite E1).
  assert (reserves (res (m_cpu s1)) a1 m = within) as Hres.
  { rewrite Ex. apply lr_reserves; try assumption; [by apply reg_u|].
    pose proof (maps_aligned s a _ pa n Hm Hpa) as Hal. pose proof (reg_u s (dec_rs1 (decode lr)) Hs) as Ha. fold a in Ha.
    destruct Hn as [-> | ->]; div_lia. }
  assert (mid s1 /\ data_coherent s1 /\ (within = true -> stores_to s1 a1 m pa1)) as (Hm1 & Hc1 & Hst1).
  { rewrite Ex. split; [exact Hs1|]. split; [exact Hco1|]. intros Hw. destruct (Hst Hw) as [G1 G2 G3]. by constructor. }
  assert (reserves (res (m_cpu s1)) (reg s1 (dec_rs1 (decode sc))) m = true -> stores_to s1 a1 m pa1) as Hst2
    by (fold a1; rewrite Hres; exact Hst1).
  destruct (sc_maps s1 (decode sc) m pa1 Hm1 Hc1 Hn1 Hal1 Hst2 (proj1 (decode_ranges sc))) as (H2 & O2 & Hm2 & Hc2).
  rewrite <- (sc_dispatch ftrace sc q m Hq Hsc) in H2, O2, Hm2, Hc2. fold a1 r2 in O2, H2, Hm2, Hc2. fold s2 in O2, Hm2, Hc2.
  rewrite Hres in O2. assert (pc (m_cpu s1) = pc (m_cpu s)) as Epc1 by (by rewrite Ex).
  assert (res (m_cpu s2) = unreserved (res (m_cpu s1)) /\ pc (m_cpu s2) = pc (m_cpu s)) as [Hno Epc2].
  { destruct O2 as (_ & _ & G & G' & _). exact (conj G (eq_trans G' Epc1)). }
  assert (reserves (res (m_cpu s2)) (reg s2 (dec_rs1 (decode sc'))) m' = false) as Hfail
    by exact (f_equal (fun r => reserves r _ m') Hno).
  assert (reserves (res (m_cpu s2)) (reg s2 (dec_rs1 (decode sc'))) m' = true -> stores_to s2 a2 m' a2) as Hst3
    by (rewrite Hfail; discriminate).
  destruct (sc_maps s2 (decode sc') m' a2 Hm2 Hc2 (scs_size q' m' Hq') Hal2 Hst3
    (proj1 (decode_ranges sc'))) as (H3 & O3 & _).
  rewrite <- (sc_dispatch ftrace sc' q' m' Hq' Hsc') in H3, O3. rewrite Hfail in O3. rewrite Epc1 in H2. rewrite Epc2 in H3.
  split; [exact (f_equal fst E1)|]. split; [exact (f_equal m_bus Ex)|]. split; [rewrite Ex; exact (reg_set s _ _ Hs Hrd)|].
  split; [exact H2|]. split; [exact O2|]. split; [exact H3|exact O3].
Qed.

(** ** Concrete runs *)

(** The user machine of [Isolation], with x1 an address of its data page, x2 a word
    with its sign bit set. *)
Definition paged_mach : mach bus_t :=
  upd_cpu (fun c => c <| regs := aset (aset (replicate 32 0) 1 0x1010) 2 0x8FFFFFFE |>) user_mach.

Lemma paged_mach_mid : mid paged_mach.
Proof.
  destruct user_mach_ok as [[[] _] Hb]. split; [|exact Hb]. constructor; try done.
  do 2 (apply (aset_Forall (fun v => 0 <= v < 2 ^ 64)); [lia|]). apply Forall_replicate. lia.
Qed.

Lemma paged_mach_leaf : sv39_leaf (rd_of user_bus) satp_example 0x1010 0 0x200010D7.
Proof.
  split; [vm_compute; tauto|]. split; [|done].
  apply (leaf_next _ _ _ _ 0x20000401); [vm_compute; reflexivity..|].
  apply (leaf_next _ _ _ _ 0x20000801); [vm_compute; reflexivity..|].
  apply leaf_here; vm_compute; reflexivity.
Qed.

Lemma paged_mach_satp : satp_of paged_mach = satp_example.
Proof. vm_compute. reflexivity. Qed.
Lemma paged_mach_maps mode : mode <> MMU_EXECUTE -> maps paged_mach 0x1010 mode 0x80004010.
Proof.
  intros Hm. unfold maps, translates. rewrite paged_mach_satp.
  assert (mstatus_of paged_mach = 0xA00000000) as -> by (vm_compute; reflexivity).
  assert (data_priv paged_mach = PRIV_U) as -> by (vm_compute; reflexivity).
  assert (bypass_address_translation satp_example 0xA00000000 mode PRIV_U = false) as -> by (by destruct mode).
  exists 0%nat, 0x200010D7. split; [exact paged_mach_leaf|]. split; [|reflexivity].
  unfold permitted. destruct mode; try done; repeat split; try done; by left.
Qed.

Lemma paged_mach_apart : tables_apart paged_mach 0x80004010 4.
Proof.
  intros _ a [va Hv]. rewrite paged_mach_satp in Hv. change (m_bus paged_mach) with user_bus in *.
  destruct (user_visits va 2 _ a Hv ltac:(lia) eq_refl) as [Ha Hal]. split; [by apply user_tables_read|lia].
Qed.

Lemma paged_mach_coherent : data_coherent paged_mach.
Proof. intros _. change (d_tlb (m_cpu paged_mach)) with tlb_zero. apply tlb_void_coherent. Qed.

Lemma paged_mach_span : ram_span (m_bus paged_mach) 0x80004010 4.
Proof. apply ram_spanb_spec. vm_compute. reflexivity. Qed.

(** SW x2, 0(x1); LW x5, 0(x1), in user mode. *)
Lemma virtual_roundtrip_witness :
  let r1 := execute false 0x0020A023 paged_mach in let r2 := execute false 0xA283 r1.2 in
  stored user_bus (m_bus r1.2) 0x80004010 4 0x8FFFFFFE /\ reg r2.2 5 = 0xFFFFFFFF8FFFFFFE.
Proof.
  destruct (virtual_roundtrip false 0x0020A023 0xA283 Inst.SW Inst.LW 4 true 0x80004010 paged_mach
    ltac:(cbn; tauto) ltac:(cbn; tauto) eq_refl eq_refl paged_mach_mid
    paged_mach_coherent (paged_mach_maps MMU_WRITE ltac:(discriminate))
    (paged_mach_maps MMU_READ ltac:(discriminate)) paged_mach_span
    paged_mach_apart) as (_ & _ & H1 & _ & H2 & _).
  assert (reg paged_mach (dec_rs2 (decode 0x0020A023)) = 0x8FFFFFFE) as E by (vm_compute; reflexivity).
  assert (extend true (0x8FFFFFFE mod 2 ^ (8 * 4)) (8 * 4) = 0xFFFFFFFF8FFFFFFE) as E' by (vm_compute; reflexivity).
  rewrite E in H1, H2. rewrite E' in H2. change (dec_rd (decode 0xA283)) with 5 in H2. cbv zeta.
  change (m_bus paged_mach) with user_bus in H1. split; [exact H1|exact H2].
Defined.

(** AMOMAX.W x5, x2, (x1): the word there is 0, the operand negative. *)
Lemma amo_refined_witness :
  let r := execute false 0xA020A2AF paged_mach in
  reg r.2 5 = 0 /\ stored user_bus (m_bus r.2) 0x80004010 4 0.
Proof.
  destruct (amo_refined false 0xA020A2AF Inst.AMOMAX_W 4
    (fun bits src old => Z.max (signed bits src) (signed bits old)) 0x80004010 paged_mach
    ltac:(cbn; do 12 right; left; reflexivity) eq_refl paged_mach_mid paged_mach_coherent
    (paged_mach_maps MMU_AMO ltac:(discriminate)) (paged_mach_maps MMU_WRITE ltac:(discriminate))
    paged_mach_span paged_mach_apart) as (_ & H1 & H2 & _).
  assert (ram_value (m_bus paged_mach) 0x80004010 4 = 0) as E by (vm_compute; reflexivity).
  assert (reg paged_mach (dec_rs2 (decode 0xA020A2AF)) = 0x8FFFFFFE) as E' by (vm_compute; reflexivity).
  cbv zeta. rewrite E in H1, H2. rewrite E' in H2. change (m_bus paged_mach) with user_bus in H2.
  split; [exact H1|exact H2].
Defined.

(** LR.W x5, (x1); SC.W x6, x2, (x1), twice. *)
Lemma lr_sc_pairing_witness :
  let s1 := (execute false 0x1000A2AF paged_mach).2 in
  let s2 := (execute false 0x1820A32F s1).2 in let s3 := (execute false 0x1820A32F s2).2 in
  reg s2 6 = 0 /\ stored (m_bus s1) (m_bus s2) 0x80004010 4 0x8FFFFFFE /\ reg s3 6 = 1 /\ m_bus s3 = m_bus s2.
Proof.
  assert (reg (execute false 0x1000A2AF paged_mach).2 (dec_rs1 (decode 0x1820A32F)) = 0x1010) as E1 by (vm_compute; reflexivity).
  assert (reg (execute false 0x1000A2AF paged_mach).2 (dec_rs2 (decode 0x1820A32F)) = 0x8FFFFFFE) as E2 by (vm_compute; reflexivity).
  assert (reg (execute false 0x1820A32F (execute false 0x1000A2AF paged_mach).2).2 (dec_rs1 (decode 0x1820A32F)) mod 4 = 0)
    as E3 by (vm_compute; reflexivity).
  pose proof (lr_sc_pairing false 0x1000A2AF 0x1820A32F 0x1820A32F Inst.LR_W Inst.SC_W Inst.SC_W 4 4 4
    0x80004010 0x80004010 paged_mach
    ltac:(cbn; tauto) ltac:(cbn; tauto) ltac:(cbn; tauto) eq_refl eq_refl eq_refl paged_mach_mid paged_mach_coherent) as H.
  cbv zeta in H. rewrite E1 in H.
  specialize (H (paged_mach_maps MMU_READ ltac:(discriminate)) paged_mach_span).
  assert (reg paged_mach (dec_rs1 (decode 0x1000A2AF)) = 0x1010) as E0 by (vm_compute; reflexivity). rewrite E0 in H.
  destruct (H ltac:(lia) eq_refl
    (fun _ => Build_stores_to paged_mach 0x1010 4 0x80004010 (paged_mach_maps MMU_WRITE ltac:(discriminate))
       paged_mach_span paged_mach_apart) E3) as (_ & _ & _ & _ & (H1 & H2 & _) & _ & (H3 & H4 & _)).
  rewrite E2 in H2. split; [exact H1|]. split; [exact H2|]. split; [exact H3|exact H4].
Defined.
