(* ===== verification/Exec.v ===== *)
(** * The execution loop

    Models [emulator/src/cpu/cpu_exec.c] and [cpu_exec.h]: step the core, serve the
    power-off and reboot requests of syscon, poll the devices, sample the interrupt
    lines.  The host contributes one [host_input] to each iteration (what stdin
    holds, the clock); a run is a function of the list of these, and yields [None]
    when the list ends before the run does.  [inst_count] is a [long] that is only
    read below [max_instruction], so its overflow is not modelled.  [devices] and
    [bus->devices] are one object. *)
From stdpp Require Import base tactics numbers option list sets relations.
From S2P Require Import Prelude CInt Memory Syscon Clint Plic Uart Bus Csr Mmu Tlb Decode Cpu CpuInv Isolation.

#[local] Open Scope record_scope.
#[local] Open Scope Z_scope.

Inductive CPU_EXEC_STATUS_t := FINISH | MEM_ERROR | CPU_ERROR | DEVICE_ERROR | POWEROFF | TIMEOUT.
#[export] Instance status_eq_dec : EqDecision CPU_EXEC_STATUS_t.
Proof. solve_decision. Defined.

Record host_input := mk_host { h_poll : poll_result; h_clock : Z }.

Definition devices (s : mach bus_t) : dev_list_t := bus_devices (m_bus s).
Definition upd_devices (f : dev_list_t -> dev_list_t) : mach bus_t -> mach bus_t :=
  fun s => s <| m_bus ::= fun b => b <| bus_devices ::= f |> |>.

Definition poweroff_requested (s : mach bus_t) : bool :=
  syscon_poweroff_requested (device (syscon (devices s))).
Definition reboot_requested (s : mach bus_t) : bool :=
  syscon_reboot_requested (device (syscon (devices s))).

Section exec.
Context (itrace ftrace : bool) (max_instruction : Z).

(** The reboot branch. *)
Definition reboot (s : mach bus_t) : mach bus_t :=
  upd_devices device_reset (s <| m_cpu := cpu_init |>).

Definition serve_reboot (s : mach bus_t) : mach bus_t := if reboot_requested s then reboot s else s.

(** The device update and the interrupt lines at the end of the body. *)
Definition update_devices (h : host_input) (s : mach bus_t) : Z * mach bus_t :=
  let '(r, d) := device_update (devices s) (h_poll h) (h_clock h) in
  (r, upd_devices (fun _ => d) s).
Definition sample_lines (s : mach bus_t) : mach bus_t :=
  let '(_, l, d) := device_irq_level (devices s) in
  upd_cpu (set_lines (irq_msip l) (irq_mtip l) (irq_meip l) (irq_seip l)) (upd_devices (fun _ => d) s).

(** The body of the loop: the status of a [break], or the new [inst_count]. *)
Definition exec_body (h : host_input) (inst_count : Z) (s : mach bus_t)
  : (CPU_EXEC_STATUS_t + Z) * mach bus_t :=
  let s := cpu_step itrace ftrace s in
  if poweroff_requested s then (inl POWEROFF, s)
  else
    let s := serve_reboot s in
    let inst_count := inst_count + 1 in
    if (0 <? max_instruction) && (max_instruction <=? inst_count) then (inl TIMEOUT, s)
    else
      let '(r, s) := update_devices h s in
      if negb (r =? 0) then (inl DEVICE_ERROR, s)
      else (inr inst_count, sample_lines s).

Fixpoint exec_loop (hs : list host_input) (inst_count : Z) (s : mach bus_t)
  : option (CPU_EXEC_STATUS_t * mach bus_t) :=
  if halted (m_cpu s) then Some (FINISH, s)
  else
    match hs with
    | [] => None
    | h :: hs =>
        match exec_body h inst_count s with
        | (inl st, s) => Some (st, s)
        | (inr n, s) => exec_loop hs n s
        end
    end.

Definition cpu_exec (hs : list host_input) (s : mach bus_t) : option (CPU_EXEC_STATUS_t * mach bus_t) :=
  let s := upd_cpu (fun c => c <| i_tlb ::= fun t => (tlb_init t).2 |>
                               <| d_tlb ::= fun t => (tlb_init t).2 |>) s in
  exec_loop hs 0 s.
End exec.

(** ** The pieces of an iteration *)

Lemma upd_devices_ok f s :
  mach_ok s -> bus_wf ((m_bus s) <| bus_devices ::= f |>) -> mach_ok (upd_devices f s).
Proof. intros [Hc _] Hb. by split. Qed.

Lemma set_lines_ok a b c d s : mach_ok s -> mach_ok (upd_cpu (set_lines a b c d) s).
Proof. intros H. apply (mach_step_ok _ _ H), step_lines. Qed.

Lemma reboot_ok s : mach_ok s -> mach_ok (reboot s).
Proof.
  intros [_ Hb]. pose proof (mach_reset_ok (B := bus_t) ((m_bus s) <| bus_devices ::= device_reset |>)
    (device_reset_wf _ Hb)) as [Hc _]. split; [exact Hc|by apply device_reset_wf].
Qed.

Lemma update_devices_ok h s : mach_ok s -> mach_ok (update_devices h s).2.
Proof.
  intros H. unfold update_devices. pose proof (device_update_wf (m_bus s) (h_poll h) (h_clock h) (proj2 H)) as Hb.
  unfold devices. destruct (device_update _ _ _) as [r d]. by apply upd_devices_ok.
Qed.

Lemma sample_lines_ok s : mach_ok s -> mach_ok (sample_lines s).
Proof.
  intros H. unfold sample_lines. pose proof (device_irq_level_wf (m_bus s) (proj2 H)) as Hb.
  unfold devices. destruct (device_irq_level _) as [[x l] d]. apply set_lines_ok. by apply upd_devices_ok.
Qed.

(** The poll fails exactly when the host does while there is room for a character. *)
Lemma device_update_result d host t :
  (device_update d host t).1 = (uart16550_poll_input (device (uart0 d)) host).1.
Proof.
  unfold device_update. destruct (uart16550_poll_input _ _) as [r u]. cbn [fst].
  by destruct (Z.eqb_spec r 0) as [->|].
Qed.

Lemma poll_input_error u host :
  (uart16550_poll_input u host).1 <> 0 -> host = PollError \/ host = PollReadError.
Proof. unfold uart16550_poll_input. destruct (_ <? _); [|done]. destruct host; cbn; auto; done. Qed.

Section properties.
Context (itrace ftrace : bool) (max_instruction : Z).
Abbreviation exec_body := (exec_body itrace ftrace max_instruction).
Abbreviation exec_loop := (exec_loop itrace ftrace max_instruction).
Abbreviation cpu_exec := (cpu_exec itrace ftrace max_instruction).

(** An iteration that does not leave the loop. *)
Definition iteration (h : host_input) (s s' : mach bus_t) : Prop :=
  halted (m_cpu s) = false /\
  let s1 := cpu_step itrace ftrace s in
  poweroff_requested s1 = false /\
  let '(r, s2) := update_devices h (serve_reboot s1) in
  r = 0 /\ s' = sample_lines s2.

Inductive iterations : list host_input -> mach bus_t -> mach bus_t -> Prop :=
  | iter_nil s : iterations [] s s
  | iter_cons h hs s s1 s2 : iteration h s s1 -> iterations hs s1 s2 -> iterations (h :: hs) s s2.

(** How the loop is left from [s]: with status [st] and final state [s'], after [n]
    complete iterations, the host being about to contribute [h]. *)
Definition leaves (n : Z) (h : option host_input) (s : mach bus_t) (st : CPU_EXEC_STATUS_t) (s' : mach bus_t) : Prop :=
  let s1 := cpu_step itrace ftrace s in
  match st with
  | FINISH => halted (m_cpu s) = true /\ s' = s
  | POWEROFF => halted (m_cpu s) = false /\ s' = s1 /\ poweroff_requested s' = true
  | TIMEOUT => halted (m_cpu s) = false /\ poweroff_requested s1 = false /\ s' = serve_reboot s1 /\
      0 < max_instruction <= n + 1
  | DEVICE_ERROR => halted (m_cpu s) = false /\ poweroff_requested s1 = false /\
      exists h0, h = Some h0 /\ (h_poll h0 = PollError \/ h_poll h0 = PollReadError) /\
        s' = (update_devices h0 (serve_reboot s1)).2
  | MEM_ERROR | CPU_ERROR => False
  end.

Lemma exec_body_spec h n s :
  halted (m_cpu s) = false ->
  match exec_body h n s with
  | (inl st, s') => leaves n (Some h) s st s' /\ st <> FINISH
  | (inr m, s') => m = n + 1 /\ iteration h s s' /\ (0 < max_instruction -> m < max_instruction)
  end.
Proof.
  intros Hh. unfold Exec.exec_body, iteration. cbv zeta.
  set (s1 := cpu_step itrace ftrace s). destruct (poweroff_requested s1) eqn:Hp; [by repeat split|].
  destruct (Z.ltb_spec 0 max_instruction), (Z.leb_spec max_instruction (n + 1)); cbn [andb];
    [by repeat split| | |].
  all: unfold update_devices, leaves; fold s1.
  all: pose proof (device_update_result (devices (serve_reboot s1)) (h_poll h) (h_clock h)) as Hr;
    destruct (device_update _ _ _) as [r d] eqn:Eu; cbn [fst] in Hr; subst r.
  all: destruct (Z.eqb_spec (uart16550_poll_input (device (uart0 (devices (serve_reboot s1)))) (h_poll h)).1 0) as [E|E];
    cbn [negb]; [repeat split; (done || lia)|].
  all: split; [|done]; split_and!; try done; exists h; split; [done|]; split; [by eapply poll_input_error|];
    unfold update_devices; by rewrite Eu.
Qed.

Lemma exec_loop_spec hs n s st s' :
  exec_loop hs n s = Some (st, s') ->
  exists hs1 hs2 s1, hs = hs1 ++ hs2 /\ iterations hs1 s s1 /\
    leaves (n + Z.of_nat (length hs1)) (head hs2) s1 st s' /\
    (0 < max_instruction -> n < max_instruction -> n + Z.of_nat (length hs1) < max_instruction).
Proof.
  revert n s. induction hs as [|h hs IH]; intros n s; cbn [Exec.exec_loop];
    destruct (halted (m_cpu s)) eqn:Hh.
  1,3: intros [= <- <-]; eexists [], _, s; split; [done|]; split; [constructor|]; cbn; split; [done|lia].
  - done.
  - pose proof (exec_body_spec h n s Hh) as Hb. destruct (exec_body h n s) as [[st1|m] s2].
    + intros [= <- <-]. exists [], (h :: hs), s. split; [done|]. split; [constructor|].
      cbn. rewrite Z.add_0_r. split; [apply Hb|lia].
    + destruct Hb as (-> & Hit & Hlt). intros (hs1 & hs2 & s3 & -> & Hi & Hl & Hm)%IH.
      exists (h :: hs1), hs2, s3. split; [done|]. split; [by econstructor|]. cbn [length].
      replace (n + Z.of_nat (S (length hs1))) with (n + 1 + Z.of_nat (length hs1)) by lia. split; [done|lia].
Qed.

Lemma exec_loop_total hs n s :
  0 < max_instruction -> max_instruction - n <= Z.of_nat (length hs) -> n < max_instruction ->
  exists st s', exec_loop hs n s = Some (st, s').
Proof.
  intros Hmax. revert n s. induction hs as [|h hs IH]; intros n s Hl Hn; cbn [Exec.exec_loop length] in *; [lia|].
  destruct (halted (m_cpu s)) eqn:Hh; [by eauto|].
  pose proof (exec_body_spec h n s Hh) as Hb. destruct (exec_body h n s) as [[st1|m] s2]; [by eauto|].
  destruct Hb as (-> & _ & Hlt). apply IH; lia.
Qed.

Lemma iteration_ok h s s' : mach_ok s -> iteration h s s' -> mach_ok s'.
Proof.
  intros Hs (_ & _ & H). revert H. set (s1 := cpu_step itrace ftrace s).
  assert (mach_ok (serve_reboot s1)) as H1.
  { unfold serve_reboot, s1. destruct (reboot_requested _); [apply reboot_ok|]; by apply cpu_step_ok. }
  pose proof (update_devices_ok h _ H1) as H2. destruct (update_devices _ _) as [r s2].
  intros [_ ->]. by apply sample_lines_ok.
Qed.

Lemma iterations_ok hs s s' : mach_ok s -> iterations hs s s' -> mach_ok s'.
Proof. intros Hs H. induction H; [done|]. eauto using iteration_ok. Qed.

Lemma leaves_ok n h s st s' : mach_ok s -> leaves n h s st s' -> mach_ok s'.
Proof.
  intros Hs. pose proof (cpu_step_ok itrace ftrace s Hs) as H1.
  assert (mach_ok (serve_reboot (cpu_step itrace ftrace s))) as H2.
  { unfold serve_reboot. destruct (reboot_requested _); [by apply reboot_ok|done]. }
  destruct st; cbn; try done.
  - by intros [_ ->].
  - intros (_ & _ & h0 & _ & _ & ->). by apply update_devices_ok.
  - by intros (_ & -> & _).
  - by intros (_ & _ & -> & _).
Qed.

(** The core runs on: nothing sets the halt flag. *)
Lemma iteration_running h s s' : mach_ok s -> iteration h s s' -> halted (m_cpu s') = false.
Proof.
  intros Hs (Hh & _ & H). revert H. pose proof (step_halted itrace ftrace s Hs) as H1.
  set (s1 := cpu_step itrace ftrace s) in *.
  assert (halted (m_cpu (serve_reboot s1)) = false) as H2.
  { unfold serve_reboot. destruct (reboot_requested _); [done|congruence]. }
  unfold update_devices, sample_lines. destruct (device_update _ _ _) as [r d].
  destruct (device_irq_level _) as [[x l] d']. intros [_ ->]. exact H2.
Qed.

Lemma iterations_finish hs n h s s1 s' : mach_ok s -> iterations hs s s1 -> leaves n h s1 FINISH s' -> hs = [].
Proof.
  intros Hs Hi. revert Hs. induction Hi as [s|h' hs s s1 s2 Hit Hi IH]; intros Hs [Hh Hl]; [done|].
  pose proof (iteration_running _ _ _ Hs Hit) as Hr. pose proof (iteration_ok _ _ _ Hs Hit) as Hok.
  specialize (IH Hok (conj Hh Hl)). subst hs. inversion Hi; subst. congruence.
Qed.

(** The state the loop starts from. *)
Definition exec_start (s : mach bus_t) : mach bus_t :=
  upd_cpu (fun c => c <| i_tlb ::= tlb_void |> <| d_tlb ::= tlb_void |>) s.
Lemma exec_start_ok s : mach_ok s -> mach_ok (exec_start s).
Proof. intros [[[] ?] ?]. split; [split; [by constructor|done]|done]. Qed.

(** C30: a run ends for a reason the status names: after some complete iterations,
    FINISH means the core was halted at the start (no instruction halts it), POWEROFF that the last instruction requested
    it, TIMEOUT that exactly [max_instruction] steps were made, DEVICE_ERROR that
    the host failed to deliver input; MEM_ERROR and CPU_ERROR are never returned,
    and the machine stays well formed through every reboot. *)
Theorem exec_status_spec hs s st s' :
  mach_ok s -> cpu_exec hs s = Some (st, s') ->
  mach_ok s' /\
  exists hs1 hs2 s1, hs = hs1 ++ hs2 /\ iterations hs1 (exec_start s) s1 /\
    leaves (Z.of_nat (length hs1)) (head hs2) s1 st s' /\
    (0 < max_instruction -> Z.of_nat (length hs1) < max_instruction) /\
    (st = FINISH -> hs1 = [] /\ halted (m_cpu s) = true).
Proof.
  intros Hs (hs1 & hs2 & s1 & Heq & Hi & Hl & Hm)%exec_loop_spec. rewrite Z.add_0_l in *.
  pose proof (exec_start_ok s Hs) as Hs0. change (upd_cpu _ s) with (exec_start s) in Hi.
  split; [|exists hs1, hs2, s1; split_and!; try (done || lia)].
  2: { intros ->. pose proof (iterations_finish _ _ _ _ _ _ Hs0 Hi Hl) as ->. inversion Hi; subst. by destruct Hl. }
  eapply leaves_ok; [|exact Hl]. eapply iterations_ok; [|exact Hi]. by apply exec_start_ok.
Qed.

(** C31: with an instruction limit the run ends: the loop returns a status within
    [max_instruction] iterations, whatever the program and the host do. *)
Theorem exec_terminates hs s :
  0 < max_instruction <= Z.of_nat (length hs) -> exists st s', cpu_exec hs s = Some (st, s').
Proof. intros [H1 H2]. apply exec_loop_total; lia. Qed.
End properties.

#[local] Arguments uart16550_poll_input : simpl never.
#[local] Arguments uart16550_irq_level : simpl never.
#[local] Arguments clint_mtime_tick : simpl never.
#[local] Arguments clint_irq_level : simpl never.
#[local] Arguments plic_irq_update : simpl never.

(** The clock of the host at a reboot: it has not gone back, nor 5800 years ahead. *)
Definition clock_sane (h : host_input) (s : mach bus_t) : Prop :=
  0 <= h_clock h - prev_time_ns (device (clint (devices s))) < 2 ^ 64.

(** After a reset nothing asks for an interrupt. *)
Lemma uart_quiet u : ier (uart_reg u) = 0 -> (uart16550_irq_level u).1 = false.
Proof. intros H. unfold uart16550_irq_level. by rewrite H. Qed.

Lemma poll_reset_ier u host : ier (uart_reg (uart16550_poll_input (uart16550_reset u) host).2) = 0.
Proof. destruct host; reflexivity. Qed.

Lemma plic_quiet p :
  let p' := plic_irq_update (plic_reset p) (aset (replicate (Z.to_nat PLIC_MAX_INTERRUPT) false) 10 false) in
  plic_meip p' = false /\ plic_seip p' = false.
Proof. destruct p. vm_compute. by split. Qed.

Lemma clint_quiet c t :
  0 <= t - prev_time_ns c < 2 ^ 64 ->
  let c' := (clint_irq_level (clint_mtime_tick (clint_reset c) t)).2 in MSIP c' = false /\ MTIP c' = false.
Proof.
  intros Ht. cbv zeta. unfold clint_irq_level, clint_mtime_tick. cbn.
  rewrite Z.quot_div_nonneg by lia. unfold add64. rewrite w64_small, w64_small by (try apply w64_u; div_lia).
  destruct (Z.leb_spec UINT64_MAX (0 + (t - prev_time_ns c) / 10)); [|by split].
  change UINT64_MAX with (2 ^ 64 - 1) in *. div_lia.
Qed.

(** C32: a reboot request restarts the machine: when the iteration ends the core is
    as after power-on with no interrupt line raised, no request is pending, memory
    and boot ROM keep their contents, and syscon remembers the cause. *)
Theorem reboot_restarts itrace ftrace max n h s s' m :
  let s1 := cpu_step itrace ftrace s in
  reboot_requested s1 = true -> clock_sane h s1 -> exec_body itrace ftrace max h n s = (inr m, s') ->
  m_cpu s' = cpu_init /\ reboot_requested s' = false /\ poweroff_requested s' = false /\
  bus_memory (m_bus s') = bus_memory (m_bus s1) /\
  device (bootROM (devices s')) = device (bootROM (devices s1)) /\
  reset_cause (syscon_reg (device (syscon (devices s')))) = reset_cause (syscon_reg (device (syscon (devices s1)))).
Proof.
  unfold exec_body. cbv zeta. generalize (cpu_step itrace ftrace s). intros s1 Hr Hc.
  destruct (poweroff_requested s1); [done|]. unfold serve_reboot. rewrite Hr.
  destruct (_ && _); [done|]. unfold clock_sane in Hc. unfold update_devices, reboot, devices.
  destruct s1 as [c b tr]. destruct_bus b. unfold device_update. cbn in Hc |- *.
  pose proof (poll_reset_ier ua (h_poll h)) as Hier.
  destruct (uart16550_poll_input (uart16550_reset ua) (h_poll h)) as [r u]. cbn [snd] in Hier. cbn.
  destruct (Z.eqb_spec r 0) as [->|Hr0]; cbn; [|by rewrite (proj2 (Z.eqb_neq r 0) Hr0)]. intros [= <- <-].
  unfold sample_lines, devices, device_irq_level. cbn.
  pose proof (clint_quiet cl (h_clock h) Hc) as Hcl. destruct (clint_irq_level _) as [ci c'].
  pose proof (uart_quiet u Hier) as Hu. destruct (uart16550_irq_level u) as [ui u'].
  cbn in Hu, Hcl |- *. subst ui. destruct Hcl as [-> ->]. destruct (plic_quiet pl) as [Hm Hs].
  rewrite Hm, Hs. by repeat split.
Qed.

(** ** Examples: LUI x1, 0x100; ADDI x2, x0, cmd; SW x2, 0(x1) stores a command to syscon. *)
Definition syscon_example (cmd : Z) : mach bus_t :=
  mk_mach cpu_init
    (bus_write (bus_write bus_example 0x80000000 8 (Z.lor 0x00000113001000B7 (Z.shiftl cmd 52))).2
       0x80000008 4 0x0020A023).2 [].
Definition idle_host : host_input := mk_host PollNoData 1000.

Lemma syscon_example_ok cmd : mach_ok (syscon_example cmd).
Proof. apply mach_reset_ok. apply bus_write_wf, bus_write_wf, bus_example_wf. Qed.

Lemma exec_status_spec_witness :
  match cpu_exec false false 100 (replicate 3 idle_host) (syscon_example 1) with
  | Some (st, s') => st = POWEROFF /\ mach_ok s'
  | None => False
  end.
Proof.
  assert (fst <$> cpu_exec false false 100 (replicate 3 idle_host) (syscon_example 1) = Some POWEROFF) as Hst
    by (vm_compute; reflexivity).
  destruct (cpu_exec _ _ _ _ _) as [[st s']|] eqn:E; [|discriminate Hst]. injection Hst as ->.
  split; [reflexivity|]. exact (proj1 (exec_status_spec _ _ _ _ _ _ _ (syscon_example_ok 1) E)).
Defined.

Lemma exec_terminates_witness :
  0 < 2 <= Z.of_nat (length (replicate 2 idle_host)) /\
  exists st s', cpu_exec false false 2 (replicate 2 idle_host) (syscon_example 1) = Some (st, s').
Proof. split; [cbn; lia|]. apply exec_terminates. cbn. lia. Defined.

Lemma reboot_restarts_witness :
  let s2 := cpu_step false false (cpu_step false false (syscon_example 2)) in
  let s' := (exec_body false false 0 idle_host 2 s2).2 in
  m_cpu s' = cpu_init /\
  reset_cause (syscon_reg (device (syscon (devices s')))) =
  reset_cause (syscon_reg (device (syscon (devices (cpu_step false false s2))))).
Proof.
  cbv zeta. set (s2 := cpu_step false false (cpu_step false false (syscon_example 2))).
  assert ((exec_body false false 0 idle_host 2 s2).1 = inr 3) as Hb by (vm_compute; reflexivity).
  destruct (exec_body _ _ _ _ _ _) as [r s'] eqn:E. cbn [fst snd] in *. subst r.
  assert (reboot_requested (cpu_step false false s2) = true) as Hr by (vm_compute; reflexivity).
  assert (clock_sane idle_host (cpu_step false false s2)) as Hc by (vm_compute; split; congruence).
  destruct (reboot_restarts false false 0 2 idle_host s2 s' 3 Hr Hc E) as (H1 & _ & _ & _ & _ & H2).
  split; [exact H1|exact H2].
Defined.
