(* ===== verification/Progress.v ===== *)
(** * Progress

    What the execution loop eventually does for a waiting core.  A core in WFI
    waits exactly while [mip] is zero ([cpu_step_waiting]); the host clock drives
    the CLINT, whose line sets [mip.MTIP]; so a programmed timer ends the wait, and
    an enabled pending interrupt keeps the next step from executing an instruction
    and is taken there, unless the fetch faults first.
    Clocks are the [h_clock] of the host inputs; the measure is
    [10 * mtime - prev_time_ns], which polling leaves constant. *)
From stdpp Require Import base tactics numbers option list sets relations sorting.
From S2P Require Import Prelude CInt Memory Syscon Clint Plic Uart Bus Csr CsrProps Mmu Tlb Decode Cpu CpuInv CpuProps.
From S2P Require Import Isolation Exec.

#[local] Open Scope record_scope.
#[local] Open Scope Z_scope.

(** ** The WFI check *)
Section wait.
Context {B : Type} `{HB : BusLaws B}.

(** The four bits the lines write. *)
Lemma latched_mip c a b d e i :
  is_u 64 (mip (csr_reg c)) -> 0 <= i ->
  Z.testbit (mip (csr_reg (csr_begin_update c a b d e))) i =
    if i =? INT_SEIP then e else if i =? INT_MTIP then d else if i =? INT_MSIP then b else if i =? INT_MEIP then a
    else Z.testbit (mip (csr_reg c)) i.
Proof.
  intros Hu Hi. change (mip (csr_reg (csr_begin_update c a b d e))) with
    (csr_field_set (csr_field_set (csr_field_set (csr_field_set (mip (csr_reg c)) INT_MEIP 1 (Z.b2z a))
       INT_MSIP 1 (Z.b2z b)) INT_MTIP 1 (Z.b2z d)) INT_SEIP 1 (Z.b2z e)).
  unfold INT_MEIP, INT_MSIP, INT_MTIP, INT_SEIP.
  rewrite !csr_field_set_testbit by (repeat apply csr_field_set_u; assumption || lia).
  assert (forall (x : bool) k, Z.testbit (Z.b2z x) (k - k) = x) as Hb by (intros x k; rewrite Z.sub_diag; by destruct x).
  zbits_split; subst; cbn [andb]; try reflexivity; rewrite ?Hb; try reflexivity.
  all: replace i with 9 by lia || replace i with 7 by lia || replace i with 3 by lia || replace i with 11 by lia; apply Hb.
Qed.
End wait.

(** ** Interrupts are taken *)
Section taken.
Context {B : Type} `{HB : BusLaws B}.

Lemma enabled_pending c p id : interrupt_pending_and_enabled c p = Some id -> interrupt_pending c = true.
Proof.
  intros H. apply find_some in H as [_ H]. unfold interrupt_pending.
  destruct (Z.eqb_spec (mip (csr_reg c)) 0) as [E|]; [|done]. exfalso. revert H. unfold check_interrupt. rewrite E.
  unfold csr_field_get. replace (shr64 0 id) with 0 by (unfold shr64; by rewrite Z.shiftr_0_l). rewrite Z.land_0_l.
  cbn [Z.eqb negb andb]. by repeat case_match.
Qed.

Lemma cpu_step_enabled itrace ftrace (s : mach B) id :
  interrupt_pending_and_enabled (csr (m_cpu (latched s))) (priv (m_cpu s)) = Some id ->
  cpu_step itrace ftrace s = step_awake itrace ftrace (resume s).
Proof.
  intros Hp%enabled_pending. destruct (wfi (m_cpu s)) eqn:E.
  - by rewrite cpu_step_waiting, Hp.
  - by rewrite cpu_step_running, resume_running.
Qed.

Lemma run_inst_interrupt itrace ftrace (s : mach B) id :
  interrupt_pending_and_enabled (csr (m_cpu s)) (priv (m_cpu s)) = Some id ->
  let r := run_inst itrace ftrace s in
  (exists t, m_cpu r.2 = (m_cpu s) <| i_tlb := t |>) /\
  match (fetch s).1 with
  | inl e => r.1 = inl e
  | inr _ => r.1 = inl (Z.lor TRAP_INTERRUPT id, 0)
  end.
Proof.
  intros Hi. cbv zeta. destruct (fetch_core s) as [t Ht].
  assert (run_inst itrace ftrace s = match fetch s with
    | (inl e, s1) => (inl e, s1)
    | (inr i, s1) => (p ← get_pc; emit itrace (IRING p i);; take_interrupt;; execute ftrace i) s1
    end) as -> by reflexivity.
  destruct (fetch s) as [[e|i] s1]; cbn [fst snd] in *; [split; [by exists t|done]|].
  unfold mbind, exec_bind, get_pc, gets, emit, modify, take_interrupt.
  destruct itrace; cbn [m_cpu update]; rewrite Ht; cbn [csr priv update]; rewrite Hi; (split; [by exists t|done]).
Qed.
End taken.

(** ** The timer *)
Definition clk (s : mach bus_t) : clint_t := device (clint (devices s)).

(** A machine that has done nothing since [s0] but wait. *)
Record idle (s0 s : mach bus_t) : Prop := {
  id_ok : mach_ok s;
  id_wfi : wfi (m_cpu s) = true;
  id_run : halted (m_cpu s) = false;
  id_regs : regs (m_cpu s) = regs (m_cpu s0) /\ pc (m_cpu s) = pc (m_cpu s0) /\ priv (m_cpu s) = priv (m_cpu s0);
  id_csr n : n <> R_mip -> csr_get n (csr_reg (csr (m_cpu s))) = csr_get n (csr_reg (csr (m_cpu s0)));
  id_sys : poweroff_requested s = false /\ reboot_requested s = false;
  id_cmp : mtimecmp (clint_reg (clk s)) = mtimecmp (clint_reg (clk s0));
  id_time : 10 * mtime (clint_reg (clk s)) - prev_time_ns (clk s) = 10 * mtime (clint_reg (clk s0)) - prev_time_ns (clk s0);
}.

Definition host_ok (h : host_input) : Prop := h_poll h <> PollError /\ h_poll h <> PollReadError.

Lemma timer_pending s : mach_ok s -> mtip (m_cpu s) = true -> interrupt_pending (csr (m_cpu (latched s))) = true.
Proof.
  intros [[Hc _] _] Ht. unfold interrupt_pending.
  assert (is_u 64 (mip (csr_reg (csr (m_cpu s))))) as Hu by apply (csr_legal_u _ R_mip), Hc.
  pose proof (latched_mip (csr (m_cpu s)) (meip (m_cpu s)) (msip (m_cpu s)) (mtip (m_cpu s)) (seip (m_cpu s)) INT_MTIP
    Hu ltac:(vm_compute; congruence)) as H.
  change (csr_begin_update _ _ _ _ _) with (csr (m_cpu (latched s))) in H. rewrite Ht in H.
  destruct (Z.eqb_spec (mip (csr_reg (csr (m_cpu (latched s))))) 0) as [E|]; [|done]. by rewrite E, Z.bits_0 in H.
Qed.

(** The device half of an iteration. *)
Lemma poll_ok u host : host <> PollError -> host <> PollReadError -> (uart16550_poll_input u host).1 = 0.
Proof. intros H1 H2. unfold uart16550_poll_input. destruct (_ <? _); [|done]. by destruct host. Qed.

Lemma device_half h s :
  host_ok h ->
  exists a b d c', (update_devices h s).1 = 0 /\
    c' = (clint_irq_level (clint_mtime_tick (clk s) (h_clock h))).2 /\
    let s' := sample_lines (update_devices h s).2 in
    clk s' = c' /\ syscon (devices s') = syscon (devices s) /\ m_cpu s' = set_lines a (MTIP c') b d (m_cpu s).
Proof.
  intros [H1 H2]. unfold update_devices, device_update. pose proof (poll_ok (device (uart0 (devices s))) _ H1 H2) as Hr.
  destruct (uart16550_poll_input _ _) as [r u]. cbn [fst] in Hr. subst r. cbn [negb Z.eqb fst snd].
  unfold sample_lines, device_irq_level, devices, clk. destruct s as [c b tr]. destruct_bus b.
  cbn -[clint_mtime_tick clint_irq_level uart16550_irq_level plic_irq_update].
  destruct (clint_irq_level _) as [ci c'], (uart16550_irq_level u) as [ui u'].
  cbn -[plic_irq_update]. by eexists _, _, _, c'.
Qed.

Lemma irq_level_fields c :
  let c' := (clint_irq_level c).2 in
  clint_reg c' = clint_reg c /\ prev_time_ns c' = prev_time_ns c /\
  MTIP c' = (mtimecmp (clint_reg c') <=? mtime (clint_reg c')).
Proof.
  unfold clint_irq_level. cbn. destruct (Clint.msip (clint_reg c) =? 1); cbn;
    destruct (mtimecmp (clint_reg c) <=? mtime (clint_reg c)) eqn:E; cbn; by rewrite ?E.
Qed.

(** Ticks of a clock that does not go back, without wrap-around. *)
Lemma tick_exact c t :
  clint_wf c -> prev_time_ns c <= t -> mtime (clint_reg c) + (t - prev_time_ns c) / 10 < 2 ^ 64 ->
  let c' := clint_mtime_tick c t in
  mtime (clint_reg c') = mtime (clint_reg c) + (t - prev_time_ns c) / 10 /\
  prev_time_ns c' = prev_time_ns c + 10 * ((t - prev_time_ns c) / 10) /\ mtimecmp (clint_reg c') = mtimecmp (clint_reg c).
Proof.
  intros (_ & _ & Hm) Hle Hw. cbn. rewrite Z.quot_div_nonneg by lia.
  assert (0 <= (t - prev_time_ns c) / 10) by div_lia.
  unfold add64. rewrite (w64_small (_ / _)), w64_small by lia. split; [done|]. split; [lia|done].
Qed.

Section waiting.
Context (itrace ftrace : bool).
Abbreviation iteration := (iteration itrace ftrace).
Abbreviation iterations := (iterations itrace ftrace).

Lemma idle_iteration s0 h s :
  idle s0 s -> host_ok h -> prev_time_ns (clk s) <= h_clock h ->
  mtime (clint_reg (clk s)) + (h_clock h - prev_time_ns (clk s)) / 10 < 2 ^ 64 ->
  interrupt_pending (csr (m_cpu (latched s))) = false ->
  exists s', iteration h s s' /\ idle s0 s' /\ prev_time_ns (clk s') <= h_clock h < prev_time_ns (clk s') + 10 /\
    mtip (m_cpu s') = (mtimecmp (clint_reg (clk s')) <=? mtime (clint_reg (clk s'))).
Proof.
  intros Hid Hh Hle Hw Hp. pose proof Hid as [Hok Hwfi Hrun (Hr1 & Hr2 & Hr3) Hcsr [Hpo Hre] Hcmp Ht].
  pose proof (cpu_step_waiting itrace ftrace s Hwfi) as Est. rewrite Hp in Est.
  assert (devices (latched s) = devices s) as Ed by done.
  assert (serve_reboot (latched s) = latched s) as Esr.
  { unfold serve_reboot, reboot_requested. rewrite Ed. fold (reboot_requested s). by rewrite Hre. }
  destruct (device_half h (latched s) Hh) as (a & b & d & c' & Hr & Ec & Hclk & Hsys & Hcpu).
  destruct (tick_exact (clk s) (h_clock h)) as (T1 & T2 & T3); [|done..|].
  { apply (bwf_clint (m_bus s)). apply Hok. }
  set (s' := sample_lines (update_devices h (latched s)).2) in *.
  assert (iteration h s s') as Hit.
  { split; [done|]. cbv zeta. rewrite Est, Esr. split; [unfold poweroff_requested; by rewrite Ed|].
    unfold s'. destruct (update_devices h (latched s)) as [r s2]. by split. }
  assert (clint_reg c' = clint_reg (clint_mtime_tick (clk s) (h_clock h)) /\
    prev_time_ns c' = prev_time_ns (clint_mtime_tick (clk s) (h_clock h)) /\
    MTIP c' = (mtimecmp (clint_reg c') <=? mtime (clint_reg c'))) as (C1 & C2 & C3).
  { subst c'. apply irq_level_fields. }
  exists s'. split; [done|]. split; [constructor|].
  - by eapply iteration_ok.
  - rewrite Hcpu. exact Hwfi.
  - rewrite Hcpu. exact Hrun.
  - rewrite Hcpu. exact (conj Hr1 (conj Hr2 Hr3)).
  - intros n Hn. rewrite Hcpu, <- Hcsr by done. change (csr (set_lines _ _ _ _ _)) with (csr (m_cpu (latched s))).
    destruct n; try reflexivity. by destruct Hn.
  - unfold poweroff_requested, reboot_requested. rewrite Hsys. by split.
  - by rewrite Hclk, C1, T3.
  - rewrite Hclk, C1, C2, T1, T2, <- Ht. lia.
  - rewrite Hclk, C2, T2. split; [div_lia|]. rewrite Hcpu. exact C3.
Qed.

(** The clocks of the host from [p] on do not go back. *)
Definition clocks_from (p : Z) (hs : list host_input) : Prop := Sorted Z.le (p :: map h_clock hs).

Lemma clocks_from_cons p h hs : clocks_from p (h :: hs) -> p <= h_clock h /\ clocks_from (h_clock h) hs.
Proof. intros H. apply Sorted_inv in H as [H1 H2]. split; [by apply HdRel_inv in H2|exact H1]. Qed.
Lemma clocks_from_weaken p q hs : q <= p -> clocks_from p hs -> clocks_from q hs.
Proof.
  intros Hq H. apply Sorted_inv in H as [H1 H2]. constructor; [done|]. destruct (map h_clock hs); constructor.
  apply HdRel_inv in H2. lia.
Qed.
Lemma clocks_from_last p hs h : clocks_from p (hs ++ [h]) -> p <= h_clock h.
Proof.
  revert p. induction hs as [|h1 hs IH]; intros p Hc; apply clocks_from_cons in Hc as [H1 H2]; [done|].
  specialize (IH _ H2). lia.
Qed.

Lemma idle_wakes s0 hs h s :
  idle s0 s -> Forall host_ok (hs ++ [h]) -> clocks_from (prev_time_ns (clk s)) (hs ++ [h]) ->
  let now := mtime (clint_reg (clk s)) + (h_clock h - prev_time_ns (clk s)) / 10 in
  mtimecmp (clint_reg (clk s)) <= now < 2 ^ 64 ->
  exists hs1 hs2 s1, hs ++ [h] = hs1 ++ hs2 /\ iterations hs1 s s1 /\ idle s0 s1 /\
    interrupt_pending (csr (m_cpu (latched s1))) = true.
Proof.
  revert s. induction hs as [|h1 hs IH]; intros s Hid Hh Hc now Hnow.
  all: destruct (interrupt_pending (csr (m_cpu (latched s)))) eqn:Hp;
    [eexists [], _, s; split; [reflexivity|]; split; [constructor|done]|].
  - apply clocks_from_cons in Hc as [Hle _]. apply Forall_cons in Hh as [Hh _].
    destruct (idle_iteration s0 h s Hid Hh Hle ltac:(unfold now in Hnow; lia) Hp) as (s' & Hit & Hid' & Hprev & Hmt).
    exists [h], [], s'. split; [done|]. split; [econstructor; [done|constructor]|]. split; [done|].
    apply timer_pending; [apply Hid'|]. rewrite Hmt. apply Z.leb_le.
    pose proof (id_cmp _ _ Hid). pose proof (id_cmp _ _ Hid'). pose proof (id_time _ _ Hid). pose proof (id_time _ _ Hid').
    unfold now in Hnow. div_lia.
  - cbn [app] in *. pose proof (clocks_from_last _ _ _ (proj2 (clocks_from_cons _ _ _ Hc))) as Hl.
    apply clocks_from_cons in Hc as [Hle Hc]. apply Forall_cons in Hh as [Hh1 Hh].
    destruct (idle_iteration s0 h1 s Hid Hh1 Hle ltac:(unfold now in Hnow; div_lia) Hp) as (s' & Hit & Hid' & Hprev & _).
    pose proof (id_cmp _ _ Hid). pose proof (id_cmp _ _ Hid'). pose proof (id_time _ _ Hid). pose proof (id_time _ _ Hid').
    destruct (IH s' Hid' Hh) as (hs1 & hs2 & s1 & E & Hi & Hid1 & Hp1).
    + eapply clocks_from_weaken; [|exact Hc]. lia.
    + unfold now in Hnow. div_lia.
    + exists (h1 :: hs1), hs2, s1. split; [by rewrite E|]. split; [by econstructor|]. by split.
Qed.

(** C11: a core in WFI wakes up: while it waits nothing of the program's state
    changes (registers, pc, privilege, CSRs other than [mip]), and if the host
    keeps delivering input and its clock, which does not go back, reaches the time
    programmed in [mtimecmp], then at some iteration the core resumes execution
    behind the WFI, at the latest at the first step after the clock has been read
    at that time; an earlier interrupt wakes it earlier. *)
Theorem wfi_timer_wakes s hs h :
  mach_ok s -> wfi (m_cpu s) = true -> halted (m_cpu s) = false ->
  poweroff_requested s = false -> reboot_requested s = false ->
  Forall host_ok (hs ++ [h]) -> clocks_from (prev_time_ns (clk s)) (hs ++ [h]) ->
  let now := mtime (clint_reg (clk s)) + (h_clock h - prev_time_ns (clk s)) / 10 in
  mtimecmp (clint_reg (clk s)) <= now < 2 ^ 64 ->
  exists hs1 hs2 s1, hs ++ [h] = hs1 ++ hs2 /\ iterations hs1 s s1 /\
    regs (m_cpu s1) = regs (m_cpu s) /\ pc (m_cpu s1) = pc (m_cpu s) /\ priv (m_cpu s1) = priv (m_cpu s) /\
    (forall n, n <> R_mip -> csr_get n (csr_reg (csr (m_cpu s1))) = csr_get n (csr_reg (csr (m_cpu s)))) /\
    cpu_step itrace ftrace s1 = step_awake itrace ftrace (resume s1).
Proof.
  intros Hok Hw Hh Hpo Hre Hf Hc now Hnow.
  assert (idle s s) as Hid by (by constructor).
  destruct (idle_wakes s hs h s Hid Hf Hc Hnow) as (hs1 & hs2 & s1 & E & Hi & Hid1 & Hp).
  exists hs1, hs2, s1. split; [done|]. split; [done|]. destruct (id_regs _ _ Hid1) as (R1 & R2 & R3).
  split; [done|]. split; [done|]. split; [done|]. split; [apply (id_csr _ _ Hid1)|].
  by rewrite cpu_step_waiting, Hp by apply Hid1.
Qed.
End waiting.

Section interrupts.
Context {B : Type} `{HB : BusLaws B}.

Lemma interrupt_cause c p id :
  interrupt_pending_and_enabled c p = Some id -> Z.lor TRAP_INTERRUPT id = 2 ^ 63 + id.
Proof.
  intros H%interrupt_id_range.
  repeat (apply elem_of_cons in H as [->|H]; [reflexivity|]). by apply elem_of_nil in H.
Qed.
Lemma end_exec_wfi npc trap (s : mach B) : wfi (m_cpu (end_exec npc trap s)) = wfi (m_cpu s).
Proof. destruct s as [[] b tr]. unfold end_exec. cbn. by destruct (satp_written _). Qed.

Lemma trap_enter_mip c cause val pc p :
  mip (csr_reg (trap_enter c cause val pc p).1.2) = mip (csr_reg c).
Proof. unfold trap_enter. by destruct (_ =? _). Qed.
Lemma end_update_mip c b : mip (csr_reg (csr_end_update c b)) = mip (csr_reg c).
Proof. unfold csr_end_update. cbv zeta. by destruct (_ && _ && _), (_ && _). Qed.

(** C12: when an interrupt is pending and enabled as the lines are sampled, no
    instruction is executed by that step, which also ends WFI: the registers are
    unchanged, nothing retires and the core is at the trap vector.  If the fetch at
    pc succeeds, the trap is the selected interrupt.  If the fetch faults, the step
    takes that fault instead, since the code translates and fetches before it looks
    at the interrupts; the interrupt stays pending in [mip].  Both cases occur. *)
Theorem interrupt_taken itrace ftrace (s : mach B) id :
  mach_ok s -> interrupt_pending_and_enabled (csr (m_cpu (latched s))) (priv (m_cpu s)) = Some id ->
  let s' := cpu_step itrace ftrace s in
  exists cause val,
    let '(vec, c, p) := trap_enter (csr (m_cpu (latched s))) cause val (pc (m_cpu s)) (priv (m_cpu s)) in
    regs (m_cpu s') = regs (m_cpu s) /\ pc (m_cpu s') = vec /\ priv (m_cpu s') = p /\
    csr (m_cpu s') = csr_end_update c false /\ wfi (m_cpu s') = false /\
    mip (csr_reg (csr (m_cpu s'))) = mip (csr_reg (csr (m_cpu (latched s)))) /\
    match (fetch (resume s)).1 with
    | inl e => (cause, val) = e
    | inr _ => cause = 2 ^ 63 + id /\ val = 0
    end.
Proof.
  intros [[Hc Hz] Hb] Hi s'. unfold s'. rewrite (cpu_step_enabled itrace ftrace s id Hi).
  destruct (run_inst_interrupt itrace ftrace (resume s) id Hi) as [[t Ht] Hr].
  pose proof (interrupt_cause _ _ _ Hi) as Hcause.
  unfold step_awake. destruct (run_inst itrace ftrace (resume s)) as [r s2]. cbn [fst snd] in Ht, Hr.
  assert (exists e, r = inl e) as [[cause val] ->] by (destruct (fetch (resume s)).1; by eexists).
  exists cause, val. unfold raise_exception. rewrite Ht. cbn [csr pc priv update].
  change (csr (m_cpu (resume s))) with (csr (m_cpu (latched s))). change (pc (m_cpu (resume s))) with (pc (m_cpu s)).
  change (priv (m_cpu (resume s))) with (priv (m_cpu s)).
  pose proof (trap_enter_mip (csr (m_cpu (latched s))) cause val (pc (m_cpu s)) (priv (m_cpu s))) as Hmip.
  destruct (trap_enter _ _ _ _ _) as [[vec c] p]. cbn [fst snd] in Hmip. cbv zeta.
  match goal with |- context [end_exec vec true ?x] => destruct (end_exec_fields vec true x) as (-> & -> & -> & -> & _);
    assert (m_cpu x = (m_cpu s2) <| csr := c |> <| priv := p |>) as Ex by (unfold emit, modify; by destruct ftrace);
    rewrite (end_exec_wfi vec true x);
    rewrite Ex, Ht end.
  cbn [regs priv csr update]. change (regs ((m_cpu (resume s)) <| i_tlb := t |> <| csr := c |> <| priv := p |>)) with (regs (m_cpu s)).
  split; [rewrite <- Hz at 2; rewrite aset_same; [done|rewrite (mid_len _ Hc); lia]|].
  split; [reflexivity|]. split; [reflexivity|]. split; [reflexivity|]. split; [reflexivity|].
  split; [etransitivity; [apply end_update_mip|exact Hmip]|].
  destruct (fetch (resume s)).1; [injection Hr as ->; reflexivity|]. injection Hr as -> ->.
  split; [exact Hcause|reflexivity].
Qed.
End interrupts.

(** A core in WFI, the timer set to 5 ticks of 10 ns. *)
Definition wfi_example : mach bus_t :=
  mk_mach (cpu_init <| wfi := true |>) (bus_write bus_example (CLINT_BASE + 0x4000) 8 5).2 [].

Lemma wfi_example_ok : mach_ok wfi_example.
Proof.
  destruct (mach_reset_ok (HB := bus_laws) _ (bus_write_wf bus_example (CLINT_BASE + 0x4000) 8 5 bus_example_wf))
    as [[[] Hz] Hb]. split; [split; [by constructor|exact Hz]|exact Hb].
Qed.

Definition wfi_hosts : list host_input := [mk_host PollNoData 7; mk_host PollNoData 31].
Definition wfi_last : host_input := mk_host PollNoData 52.

Lemma wfi_timer_wakes_witness :
  exists hs1 hs2 s1, wfi_hosts ++ [wfi_last] = hs1 ++ hs2 /\ iterations false false hs1 wfi_example s1 /\
    pc (m_cpu s1) = RST_VEC /\ cpu_step false false s1 = step_awake false false (resume s1).
Proof.
  assert (Forall host_ok (wfi_hosts ++ [wfi_last])) as H1 by (by repeat constructor).
  assert (clocks_from (prev_time_ns (clk wfi_example)) (wfi_hosts ++ [wfi_last])) as H2.
  { assert (prev_time_ns (clk wfi_example) = 0) as -> by (vm_compute; reflexivity).
    repeat constructor; cbn; lia. }
  assert (mtimecmp (clint_reg (clk wfi_example)) <= mtime (clint_reg (clk wfi_example)) +
    (h_clock wfi_last - prev_time_ns (clk wfi_example)) / 10 < 2 ^ 64) as H3 by (vm_compute; split; congruence).
  destruct (wfi_timer_wakes false false wfi_example wfi_hosts wfi_last wfi_example_ok eq_refl eq_refl
    ltac:(vm_compute; reflexivity) ltac:(vm_compute; reflexivity) H1 H2 H3) as (hs1 & hs2 & s1 & E & Hi & _ & Hp & _ & _ & Hs).
  exists hs1, hs2, s1. split; [exact E|]. split; [exact Hi|]. split; [exact Hp|exact Hs].
Defined.

(** User mode, the timer line raised and enabled. *)
Definition irq_csr : csr_t := (csr_access csr_init CSR_MIE CSR_OP_RW 0x80 false true 0 PRIV_M).2.
Definition irq_example : mach bus_t :=
  mk_mach (cpu_init <| csr := irq_csr |> <| priv := PRIV_U |> <| mtip := true |>) bus_example [].

Lemma irq_csr_wf : csr_wf irq_csr.
Proof. apply csr_access_wf; [apply csr_init_wf|lia..]. Qed.
Lemma irq_example_ok : mach_ok irq_example.
Proof.
  destruct (mach_reset_ok (HB := bus_laws) _ bus_example_wf) as [[[] Hz] Hb].
  split; [split; [|exact Hz]|exact Hb]. constructor; try done; [exact irq_csr_wf|by left].
Qed.

Definition irq_end : mach bus_t := cpu_step false false irq_example.

(** The same core, its pc outside every device: the access fault of the fetch comes
    first, the timer interrupt stays pending. *)
Definition irq_fault : mach bus_t := upd_cpu (fun c => c <| pc := 0x40000000 |>) irq_example.
Definition irq_fault_end : mach bus_t := cpu_step false false irq_fault.

Lemma irq_fault_ok : mach_ok irq_fault.
Proof. destruct irq_example_ok as [[[] Hz] Hb]. split; [split; [|exact Hz]|exact Hb]. by constructor. Qed.

Lemma interrupt_taken_witness :
  regs (m_cpu irq_end) = regs (m_cpu irq_example) /\ mcause (csr_reg (csr (m_cpu irq_end))) = 2 ^ 63 + 7 /\
  Z.testbit (mip (csr_reg (csr (m_cpu irq_fault_end)))) INT_MTIP = true /\
  mcause (csr_reg (csr (m_cpu irq_fault_end))) = INST_ACCESS_FAULT.
Proof.
  split; [|split; [vm_compute; reflexivity|split; [|vm_compute; reflexivity]]].
  - pose proof (interrupt_taken (HB := bus_laws) false false irq_example 7 irq_example_ok
      ltac:(vm_compute; reflexivity)) as H. cbv zeta in H. destruct H as (cause & val & H).
    destruct (trap_enter _ _ _ _ _) as [[vec c] p]. exact (proj1 H).
  - pose proof (interrupt_taken (HB := bus_laws) false false irq_fault 7 irq_fault_ok
      ltac:(vm_compute; reflexivity)) as H. cbv zeta in H. destruct H as (cause & val & H).
    destruct (trap_enter _ _ _ _ _) as [[vec c] p]. destruct H as (_ & _ & _ & _ & _ & H & _).
    change (Z.testbit (mip (csr_reg (csr (m_cpu (cpu_step false false irq_fault))))) INT_MTIP = true).
    rewrite H. vm_compute. reflexivity.
Defined.
