(* ===== verification/Arch.v ===== *)
(** * The machine of the architecture

    [arch] is the state a program sees: the pc, the registers, the bytes of memory
    and the reservation.  [arch_step] runs one instruction of RV64IMA on it, as the
    manual words it; the memory system (which address is fetched, loaded and stored
    where) is a parameter, instantiated by the page tables and the RAM of an emulated
    machine.  The emulator's fetch, decode, TLBs, counters, interrupt latches and
    device updates are none of its business; [Simulation] proves that the emulator
    implements it. *)
From stdpp Require Import base tactics numbers option list sets.
From S2P Require Import Prelude CInt Memory Bus Csr CsrProps Mmu Tlb Decode Alu Cpu CpuInv Isa MemOps Isolation Paging.

#[local] Open Scope record_scope.
#[local] Open Scope Z_scope.

(** ** The architecture *)
Record arch := mk_arch { a_pc : Z; a_x : Z -> Z; a_mem : Z -> Z; a_res : option (Z * Z) }.
#[export] Instance eta_arch : Eta arch := fun a => mk_arch (a_pc a) (a_x a) (a_mem a) (a_res a).

Definition xreg (a : arch) (n : Z) : Z := if n =? 0 then 0 else a_x a n.
Definition set_x (n v : Z) (a : arch) : arch := a <| a_x ::= fun x k => if k =? n then v else x k |>.
Definition mem_value (m : Z -> Z) (a n : Z) : Z := le_value ((fun i => m (a + i)) <$> seqZ 0 n).
Definition mem_update (a n v : Z) (m : Z -> Z) : Z -> Z := fun i =>
  if (a <=? i) && (i <? a + n) then v / 2 ^ (8 * (i - a)) mod 256 else m i.
Definition goto (npc : Z) (a : arch) : arch := a <| a_pc := npc mod 2 ^ 64 |>.
Definition next_inst (a : arch) : arch := goto (a_pc a + 4) a.

(** The memory system: where a pc is fetched, where an address is accessed, what is
    ordinary memory for an access of a size, and what a store may reach there. *)
Record memory_system := mk_memory_system {
  ms_fetch : Z -> Z -> Prop;
  ms_data : mmu_access_mode -> Z -> Z -> Prop;
  ms_ram : Z -> Z -> Prop;
  ms_free : Z -> Z -> Prop;
}.

Section arch.
Context (M : memory_system).

(** The bytes of a reservation cover an access, without the wrap-around that the
    code has for an SC wider than its reservation at the bottom of memory. *)
Definition covers (r : option (Z * Z)) (a n : Z) : bool :=
  match r with Some (b, m) => (b <=? a) && (a + n <=? b + m) | None => false end.
Definition no_wrap (r : option (Z * Z)) (n : Z) : Prop :=
  match r with Some (b, m) => n <= b + m | None => True end.

Definition stores_at (va n pa : Z) : Prop := ms_data M MMU_WRITE va pa /\ ms_ram M pa n /\ ms_free M pa n.

Inductive arch_instr (inst : Z) (a : arch) : arch -> Prop :=
  | instr_isa p f npc v :
      let d := decode inst in
      In (p, f) isa -> matches inst p = true ->
      f (a_pc a) (xreg a (dec_rs1 d)) (xreg a (dec_rs2 d)) (s64 (dec_imm d)) = inr (npc, v) ->
      arch_instr inst a
        (goto npc (match v with Some v => set_x (dec_rd d) (v mod 2 ^ 64) a | None => a end))
  | instr_load p n sgn pa :
      let d := decode inst in
      In (p, n, sgn) loads -> matches inst p = true ->
      ms_data M MMU_READ ((xreg a (dec_rs1 d) + s64 (dec_imm d)) mod 2 ^ 64) pa -> ms_ram M pa n ->
      arch_instr inst a (next_inst (set_x (dec_rd d) (extend sgn (mem_value (a_mem a) pa n) (8 * n)) a))
  | instr_store p n pa :
      let d := decode inst in
      In (p, n) stores -> matches inst p = true ->
      stores_at ((xreg a (dec_rs1 d) + s64 (dec_imm d)) mod 2 ^ 64) n pa ->
      arch_instr inst a (next_inst (a <| a_mem ::= mem_update pa n (xreg a (dec_rs2 d)) |>))
  | instr_amo p n f pa :
      let d := decode inst in
      In (p, n, f) amos -> matches inst p = true ->
      ms_data M MMU_AMO (xreg a (dec_rs1 d)) pa -> stores_at (xreg a (dec_rs1 d)) n pa ->
      let old := mem_value (a_mem a) pa n in
      arch_instr inst a (next_inst (set_x (dec_rd d) (signed (8 * n) old mod 2 ^ 64)
        (a <| a_mem ::= mem_update pa n (f (8 * n) (xreg a (dec_rs2 d)) old) |>)))
  | instr_lr p n pa :
      let d := decode inst in
      In (p, n) lrs -> matches inst p = true ->
      ms_data M MMU_READ (xreg a (dec_rs1 d)) pa -> ms_ram M pa n ->
      arch_instr inst a (next_inst (set_x (dec_rd d) (signed (8 * n) (mem_value (a_mem a) pa n) mod 2 ^ 64)
        (a <| a_res := Some (xreg a (dec_rs1 d), n) |>)))
  | instr_sc p n pa :
      let d := decode inst in
      In (p, n) scs -> matches inst p = true -> no_wrap (a_res a) n -> xreg a (dec_rs1 d) mod n = 0 ->
      let ok := covers (a_res a) (xreg a (dec_rs1 d)) n in
      (ok = true -> stores_at (xreg a (dec_rs1 d)) n pa) ->
      arch_instr inst a (next_inst (set_x (dec_rd d) (if ok then 0 else 1)
        ((if ok then a <| a_mem ::= mem_update pa n (xreg a (dec_rs2 d)) |> else a) <| a_res := None |>))).

Definition arch_step (a a' : arch) : Prop :=
  exists pa, ms_fetch M (a_pc a) pa /\ ms_ram M pa 4 /\ arch_instr (mem_value (a_mem a) pa 4) a a'.
End arch.

(** ** The memory system of a machine *)
Definition fetches (s : mach bus_t) (va pa : Z) : Prop :=
  translates (satp_of s) (mstatus_of s) (m_bus s) (priv (m_cpu s)) va MMU_EXECUTE pa.
Definition system_of (s : mach bus_t) : memory_system :=
  mk_memory_system (fetches s) (fun mode va pa => maps s va mode pa) (ram_span (m_bus s)) (tables_apart s).

(** No interrupt can be taken, whatever is pending. *)
Definition masked (c : csr_t) (p : Z) : Prop :=
  forall v id, 0 <= id -> ~ takeable (upd_csr_reg (fun r => r <| mip := v |>) c) p id.

(** ** Memory as bytes *)
Section bytes.
Context (b : bus_t) (a n : Z) (Hb : bus_wf b) (Ha : ram_span b a n).

Lemma span_offset : sub64 a (mem_base (bus_memory b)) = a - mem_base (bus_memory b).
Proof.
  destruct Ha as (H64 & _ & [Hlo _] & _). cbn [region_bounds fst] in Hlo. rewrite (bwf_ram_base b Hb).
  unfold sub64. apply w64_small. unfold RAM_BASE, DRAM_BASE in *. lia.
Qed.

Lemma ram_value_bytes : ram_value b a n = mem_value (ram_byte b) a n.
Proof.
  unfold ram_value, ram_read. destruct (ram_span_access b a n Hb Ha) as [-> _]. cbn [negb default]. rewrite span_offset.
  unfold mem_value, mem_load, id. f_equal. destruct Ha as (_ & Hn & _). apply size_cases in Hn.
  replace (Z.of_nat (Z.to_nat n)) with n by lia. apply list_fmap_ext. intros i x _. unfold ram_byte. f_equal. lia.
Qed.

Lemma le_bytes_nth k v i : (i < k)%nat -> nth i (le_bytes k v) 0 = v / 2 ^ (8 * Z.of_nat i) mod 256.
Proof.
  revert v i. induction k as [|k IH]; intros v i Hi; [lia|]. destruct i as [|i]; cbn [le_bytes nth].
  - by rewrite Z.mul_0_r, Z.pow_0_r, Z.div_1_r.
  - rewrite IH by lia. rewrite Z.div_div by (try apply Z.pow_pos_nonneg; lia).
    change 256 with (2 ^ 8) at 1. rewrite <- Z.pow_add_r by lia. do 3 f_equal. lia.
Qed.

Lemma ram_store_byte v i : ram_byte (ram_store b a n v) i = mem_update a n v (ram_byte b) i.
Proof.
  unfold ram_store, ram_write. destruct (ram_span_access b a n Hb Ha) as [-> _]. cbn [negb snd].
  unfold ram_byte, mem_update. cbn [bus_memory update]. rewrite mem_byte_store, le_bytes_length, span_offset.
  change (mem_base (mem_store ?m ?o ?l)) with (mem_base m). destruct Ha as (_ & Hn & _). apply size_cases in Hn.
  replace (Z.of_nat (Z.to_nat n)) with n by lia. zbits_split; cbn [andb]; try reflexivity; try lia.
  rewrite le_bytes_nth by lia. do 3 f_equal. lia.
Qed.
End bytes.
