(* ===== verification/Simulation.v ===== *)
(** * The emulator implements the architecture

    A forward simulation of [Arch.arch_step] by the iterations of the execution
    loop: fetch through the instruction TLB, interrupt check, dispatch and execution,
    data accesses through the data TLB, retirement, device update and sampling of
    the interrupt lines.  [represents] relates the two machines between iterations;
    [inside] is what the run keeps of the machine it started from: its translation
    tables and their cached copies, its mode and its control registers. *)
From stdpp Require Import base tactics numbers option list sets relations.
From S2P Require Import Prelude CInt Memory Syscon Clint Plic Uart Bus Csr CsrProps Mmu Tlb Decode Alu Cpu CpuInv.
From S2P Require Import Isa MemOps Isolation Paging Exec Progress Arch.

#[local] Open Scope record_scope.
#[local] Open Scope Z_scope.

(** ** The relation *)
Section simulation.
Context (itrace ftrace : bool) (s0 : mach bus_t).

(** What no instruction of the program, and nothing around it, changes. *)
Record inside (s : mach bus_t) : Prop := {
  in_mid : mid s;
  in_satp : satp_of s = satp_of s0;
  in_mstatus : mstatus_of s = mstatus_of s0;
  in_priv : priv (m_cpu s) = priv (m_cpu s0);
  in_size : mem_size (bus_memory (m_bus s)) = mem_size (bus_memory (m_bus s0));
  in_masked : masked (csr (m_cpu s)) (priv (m_cpu s));
  in_tables : paging s0 -> forall a, table_entry (rd_of (m_bus s0)) (satp_of s0) a ->
    ram_word (m_bus s) a /\ rd_of (m_bus s) a = rd_of (m_bus s0) a;
  in_itlb : paging s0 -> tlb_coherent (i_tlb (m_cpu s)) (satp_of s0) (m_bus s);
  in_dtlb : data_coherent s;
}.

(** The part of the state the program sees. *)
Definition res_agrees (r : option (Z * Z)) (c : reservation_t) : Prop :=
  match r with
  | Some (b, m) => c = mk_reservation true b (add64 b m) /\ is_u 64 b /\ (m = 4 \/ m = 8) /\ b + m <= 2 ^ 64
  | None => res_valid c = false
  end.
Record agree (a : arch) (s : mach bus_t) : Prop := {
  ag_x n : 0 < n < 32 -> a_x a n = reg s n;
  ag_mem i : a_mem a i = ram_byte (m_bus s) i;
  ag_res : res_agrees (a_res a) (res (m_cpu s));
}.

(** Between two instructions. *)
Record represents (s : mach bus_t) (a : arch) : Prop := {
  rp_inside : inside s;
  rp_ok : mach_ok s;
  rp_wfi : wfi (m_cpu s) = false;
  rp_run : halted (m_cpu s) = false;
  rp_power : poweroff_requested s = false /\ reboot_requested s = false;
  rp_pc : a_pc a = pc (m_cpu s);
  rp_agree : agree a s;
}.

(** What an instruction of the program may change besides the memory. *)
Definition touched (s s' : mach bus_t) : Prop :=
  bus_devices (m_bus s') = bus_devices (m_bus s) /\
  exists r t x, m_cpu s' = (m_cpu s) <| regs := r |> <| d_tlb := t |> <| res := x |>.

Lemma inside_translates s p va mode pa :
  inside s -> translates (satp_of s0) (mstatus_of s0) (m_bus s0) p va mode pa ->
  translates (satp_of s) (mstatus_of s) (m_bus s) p va mode pa.
Proof.
  intros Hi. rewrite (in_satp s Hi), (in_mstatus s Hi). unfold translates.
  destruct (bypass_address_translation _ _ _ _) eqn:Hby; [done|]. intros (k & pte & Hl & H). exists k, pte. split; [|done].
  assert (paging s0) as Hp.
  { unfold paging. rewrite <- (in_satp s Hi) in *. exact (bypass_paging _ _ _ _ (satp_u _ (proj1 (in_mid s Hi))) Hby). }
  apply (sv39_leaf_agree (rd_of (m_bus s0))); [|exact Hl]. intros a Ha. by apply (in_tables s Hi).
Qed.
Lemma inside_maps s va mode pa : inside s -> maps s0 va mode pa -> maps s va mode pa.
Proof.
  intros Hi. unfold maps. assert (data_priv s = data_priv s0) as ->; [|by apply inside_translates].
  unfold data_priv, effective_priv_mode. fold (mstatus_of s) (mstatus_of s0). by rewrite (in_mstatus s Hi), (in_priv s Hi).
Qed.
Lemma inside_fetches s va pa : inside s -> fetches s0 va pa -> fetches s va pa.
Proof. intros Hi. unfold fetches. rewrite (in_priv s Hi). by apply inside_translates. Qed.
Lemma inside_span s pa n : inside s -> ram_span (m_bus s0) pa n -> ram_span (m_bus s) pa n.
Proof. intros Hi. unfold ram_span, contains. cbn [region_bounds]. by rewrite (in_size s Hi). Qed.

Lemma visits_agree rd rd' va l base a :
  (forall a, visits rd va l base a -> rd' a = rd a) -> visits rd' va l base a -> visits rd va l base a.
Proof.
  intros H Hv. induction Hv as [l base|l base pte a Hr Ho Ht _ IH]; [constructor|].
  rewrite H in Hr by constructor. eapply visit_next; [done..|]. apply IH. intros a' Ha'. apply H. by econstructor.
Qed.

Lemma inside_paging s : inside s -> paging s <-> paging s0.
Proof. intros Hi. unfold paging. by rewrite (in_satp s Hi). Qed.
Lemma inside_tables s a :
  inside s -> paging s0 -> table_entry (rd_of (m_bus s)) (satp_of s) a <-> table_entry (rd_of (m_bus s0)) (satp_of s0) a.
Proof.
  intros Hi Hp. rewrite (in_satp s Hi).
  assert (forall a, table_entry (rd_of (m_bus s)) (satp_of s0) a -> table_entry (rd_of (m_bus s0)) (satp_of s0) a) as H.
  { intros a' [va Hv]. exists va. eapply visits_agree; [|exact Hv]. intros a1 Ha1. apply (in_tables s Hi Hp). by exists va. }
  split; [apply H|]. intros [va Hv]. exists va. eapply visits_agree; [|exact Hv].
  intros a1 Ha1. symmetry. apply (in_tables s Hi Hp), H. by exists va.
Qed.
Lemma inside_apart s pa n : inside s -> tables_apart s0 pa n -> tables_apart s pa n.
Proof.
  intros Hi H Hp a Ha. apply (inside_paging s Hi) in Hp. pose proof (proj1 (inside_tables s a Hi Hp) Ha) as Ha0.
  split; [by apply (in_tables s Hi)|]. by apply (H Hp).
Qed.

Lemma extend_u p n sgn v : In (p, n, sgn) loads -> is_u (8 * n) v -> is_u 64 (extend sgn v (8 * n)).
Proof.
  intros Hin Hv. unfold extend. destruct sgn; [apply Z.mod_pos_bound; lia|].
  assert (8 * n <= 64) as Hn.
  { unfold loads in Hin. cbn [In] in Hin. destruct_or? Hin; try done; injection Hin as <- <-; lia. }
  pose proof (Z.pow_le_mono_r 2 (8 * n) 64). lia.
Qed.

(** ** What keeps a machine inside *)
Lemma inside_touched s s' :
  inside s -> mid s' -> m_bus s' = m_bus s -> touched s s' -> data_coherent s' -> inside s'.
Proof.
  intros [] Hm Hb (_ & r & t & x & Hc) Hco. constructor; try done; unfold satp_of, mstatus_of; by rewrite ?Hb, ?Hc.
Qed.

Lemma inside_store s pa n v :
  inside s -> ram_span (m_bus s) pa n -> tables_apart s pa n -> inside (s <| m_bus := ram_store (m_bus s) pa n v |>).
Proof.
  intros Hi Hpa Hap. pose proof (inside_paging s Hi) as Hpg. pose proof Hi as [Hm ? ? ? Hsz ? Htab Hit Hdt]. pose proof Hm as [_ Hb].
  assert (mem_size (bus_memory (ram_store (m_bus s) pa n v)) = mem_size (bus_memory (m_bus s))) as Hs.
  { pose proof (bus_write_size (m_bus s) pa n v) as E. by rewrite (bus_write_ram (m_bus s) pa n v Hb Hpa) in E. }
  constructor; try done.
  - exact (mid_store s pa n v Hm Hpa).
  - change (mem_size (bus_memory (ram_store (m_bus s) pa n v)) = mem_size (bus_memory (m_bus s0))). by rewrite Hs.
  - intros Hp a Ha. destruct (Htab Hp a Ha) as [Hw Hr]. split.
    + unfold ram_word, contains in *. cbn [region_bounds m_bus update] in *. by rewrite Hs.
    + rewrite (store_tables s pa n v Hm Hpa Hap); [done|by apply Hpg|by apply (inside_tables s)].
  - intros Hp. apply (tlb_coherent_kept _ _ (m_bus s)); [|by apply Hit]. intros va k pte.
    rewrite <- (in_satp s Hi). apply (store_leaf s pa n v Hm Hpa Hap). by apply Hpg.
  - exact (coherent_store s pa n v Hm Hpa Hap Hdt).
Qed.
(** The trace is none of these relations' business. *)
Lemma inside_ext s s' : m_cpu s' = m_cpu s -> m_bus s' = m_bus s -> inside s -> inside s'.
Proof. destruct s as [c b tr], s' as [c' b' tr']. cbn [m_cpu m_bus]. intros -> ->. by intros []. Qed.
Lemma agree_ext a s s' : m_cpu s' = m_cpu s -> m_bus s' = m_bus s -> agree a s -> agree a s'.
Proof. destruct s as [c b tr], s' as [c' b' tr']. cbn [m_cpu m_bus]. intros -> ->. by intros []. Qed.

Lemma touched_refl s : touched s s.
Proof. split; [done|]. exists (regs (m_cpu s)), (d_tlb (m_cpu s)), (res (m_cpu s)). by destruct s as [[] ? ?]. Qed.
Lemma touched_set_reg s s' n v : touched s s' -> touched s (set_reg n v s').
Proof.
  intros (Hd & r & t & x & E). split; [exact Hd|]. exists (aset (regs (m_cpu s')) n v), t, x.
  cbn [m_cpu set_reg upd_cpu update]. by rewrite E.
Qed.
Lemma touched_set_res s s' f : touched s s' -> touched s (set_res f s').
Proof.
  intros (Hd & r & t & x & E). split; [exact Hd|]. exists r, t, (f (res (m_cpu s'))).
  cbn [m_cpu set_res upd_cpu update]. by rewrite E.
Qed.
Lemma touched_dtlb s s' d : touched s s' -> touched s (set_dtlb d s').
Proof. intros (Hd & r & t & x & E). split; [exact Hd|]. exists r, d, x. cbn [m_cpu set_dtlb upd_cpu update]. by rewrite E. Qed.
Lemma touched_store s s' pa n v : touched s s' -> touched s (s' <| m_bus := ram_store (m_bus s') pa n v |>).
Proof. by intros (Hd & H). Qed.

Lemma inside_set_reg s n v : inside s -> is_u 64 v -> inside (set_reg n v s).
Proof.
  intros Hi Hv. apply (inside_touched s); [exact Hi|apply mid_set_reg; [apply (in_mid s Hi)|exact Hv]|reflexivity|apply touched_set_reg, touched_refl|].
  exact (in_dtlb s Hi).
Qed.
Lemma inside_dtlb s t : inside s -> mid (set_dtlb t s) -> data_coherent (set_dtlb t s) -> inside (set_dtlb t s).
Proof. intros Hi Hm Hco. apply (inside_touched s); [exact Hi|exact Hm|reflexivity|apply touched_dtlb, touched_refl|exact Hco]. Qed.
Lemma inside_set_res s f :
  inside s -> (is_u 64 (addr_start (f (res (m_cpu s)))) /\ is_u 64 (addr_end (f (res (m_cpu s))))) -> inside (set_res f s).
Proof.
  intros Hi Hf. apply (inside_touched s); [exact Hi|apply mid_set_res; [apply (in_mid s Hi)|exact Hf]|reflexivity|apply touched_set_res, touched_refl|].
  exact (in_dtlb s Hi).
Qed.

(** ** One instruction *)
Lemma agree_goto npc a s : agree a s -> agree (goto npc a) s.
Proof. by intros []. Qed.
Lemma agree_dtlb a s t : agree a s -> agree a (set_dtlb t s).
Proof. by intros []. Qed.
Lemma agree_set_reg a s rd v : mid s -> is_u 5 rd -> agree a s -> agree (set_x rd v a) (set_reg rd v s).
Proof.
  intros Hs Hrd [Hx Hm Hr]. constructor; [|exact Hm|exact Hr]. intros n Hn. cbn [a_x set_x update].
  destruct (Z.eqb_spec n rd) as [->|Hne]; [by rewrite reg_set|]. rewrite reg_set_ne by lia. by apply Hx.
Qed.
Lemma agree_store a s pa n v :
  bus_wf (m_bus s) -> ram_span (m_bus s) pa n -> agree a s ->
  agree (a <| a_mem ::= mem_update pa n v |>) (s <| m_bus := ram_store (m_bus s) pa n v |>).
Proof.
  intros Hb Hpa [Hx Hm Hr]. constructor; [exact Hx| |exact Hr]. intros i.
  change (ram_byte (m_bus (s <| m_bus := ram_store (m_bus s) pa n v |>)) i) with (ram_byte (ram_store (m_bus s) pa n v) i).
  rewrite ram_store_byte by done. cbn [a_mem update]. unfold mem_update. by rewrite Hm.
Qed.
Lemma agree_res a s r f : res_agrees r (f (res (m_cpu s))) -> agree a s -> agree (a <| a_res := r |>) (set_res f s).
Proof. intros Hf [Hx Hm Hr]. by constructor. Qed.

Lemma mem_value_agree a s pa n :
  bus_wf (m_bus s) -> ram_span (m_bus s) pa n -> agree a s -> mem_value (a_mem a) pa n = ram_value (m_bus s) pa n.
Proof.
  intros Hb Hpa Hag. rewrite ram_value_bytes by done. unfold mem_value. f_equal. apply list_fmap_ext.
  intros i x _. apply (ag_mem a s Hag).
Qed.

Definition executes_as (s : mach bus_t) (a' : arch) (r : (Z * Z + Z) * mach bus_t) : Prop :=
  r.1 = inr (a_pc a') /\ inside r.2 /\ agree a' r.2 /\ touched s r.2.

Section instruction.
Context (s : mach bus_t) (a : arch) (inst : Z).
Context (Hi : inside s) (Hag : agree a s) (Hpc : a_pc a = pc (m_cpu s)) (Hx0 : reg s 0 = 0).
Let d := decode inst.

Lemma xreg_reg n : is_u 5 n -> xreg a n = reg s n.
Proof.
  intros Hn. unfold xreg. destruct (Z.eqb_spec n 0) as [->|]; [done|]. apply (ag_x a s Hag). lia.
Qed.
Lemma xreg_rs1 : xreg a (dec_rs1 d) = reg s (dec_rs1 d).
Proof. apply xreg_reg. apply (decode_ranges inst). Qed.
Lemma xreg_rs2 : xreg a (dec_rs2 d) = reg s (dec_rs2 d).
Proof. apply xreg_reg. apply (decode_ranges inst). Qed.
Lemma rd_u : is_u 5 (dec_rd d).
Proof. apply (decode_ranges inst). Qed.
Lemma address_arch : (xreg a (dec_rs1 d) + s64 (dec_imm d)) mod 2 ^ 64 = address d s.
Proof.
  rewrite xreg_rs1. unfold address. symmetry. apply ref_add_imm. apply (decode_ranges inst).
Qed.
Lemma next_arch a1 : a_pc a1 = a_pc a -> add64 (pc (m_cpu s)) 4 = a_pc (next_inst a1).
Proof. intros E. cbn. by rewrite E, Hpc. Qed.

Lemma isa_executes p f npc v :
  In (p, f) isa -> matches inst p = true ->
  f (a_pc a) (xreg a (dec_rs1 d)) (xreg a (dec_rs2 d)) (s64 (dec_imm d)) = inr (npc, v) ->
  executes_as s (goto npc (match v with Some v => set_x (dec_rd d) (v mod 2 ^ 64) a | None => a end))
    (execute ftrace inst s).
Proof.
  pose proof (in_mid s Hi) as Hm. intros Hin H Hf.
  pose proof (proj1 (List.Forall_forall _ _) (isa_ok (HB := bus_laws) ftrace) (p, f) Hin inst s H Hm) as Ha.
  unfold isa_at in Ha. cbn [fst snd] in Ha. rewrite Hpc, xreg_rs1, xreg_rs2 in Hf. fold d in Ha. rewrite Hf in Ha.
  unfold isa_agrees in Ha. destruct (execute ftrace inst s) as [[e|npc'] s']; [done|].
  destruct Ha as (-> & Hb & Hc). split; [by destruct v|]. cbn [snd]. destruct v as [v|].
  - assert (is_u 64 (v mod 2 ^ 64)) as Hv by (apply Z.mod_pos_bound; lia).
    split; [|split].
    + apply (inside_ext (set_reg (dec_rd d) (v mod 2 ^ 64) s)); [exact Hc|exact Hb|by apply inside_set_reg].
    + apply agree_goto, (agree_ext _ (set_reg (dec_rd d) (v mod 2 ^ 64) s)); [exact Hc|exact Hb|].
      apply agree_set_reg; [exact Hm|apply rd_u|exact Hag].
    + split; [by rewrite Hb|]. rewrite Hc. exact (proj2 (touched_set_reg s s (dec_rd d) _ (touched_refl s))).
  - split; [by apply (inside_ext s)|]. split; [by apply agree_goto, (agree_ext _ s)|].
    split; [by rewrite Hb|]. rewrite Hc. exact (proj2 (touched_refl s)).
Qed.
(** The end of an instruction that falls through: what is left to show is about the
    registers, the memory and the reservation. *)
Lemma falls_through r a1 s1 :
  r = (inr (add64 (pc (m_cpu s)) 4), s1) -> a_pc a1 = a_pc a -> inside s1 -> agree a1 s1 -> touched s s1 ->
  executes_as s (next_inst a1) r.
Proof.
  intros -> Ea Hi1 Hag1 Ht. split; [cbn [fst]; by rewrite (next_arch a1 Ea)|]. split; [exact Hi1|].
  split; [by apply agree_goto|exact Ht].
Qed.

Lemma load_executes p n sgn pa :
  In (p, n, sgn) loads -> matches inst p = true ->
  maps s0 ((xreg a (dec_rs1 d) + s64 (dec_imm d)) mod 2 ^ 64) MMU_READ pa -> ram_span (m_bus s0) pa n ->
  executes_as s (next_inst (set_x (dec_rd d) (extend sgn (mem_value (a_mem a) pa n) (8 * n)) a)) (execute ftrace inst s).
Proof.
  rewrite address_arch. intros Hin H Hmap Hpa. pose proof (in_mid s Hi) as Hm. pose proof Hm as [_ Hb].
  apply (inside_maps s _ _ _ Hi) in Hmap. apply (inside_span s _ _ Hi) in Hpa.
  destruct (load_dispatch ftrace inst p n sgn s Hin H) as (ext & E & Hext). fold d in E. rewrite E.
  destruct (load_maps s (address d s) pa n ext LOAD_ACCESS_FAULT MMU_READ Hm (add64_u _ _) (in_dtlb s Hi) Hmap Hpa)
    as (t & E1 & Hm1 & Hco1).
  pose proof (ram_value_u (m_bus s) pa n Hb Hpa) as Hv. rewrite (mem_value_agree a s pa n Hb Hpa Hag).
  set (v := extend sgn _ _). assert (is_u 64 v) as Hv64 by (exact (extend_u p n sgn _ Hin Hv)).
  apply (falls_through _ _ (set_reg (dec_rd d) v (set_dtlb t s))); [|reflexivity|..].
  - unfold EXEC_LOAD, mbind, exec_bind. rewrite E1, Hext by exact Hv. reflexivity.
  - apply inside_set_reg; [by apply inside_dtlb|exact Hv64].
  - apply agree_set_reg; [exact Hm1|apply rd_u|]. by apply agree_dtlb.
  - exact (touched_set_reg _ _ _ _ (touched_dtlb _ _ _ (touched_refl s))).
Qed.

Lemma store_executes p n pa :
  In (p, n) stores -> matches inst p = true ->
  stores_at (system_of s0) ((xreg a (dec_rs1 d) + s64 (dec_imm d)) mod 2 ^ 64) n pa ->
  executes_as s (next_inst (a <| a_mem ::= mem_update pa n (xreg a (dec_rs2 d)) |>)) (execute ftrace inst s).
Proof.
  rewrite address_arch, xreg_rs2. intros Hin H (Hmap & Hpa & Hap). pose proof (in_mid s Hi) as Hm. pose proof Hm as [_ Hb].
  apply (inside_maps s _ _ _ Hi) in Hmap. apply (inside_span s _ _ Hi) in Hpa. apply (inside_apart s _ _ Hi) in Hap.
  pose proof (store_dispatch ftrace inst p n s Hin H) as E. fold d in E. cbv zeta in E. rewrite E.
  destruct (store_maps s (address d s) pa n (reg s (dec_rs2 d)) Hm (add64_u _ _) (in_dtlb s Hi) Hmap Hpa Hap)
    as (t & E1 & Hm1 & Hco1).
  eapply falls_through; [unfold mbind, exec_bind; rewrite E1; reflexivity|reflexivity|..].
  - apply inside_dtlb; [by apply inside_store|exact Hm1|exact Hco1].
  - apply agree_dtlb. exact (agree_store a s pa n _ Hb Hpa Hag).
  - exact (touched_dtlb _ _ _ (touched_store _ _ _ _ _ (touched_refl s))).
Qed.

Lemma amo_executes p n f pa :
  In (p, n, f) amos -> matches inst p = true ->
  maps s0 (xreg a (dec_rs1 d)) MMU_AMO pa -> stores_at (system_of s0) (xreg a (dec_rs1 d)) n pa ->
  let old := mem_value (a_mem a) pa n in
  executes_as s (next_inst (set_x (dec_rd d) (signed (8 * n) old mod 2 ^ 64)
    (a <| a_mem ::= mem_update pa n (f (8 * n) (xreg a (dec_rs2 d)) old) |>))) (execute ftrace inst s).
Proof.
  rewrite xreg_rs1, xreg_rs2. intros Hin H Hmap (Hw & Hpa & Hap). pose proof (in_mid s Hi) as Hm. pose proof Hm as [_ Hb].
  apply (inside_maps s _ _ _ Hi) in Hmap, Hw. apply (inside_span s _ _ Hi) in Hpa. apply (inside_apart s _ _ Hi) in Hap.
  rewrite (mem_value_agree a s pa n Hb Hpa Hag).
  destruct (amo_dispatch ftrace inst p n f Hin H) as (op & -> & Hop).
  destruct (amo_maps s d n op f pa Hm (in_dtlb s Hi) (amos_size p n f Hin) Hmap Hw Hpa Hap Hop) as (t & E1 & Hm1 & Hco1).
  assert (is_u 64 (signed (8 * n) (ram_value (m_bus s) pa n) mod 2 ^ 64)) as Hv by (apply Z.mod_pos_bound; lia).
  eapply falls_through; [exact E1|reflexivity|..].
  - apply inside_set_reg; [|exact Hv]. apply inside_dtlb; [by apply inside_store|exact Hm1|exact Hco1].
  - apply agree_set_reg; [exact Hm1|apply rd_u|]. apply agree_dtlb. exact (agree_store a s pa n _ Hb Hpa Hag).
  - exact (touched_set_reg _ _ _ _ (touched_dtlb _ _ _ (touched_store _ _ _ _ _ (touched_refl s)))).
Qed.

Lemma lr_executes p n pa :
  In (p, n) lrs -> matches inst p = true ->
  maps s0 (xreg a (dec_rs1 d)) MMU_READ pa -> ram_span (m_bus s0) pa n ->
  executes_as s (next_inst (set_x (dec_rd d) (signed (8 * n) (mem_value (a_mem a) pa n) mod 2 ^ 64)
    (a <| a_res := Some (xreg a (dec_rs1 d), n) |>))) (execute ftrace inst s).
Proof.
  rewrite xreg_rs1. intros Hin H Hmap Hpa. pose proof (in_mid s Hi) as Hm. pose proof Hm as [_ Hb].
  apply (inside_maps s _ _ _ Hi) in Hmap. apply (inside_span s _ _ Hi) in Hpa.
  rewrite (mem_value_agree a s pa n Hb Hpa Hag), (lr_dispatch ftrace inst p n Hin H).
  pose proof (lrs_size p n Hin) as Hn. pose proof (reg_u s (dec_rs1 d) Hm) as Hva.
  destruct (lr_maps s d n pa Hm (in_dtlb s Hi) Hn Hmap Hpa) as (t & E1 & Hm1 & Hco1).
  set (v := signed _ _ mod _) in *. assert (is_u 64 v) as Hv by (apply Z.mod_pos_bound; lia).
  pose proof (maps_aligned s _ _ pa n Hmap Hpa) as Hal.
  eapply falls_through; [exact E1|reflexivity|..].
  - apply (inside_touched s); [exact Hi|exact Hm1|reflexivity| |exact Hco1].
    exact (touched_set_res _ _ _ (touched_set_reg _ _ _ _ (touched_dtlb _ _ _ (touched_refl s)))).
  - apply (agree_res (set_x (dec_rd d) v a) (set_reg (dec_rd d) v (set_dtlb t s))).
    + split; [reflexivity|]. split; [exact Hva|]. split; [exact Hn|]. destruct Hn as [-> | ->]; div_lia.
    + exact (agree_dtlb _ _ t (agree_set_reg a s (dec_rd d) v Hm rd_u Hag)).
  - exact (touched_set_res _ _ _ (touched_set_reg _ _ _ _ (touched_dtlb _ _ _ (touched_refl s)))).
Qed.

Lemma covers_reserves n :
  n = 4 \/ n = 8 -> no_wrap (a_res a) n -> is_u 64 (xreg a (dec_rs1 d)) ->
  reserves (res (m_cpu s)) (xreg a (dec_rs1 d)) n = covers (a_res a) (xreg a (dec_rs1 d)) n.
Proof.
  intros Hn Hw Hu. pose proof (ag_res a s Hag) as Hr. destruct (a_res a) as [[b m]|]; cbn [res_agrees no_wrap covers] in *.
  - destruct Hr as (-> & Hb & Hm & He). by apply lr_reserves.
  - unfold reserves. by rewrite Hr.
Qed.

Lemma sc_executes p n pa :
  In (p, n) scs -> matches inst p = true -> no_wrap (a_res a) n -> xreg a (dec_rs1 d) mod n = 0 ->
  let ok := covers (a_res a) (xreg a (dec_rs1 d)) n in
  (ok = true -> stores_at (system_of s0) (xreg a (dec_rs1 d)) n pa) ->
  executes_as s (next_inst (set_x (dec_rd d) (if ok then 0 else 1)
    ((if ok then a <| a_mem ::= mem_update pa n (xreg a (dec_rs2 d)) |> else a) <| a_res := None |>)))
    (execute ftrace inst s).
Proof.
  intros Hin H Hw Hal ok Hst. pose proof (in_mid s Hi) as Hm. pose proof Hm as [_ Hb]. pose proof (scs_size p n Hin) as Hn.
  assert (is_u 64 (xreg a (dec_rs1 d))) as Hu by (rewrite xreg_rs1; by apply reg_u).
  pose proof (covers_reserves n Hn Hw Hu) as Hok. fold ok in Hok. rewrite xreg_rs1 in Hok, Hal, Hst. rewrite xreg_rs2.
  assert (ok = true -> stores_to s (reg s (dec_rs1 d)) n pa) as Hst'.
  { intros E. destruct (Hst E) as (G1 & G2 & G3).
    constructor; [by apply inside_maps|by apply inside_span|by apply inside_apart]. }
  rewrite <- Hok in Hst'. rewrite (sc_dispatch ftrace inst p n Hin H).
  destruct (sc_runs s d n pa Hm (in_dtlb s Hi) Hn Hal Hst') as (t & E1 & Hm1 & Hco1).
  rewrite Hok in *. cbv zeta in E1, Hm1, Hco1.
  assert (inside (set_res unreserved s)) as Hi0 by (apply inside_set_res; [exact Hi|exact (mid_res _ (proj1 Hm))]).
  assert (agree (a <| a_res := None |>) (set_res unreserved s)) as Hag0 by (by apply agree_res).
  eapply falls_through; [exact E1|by destruct ok|..].
  - apply inside_set_reg; [|by destruct ok]. destruct ok; [|exact Hi0]. destruct (Hst' eq_refl) as [G1 G2 G3].
    apply inside_dtlb; [exact (inside_store _ _ _ _ Hi0 G2 G3)|exact Hm1|exact Hco1].
  - apply agree_set_reg; [exact Hm1|apply rd_u|]. destruct ok; [|exact Hag0]. destruct (Hst' eq_refl) as [G1 G2 G3].
    apply agree_dtlb. exact (agree_store _ (set_res unreserved s) pa n _ Hb G2 Hag0).
  - apply touched_set_reg. pose proof (touched_set_res _ _ unreserved (touched_refl s)) as Ht. destruct ok; [|exact Ht].
    apply touched_dtlb. exact (touched_store _ _ pa n _ Ht).
Qed.

(** Whatever the instruction. *)
Lemma instr_executes a' : arch_instr (system_of s0) inst a a' -> executes_as s a' (execute ftrace inst s).
Proof.
  destruct 1; [by eapply isa_executes|by eapply load_executes|by eapply store_executes|by eapply amo_executes
              |by eapply lr_executes|by eapply sc_executes].
Qed.
End instruction.
(** ** One step *)

(** The CSRs the relation mentions are not the counters, nor the pending bits. *)
Definition controls (c : csr_t) : Z * Z * Z * Z :=
  (satp (csr_reg c), mstatus (csr_reg c), mie (csr_reg c), mideleg (csr_reg c)).
Lemma controls_begin c w x y z : controls (csr_begin_update c w x y z) = controls c.
Proof. reflexivity. Qed.
Lemma controls_end c r : controls (csr_end_update c r) = controls c.
Proof. unfold csr_end_update. cbv zeta. by destruct (_ && _ && _), (_ && _). Qed.
Lemma masked_controls c c' p : controls c' = controls c -> masked c p -> masked c' p.
Proof.
  intros [= E1 E2 E3 E4] H v id Hid Ht. apply (H v id Hid). unfold takeable in *. cbn in *. by rewrite <- E2, <- E3, <- E4.
Qed.
Lemma masked_none c p : masked c p -> interrupt_pending_and_enabled c p = None.
Proof.
  intros H. destruct (interrupt_pending_and_enabled c p) as [id|] eqn:E; [|done]. exfalso.
  pose proof (interrupt_id_range c p id E) as Hr. apply find_some in E as [_ E].
  assert (0 <= id) as Hid by (repeat (apply elem_of_cons in Hr as [->|Hr]; [lia|]); by apply elem_of_nil in Hr).
  apply (check_interrupt_iff c p id Hid) in E. exact (H (mip (csr_reg c)) id Hid E).
Qed.

(** A change of the core that touches none of this. *)
Lemma inside_core s (f : cpu_t -> cpu_t) :
  inside s -> mid (upd_cpu f s) -> controls (csr (f (m_cpu s))) = controls (csr (m_cpu s)) ->
  priv (f (m_cpu s)) = priv (m_cpu s) -> d_tlb (f (m_cpu s)) = d_tlb (m_cpu s) ->
  (paging s0 -> tlb_coherent (i_tlb (f (m_cpu s))) (satp_of s0) (m_bus s)) -> inside (upd_cpu f s).
Proof.
  intros [] Hm Hc Hp Hd Hit. pose proof Hc as [= E1 E2 _ _]. constructor; try done.
  - unfold satp_of in *. cbn. by rewrite E1.
  - unfold mstatus_of in *. cbn. by rewrite E2.
  - cbn. by rewrite Hp.
  - cbn. rewrite Hp. by eapply masked_controls.
  - unfold data_coherent, paging, satp_of in *. cbn. by rewrite E1, Hd.
Qed.

Section step.
Context (s : mach bus_t) (a a' : arch) (Hr : represents s a) (Hstep : arch_step (system_of s0) a a').

Lemma emit_same on e (s1 : mach bus_t) : m_cpu (emit on e s1).2 = m_cpu s1 /\ m_bus (emit on e s1).2 = m_bus s1.
Proof. by destruct on. Qed.

(** The lines are latched, the instruction is fetched. *)
Lemma latched_inside : inside (latched s) /\ agree a (latched s).
Proof.
  pose proof (rp_inside s a Hr) as Hi. pose proof (rp_agree s a Hr) as Hag. split.
  - apply inside_core; [exact Hi| |reflexivity..|exact (in_itlb s Hi)].
    destruct (in_mid s Hi) as [[] Hb]. split; [|exact Hb]. constructor; try done. by apply csr_begin_update_wf.
  - by destruct Hag.
Qed.

Lemma fetch_arch pa :
  ms_fetch (system_of s0) (a_pc a) pa -> ms_ram (system_of s0) pa 4 ->
  exists t, let s1 := upd_cpu (fun c => c <| i_tlb := t |>) (latched s) in
    fetch (latched s) = (inr (mem_value (a_mem a) pa 4), s1) /\ inside s1 /\ agree a s1.
Proof.
  intros Hf Hpa. destruct latched_inside as [Hi Hag]. pose proof (in_mid _ Hi) as [Hc Hb].
  rewrite (rp_pc s a Hr) in Hf. apply (inside_fetches _ _ _ Hi) in Hf. apply (inside_span _ _ _ Hi) in Hpa.
  assert (paging (latched s) -> tlb_coherent (i_tlb (m_cpu (latched s))) (satp_of (latched s)) (m_bus (latched s))) as Hco.
  { intros Hp. rewrite (in_satp _ Hi). apply (in_itlb _ Hi). by apply (inside_paging _ Hi). }
  destruct (mid_pc _ Hc) as [Hpc _].
  destruct (lookup_translates (i_tlb (m_cpu (latched s))) _ _ _ (priv (m_cpu (latched s))) (pc (m_cpu s)) MMU_EXECUTE pa
    Hpc (satp_u _ Hc) Hb (access_priv_execute _ _) (mid_itlb _ Hc) Hco Hf) as (r & t & E & Hres & Hpa' & Hlen & Hco').
  exists t. cbv zeta. split; [|split].
  - unfold fetch. cbv zeta. change (pc (m_cpu (latched s))) with (pc (m_cpu s)). unfold mstatus_of in E. rewrite E, Hres, Hpa'.
    change (default 0 (Some pa)) with pa. change (negb (MMU_VALID =? MMU_VALID)) with false. cbv iota.
    unfold mbind, exec_bind, bus_load.
    match goal with |- context [bread (m_bus ?x) pa 4] => change (bread (m_bus x) pa 4) with (bus_read (m_bus (latched s)) pa 4) end.
    rewrite (bus_read_ram _ pa 4 Hb Hpa), (ram_read_some _ pa 4 Hb Hpa), (mem_value_agree a _ pa 4 Hb Hpa Hag).
    pose proof (ram_value_u _ pa 4 Hb Hpa) as Hu. unfold mret, exec_ret, w32. rewrite Z.mod_small by exact Hu.
    by destruct s as [[] b tr].
  - apply inside_core; [exact Hi| |reflexivity..|].
    + apply mid_upd_cpu; [split; [exact Hc|exact Hb]|]. clear -Hlen. intros Hm. by destruct Hm.
    + intros Hp. rewrite <- (in_satp _ Hi). apply Hco'. by apply (inside_paging _ Hi).
  - destruct Hag as [G1 G2 G3]. constructor; [exact G1|exact G2|exact G3].
Qed.

(** The instruction, from the state that the fetch leaves to the one [end_exec] gets. *)
Lemma run_inst_arch :
  exists s1, run_inst itrace ftrace (latched s) = (inr (a_pc a'), s1) /\ inside s1 /\ agree a' s1 /\
    csr (m_cpu s1) = csr (m_cpu (latched s)) /\ wfi (m_cpu s1) = false /\ halted (m_cpu s1) = false /\
    bus_devices (m_bus s1) = bus_devices (m_bus s).
Proof.
  destruct Hstep as (pa & Hf & Hpa & Hx). destruct (fetch_arch pa Hf Hpa) as (t & E & Hi & Hag). cbv zeta in E, Hi, Hag.
  set (s1 := upd_cpu _ _) in *. set (inst := mem_value (a_mem a) pa 4) in *.
  set (s2 := (emit itrace (IRING (pc (m_cpu s1)) inst) s1).2).
  assert (m_cpu s2 = m_cpu s1 /\ m_bus s2 = m_bus s1) as [Ec Eb] by apply emit_same.
  assert (run_inst itrace ftrace (latched s) = execute ftrace inst s2) as ->.
  { unfold run_inst, mbind, exec_bind. rewrite E. unfold get_pc, gets.
    change (emit itrace (IRING (pc (m_cpu s1)) inst) s1) with (inr tt : Z * Z + unit, s2). unfold take_interrupt.
    rewrite Ec, masked_none by exact (in_masked _ Hi). reflexivity. }
  assert (reg s2 0 = 0) as Hx0 by (unfold reg; rewrite Ec; exact (proj2 (proj1 (rp_ok s a Hr)))).
  assert (a_pc a = pc (m_cpu s2)) as Hpc by (rewrite Ec; exact (rp_pc s a Hr)).
  destruct (instr_executes s2 a inst (inside_ext _ _ Ec Eb Hi) (agree_ext _ _ _ Ec Eb Hag) Hpc Hx0 a' Hx)
    as (Er & Hi3 & Hag3 & Hd3 & r3 & t3 & x3 & Hc3).
  destruct (execute ftrace inst s2) as [r s3]. cbn [fst snd] in *. subst r. exists s3. rewrite Hc3, Hd3, Ec, Eb.
  split; [reflexivity|]. split; [exact Hi3|]. split; [exact Hag3|]. split; [reflexivity|].
  split; [exact (rp_wfi s a Hr)|]. split; [exact (rp_run s a Hr)|reflexivity].
Qed.

(** The step retires the instruction. *)
Lemma step_represents :
  represents (cpu_step itrace ftrace s) a' /\ bus_devices (m_bus (cpu_step itrace ftrace s)) = bus_devices (m_bus s).
Proof.
  pose proof (cpu_step_ok itrace ftrace s (rp_ok s a Hr)) as Hok. revert Hok.
  rewrite (cpu_step_running itrace ftrace s (rp_wfi s a Hr)). unfold step_awake.
  destruct run_inst_arch as (s1 & -> & Hi & Hag & Hcsr & Hw & Hh & Hd). intros Hok.
  assert (end_exec (a_pc a') false s1 = upd_cpu (fun c => c <| regs ::= fun l => aset l 0 0 |> <| pc := a_pc a' |>
    <| csr ::= fun r => csr_end_update r true |>) s1) as E.
  { unfold end_exec, upd_cpu, update. cbn. by rewrite Hcsr. }
  rewrite E in *. split; [constructor|exact Hd].
  - apply inside_core; [exact Hi|exact (conj (proj1 (proj1 Hok)) (proj2 Hok))|apply controls_end|reflexivity..|exact (in_itlb _ Hi)].
  - exact Hok.
  - exact Hw.
  - exact Hh.
  - destruct (rp_power s a Hr) as [H1 H2]. unfold poweroff_requested, reboot_requested, devices in *. cbn. by rewrite Hd.
  - reflexivity.
  - destruct Hag as [Gx Gm Gr]. constructor; [|exact Gm|exact Gr]. intros n Hn. rewrite Gx by exact Hn.
    symmetry. unfold reg. apply aget_aset_ne; lia.
Qed.
End step.

(** ** The rest of an iteration *)

(** The devices change, the memory does not. *)
Lemma inside_bus s b' :
  inside s -> bus_wf b' -> bus_memory b' = bus_memory (m_bus s) -> inside (s <| m_bus := b' |>).
Proof.
  intros Hi Hb' Hmem. pose proof Hi as [[Hc Hb] ? ? ? Hsz ? Htab Hit Hdt].
  assert (forall a, ram_word (m_bus s) a -> ram_word b' a /\ rd_of b' a = rd_of (m_bus s) a) as Hword.
  { intros a Ha. assert (ram_word b' a) as Ha' by (unfold ram_word, contains in *; cbn [region_bounds] in *; by rewrite Hmem).
    split; [exact Ha'|]. apply (bus_read_ram_ext (m_bus s) b'); try assumption. intros i _. unfold ram_byte. by rewrite Hmem. }
  assert (paging s0 -> leaves_kept (satp_of s0) (rd_of (m_bus s)) (rd_of b')) as Hl.
  { intros Hp va k pte Hlf. apply (sv39_leaf_agree (rd_of (m_bus s))); [|exact Hlf]. intros a Ha.
    apply Hword. rewrite <- (in_satp s Hi) in Ha. apply (inside_tables s a Hi Hp) in Ha. by apply (Htab Hp). }
  constructor; try done.
  - cbn. by rewrite Hmem.
  - intros Hp a Ha. destruct (Htab Hp a Ha) as [Hw Hr]. destruct (Hword a Hw) as [Hw' Hr']. split; [exact Hw'|].
    cbn. by rewrite Hr'.
  - intros Hp. exact (tlb_coherent_kept _ _ _ _ (Hl Hp) (Hit Hp)).
  - intros Hp. apply (inside_paging s Hi) in Hp as Hp0. unfold data_coherent in Hdt. cbn.
    eapply tlb_coherent_kept; [|exact (Hdt Hp)].
    change (satp_of (s <| m_bus := b' |>)) with (satp_of s). rewrite (in_satp s Hi). by apply Hl.
Qed.

Lemma device_half_memory h (s : mach bus_t) :
  bus_memory (m_bus (sample_lines (update_devices h s).2)) = bus_memory (m_bus s).
Proof.
  unfold update_devices, sample_lines. destruct (device_update _ _ _) as [r d]. by destruct (device_irq_level _) as [[x l] d'].
Qed.

Lemma iteration_represents h s a a' :
  represents s a -> arch_step (system_of s0) a a' -> host_ok h ->
  exists s', iteration itrace ftrace h s s' /\ represents s' a'.
Proof.
  intros Hr Hstep Hh. destruct (step_represents s a a' Hr Hstep) as [Hr1 Hd1]. set (s1 := cpu_step itrace ftrace s) in *.
  destruct (rp_power s1 a' Hr1) as [Hpo Hre]. destruct (device_half h s1 Hh) as (l1 & l2 & l3 & c' & Hz & _ & _ & Hsys & Hcpu).
  assert (serve_reboot s1 = s1) as Hsr by (unfold serve_reboot; by rewrite Hre).
  pose proof (device_half_memory h s1) as Hmem. set (s' := sample_lines (update_devices h s1).2) in *.
  assert (iteration itrace ftrace h s s') as Hit.
  { split; [exact (rp_run s a Hr)|]. cbv zeta. fold s1. rewrite Hsr. split; [exact Hpo|].
    unfold s'. destruct (update_devices h s1) as [r s2]. by split. }
  exists s'. split; [exact Hit|]. pose proof (iteration_ok _ _ _ _ _ (rp_ok s a Hr) Hit) as Hok.
  set (f := set_lines l1 (MTIP c') l2 l3) in *.
  assert (inside (upd_cpu f (s1 <| m_bus := m_bus s' |>))) as Hi.
  { apply inside_core; try reflexivity.
    - apply inside_bus; [exact (rp_inside s1 a' Hr1)|exact (proj2 Hok)|exact Hmem].
    - split; [|exact (proj2 Hok)]. cbn. rewrite <- Hcpu. exact (proj1 (proj1 Hok)).
    - apply (in_itlb (s1 <| m_bus := m_bus s' |>)).
      apply inside_bus; [exact (rp_inside s1 a' Hr1)|exact (proj2 Hok)|exact Hmem]. }
  destruct (rp_agree s1 a' Hr1) as [Gx Gm Gr]. constructor.
  - apply (inside_ext (upd_cpu f (s1 <| m_bus := m_bus s' |>))); [exact Hcpu|reflexivity|exact Hi].
  - exact Hok.
  - rewrite Hcpu. exact (rp_wfi s1 a' Hr1).
  - rewrite Hcpu. exact (rp_run s1 a' Hr1).
  - unfold poweroff_requested, reboot_requested in *. by rewrite Hsys.
  - rewrite Hcpu. exact (rp_pc s1 a' Hr1).
  - constructor.
    + intros n Hn. rewrite Gx by exact Hn. unfold reg. by rewrite Hcpu.
    + intros i. rewrite Gm. unfold ram_byte. by rewrite Hmem.
    + by rewrite Hcpu.
Qed.

Lemma runs_represent n a a' s hs :
  represents s a -> nsteps (arch_step (system_of s0)) n a a' -> length hs = n -> Forall host_ok hs ->
  exists s', iterations itrace ftrace hs s s' /\ represents s' a'.
Proof.
  intros Hr Hn. revert s hs Hr. induction Hn as [a|n a a1 a2 Ha _ IH]; intros s hs Hr Hlen Hh.
  - destruct hs; [|done]. exists s. split; [constructor|exact Hr].
  - destruct hs as [|h hs]; [done|]. apply Forall_cons in Hh as [Hh1 Hh]. injection Hlen as Hlen.
    destruct (iteration_represents h s a a1 Hr Ha Hh1) as (s1 & Hit & Hr1).
    destruct (IH s1 hs Hr1 Hlen Hh) as (s2 & Hits & Hr2). exists s2. split; [by econstructor|exact Hr2].
Qed.
End simulation.

(** C3: the emulator implements the architecture: a program that runs [n] steps on
    the machine of the architecture, on whatever memory system the page tables and
    RAM of the emulated machine make (translation on or off, any privilege mode,
    interrupts masked), runs [n] iterations of the emulator's execution loop, for
    every behaviour of the host, and the emulator's registers, pc, memory and
    reservation are those of the architecture at the end, its translation
    unchanged and its TLBs in agreement with it. *)
Theorem emulator_implements_isa itrace ftrace s a n a' hs :
  represents s s a -> nsteps (arch_step (system_of s)) n a a' -> length hs = n -> Forall host_ok hs ->
  exists s', iterations itrace ftrace hs s s' /\ represents s s' a'.
Proof. apply runs_represent. Qed.

(** ** A concrete run *)

(** What the program sees of a machine without reservation. *)
Definition arch_of (s : mach bus_t) : arch := mk_arch (pc (m_cpu s)) (reg s) (ram_byte (m_bus s)) None.

Lemma masked_disabled c p : mie (csr_reg c) = 0 -> masked c p.
Proof.
  intros E v id Hid (_ & H & _). change (Z.testbit (mie (csr_reg c)) id = true) in H. by rewrite E, Z.bits_0 in H.
Qed.

Lemma user_table_words a :
  table_entry (rd_of user_bus) (satp_of user_mach) a -> ram_word user_bus a /\ 0x80000000 <= a < 0x80003000.
Proof.
  assert (table_root (satp_of user_mach) = user_table 2) as Hroot by (vm_compute; reflexivity).
  intros [va Hv]. rewrite Hroot in Hv. destruct (user_visits va 2 _ a Hv ltac:(lia) eq_refl) as [Ha Hal].
  split; [by apply user_tables_read|exact Ha].
Qed.

Lemma user_represents : represents user_mach user_mach (arch_of user_mach).
Proof.
  pose proof user_mach_ok as [[Hc Hz] Hb]. destruct user_mach_coherent as [Hit Hdt].
  constructor; [|exact user_mach_ok|reflexivity|reflexivity|by split|reflexivity|by constructor].
  constructor; try reflexivity; [by split| | |by intros _|by intros _].
  - apply masked_disabled. vm_compute. reflexivity.
  - intros _ a Ha. split; [by apply (user_table_words a)|reflexivity].
Qed.

Lemma user_leaf_at va pte :
  canonical va -> va / 2 ^ 21 = 0 -> rd_of user_bus (0x80002000 + 8 * vpn_at va 0) = Some pte ->
  pte_ok pte = true -> pte_is_leaf pte = true -> sv39_leaf (rd_of user_bus) satp_example va 0 pte.
Proof.
  intros Hc Hva Hr Ho Hl. split; [exact Hc|]. split; [|exact (Z.mod_1_r _)].
  assert (vpn_at va 2 = 0 /\ vpn_at va 1 = 0) as [E2 E1].
  { unfold vpn_at, page_span in *. cbn. change (2 ^ 21) with 2097152 in *. change (2 ^ 30) with 1073741824. div_lia. }
  change (table_root satp_example) with 0x80000000.
  apply (leaf_next _ _ 1 _ 0x20000401); [rewrite E2; vm_compute; reflexivity|reflexivity|reflexivity|].
  apply (leaf_next _ _ 0 _ 0x20000801); [rewrite E1; vm_compute; reflexivity|reflexivity|reflexivity|]. by apply leaf_here.
Qed.

Lemma user_maps_data mode : mode <> MMU_EXECUTE -> maps user_mach 0x1000 mode 0x80004000.
Proof.
  intros Hm. unfold maps, translates. change (m_bus user_mach) with user_bus.
  assert (satp_of user_mach = satp_example) as -> by (vm_compute; reflexivity).
  assert (mstatus_of user_mach = 0xA00000000) as -> by (vm_compute; reflexivity).
  assert (data_priv user_mach = PRIV_U) as -> by (vm_compute; reflexivity).
  assert (bypass_address_translation satp_example 0xA00000000 mode PRIV_U = false) as -> by (by destruct mode).
  exists 0%nat, 0x200010D7. split; [|split; [|reflexivity]].
  - apply user_leaf_at; [by left|reflexivity|vm_compute; reflexivity..].
  - unfold permitted. destruct mode; try done; repeat split; try done; by left.
Qed.
Lemma user_fetches va : 0 <= va < 4096 -> fetches user_mach va (0x80003000 + va).
Proof.
  intros Hva. unfold fetches, translates. change (m_bus user_mach) with user_bus.
  assert (satp_of user_mach = satp_example) as -> by (vm_compute; reflexivity).
  change (bypass_address_translation satp_example (mstatus_of user_mach) MMU_EXECUTE (priv (m_cpu user_mach)))
    with false. cbv iota.
  exists 0%nat, 0x20000C5B. split; [|split].
  - apply user_leaf_at; [left; lia|div_lia| |vm_compute; reflexivity..].
    assert (vpn_at va 0 = 0) as -> by (unfold vpn_at; cbn; div_lia). vm_compute. reflexivity.
  - split; [by intros _|]. split; [done|]. by split.
  - unfold leaf_pa. change (PPN 0x20000C5B) with 0x80003. change (page_span 0) with 4096. div_lia.
Qed.

(** LUI x1, 1; SW x1, 0(x1), in user mode. *)
Lemma user_arch_run :
  exists a, nsteps (arch_step (system_of user_mach)) 2 (arch_of user_mach) a /\ a_x a 1 = 0x1000 /\ a_mem a 0x80004001 = 0x10.
Proof.
  eexists. split; [eapply nsteps_l; [|eapply nsteps_l; [|constructor]]|].
  - exists 0x80003000. split; [exact (user_fetches 0 ltac:(lia))|]. split; [apply ram_spanb_spec; vm_compute; reflexivity|].
    assert (mem_value (a_mem (arch_of user_mach)) 0x80003000 4 = 0x10B7) as -> by (vm_compute; reflexivity).
    apply (instr_isa _ 0x10B7 _ Inst.LUI (fun pc a b i => inr (pc + 4, Some i)) 4 (Some 0x1000));
      [cbn; tauto|vm_compute; reflexivity|vm_compute; reflexivity].
  - exists 0x80003004. split; [exact (user_fetches 4 ltac:(lia))|]. split; [apply ram_spanb_spec; vm_compute; reflexivity|].
    cbn [a_mem goto set_x update]. assert (mem_value (a_mem (arch_of user_mach)) 0x80003004 4 = 0x0010A023) as -> by (vm_compute; reflexivity).
    apply (instr_store _ 0x0010A023 _ Inst.SW 4 0x80004000); [cbn; tauto|vm_compute; reflexivity|].
    split; [exact (user_maps_data MMU_WRITE ltac:(discriminate))|].
    split; [apply ram_spanb_spec; vm_compute; reflexivity|]. intros _ a Ha. destruct (user_table_words a Ha). split; [done|lia].
  - split; vm_compute; reflexivity.
Qed.
Lemma emulator_implements_isa_witness :
  exists s', iterations false false (replicate 2 (mk_host PollNoData 0)) user_mach s' /\ mach_ok s' /\
    reg s' 1 = 0x1000 /\ ram_byte (m_bus s') 0x80004001 = 0x10.
Proof.
  destruct user_arch_run as (a & Hrun & H1 & H2).
  destruct (emulator_implements_isa false false user_mach (arch_of user_mach) 2 a (replicate 2 (mk_host PollNoData 0))
    user_represents Hrun eq_refl ltac:(by apply Forall_replicate)) as (s' & Hit & Hr).
  destruct (rp_agree _ _ _ Hr) as [Gx Gm _]. exists s'. split; [exact Hit|]. split; [exact (rp_ok _ _ _ Hr)|].
  split; [rewrite <- Gx by lia; exact H1|rewrite <- Gm; exact H2].
Defined.
