(* ===== verification/Startup.v ===== *)
(** * The start-up code of the guest programs

    The loop of [crt0.S] that clears the BSS segment, as the machine code the
    assembler makes of its four instructions (rv64ima, so every instruction is a
    word), run on the machine of the architecture and, by the simulation, on the
    emulator.  It is the same in [software/baremetal/runtime] and
    [software/opensbi-test]. *)
From stdpp Require Import base tactics numbers option list sets relations.
From S2P Require Import Prelude CInt Memory Uart Bus Csr CsrProps Mmu Tlb Decode Alu Cpu CpuInv Isa MemOps Isolation Paging.
From S2P Require Import Exec Progress Arch Simulation.

#[local] Open Scope record_scope.
#[local] Open Scope Z_scope.

(** ** The code *)
Definition T0 : Z := 5.
Definition T1 : Z := 6.

(** [beq t0, t1, 2f; 1: sb x0, 0(t0); addi t0, t0, 1; bne t0, t1, 1b; 2:] *)
Definition clear_bss : list Z :=
  [ enc_B OPCODE_BRANCH 0 T0 T1 16;
    enc_S OPCODE_STORE 0 T0 0 0;
    enc_I OPCODE_OP_IMM T0 0 T0 1;
    enc_B OPCODE_BRANCH 1 T0 T1 (-8) ].

(** The code is in memory at [c]. *)
Definition code_at (m : Z -> Z) (c : Z) (code : list Z) : Prop :=
  forall k inst, code !! k = Some inst -> mem_value m (c + 4 * Z.of_nat k) 4 = inst.

(** The memory with the bytes from [b] to [e] cleared. *)
Definition cleared (b e : Z) (m m' : Z -> Z) : Prop :=
  forall i, m' i = if (b <=? i) && (i <? e) then 0 else m i.

Lemma mem_value_ext m m' a n : (forall i, a <= i < a + n -> m i = m' i) -> mem_value m a n = mem_value m' a n.
Proof.
  intros H. unfold mem_value. f_equal. apply list_fmap_ext. intros i x Hx. apply lookup_seqZ in Hx as [-> Hx]. apply H. lia.
Qed.

(** ** On the architecture *)
Section loop.
Context (M : memory_system) (c b e : Z).
Context (Hc : 0 <= c /\ c + 16 < 2 ^ 64 /\ c mod 4 = 0) (Hbe : 0 <= b <= e /\ e < 2 ^ 64) (Hapart : e <= c \/ c + 16 <= b).
Context (Hfetch : forall k, 0 <= k < 4 -> ms_fetch M (c + 4 * k) (c + 4 * k) /\ ms_ram M (c + 4 * k) 4).
Context (Hbss : forall i, b <= i < e -> stores_at M i 1 i).

(** A state of the program: at instruction [k], [t0 = x], [t1 = e], the bytes below
    [y] cleared, everything else as in [a0]. *)
Record clearing (a0 : arch) (k x y : Z) (a : arch) : Prop := {
  cl_pc : a_pc a = c + 4 * k;
  cl_t0 : a_x a T0 = x;
  cl_t1 : a_x a T1 = e;
  cl_mem : cleared b y (a_mem a0) (a_mem a);
  cl_x n : n <> T0 -> a_x a n = a_x a0 n;
  cl_res : a_res a = a_res a0;
}.

Context (a0 : arch) (Hcode : code_at (a_mem a0) c clear_bss).

Lemma clearing_step k x y a inst a' :
  clearing a0 k x y a -> y <= e -> 0 <= k < 4 -> clear_bss !! Z.to_nat k = Some inst ->
  arch_instr M inst a a' -> arch_step M a a'.
Proof.
  intros Ha Hy Hk Hi H. exists (c + 4 * k). rewrite (cl_pc _ _ _ _ _ Ha). split; [by apply Hfetch|].
  split; [by apply Hfetch|].
  assert (mem_value (a_mem a) (c + 4 * k) 4 = inst) as ->; [|exact H].
  rewrite <- (Hcode _ _ Hi), Z2Nat.id by lia. apply mem_value_ext. intros i Hr. rewrite (cl_mem _ _ _ _ _ Ha).
  destruct (Z.leb_spec b i), (Z.ltb_spec i y); cbn [andb]; try done. lia.
Qed.

Lemma beq_step a :
  clearing a0 0 b b a -> exists a', arch_step M a a' /\ clearing a0 (if b =? e then 4 else 1) b b a'.
Proof.
  intros Ha. pose proof Ha as [Hpc Ht0 Ht1 Hm Hx Hr]. eexists. split.
  - eapply (clearing_step 0 b b); [done|lia|lia|reflexivity|].
    eapply (instr_isa M _ _ Inst.BEQ); [cbn; tauto|vm_compute; reflexivity|].
    change (xreg a (dec_rs1 _)) with (a_x a T0). change (xreg a (dec_rs2 _)) with (a_x a T1).
    change (s64 (dec_imm _)) with 16. rewrite Hpc, Ht0, Ht1. unfold isa_branch, isa_jump.
    replace ((c + 4 * 0 + 16) mod 4 =? 0) with true by (symmetry; apply Z.eqb_eq; div_lia).
    instantiate (1 := None). instantiate (1 := if b =? e then c + 16 else c + 4).
    destruct (b =? e); do 2 f_equal; lia.
  - constructor; try done. cbn. destruct (b =? e); rewrite Z.mod_small by lia; lia.
Qed.

Lemma sb_step x a :
  clearing a0 1 x x a -> b <= x < e -> exists a', arch_step M a a' /\ clearing a0 2 x (x + 1) a'.
Proof.
  intros Ha Hx. pose proof Ha as [Hpc Ht0 Ht1 Hm Hxs Hr]. eexists. split.
  - eapply (clearing_step 1 x x); [done|lia|lia|reflexivity|].
    eapply (instr_store M _ _ Inst.SB 1 x); [cbn; tauto|vm_compute; reflexivity|].
    change (xreg a (dec_rs1 _)) with (a_x a T0). change (s64 (dec_imm _)) with 0.
    rewrite Ht0, Z.add_0_r, Z.mod_small by lia. by apply Hbss.
  - constructor; try done.
    + cbn. rewrite Hpc, Z.mod_small by lia. lia.
    + intros i. cbn [a_mem next_inst goto update]. change (xreg a (dec_rs2 _)) with 0. unfold mem_update.
      rewrite Hm. destruct (Z.leb_spec x i), (Z.ltb_spec i (x + 1)), (Z.leb_spec b i), (Z.ltb_spec i x); cbn [andb];
        try lia; try reflexivity.
Qed.

Lemma addi_step x a :
  clearing a0 2 x (x + 1) a -> b <= x < e -> exists a', arch_step M a a' /\ clearing a0 3 (x + 1) (x + 1) a'.
Proof.
  intros Ha Hx. pose proof Ha as [Hpc Ht0 Ht1 Hm Hxs Hr]. eexists. split.
  - eapply (clearing_step 2 x (x + 1)); [done|lia|lia|reflexivity|].
    eapply (instr_isa M _ _ Inst.ADDI (isa_ri Z.add)); [cbn; do 10 right; left; reflexivity|vm_compute; reflexivity|].
    change (xreg a (dec_rs1 _)) with (a_x a T0). change (s64 (dec_imm _)) with 1. rewrite Hpc, Ht0. reflexivity.
  - constructor; try done.
    + cbn. rewrite Z.mod_small by lia. lia.
    + cbn. apply Z.mod_small. lia.
    + intros n Hn. cbn [a_x goto set_x update]. change (dec_rd (decode _)) with T0. rewrite (proj2 (Z.eqb_neq n T0)) by exact Hn. by apply Hxs.
Qed.

Lemma bne_step x a :
  clearing a0 3 x x a -> b <= x <= e -> exists a', arch_step M a a' /\ clearing a0 (if x =? e then 4 else 1) x x a'.
Proof.
  intros Ha Hx. pose proof Ha as [Hpc Ht0 Ht1 Hm Hxs Hr]. eexists. split.
  - eapply (clearing_step 3 x x); [done|lia|lia|reflexivity|].
    eapply (instr_isa M _ _ Inst.BNE); [cbn; tauto|vm_compute; reflexivity|].
    change (xreg a (dec_rs1 _)) with (a_x a T0). change (xreg a (dec_rs2 _)) with (a_x a T1).
    change (s64 (dec_imm _)) with (-8). rewrite Hpc, Ht0, Ht1. unfold isa_branch, isa_jump.
    replace ((c + 4 * 3 + -8) mod 4 =? 0) with true by (symmetry; apply Z.eqb_eq; div_lia).
    instantiate (1 := None). instantiate (1 := if x =? e then c + 16 else c + 4).
    destruct (x =? e); cbn [negb]; do 2 f_equal; lia.
  - constructor; try done. cbn. destruct (x =? e); rewrite Z.mod_small by lia; lia.
Qed.

(** The loop from the byte [e - n], and the whole code: one branch, and three
    instructions for each byte. *)
Lemma loop_runs n a :
  (0 < n)%nat -> b <= e - Z.of_nat n -> clearing a0 1 (e - Z.of_nat n) (e - Z.of_nat n) a ->
  exists a', nsteps (arch_step M) (3 * n) a a' /\ clearing a0 4 e e a'.
Proof.
  revert a. induction n as [|n IH]; intros a Hn Hb Ha; [lia|]. set (x := e - Z.of_nat (S n)) in *.
  destruct (sb_step x a Ha ltac:(lia)) as (a1 & S1 & H1). destruct (addi_step x a1 H1 ltac:(lia)) as (a2 & S2 & H2).
  destruct (bne_step (x + 1) a2 H2 ltac:(lia)) as (a3 & S3 & H3). replace (x + 1) with (e - Z.of_nat n) in H3 by lia.
  replace (3 * S n)%nat with (S (S (S (3 * n)))) by lia.
  destruct (Z.eqb_spec (e - Z.of_nat n) e) as [E|E].
  - rewrite E in H3. assert (n = 0)%nat as -> by lia. exists a3. split; [|exact H3].
    do 3 (eapply nsteps_l; [eassumption|]). constructor.
  - destruct (IH a3 ltac:(lia) ltac:(lia) H3) as (a4 & S4 & H4). exists a4. split; [|exact H4].
    do 3 (eapply nsteps_l; [eassumption|]). exact S4.
Qed.

Lemma clear_bss_runs :
  a_pc a0 = c -> a_x a0 T0 = b -> a_x a0 T1 = e ->
  exists a', nsteps (arch_step M) (1 + 3 * Z.to_nat (e - b)) a0 a' /\ clearing a0 4 e e a'.
Proof.
  intros Hpc H0 H1. assert (clearing a0 0 b b a0) as Ha.
  { constructor; try done; [lia|]. intros i. by destruct (Z.leb_spec b i), (Z.ltb_spec i b); cbn [andb]; try lia. }
  destruct (beq_step a0 Ha) as (a1 & S1 & Ha1). destruct (Z.eqb_spec b e) as [->|Hne].
  - exists a1. rewrite Z.sub_diag. split; [|exact Ha1]. by apply nsteps_once.
  - destruct (loop_runs (Z.to_nat (e - b)) a1 ltac:(lia) ltac:(lia)) as (a2 & S2 & Ha2).
    { replace (e - Z.of_nat (Z.to_nat (e - b))) with b by lia. exact Ha1. }
    exists a2. split; [|exact Ha2]. by eapply nsteps_l.
Qed.
End loop.

(** ** On the emulator *)

(** A machine between two instructions, translation off, nothing to interrupt it. *)
Record poised (s : mach bus_t) : Prop := {
  po_ok : mach_ok s;
  po_wfi : wfi (m_cpu s) = false;
  po_run : halted (m_cpu s) = false;
  po_power : poweroff_requested s = false /\ reboot_requested s = false;
  po_bare : satp_of s / 2 ^ 60 = 0;
  po_masked : masked (csr (m_cpu s)) (priv (m_cpu s));
  po_res : res_valid (res (m_cpu s)) = false;
}.

Lemma poised_represents s : poised s -> represents s s (arch_of s).
Proof.
  intros Hs. pose proof (po_bare s Hs) as Hb. assert (~ paging s) as Hp by (intros H; by apply H).
  destruct (po_ok s Hs) as [[Hc Hz] Hbus]. constructor; try apply Hs; [|done|].
  - constructor; try done; [apply Hs|..]; by intros H.
  - constructor; [done|done|apply Hs].
Qed.

Lemma bare_identity s p va mode : poised s -> translates (satp_of s) (mstatus_of s) (m_bus s) p va mode va.
Proof.
  intros Hs. unfold translates. destruct (bypass_address_translation _ _ _ _) eqn:E; [done|]. exfalso.
  destruct (po_ok s Hs) as [[Hc _] _]. exact (bypass_paging _ _ _ _ (satp_u _ Hc) E (po_bare s Hs)).
Qed.

Lemma span_of s a n :
  bus_ok (m_bus s) -> n ∈ [1; 2; 4; 8] -> RAM_BASE <= a -> a + n <= RAM_BASE + mem_size (bus_memory (m_bus s)) ->
  a mod n = 0 -> is_u 64 a -> ram_span (m_bus s) a n.
Proof. intros Hb Hn Hlo Hhi Hal Hu. split; [exact Hu|]. split; [exact Hn|]. split; [|exact Hal]. by split. Qed.

(** C16: the start-up code clears the BSS segment, on the emulator: from the branch
    over the empty segment on, for every place and size of the segment in RAM,
    whatever it held and whatever the host does meanwhile, the execution loop gets
    to the end of the loop in one iteration and three for each byte, with every
    byte of the segment zero, every other byte of RAM and every register but t0 as
    they were. *)
Theorem bss_cleared itrace ftrace s b e hs :
  poised s -> reg s T0 = b -> reg s T1 = e ->
  let c := pc (m_cpu s) in let top := RAM_BASE + mem_size (bus_memory (m_bus s)) in
  RAM_BASE <= c -> c + 16 <= top -> top < 2 ^ 64 -> code_at (ram_byte (m_bus s)) c clear_bss ->
  RAM_BASE <= b <= e -> e <= top -> e <= c \/ c + 16 <= b ->
  length hs = (1 + 3 * Z.to_nat (e - b))%nat -> Forall host_ok hs ->
  exists s', iterations itrace ftrace hs s s' /\ mach_ok s' /\ pc (m_cpu s') = c + 16 /\
    cleared b e (ram_byte (m_bus s)) (ram_byte (m_bus s')) /\
    (forall n, 0 < n < 32 -> n <> T0 -> reg s' n = reg s n) /\ reg s' T0 = e.
Proof.
  intros Hs H0 H1 c top Hc Hctop Htop Hcode Hb He Hapart Hlen Hh. pose proof (po_ok s Hs) as [[Hcore _] Hbus].
  destruct (mid_pc _ Hcore) as [_ Hal]. fold c in Hal. pose proof (conj Hbus Hbus) as [Hb1 _].
  assert (forall k, 0 <= k < 4 -> ms_fetch (system_of s) (c + 4 * k) (c + 4 * k) /\ ms_ram (system_of s) (c + 4 * k) 4) as Hf.
  { intros k Hk. split; [exact (bare_identity s _ _ _ Hs)|].
    apply span_of; [exact Hbus|set_solver|lia|unfold top in *; lia|div_lia|unfold RAM_BASE, DRAM_BASE in *; lia]. }
  assert (forall i, b <= i < e -> stores_at (system_of s) i 1 i) as Hst.
  { intros i Hi. split; [exact (bare_identity s _ _ _ Hs)|]. split; [|intros Hp; by destruct (Hp (po_bare s Hs))].
    apply span_of; [exact Hbus|set_solver|lia|unfold top in *; lia|apply Z.mod_1_r|unfold RAM_BASE, DRAM_BASE in *; lia]. }
  destruct (clear_bss_runs (system_of s) c b e ltac:(unfold RAM_BASE, DRAM_BASE in *; lia)
    ltac:(unfold RAM_BASE, DRAM_BASE in *; lia) Hapart Hf Hst (arch_of s) Hcode eq_refl H0 H1) as (a & Hrun & Ha).
  destruct (runs_represent itrace ftrace s _ _ _ s hs (poised_represents s Hs) Hrun Hlen Hh) as (s' & Hit & Hr).
  destruct Ha as [Ax A0 _ Am An _]. destruct (rp_agree _ _ _ Hr) as [Gx Gm _].
  exists s'. split; [exact Hit|]. split; [exact (rp_ok _ _ _ Hr)|]. rewrite <- (rp_pc _ _ _ Hr), Ax. split; [lia|].
  split; [intros i; rewrite <- Gm; apply Am|]. split; [intros n Hn Hne; rewrite <- Gx by exact Hn; by apply An|].
  rewrite <- Gx by (unfold T0; lia). exact A0.
Qed.

(** Four poisoned bytes to clear, in a RAM of 4 KiB filled with 0xA5. *)
Definition start_ram : memory_t :=
  mem_store ram_example 0 (concat (le_bytes 4 <$> clear_bss)).
Definition start_mach : mach bus_t :=
  mk_mach (cpu_init <| regs := aset (aset (replicate 32 0) T0 0x80000100) T1 0x80000104 |>)
    (bus_example <| bus_memory := start_ram |>) [].

Lemma start_bus_wf : bus_wf (m_bus start_mach).
Proof.
  destruct bus_example_wf. constructor; try done. cbn [m_bus start_mach bus_memory update]. unfold start_ram.
  apply mem_store_wf; [exact ram_example_wf|]. unfold clear_bss. cbn [fmap list_fmap concat].
  rewrite !Forall_app. split_and!; try apply le_bytes_ok. constructor.
Qed.
Lemma start_poised : poised start_mach.
Proof.
  constructor; try reflexivity; [|by split|by apply masked_disabled].
  destruct (mach_reset_ok (HB := bus_laws) (m_bus start_mach) start_bus_wf) as [[[] Hz] Hb].
  split; [split; [|reflexivity]|exact Hb]. constructor; try done.
  do 2 (apply (aset_Forall (fun v => 0 <= v < 2 ^ 64)); [lia|]). apply Forall_replicate. lia.
Qed.
Lemma start_code : code_at (ram_byte (m_bus start_mach)) RAM_BASE clear_bss.
Proof.
  intros k inst Hk. do 4 (destruct k as [|k]; [injection Hk as <-; vm_compute; reflexivity|]). discriminate Hk.
Qed.

Lemma bss_cleared_witness :
  exists s', iterations false false (replicate 13 (mk_host PollNoData 0)) start_mach s' /\ pc (m_cpu s') = 0x80000010 /\
    ram_byte (m_bus s') 0x80000103 = 0 /\ ram_byte (m_bus s') 0x80000104 = 0xA5.
Proof.
  destruct (bss_cleared false false start_mach 0x80000100 0x80000104 (replicate 13 (mk_host PollNoData 0)) start_poised
    eq_refl eq_refl ltac:(vm_compute; congruence) ltac:(vm_compute; congruence) ltac:(vm_compute; congruence) start_code
    ltac:(vm_compute; split; congruence) ltac:(vm_compute; congruence) ltac:(right; vm_compute; congruence) eq_refl
    ltac:(by apply Forall_replicate)) as (s' & Hit & _ & Hpc & Hm & _).
  exists s'. split; [exact Hit|]. split; [exact Hpc|]. rewrite !Hm. split; vm_compute; reflexivity.
Defined.
