(* ===== verification/Drivers.v ===== *)
(** * The drivers of the guest software on the emulated devices

    Models the bare-metal drivers ([software/baremetal/drivers]: [mmio.h], the UART
    and the CLINT driver) and the FreeRTOS console ([software/freeRTOS/runtime]:
    [ns16550.c], [riscv-virt.c], [console.c]) against the bus and the devices of
    the emulator.  A driver is a computation on a [world]: the bus, and what the
    host will contribute between one access of the driver and the next, which is
    one [host_input] for each instruction the core executes in between
    ([world_tick], the end of the body of [cpu_exec]).  The theorems compose driver
    and device: what a driver is asked to print is what the host receives, what the
    host types is what a driver returns, for every interleaving. *)
From stdpp Require Import base tactics numbers option list sorting.
From S2P Require Import Prelude CInt Memory Syscon Clint Plic Uart Bus Csr Mmu Tlb Decode Cpu CpuInv Isolation Exec.

#[local] Open Scope record_scope.
#[local] Open Scope Z_scope.

(** ** The world of a driver *)

(** [w_in] lists the characters the receive FIFO has held or accepted so far; no
    driver reads it. *)
Record world := mk_world { w_bus : bus_t; w_in : list Z; w_future : list (list host_input) }.
#[export] Instance eta_world : Eta world := fun w => mk_world (w_bus w) (w_in w) (w_future w).

(** How a driver ends without returning: its access faults, the emulator stops on a
    host error, or the future that is given ends while it runs. *)
Inductive stop := AccessFault | HostError | FutureEnds.

Abbreviation drv := (exec world stop).

Definition uart_of (b : bus_t) : uart16550_t := device (uart0 (bus_devices b)).
Definition clint_of (b : bus_t) : clint_t := device (clint (bus_devices b)).

(** The characters a poll of stdin adds to the receive FIFO. *)
Definition accepted (u : uart16550_t) (p : poll_result) : list Z :=
  match p with PollByte b => if fifo_size (rx_fifo u) <? 16 then [w8 b] else [] | _ => [] end.

(** The devices at the end of an instruction: [device_update], then, unless it
    fails, [device_irq_level]. *)
Definition world_tick (h : host_input) (b : bus_t) : option bus_t :=
  let '(r, d) := device_update (bus_devices b) (h_poll h) (h_clock h) in
  if negb (r =? 0) then None else Some (b <| bus_devices := (device_irq_level d).2 |>).

Fixpoint world_ticks (hs : list host_input) (b : bus_t) (i : list Z) : option (bus_t * list Z) :=
  match hs with
  | [] => Some (b, i)
  | h :: hs => b' ← world_tick h b; world_ticks hs b' (i ++ accepted (uart_of b) (h_poll h))
  end.

(** One load or store of the driver, after the instructions that precede it. *)
Definition access {A} (f : bus_t -> option A * bus_t) : drv A := fun w =>
  match w_future w with
  | [] => (inl FutureEnds, w)
  | hs :: future =>
      match world_ticks hs (w_bus w) (w_in w) with
      | None => (inl HostError, w)
      | Some (b, i) =>
          let '(v, b) := f b in
          let w := mk_world b i future in
          match v with Some v => (inr v, w) | None => (inl AccessFault, w) end
      end
  end.

(** ** mmio.h *)
Definition mmio_read (addr size : Z) : drv Z := access (fun b => bus_read b addr size).
Definition mmio_write (addr size data : Z) : drv unit := access (fun b =>
  let '(r, b) := bus_write b addr size data in (if r =? 0 then Some tt else None, b)).

Definition mmio_write8 (addr data : Z) : drv unit := mmio_write addr 1 (w8 data).
Definition mmio_read8 (addr : Z) : drv Z := v ← mmio_read addr 1; mret (w8 v).
Definition mmio_write32 (addr data : Z) : drv unit := mmio_write addr 4 (w32 data).
Definition mmio_read32 (addr : Z) : drv Z := v ← mmio_read addr 4; mret (w32 v).
Definition mmio_write64 (addr data : Z) : drv unit := mmio_write addr 8 (w64 data).
Definition mmio_read64 (addr : Z) : drv Z := v ← mmio_read addr 8; mret (w64 v).
Definition REG_FIELD_GET (reg mask offset : Z) : Z := Z.shiftr (Z.land reg mask) offset.

(** [while (cond == 0) ;]: every evaluation of [cond] is an access, so the future
    bounds the number of rounds. *)
Fixpoint spin (fuel : nat) (cond : drv Z) : drv unit :=
  match fuel with
  | O => raise FutureEnds
  | S fuel => v ← cond; if v =? 0 then spin fuel cond else mret tt
  end.
Definition wait_until (cond : drv Z) : drv unit := fun w => spin (S (length (w_future w))) cond w.

(** ** clint.c *)
Definition CLINT_MSIP_OFFSET : Z := 0.
Definition CLINT_MTIMECMP_OFFSET : Z := 0x4000.
Definition CLINT_MTIME_OFFSET : Z := 0xBFF8.

Definition clint_set_msip (base : Z) : drv unit := mmio_write32 (add64 base CLINT_MSIP_OFFSET) 0x1.
Definition clint_clear_msip (base : Z) : drv unit := mmio_write32 (add64 base CLINT_MSIP_OFFSET) 0x0.
Definition clint_set_mtime (base value : Z) : drv unit := mmio_write64 (add64 base CLINT_MTIME_OFFSET) value.
Definition clint_read_mtime (base : Z) : drv Z := mmio_read64 (add64 base CLINT_MTIME_OFFSET).
Definition clint_set_mtimecmp (base value : Z) : drv unit := mmio_write64 (add64 base CLINT_MTIMECMP_OFFSET) value.
Definition clint_read_mtimecmp (base : Z) : drv Z := mmio_read64 (add64 base CLINT_MTIMECMP_OFFSET).

(** ** uart16550.c *)
Definition UART_THR_OFFSET : Z := 0.
Definition UART_RBR_OFFSET : Z := 0.
Definition UART_LSR_OFFSET : Z := 5.
Definition UART_LSR_DR_OFFSET : Z := 0.
Definition UART_LSR_DR_MASK : Z := Z.shiftl 1 UART_LSR_DR_OFFSET.
Definition UART_LSR_TEMT_OFFSET : Z := 6.
Definition UART_LSR_TEMT_MASK : Z := Z.shiftl 1 UART_LSR_TEMT_OFFSET.

Definition uart_putchar (base c : Z) : drv Z :=
  wait_until (v ← mmio_read8 (add64 base UART_LSR_OFFSET); mret (REG_FIELD_GET v UART_LSR_TEMT_MASK UART_LSR_TEMT_OFFSET));;
  mmio_write8 (add64 base UART_THR_OFFSET) (w8 c);;
  mret (w8 c).

Definition uart_getchar (base : Z) : drv Z :=
  wait_until (v ← mmio_read8 (add64 base UART_LSR_OFFSET); mret (REG_FIELD_GET v UART_LSR_DR_MASK UART_LSR_DR_OFFSET));;
  mmio_read8 (add64 base UART_RBR_OFFSET).

(** The characters of a string up to its terminator, in order.  A string is the bytes
    from where it starts to the end of its object; running past that end is a fault. *)
Fixpoint for_chars (send : Z -> drv unit) (s : list Z) : drv unit :=
  match s with
  | [] => raise AccessFault
  | c :: s => if c =? 0 then mret tt else send c;; for_chars send s
  end.
Definition uart_putstr (base : Z) (s : list Z) : drv unit := for_chars (fun c => uart_putchar base c;; mret tt) s.

(** The loop of [uart_readline]: [n] characters read, [pos] of them stored.  A write
    outside [buf] is a fault. *)
Definition buf_write (buf : list Z) (i c : Z) : drv (list Z) :=
  if (0 <=? i) && (i <? Z.of_nat (length buf)) then mret (aset buf i c) else raise AccessFault.
Fixpoint readline_loop (fuel : nat) (base size : Z) (buf : list Z) (pos n : Z) : drv (Z * list Z) :=
  match fuel with
  | O => raise FutureEnds
  | S fuel =>
      c ← uart_getchar base;
      let c := w8 c in
      if c =? 10 then buf ← buf_write buf pos 0; mret (n, buf)
      else if n <? sub64 size 1 then
        buf ← buf_write buf pos c; readline_loop fuel base size buf (pos + 1) (add64 n 1)
      else readline_loop fuel base size buf pos (add64 n 1)
  end.
(** The result is the value returned and the contents of [buf]. *)
Definition uart_readline (base : Z) (buf : list Z) (size : Z) : drv (Z * list Z) := fun w =>
  if size =? 0 then (inr (0, buf), w) else readline_loop (S (length (w_future w))) base size buf 0 0 w.

(** The digits: [None] is a write outside [buf].  The fuel is the number of digits a
    64-bit number can have. *)
Fixpoint put_num_digits (fuel : nat) (num i : Z) (buf : list Z) : option (Z * list Z) :=
  if 0 <? num then
    match fuel with
    | O => None
    | S fuel =>
        let i := i - 1 in
        if (0 <=? i) && (i <? Z.of_nat (length buf))
        then put_num_digits fuel (num / 10) i (aset buf i (w8 (48 + num mod 10))) else None
    end
  else Some (i, buf).
(** [buf] is the uninitialised array of 21 characters. *)
Definition uart_put_num (base num : Z) (buf : list Z) : drv unit :=
  let buf := aset buf 20 0 in
  if num =? 0 then uart_putchar base 48;; mret tt
  else match put_num_digits 20 num 20 buf with
       | None => raise AccessFault
       | Some (i, buf) => uart_putstr base (drop (Z.to_nat i) buf)
       end.

(** ** ns16550.c, riscv-virt.c and console.c of the FreeRTOS port *)
Definition NS16550_ADDR : Z := 0x10000000.
Definition REG_THR : Z := 0x00.
Definition REG_LSR : Z := 0x05.
Definition LSR_THRE : Z := 0x20.

Definition vOutNS16550 (addr c : Z) : drv unit :=
  wait_until (v ← mmio_read8 (add64 addr REG_LSR); mret (Z.land v LSR_THRE));;
  mmio_write8 (add64 addr REG_THR) (w8 c).

Section freertos.
(** [portENTER_CRITICAL] and [portEXIT_CRITICAL] are macros of FreeRTOS. *)
Context (portENTER_CRITICAL portEXIT_CRITICAL : drv unit).

(** The loop runs to [strlen(s)], which is the same in every round: [s] is not
    modified while it is sent. *)
Definition vSendString (s : list Z) : drv unit :=
  portENTER_CRITICAL;; for_chars (vOutNS16550 NS16550_ADDR) s;; vOutNS16550 NS16550_ADDR 10;; portEXIT_CRITICAL.
Definition vSendChar (c : Z) : drv unit :=
  portENTER_CRITICAL;; vOutNS16550 NS16550_ADDR c;; portEXIT_CRITICAL.
Definition prvConsolePutChar (c : Z) : drv Z := vSendChar c;; mret (w8 c).
End freertos.

(** ** The environment *)

(** [world_tick] is what the execution loop does to the bus after an instruction. *)
Lemma world_tick_loop h (s : mach bus_t) :
  world_tick h (m_bus s) =
    let '(r, s') := update_devices h s in if negb (r =? 0) then None else Some (m_bus (sample_lines s')).
Proof.
  unfold world_tick, update_devices, devices. destruct (device_update _ _ _) as [r d].
  destruct (negb _); [done|]. unfold sample_lines, devices. cbn [upd_devices m_bus bus_devices update].
  by destruct (device_irq_level d) as [[x l] d'].
Qed.

(** Polls that do not stop the emulator. *)
Definition calm_input (h : host_input) : Prop :=
  match h_poll h with PollError | PollReadError => False | _ => True end.
Definition calm (w : world) : Prop := Forall (Forall calm_input) (w_future w).

(** The UART as it is after reset, as far as the drivers rely on it: the receive
    FIFO enabled, the divisor latch not selected. *)
Record uart_ready (b : bus_t) : Prop := {
  ur_wf : bus_wf b;
  ur_base : uart_base (uart_of b) = UART0_BASE;
  ur_fifo : FIFO_ENABLE (uart_of b) = 1;
  ur_dlab : FIELD_READ (lcr (uart_reg (uart_of b))) 7 1 = 0;
}.

Lemma uart_ready_ext b b' :
  bus_wf b' -> uart_base (uart_of b') = uart_base (uart_of b) ->
  fcr (uart_reg (uart_of b')) = fcr (uart_reg (uart_of b)) ->
  lcr (uart_reg (uart_of b')) = lcr (uart_reg (uart_of b)) -> uart_ready b -> uart_ready b'.
Proof. intros Hw Hb Hf Hl []. constructor; [done|congruence|unfold FIFO_ENABLE in *; by rewrite Hf|by rewrite Hl]. Qed.

(** One iteration of the environment keeps the UART ready, prints nothing, and puts
    into the FIFO what it accepts. *)
Lemma world_tick_spec h b :
  uart_ready b -> calm_input h ->
  exists b', world_tick h b = Some b' /\ uart_ready b' /\ uart_out (uart_of b') = uart_out (uart_of b) /\
    fifo_queue (uart_of b') = fifo_queue (uart_of b) ++ accepted (uart_of b) (h_poll h) /\
    clint_of b' = (clint_irq_level (clint_mtime_tick (clint_of b) (h_clock h))).2.
Proof.
  intros Hr Hh. pose proof Hr as [Hw Hb Hf Hl].
  destruct (poll_lossless (uart_of b) (h_poll h) (bwf_uart b Hw) Hf) as (Hu1 & Hu2 & _ & Hu4).
  assert ((uart16550_poll_input (uart_of b) (h_poll h)).1 = 0) as Hz.
  { destruct (decide ((uart16550_poll_input (uart_of b) (h_poll h)).1 = 0)) as [|Hne]; [done|].
    apply poll_input_error in Hne. unfold calm_input in Hh. by destruct Hne as [E|E]; rewrite E in Hh. }
  pose proof (device_update_wf b (h_poll h) (h_clock h) Hw) as Hw1.
  unfold world_tick, device_update in *. fold (uart_of b) in *. fold (clint_of b) in *.
  assert (uart_base (uart16550_poll_input (uart_of b) (h_poll h)).2 = uart_base (uart_of b) /\
    uart_out (uart16550_poll_input (uart_of b) (h_poll h)).2 = uart_out (uart_of b)) as [Hb2 Ho2].
  { unfold uart16550_poll_input, rx_fifo_write. repeat (case_match; try done). }
  destruct (uart16550_poll_input (uart_of b) (h_poll h)) as [r u]. cbn [fst snd] in *. subst r. cbn [Z.eqb negb] in *.
  eexists. split; [reflexivity|]. set (d := update clint _ _) in *.
  pose proof (device_irq_level_wf _ Hw1) as Hw2. cbn [bus_devices update] in Hw2.
  assert (uart_of (b <| bus_devices := (device_irq_level d).2 |>) = (uart16550_irq_level u).2 /\
    clint_of (b <| bus_devices := (device_irq_level d).2 |>)
      = (clint_irq_level (clint_mtime_tick (clint_of b) (h_clock h))).2) as [Eu Ec].
  { unfold uart_of, clint_of, device_irq_level. unfold d. cbn [clint uart0 device bus_devices update].
    destruct (clint_irq_level _), (uart16550_irq_level _). done. }
  split; [|split; [|split; [|exact Ec]]].
  - apply (uart_ready_ext b); rewrite ?Eu; [exact Hw2|exact Hb2|..|done].
    + change (fcr (uart_reg u) = fcr (uart_reg (uart_of b))). by rewrite Hu2.
    + change (lcr (uart_reg u) = lcr (uart_reg (uart_of b))). by rewrite Hu2.
  - rewrite Eu. exact Ho2.
  - rewrite Eu. change (fifo_queue (uart16550_irq_level u).2) with (fifo_queue u). rewrite Hu4.
    unfold accepted. destruct (h_poll h); rewrite ?app_nil_r; try done. by destruct (_ <? _); rewrite ?app_nil_r.
Qed.

(** ** What an access of a driver finds *)

(** The world while a driver runs: the host has received [o]; of the characters that
    came in, [t] have been taken and the next are [l], maybe followed by others; the
    driver can still make [n] accesses. *)
Record serving (o t l : list Z) (n : nat) (w : world) : Prop := {
  sv_ready : uart_ready (w_bus w);
  sv_calm : calm w;
  sv_out : uart_out (uart_of (w_bus w)) = o;
  sv_in : w_in w = t ++ fifo_queue (uart_of (w_bus w));
  sv_known : l `prefix_of` fifo_queue (uart_of (w_bus w));
  sv_future : length (w_future w) = n;
}.

(** The future ended while the driver was waiting. *)
Definition ends (o t : list Z) (short : Prop) (e : stop) (w : world) : Prop :=
  short /\ e = FutureEnds /\ serving o t [] 0 w.

Lemma ends_weaken o t (P P' : Prop) e w : (P -> P') -> ends o t P e w -> ends o t P' e w.
Proof. intros H (HP & He & Hw). split; auto. Qed.

Lemma serving_known o t l l' n w : l' `prefix_of` l -> serving o t l n w -> serving o t l' n w.
Proof. intros Hl []. constructor; try done. by etrans. Qed.

Lemma world_ticks_spec hs b i :
  uart_ready b -> Forall calm_input hs ->
  exists b' new, world_ticks hs b i = Some (b', i ++ new) /\ uart_ready b' /\
    uart_out (uart_of b') = uart_out (uart_of b) /\ fifo_queue (uart_of b') = fifo_queue (uart_of b) ++ new.
Proof.
  revert b i. induction hs as [|h hs IH]; intros b i Hb Hc.
  { exists b, []. rewrite !app_nil_r. done. }
  apply Forall_cons in Hc as [Hh Hc]. destruct (world_tick_spec h b Hb Hh) as (b1 & E1 & Hb1 & Ho1 & Hq1 & _).
  destruct (IH b1 (i ++ accepted (uart_of b) (h_poll h)) Hb1 Hc) as (b2 & new & E2 & Hb2 & Ho2 & Hq2).
  exists b2, (accepted (uart_of b) (h_poll h) ++ new). cbn [world_ticks]. rewrite E1. cbn [mbind option_bind].
  rewrite E2, app_assoc. split; [done|]. split; [done|]. split; [congruence|]. by rewrite Hq2, Hq1, app_assoc.
Qed.

Lemma access_spec {A} (f : bus_t -> option A * bus_t) o t l n (Q : A -> world -> Prop) :
  (forall b i future, (0 < n)%nat -> serving o t l (n - 1) (mk_world b i future) ->
     exists v b', f b = (Some v, b') /\ Q v (mk_world b' i future)) ->
  triple (serving o t l n) (access f) Q (ends o t (n = 0%nat)).
Proof.
  intros Hf w Hw. pose proof Hw as [Hr Hc Ho Hi Hk Hn]. unfold access, calm in *.
  destruct (w_future w) as [|hs future] eqn:Ef; cbn [length] in Hn.
  { split; [lia|]. split; [done|]. apply (serving_known _ _ l); [apply prefix_nil|]. by subst n. }
  apply Forall_cons in Hc as [Hh Hc]. destruct (world_ticks_spec hs (w_bus w) (w_in w) Hr Hh) as (b & new & -> & Hb & Ho' & Hq).
  destruct (Hf b (w_in w ++ new) future) as (v & b' & -> & HQ); [lia| |done].
  constructor; cbn [w_bus w_in w_future]; try done; [congruence|by rewrite Hi, Hq, app_assoc| |lia].
  rewrite Hq. by apply prefix_app_r.
Qed.

(** The registers of the UART on the bus. *)
Definition set_uart (u : uart16550_t) (b : bus_t) : bus_t :=
  b <| bus_devices ::= fun l => l <| uart0 ::= fun d => d <| device := u |> |> |>.

Lemma uart_route b k : bus_wf b -> 0 <= k < 8 -> route b (UART0_BASE + k) 1 = Some RUart.
Proof.
  intros Hb Hk. apply (route_spec b (UART0_BASE + k) 1 Hb); [unfold UART0_BASE; lia|lia|].
  unfold contains. cbn. unfold UART0_BASE, UART0_SIZE. lia.
Qed.
Lemma bus_read_uart b k :
  bus_wf b -> 0 <= k < 8 ->
  bus_read b (UART0_BASE + k) 1 =
    ((uart16550_read (uart_of b) (UART0_BASE + k) 1).1, set_uart (uart16550_read (uart_of b) (UART0_BASE + k) 1).2 b).
Proof.
  intros Hb Hk. pose proof (uart_route b k Hb Hk) as Hr. unfold route in Hr. unfold bus_read, uart_of.
  do 2 (destruct (in_range _ _ _); [discriminate Hr|]). destruct (in_range _ _ _); [|by repeat case_match].
  by destruct (uart16550_read _ _ _).
Qed.
Lemma bus_write_uart b k d :
  bus_wf b -> 0 <= k < 8 ->
  bus_write b (UART0_BASE + k) 1 d =
    ((uart16550_write (uart_of b) (UART0_BASE + k) 1 d).1,
     set_uart (uart16550_write (uart_of b) (UART0_BASE + k) 1 d).2 b).
Proof.
  intros Hb Hk. pose proof (uart_route b k Hb Hk) as Hr. unfold route in Hr. unfold bus_write, uart_of.
  do 2 (destruct (in_range _ _ _); [discriminate Hr|]). destruct (in_range _ _ _); [|by repeat case_match].
  by destruct (uart16550_write _ _ _ _).
Qed.

Lemma uart_of_set u b : uart_of (set_uart u b) = u.
Proof. done. Qed.

(** Reading the line status: data ready says whether a character waits, the
    transmitter is always empty; nothing the drivers see changes. *)
Lemma lsr_bits u :
  Z.testbit (lsr_update u) 0 = (0 <? fifo_size (rx_fifo u)) /\
  Z.testbit (lsr_update u) 5 = true /\ Z.testbit (lsr_update u) 6 = true.
Proof.
  unfold lsr_update. rewrite !field_write_testbit by lia. generalize (0 <? fifo_size (rx_fifo u)). intros b. by destruct b.
Qed.

Lemma read_lsr b o t l n i future :
  serving o t l n (mk_world b i future) ->
  exists v b', bus_read b (add64 UART0_BASE UART_LSR_OFFSET) 1 = (Some v, b') /\
    serving o t l n (mk_world b' i future) /\
    Z.testbit (w8 v) 0 = bool_decide (fifo_queue (uart_of b') <> []) /\
    Z.testbit (w8 v) 5 = true /\ Z.testbit (w8 v) 6 = true.
Proof.
  intros [Hr Hc Ho Hi Hk Hn]. cbn [w_bus w_in w_future] in *. pose proof Hr as [Hw Hb Hf Hl].
  change (add64 UART0_BASE UART_LSR_OFFSET) with (UART0_BASE + 5).
  pose proof (bus_read_wf b (UART0_BASE + 5) 1 Hw) as Hw'. pose proof (bus_read_uart b 5 Hw ltac:(lia)) as E.
  rewrite E in *. cbn [snd] in Hw'.
  assert (uart16550_read (uart_of b) (UART0_BASE + 5) 1 =
    (Some (w8 (lsr_update (uart_of b))),
     upd_reg (fun r => r <| lsr := lsr_clear (lsr_update (uart_of b)) |>) (uart_of b)
       <| rx_fifo ::= fun f => f <| overrun := false |> |>)) as Eu.
  { unfold uart16550_read. by rewrite Hb. }
  rewrite Eu in *. cbn [fst snd] in *. eexists _, _. split; [reflexivity|]. split.
  - constructor; cbn [w_bus w_in w_future]; done.
  - rewrite uart_of_set. destruct (lsr_bits (uart_of b)) as (B0 & B5 & B6).
    unfold w8. rewrite !Z.mod_mod by lia. rewrite !Z.mod_pow2_bits_low by lia. rewrite B0, B5, B6.
    split; [|done]. pose proof (fifo_queue_length (uart_of b) (bwf_uart b Hw)) as Hlen.
    change (fifo_queue _) with (fifo_queue (uart_of b)). pose proof (uwf_size _ (bwf_uart b Hw)) as Hsz.
    fold (uart_of b) in Hsz. destruct (fifo_queue (uart_of b)) as [|c q]; cbn [length] in Hlen.
    + rewrite bool_decide_eq_false_2 by (intros H; by apply H). apply Z.ltb_ge. lia.
    + rewrite bool_decide_eq_true_2 by done. apply Z.ltb_lt. lia.
Qed.

(** A character written to the transmit register is printed. *)
Lemma write_thr b o t l n i future c :
  serving o t l n (mk_world b i future) ->
  exists b', bus_write b (add64 UART0_BASE UART_THR_OFFSET) 1 (w8 (w8 c)) = (0, b') /\
    serving (o ++ [w8 c]) t l n (mk_world b' i future).
Proof.
  intros [Hr Hc Ho Hi Hk Hn]. cbn [w_bus w_in w_future] in *. pose proof Hr as [Hw Hb Hf Hl].
  change (add64 UART0_BASE UART_THR_OFFSET) with (UART0_BASE + 0).
  pose proof (bus_write_wf b (UART0_BASE + 0) 1 (w8 (w8 c)) Hw) as Hw'.
  pose proof (bus_write_uart b 0 (w8 (w8 c)) Hw ltac:(lia)) as E. rewrite E in *. cbn [snd] in Hw'.
  assert (uart16550_write (uart_of b) (UART0_BASE + 0) 1 (w8 (w8 c)) =
    (0, upd_reg (fun r => r <| thr := w8 c |>) (uart_of b) <| uart_out ::= fun o => o ++ [w8 c] |>)) as Eu.
  { unfold uart16550_write. rewrite Hb, Hl. unfold w8. by rewrite !Z.mod_mod by lia. }
  rewrite Eu in *. cbn [fst snd] in *. eexists. split; [reflexivity|].
  constructor; cbn [w_bus w_in w_future]; try done.
  rewrite uart_of_set, <- Ho. reflexivity.
Qed.

(** The receive register delivers the first character that waits. *)
Lemma read_rbr b o t c l n i future :
  serving o t (c :: l) n (mk_world b i future) ->
  exists b', bus_read b (add64 UART0_BASE UART_RBR_OFFSET) 1 = (Some c, b') /\ w8 c = c /\
    serving o (t ++ [c]) l n (mk_world b' i future).
Proof.
  intros [Hr Hc Ho Hi [q Hk] Hn]. cbn [w_bus w_in w_future] in *. pose proof Hr as [Hw Hb Hf Hl].
  change (add64 UART0_BASE UART_RBR_OFFSET) with (UART0_BASE + 0).
  pose proof (bus_read_wf b (UART0_BASE + 0) 1 Hw) as Hw'. pose proof (bus_read_uart b 0 Hw ltac:(lia)) as E.
  rewrite E in *. cbn [snd] in Hw'. change (UART0_BASE + 0) with UART0_BASE in *.
  pose proof (read_rbr_lossless (uart_of b) (bwf_uart b Hw) Hl) as H. cbv zeta in H. rewrite Hb in H.
  destruct H as (Hu1 & Hu2 & _ & Hu4).
  assert (uart_base (uart16550_read (uart_of b) UART0_BASE 1).2 = uart_base (uart_of b) /\
    uart_out (uart16550_read (uart_of b) UART0_BASE 1).2 = uart_out (uart_of b) /\
    exists v, (uart16550_read (uart_of b) UART0_BASE 1).1 = Some (w8 v)) as (Hb2 & Ho2 & v & Hv).
  { unfold uart16550_read. rewrite Hb, Hl. change (sub64 UART0_BASE UART0_BASE) with 0. cbn [negb Z.eqb Pos.eqb].
    unfold rx_fifo_read. destruct (_ =? 0); cbn [fst snd]; eauto. }
  assert ((fifo_size (rx_fifo (uart_of b)) =? 0) = false) as Hz.
  { apply Z.eqb_neq. intros Hz. rewrite Hz in Hu4. pose proof (fifo_queue_length (uart_of b) (bwf_uart b Hw)) as Hlen.
    rewrite Hk, Hz in Hlen. discriminate Hlen. }
  rewrite Hz, Hv in Hu4. rewrite Hk in Hu4. cbn [option_list app] in Hu4. injection Hu4 as Hcv Hq.
  destruct (uart16550_read (uart_of b) UART0_BASE 1) as [r u]. cbn [fst snd] in *. subst r c.
  eexists. split; [reflexivity|]. split; [unfold w8; by rewrite Z.mod_mod|].
  constructor; cbn [w_bus w_in w_future]; rewrite ?uart_of_set; try done.
  - apply (uart_ready_ext b); rewrite ?uart_of_set; [done|done|..|done]; by rewrite Hu2.
  - by rewrite Ho2.
  - by rewrite Hi, Hk, <- Hq, <- app_assoc.
  - by exists q.
Qed.
