(* ===== verification/DriverProps.v ===== *)
(** * Properties of the guest drivers

    [Drivers] composed with the device models: total and partial Hoare triples of the
    UART drivers over [serving], the timer under the environment, and what the
    drivers promise their callers: the console, the decimal output, the line reader
    and the timer event. *)
From stdpp Require Import base tactics numbers option list sorting.
From S2P Require Import Prelude CInt Memory Syscon Clint Plic Uart Bus Csr Mmu Tlb Decode Cpu CpuInv Isolation Exec.
From S2P Require Import Drivers.

#[local] Open Scope record_scope.
#[local] Open Scope Z_scope.

(** ** The UART drivers *)
Lemma wait_once (cond : drv Z) P Q R :
  triple P cond (fun v w => v <> 0 /\ Q w) R -> triple P (wait_until cond) (fun _ => Q) R.
Proof.
  intros H w Hw. specialize (H w Hw). unfold wait_until. cbn [spin]. unfold mbind, exec_bind.
  destruct (cond w) as [[e|v] w']; [done|]. destruct H as [Hv HQ]. rewrite (proj2 (Z.eqb_neq v 0)) by done. done.
Qed.

Lemma read8_triple addr o t l n Q :
  (forall b i future, (0 < n)%nat -> serving o t l (n - 1) (mk_world b i future) ->
     exists v b', bus_read b addr 1 = (Some v, b') /\ Q (w8 v) (mk_world b' i future)) ->
  triple (serving o t l n) (mmio_read8 addr) Q (ends o t (n = 0%nat)).
Proof.
  intros H. unfold mmio_read8, mmio_read. apply (triple_bind _ _ _ (fun v w => Q (w8 v) w)).
  - apply access_spec. intros b i future Hn Hb. by apply H.
  - intros v. by apply triple_ret.
Qed.

Lemma lsr_triple o t l n :
  triple (serving o t l n) (mmio_read8 (add64 UART0_BASE UART_LSR_OFFSET))
    (fun v w => (0 < n)%nat /\ serving o t l (n - 1) w /\
       Z.testbit v 0 = bool_decide (fifo_queue (uart_of (w_bus w)) <> []) /\
       Z.testbit v 5 = true /\ Z.testbit v 6 = true)
    (ends o t (n = 0%nat)).
Proof.
  apply read8_triple. intros b i future Hn Hb. destruct (read_lsr b o t l (n - 1) i future Hb) as (v & b' & E & Hb' & H).
  exists v, b'. split; [exact E|]. split; [lia|]. split; [exact Hb'|exact H].
Qed.

(** A wait that looks at the transmitter is over at the first look. *)
Lemma wait_tx (g : Z -> Z) o t l n :
  (forall v, Z.testbit v 5 = true -> Z.testbit v 6 = true -> g v <> 0) ->
  triple (serving o t l n) (wait_until (v ← mmio_read8 (add64 UART0_BASE UART_LSR_OFFSET); mret (g v)))
    (fun _ => serving o t l (n - 1)) (ends o t (n = 0%nat)).
Proof.
  intros Hg. apply wait_once. eapply triple_bind; [apply lsr_triple|]. intros v. apply triple_ret.
  intros w (_ & Hw & _ & H5 & H6). split; [by apply Hg|done].
Qed.

Lemma field_temt v : Z.testbit v 6 = true -> REG_FIELD_GET v UART_LSR_TEMT_MASK UART_LSR_TEMT_OFFSET <> 0.
Proof.
  intros H E. assert (Z.testbit (REG_FIELD_GET v UART_LSR_TEMT_MASK UART_LSR_TEMT_OFFSET) 0 = true) as Hb; [|by rewrite E in Hb].
  unfold REG_FIELD_GET. rewrite Z.shiftr_spec, Z.land_spec by lia. change (0 + UART_LSR_TEMT_OFFSET) with 6. by rewrite H.
Qed.
Lemma field_thre v : Z.testbit v 5 = true -> Z.land v LSR_THRE <> 0.
Proof.
  intros H E. assert (Z.testbit (Z.land v LSR_THRE) 5 = true) as Hb; [|by rewrite E in Hb].
  by rewrite Z.land_spec, H.
Qed.
Lemma field_dr v : REG_FIELD_GET v UART_LSR_DR_MASK UART_LSR_DR_OFFSET = Z.b2z (Z.testbit v 0).
Proof.
  unfold REG_FIELD_GET. change UART_LSR_DR_MASK with (Z.ones 1). change UART_LSR_DR_OFFSET with 0.
  rewrite Z.shiftr_0_r, Z.land_ones by lia. change (2 ^ 1) with 2. by rewrite <- Z.bit0_mod.
Qed.

Lemma thr_triple o t l n c :
  triple (serving o t l n) (mmio_write8 (add64 UART0_BASE UART_THR_OFFSET) (w8 c))
    (fun _ => serving (o ++ [w8 c]) t l (n - 1)) (ends o t (n = 0%nat)).
Proof.
  apply access_spec. intros b i future Hn Hb. destruct (write_thr b o t l (n - 1) i future c Hb) as (b' & -> & Hb'). eauto.
Qed.

(** Wait and write: two accesses. *)
Lemma send_triple (g : Z -> Z) o t l n c :
  (forall v, Z.testbit v 5 = true -> Z.testbit v 6 = true -> g v <> 0) ->
  triple (serving o t l n)
    (wait_until (v ← mmio_read8 (add64 UART0_BASE UART_LSR_OFFSET); mret (g v));;
     mmio_write8 (add64 UART0_BASE UART_THR_OFFSET) (w8 c))
    (fun _ => serving (o ++ [w8 c]) t l (n - 2)) (ends o t (n < 2)%nat).
Proof.
  intros Hg. eapply triple_bind.
  - eapply triple_conseq; [by apply wait_tx|done|done|]. intros e w. apply ends_weaken. lia.
  - intros u. eapply triple_conseq; [apply thr_triple|done| |].
    + intros u1 w Hw. by replace (n - 2)%nat with (n - 1 - 1)%nat by lia.
    + intros e w. apply ends_weaken. lia.
Qed.

Lemma putchar_triple o t l n c :
  triple (serving o t l n) (uart_putchar UART0_BASE c)
    (fun v w => v = w8 c /\ serving (o ++ [w8 c]) t l (n - 2) w) (ends o t (n < 2)%nat).
Proof.
  unfold uart_putchar. pose proof (send_triple (fun v => REG_FIELD_GET v UART_LSR_TEMT_MASK UART_LSR_TEMT_OFFSET) o t l n c
    (fun v _ H6 => field_temt v H6)) as H. intros w Hw. specialize (H w Hw). unfold mbind, exec_bind in *.
  destruct (wait_until _ w) as [[e|[]] w1]; [done|]. by destruct (mmio_write8 _ _ w1) as [[e|[]] w2].
Qed.

Lemma vOut_triple o t l n c :
  triple (serving o t l n) (vOutNS16550 NS16550_ADDR c)
    (fun _ => serving (o ++ [w8 c]) t l (n - 2)) (ends o t (n < 2)%nat).
Proof. apply (send_triple (fun v => Z.land v LSR_THRE)). intros v H5 _. by apply field_thre. Qed.

(** ** Strings *)

(** The characters of a C string: nonzero bytes. *)
Definition chars (s : list Z) : Prop := Forall (fun c => 0 < c < 2 ^ 8) s.

(** A string is printed in order, with two accesses for each character; when the
    future ends before, what was printed is a prefix of it. *)
Lemma for_chars_triple send s rest o t l n :
  (forall o n c, triple (serving o t l n) (send c) (fun _ => serving (o ++ [w8 c]) t l (n - 2)) (ends o t (n < 2)%nat)) ->
  chars s ->
  triple (serving o t l n) (for_chars send (s ++ 0 :: rest))
    (fun _ => serving (o ++ s) t l (n - 2 * length s))
    (fun e w => exists s', s' `prefix_of` s /\ ends (o ++ s') t (n < 2 * length s)%nat e w).
Proof.
  intros Hsend. revert o n. induction s as [|c s IH]; intros o n Hs.
  { apply triple_ret. intros w Hw. rewrite app_nil_r. by replace (n - 2 * length [])%nat with n by (cbn; lia). }
  apply Forall_cons in Hs as [Hc Hs]. cbn [app for_chars]. rewrite (proj2 (Z.eqb_neq c 0)) by lia.
  eapply triple_bind.
  - eapply triple_conseq; [apply Hsend|done|done|]. intros e w Hw. exists []. split; [apply prefix_nil|].
    rewrite app_nil_r. revert Hw. apply ends_weaken. cbn. lia.
  - intros u. assert (w8 c = c) as Hc8 by (apply Z.mod_small; lia). rewrite Hc8.
    eapply triple_conseq; [by apply IH|done| |].
    + intros u1 w Hw. rewrite <- app_assoc in Hw. cbn [length]. 
      by replace (n - 2 * S (length s))%nat with (n - 2 - 2 * length s)%nat by lia.
    + intros e w (s' & Hp & Hw). exists (c :: s'). split; [by apply prefix_cons|].
      rewrite <- app_assoc in Hw. revert Hw. apply ends_weaken. cbn. lia.
Qed.

Lemma putchar_unit_triple o t l n c :
  triple (serving o t l n) (uart_putchar UART0_BASE c;; mret tt)
    (fun _ => serving (o ++ [w8 c]) t l (n - 2)) (ends o t (n < 2)%nat).
Proof. eapply triple_bind; [apply putchar_triple|]. intros v. apply triple_ret. by intros w [_ H]. Qed.

Lemma putstr_triple s rest o t l n :
  chars s ->
  triple (serving o t l n) (uart_putstr UART0_BASE (s ++ 0 :: rest))
    (fun _ => serving (o ++ s) t l (n - 2 * length s))
    (fun e w => exists s', s' `prefix_of` s /\ ends (o ++ s') t (n < 2 * length s)%nat e w).
Proof. apply for_chars_triple. intros. apply putchar_unit_triple. Qed.

(** ** Numbers *)

(** The decimal notation of a number: digits, most significant first, no leading
    zero. *)
Definition dec_value (ds : list Z) : Z := foldl (fun v c => 10 * v + (c - 48)) 0 ds.
Record decimal (num : Z) (ds : list Z) : Prop := {
  dec_digits : Forall (fun c => 48 <= c <= 57) ds;
  dec_is : dec_value ds = num;
  dec_lead : head ds <> Some 48;
}.

Lemma decimal_nil num : decimal num [] -> num = 0.
Proof. by intros [_ <- _]. Qed.

Lemma decimal_snoc num ds : 0 < num -> decimal (num / 10) ds -> decimal num (ds ++ [48 + num mod 10]).
Proof.
  intros Hn Hd. pose proof Hd as [Hf Hv Hl]. constructor.
  - apply Forall_app. split; [done|]. apply Forall_singleton. div_lia.
  - unfold dec_value in *. rewrite foldl_app, Hv. cbn [foldl]. div_lia.
  - destruct ds as [|c ds]; [|done]. apply decimal_nil in Hd. cbn. intros [= E]. div_lia.
Qed.

Lemma drop_aset (l : list Z) i c : 0 <= i < Z.of_nat (length l) ->
  drop (Z.to_nat i) (aset l i c) = c :: drop (Z.to_nat (i + 1)) l.
Proof.
  intros Hi. unfold aset. replace (Z.to_nat (i + 1)) with (S (Z.to_nat i)) by lia.
  rewrite (drop_S _ c (Z.to_nat i)) by (apply list_lookup_insert_eq; lia). by rewrite drop_insert_lt by lia.
Qed.

Lemma put_num_digits_spec fuel num i buf :
  0 <= num < 10 ^ Z.of_nat fuel -> Z.of_nat fuel <= i <= Z.of_nat (length buf) ->
  exists i' buf' ds, put_num_digits fuel num i buf = Some (i', buf') /\
    drop (Z.to_nat i') buf' = ds ++ drop (Z.to_nat i) buf /\ decimal num ds /\ (length ds <= fuel)%nat.
Proof.
  revert num i buf. induction fuel as [|fuel IH]; intros num i buf Hn Hi.
  - assert (num = 0) as -> by (cbn in Hn; lia). exists i, buf, []. by repeat split.
  - cbn [put_num_digits]. destruct (Z.ltb_spec 0 num) as [Hpos|Hz].
    2:{ assert (num = 0) as -> by lia. exists i, buf, []. repeat split; try done. cbn. lia. }
    rewrite (proj2 (Z.leb_le 0 (i - 1))), (proj2 (Z.ltb_lt (i - 1) _)) by lia. cbn [andb].
    rewrite Nat2Z.inj_succ, Z.pow_succ_r in Hn by lia.
    destruct (IH (num / 10) (i - 1) (aset buf (i - 1) (w8 (48 + num mod 10)))) as (i' & buf' & ds & E & Hd & Hds & Hlen).
    { split; [div_lia|]. apply Z.div_lt_upper_bound; lia. }
    { rewrite aset_length. lia. }
    exists i', buf', (ds ++ [48 + num mod 10]). split; [done|]. split.
    + rewrite Hd, drop_aset by lia. unfold w8. rewrite Z.mod_small by div_lia.
      replace (i - 1 + 1) with i by lia. by rewrite <- app_assoc.
    + split; [by apply decimal_snoc|]. rewrite length_app. cbn. lia.
Qed.

Lemma decimal_chars num ds : decimal num ds -> chars ds.
Proof. intros [H _ _]. eapply Forall_impl; [exact H|]. cbn. lia. Qed.

(** What [uart_put_num] prints. *)
Definition numeral (num : Z) (ds : list Z) : Prop := if num =? 0 then ds = [48] else decimal num ds.

Lemma put_num_triple num buf o t l n :
  is_u 64 num -> length buf = 21%nat -> (42 <= n)%nat ->
  triple (serving o t l n) (uart_put_num UART0_BASE num buf)
    (fun _ w => exists ds m, numeral num ds /\ (1 <= length ds <= 20)%nat /\ serving (o ++ ds) t l m w)
    (fun _ _ => False).
Proof.
  intros Hnum Hbuf Hn. unfold uart_put_num, numeral. destruct (Z.eqb_spec num 0) as [->|Hnz].
  - eapply triple_conseq; [apply putchar_unit_triple|done| |].
    + intros u w Hw. exists [48], (n - 2)%nat. split; [done|]. split; [cbn; lia|done].
    + intros e w (H & _). lia.
  - destruct (put_num_digits_spec 20 num 20 (aset buf 20 0)) as (i' & buf' & ds & -> & Hd & Hds & Hlen);
      [change (10 ^ Z.of_nat 20) with 100000000000000000000; lia|rewrite aset_length, Hbuf; lia|].
    rewrite Hd, drop_aset by (rewrite Hbuf; lia). eapply triple_conseq; [apply putstr_triple|done| |].
    + by eapply decimal_chars.
    + intros u w Hw. exists ds, (n - 2 * length ds)%nat. split; [done|]. split; [|done]. split; [|done].
      destruct ds; [|cbn; lia]. by apply decimal_nil in Hds.
    + intros e w (s' & _ & (H & _)). lia.
Qed.

(** ** Lines *)
Lemma rbr_triple o t c l n :
  triple (serving o t (c :: l) n) (mmio_read8 (add64 UART0_BASE UART_RBR_OFFSET))
    (fun v w => (0 < n)%nat /\ v = c /\ w8 c = c /\ serving o (t ++ [c]) l (n - 1) w) (ends o t (n = 0%nat)).
Proof.
  apply read8_triple. intros b i future Hn Hb. destruct (read_rbr b o t c l (n - 1) i future Hb) as (b' & -> & Hc & Hb').
  exists c, b'. by rewrite Hc.
Qed.

Abbreviation rx_cond := (v ← mmio_read8 (add64 UART0_BASE UART_LSR_OFFSET);
  mret (REG_FIELD_GET v UART_LSR_DR_MASK UART_LSR_DR_OFFSET)).

(** One look at the receiver. *)
Lemma rx_cond_triple o t l n :
  triple (serving o t l n) rx_cond
    (fun v w => (0 < n)%nat /\ serving o t l (n - 1) w /\
       v = Z.b2z (bool_decide (fifo_queue (uart_of (w_bus w)) <> [])))
    (ends o t (n = 0%nat)).
Proof.
  eapply triple_bind; [apply lsr_triple|]. intros v. apply triple_ret. intros w (Hn & Hw & Hv & _).
  split; [done|]. split; [done|]. by rewrite field_dr, Hv.
Qed.

Lemma serving_head o t n w :
  serving o t [] n w -> fifo_queue (uart_of (w_bus w)) <> [] -> exists c, serving o t [c] n w.
Proof.
  intros [] Hq. destruct (fifo_queue (uart_of (w_bus w))) as [|c q] eqn:E; [done|]. exists c.
  constructor; rewrite ?E; try done. by exists q.
Qed.

(** A character that waits is found at once; otherwise the wait lasts until one
    comes or the future ends. *)
Lemma wait_rx_known o t c l n :
  triple (serving o t (c :: l) n) (wait_until rx_cond) (fun _ => serving o t (c :: l) (n - 1)) (ends o t (n = 0%nat)).
Proof.
  apply wait_once. eapply triple_conseq; [apply rx_cond_triple|done| |done].
  intros v w (_ & Hw & ->). split; [|done]. rewrite bool_decide_eq_true_2; [done|].
  destruct (sv_known _ _ _ _ _ Hw) as [q ->]. done.
Qed.

Lemma spin_rx fuel o t n :
  (n < fuel)%nat ->
  triple (serving o t [] n) (spin fuel rx_cond) (fun _ w => exists c m, (m < n)%nat /\ serving o t [c] m w)
    (ends o t True).
Proof.
  revert n. induction fuel as [|fuel IH]; intros n Hn; [lia|]. cbn [spin]. intros w Hw.
  pose proof (rx_cond_triple o t [] n w Hw) as H. unfold mbind at 1. unfold exec_bind at 1.
  destruct (rx_cond w) as [[e|v] w']; [revert H; by apply ends_weaken|]. destruct H as (Hpos & Hw' & ->).
  case_bool_decide as Hq; cbn [Z.b2z Z.eqb].
  - destruct (serving_head _ _ _ _ Hw' Hq) as [c Hc]. exists c, (n - 1)%nat. split; [lia|done].
  - specialize (IH (n - 1)%nat ltac:(lia) w' Hw'). destruct (spin fuel _ w') as [[e|[]] w2]; [done|].
    destruct IH as (c & m & Hm & Hc). exists c, m. split; [lia|done].
Qed.

Lemma wait_rx o t n :
  triple (serving o t [] n) (wait_until rx_cond) (fun _ w => exists c m, (m < n)%nat /\ serving o t [c] m w)
    (ends o t True).
Proof. intros w Hw. apply (spin_rx _ o t n); [|done]. rewrite (sv_future _ _ _ _ _ Hw). lia. Qed.

Lemma getchar_known o t c l n :
  triple (serving o t (c :: l) n) (uart_getchar UART0_BASE)
    (fun v w => (2 <= n)%nat /\ v = c /\ w8 c = c /\ serving o (t ++ [c]) l (n - 2) w) (ends o t (n < 2)%nat).
Proof.
  unfold uart_getchar. eapply triple_bind.
  - eapply triple_conseq; [apply wait_rx_known|done|done|]. intros e w. apply ends_weaken. lia.
  - intros u. eapply triple_conseq; [apply rbr_triple|done| |].
    + intros v w (Hn & Hw). split; [lia|]. by replace (n - 2)%nat with (n - 1 - 1)%nat by lia.
    + intros e w. apply ends_weaken. lia.
Qed.

Lemma getchar_any o t n :
  triple (serving o t [] n) (uart_getchar UART0_BASE)
    (fun v w => w8 v = v /\ exists m, (m < n)%nat /\ serving o (t ++ [v]) [] m w) (ends o t True).
Proof.
  unfold uart_getchar. eapply triple_bind; [apply wait_rx|]. intros u w (c & m & Hm & Hw).
  pose proof (rbr_triple o t c [] m w Hw) as H. destruct (mmio_read8 _ w) as [[e|v] w'].
  - revert H. by apply ends_weaken.
  - destruct H as (Hpos & -> & Hc & Hw'). split; [done|]. exists (m - 1)%nat. split; [lia|done].
Qed.

(** The buffer after the characters [acc] of a line: as many as fit before the
    terminator. *)
Definition kept (size : Z) (acc : list Z) : list Z := take (Z.to_nat (size - 1)) acc.
Definition stored_line (size : Z) (acc buf0 : list Z) : list Z :=
  kept size acc ++ drop (length (kept size acc)) buf0.

Lemma aset_at (a b : list Z) c : (length a < length b)%nat ->
  aset (a ++ drop (length a) b) (Z.of_nat (length a)) c = a ++ c :: drop (S (length a)) b.
Proof.
  intros Hlen. destruct (lookup_lt_is_Some_2 b (length a) Hlen) as [x Hx].
  unfold aset. rewrite Nat2Z.id, (drop_S _ x) by done. by rewrite insert_app_r_alt, Nat.sub_diag by lia.
Qed.

Lemma kept_length size acc : (length (kept size acc) = min (Z.to_nat (size - 1)) (length acc))%nat.
Proof. apply length_take. Qed.

Lemma kept_snoc size acc c :
  0 < size -> kept size (acc ++ [c]) = if Z.of_nat (length acc) <? size - 1 then kept size acc ++ [c] else kept size acc.
Proof.
  intros Hs. unfold kept. destruct (Z.ltb_spec (Z.of_nat (length acc)) (size - 1)).
  - rewrite !take_ge by (rewrite ?length_app; cbn; lia). done.
  - by rewrite take_app_le by lia.
Qed.

(** A whole line waits and the future suffices to read it. *)
Definition line_waits (l : list Z) (n : nat) : Prop :=
  exists line rest, l = line ++ 10 :: rest /\ (2 * (length line + 1) <= n)%nat.

Lemma line_waits_tail c l n : line_waits (c :: l) n -> c <> 10 -> line_waits l (n - 2).
Proof.
  intros (line & rest & E & Hn) Hc. destruct line as [|c' line]; cbn in E; simplify_eq.
  exists line, rest. split; [done|]. cbn in Hn. lia.
Qed.

(** Reading one character, known or not. *)
Lemma getchar_triple o t l n :
  triple (serving o t l n) (uart_getchar UART0_BASE)
    (fun c w => w8 c = c /\ exists l' m, (m < n)%nat /\ serving o (t ++ [c]) l' m w /\
       (c <> 10 -> line_waits l n -> line_waits l' m))
    (ends o t (~ line_waits l n)).
Proof.
  destruct l as [|c l].
  - eapply triple_conseq; [apply getchar_any|done| |].
    + intros v w (Hv & m & Hm & Hw). split; [done|]. exists [], m. split; [done|]. split; [done|].
      intros _ (line & rest & E & _). by destruct line.
    + intros e w. apply ends_weaken. intros _ (line & rest & E & _). by destruct line.
  - eapply triple_conseq; [apply getchar_known|done| |].
    + intros v w (Hn & -> & Hc & Hw). split; [done|]. exists l, (n - 2)%nat. split; [lia|]. split; [done|].
      intros Hne Hl. by eapply line_waits_tail.
    + intros e w. apply ends_weaken. intros Hn (line & rest & _ & Hlen). lia.
Qed.

Section readline.
Context (o t : list Z) (buf0 : list Z) (size : Z) (Hsize : 0 < size < 2 ^ 64) (Hbuf : Z.of_nat (length buf0) = size).

Definition line_read (r : Z * list Z) (w : world) : Prop :=
  exists line m, (10 ∉ line) /\
    r = (Z.of_nat (length line), kept size line ++ 0 :: drop (S (length (kept size line))) buf0) /\
    serving o (t ++ line ++ [10]) [] m w.
Definition line_cut (l : list Z) (n : nat) (e : stop) (w : world) : Prop :=
  exists line, (10 ∉ line) /\ ends o (t ++ line) (~ line_waits l n) e w.

Lemma buf_write_kept acc c :
  buf_write (stored_line size acc buf0) (Z.of_nat (length (kept size acc))) c =
    mret (kept size acc ++ c :: drop (S (length (kept size acc))) buf0).
Proof.
  pose proof (kept_length size acc) as Hk. unfold buf_write, stored_line. rewrite length_app, length_drop.
  rewrite (proj2 (Z.leb_le 0 _)), (proj2 (Z.ltb_lt _ _)) by lia. cbn [andb]. by rewrite aset_at by lia.
Qed.

Lemma readline_loop_triple fuel l n acc :
  (n < fuel)%nat -> Z.of_nat n + Z.of_nat (length acc) < 2 ^ 64 -> 10 ∉ acc ->
  triple (serving o (t ++ acc) l n)
    (readline_loop fuel UART0_BASE size (stored_line size acc buf0) (Z.of_nat (length (kept size acc)))
       (Z.of_nat (length acc)))
    line_read (line_cut l n).
Proof.
  revert l n acc. induction fuel as [|fuel IH]; intros l n acc Hn Hlen Hacc; [lia|]. cbn [readline_loop].
  eapply triple_bind.
  { eapply triple_conseq; [apply getchar_triple|done|done|]. intros e w Hw. by exists acc. }
  intros c w (Hc & l' & m & Hm & Hw & Hl). cbv beta. rewrite Hc. destruct (Z.eqb_spec c 10) as [-> |Hne].
  { rewrite buf_write_kept. cbn. exists acc, m. split; [done|]. split; [done|].
    rewrite <- app_assoc in Hw. revert Hw. apply serving_known, prefix_nil. }
  assert (10 ∉ acc ++ [c]) as Hacc' by (rewrite elem_of_app, list_elem_of_singleton; naive_solver).
  assert (sub64 size 1 = size - 1) as -> by (unfold sub64; apply w64_small; lia).
  assert (add64 (Z.of_nat (length acc)) 1 = Z.of_nat (length (acc ++ [c]))) as Hadd.
  { rewrite length_app. cbn. unfold add64. rewrite w64_small; lia. }
  specialize (IH l' m (acc ++ [c]) ltac:(lia) ltac:(rewrite length_app; cbn; lia) Hacc').
  rewrite <- app_assoc in Hw. rewrite Hadd. unfold stored_line in *. rewrite kept_snoc in IH by lia.
  assert (forall e w', line_cut l' m e w' -> line_cut l n e w') as Hcut.
  { intros e w' (line & H1 & H2). exists line. split; [done|]. revert H2. apply ends_weaken. naive_solver. }
  destruct (Z.ltb_spec (Z.of_nat (length acc)) (size - 1)) as [Hlt|Hge].
  - fold (stored_line size acc buf0). rewrite buf_write_kept.
    rewrite <- app_assoc, length_app in IH. cbn [app length] in IH. rewrite Nat.add_1_r in IH.
    rewrite Nat2Z.inj_succ in IH. specialize (IH w Hw). unfold mbind, exec_bind, mret, exec_ret, Z.succ in *.
    destruct (readline_loop _ _ _ _ _ _ w) as [[e|r] w']; [by apply Hcut|done].
  - specialize (IH w Hw). destruct (readline_loop _ _ _ _ _ _ w) as [[e|r] w']; [by apply Hcut|done].
Qed.
End readline.

(** ** The timer *)

(** What the interrupt lines of the CLINT do not touch. *)
Definition same_timer (c c' : clint_t) : Prop :=
  clint_base c' = clint_base c /\ clint_reg c' = clint_reg c /\ prev_time_ns c' = prev_time_ns c.

Definition clint_env (c : clint_t) (hs : list host_input) : clint_t :=
  foldl (fun c h => (clint_irq_level (clint_mtime_tick c (h_clock h))).2) c hs.

Lemma irq_level_spec c :
  same_timer c (clint_irq_level c).2 /\
  MTIP (clint_irq_level c).2 = (mtimecmp (clint_reg c) <=? mtime (clint_reg c)) /\
  MSIP (clint_irq_level c).2 = (Clint.msip (clint_reg c) =? 1).
Proof. unfold clint_irq_level, same_timer. cbn. by destruct (_ =? 1), (_ <=? _). Qed.

Lemma same_timer_tick c c' t : same_timer c c' -> same_timer (clint_mtime_tick c t) (clint_mtime_tick c' t).
Proof. intros (H1 & H2 & H3). unfold same_timer, clint_mtime_tick. cbn. by rewrite H1, H2, H3. Qed.

Lemma same_timer_trans c1 c2 c3 : same_timer c1 c2 -> same_timer c2 c3 -> same_timer c1 c3.
Proof. intros (? & ? & ?) (? & ? & ?). split_and!; congruence. Qed.

(** The environment ticks the timer with the clocks of its iterations. *)
Lemma clint_env_ticks c c0 hs : same_timer c0 c -> same_timer (clint_ticks c0 (h_clock <$> hs)) (clint_env c hs).
Proof.
  revert c c0. induction hs as [|h hs IH]; intros c c0 H; [done|]. cbn. apply IH.
  eapply same_timer_trans; [by apply same_timer_tick|]. apply irq_level_spec.
Qed.

Lemma clint_ticks_regs c ts :
  clint_base (clint_ticks c ts) = clint_base c /\ mtimecmp (clint_reg (clint_ticks c ts)) = mtimecmp (clint_reg c).
Proof. revert c. induction ts as [|t ts IH]; intros c; [done|]. exact (IH (clint_mtime_tick c t)). Qed.

Lemma world_ticks_clint hs b i :
  uart_ready b -> Forall calm_input hs ->
  exists b' i', world_ticks hs b i = Some (b', i') /\ uart_ready b' /\ clint_of b' = clint_env (clint_of b) hs.
Proof.
  revert b i. induction hs as [|h hs IH]; intros b i Hb Hc; [by exists b, i|].
  apply Forall_cons in Hc as [Hh Hc]. destruct (world_tick_spec h b Hb Hh) as (b1 & E1 & Hb1 & _ & _ & Ec).
  destruct (IH b1 (i ++ accepted (uart_of b) (h_poll h)) Hb1 Hc) as (b2 & i2 & E2 & Hb2 & Ec2).
  exists b2, i2. cbn [world_ticks]. rewrite E1. cbn [mbind option_bind]. rewrite E2. split; [done|]. split; [done|].
  by rewrite Ec2, Ec.
Qed.

Lemma clint_env_mtip c hs h :
  MTIP (clint_env c (hs ++ [h])) =
    (mtimecmp (clint_reg c) <=? mtime (clint_reg (clint_ticks c (h_clock <$> hs ++ [h])))).
Proof.
  unfold clint_env. rewrite foldl_app. cbn [foldl]. fold (clint_env c hs).
  destruct (irq_level_spec (clint_mtime_tick (clint_env c hs) (h_clock h))) as (_ & -> & _).
  destruct (same_timer_tick _ _ (h_clock h) (clint_env_ticks c c hs ltac:(done))) as (_ & -> & _).
  rewrite fmap_app. unfold clint_ticks. rewrite foldl_app. fold (clint_ticks c (h_clock <$> hs)). cbn [foldl fmap list_fmap].
  f_equal. apply (proj2 (clint_ticks_regs c (h_clock <$> hs))).
Qed.

(** Programming the comparator does not disturb the timer. *)
Definition set_cmp (v : Z) (c : clint_t) : clint_t := c <| clint_reg ::= fun r => r <| mtimecmp := v |> |>.
Lemma clint_ticks_cmp v ts c : clint_ticks (set_cmp v c) ts = set_cmp v (clint_ticks c ts).
Proof. revert c. induction ts as [|t ts IH]; intros c; [done|]. exact (IH (clint_mtime_tick c t)). Qed.
Lemma clint_ticks_same c c' ts : same_timer c c' -> same_timer (clint_ticks c ts) (clint_ticks c' ts).
Proof. revert c c'. induction ts as [|t ts IH]; intros c c' H; [done|]. apply IH. by apply same_timer_tick. Qed.

Lemma sorted_last x l y : Sorted Z.le (x :: l ++ [y]) -> x <= y.
Proof.
  intros H. apply Sorted_StronglySorted in H; [|intros ? ? ?; lia]. apply StronglySorted_inv in H as [_ H].
  apply Forall_app in H as [_ H]. exact (proj1 (Forall_singleton _ _) H).
Qed.

Definition set_clint (c : clint_t) (b : bus_t) : bus_t :=
  b <| bus_devices ::= fun l => l <| clint ::= fun d => d <| device := c |> |> |>.

Lemma clint_route b k : bus_wf b -> 0 <= k <= 0xBFF8 -> route b (CLINT_BASE + k) 8 = Some RClint.
Proof.
  intros Hb Hk. apply (route_spec b (CLINT_BASE + k) 8 Hb); [unfold CLINT_BASE; lia|lia|].
  unfold contains. cbn. unfold CLINT_BASE, CLINT_SIZE. lia.
Qed.
Lemma bus_read_clint b k :
  bus_wf b -> 0 <= k <= 0xBFF8 -> bus_read b (CLINT_BASE + k) 8 = (clint_read (clint_of b) (CLINT_BASE + k) 8, b).
Proof.
  intros Hb Hk. pose proof (clint_route b k Hb Hk) as Hr. unfold route in Hr. unfold bus_read, clint_of.
  do 3 (destruct (in_range _ _ _); [discriminate Hr|]). destruct (in_range _ _ _); [done|by repeat case_match].
Qed.
Lemma bus_write_clint b k d :
  bus_wf b -> 0 <= k <= 0xBFF8 ->
  bus_write b (CLINT_BASE + k) 8 d =
    ((clint_write (clint_of b) (CLINT_BASE + k) 8 d).1, set_clint (clint_write (clint_of b) (CLINT_BASE + k) 8 d).2 b).
Proof.
  intros Hb Hk. pose proof (clint_route b k Hb Hk) as Hr. unfold route in Hr. unfold bus_write, clint_of.
  do 3 (destruct (in_range _ _ _); [discriminate Hr|]). destruct (in_range _ _ _); [|by repeat case_match].
  by destruct (clint_write _ _ _ _).
Qed.

Lemma read_mtime b : uart_ready b -> clint_base (clint_of b) = CLINT_BASE ->
  bus_read b (add64 CLINT_BASE CLINT_MTIME_OFFSET) 8 = (Some (mtime (clint_reg (clint_of b))), b).
Proof.
  intros [Hb _ _ _] Hc. change (add64 CLINT_BASE CLINT_MTIME_OFFSET) with (CLINT_BASE + 0xBFF8).
  rewrite bus_read_clint by (done || lia). unfold clint_read. by rewrite Hc.
Qed.
Lemma write_mtimecmp b v : uart_ready b -> clint_base (clint_of b) = CLINT_BASE -> is_u 64 v ->
  exists b', bus_write b (add64 CLINT_BASE CLINT_MTIMECMP_OFFSET) 8 (w64 v) = (0, b') /\ uart_ready b' /\
    clint_of b' = set_cmp v (clint_of b).
Proof.
  intros Hr Hc Hv. pose proof Hr as [Hb _ _ _].
  change (add64 CLINT_BASE CLINT_MTIMECMP_OFFSET) with (CLINT_BASE + 0x4000).
  pose proof (bus_write_wf b (CLINT_BASE + 0x4000) 8 (w64 v) Hb) as Hw.
  rewrite bus_write_clint in * by (done || lia). unfold clint_write in *. rewrite Hc in *.
  change (sub64 (CLINT_BASE + 0x4000) CLINT_BASE) with 0x4000 in *. cbn [Z.eqb Pos.eqb negb fst snd] in *.
  rewrite !w64_small in * by (unfold w64; first [done | rewrite Z.mod_small; done]).
  eexists. split; [reflexivity|]. split; [by apply (uart_ready_ext b)|done].
Qed.

(** [now + d] as the next timer event: the read and the store of the drivers. *)
Definition alarm (d : Z) : drv Z :=
  now ← clint_read_mtime CLINT_BASE;
  clint_set_mtimecmp CLINT_BASE (add64 now d);;
  mret now.

Lemma alarm_run d w hs1 hs2 future :
  uart_ready (w_bus w) -> clint_base (clint_of (w_bus w)) = CLINT_BASE ->
  w_future w = hs1 :: hs2 :: future -> Forall calm_input hs1 -> Forall calm_input hs2 ->
  let c1 := clint_env (clint_of (w_bus w)) hs1 in
  exists w', alarm d w = (inr (mtime (clint_reg c1)), w') /\ uart_ready (w_bus w') /\ w_future w' = future /\
    clint_of (w_bus w') = set_cmp (add64 (mtime (clint_reg c1)) d) (clint_env c1 hs2) /\ is_u 64 (mtime (clint_reg c1)).
Proof.
  intros Hr Hcb Hf Hc1 Hc2 c1. destruct (world_ticks_clint hs1 (w_bus w) (w_in w) Hr Hc1) as (b1 & i1 & E1 & Hb1 & Ec1).
  destruct (world_ticks_clint hs2 b1 i1 Hb1 Hc2) as (b2 & i2 & E2 & Hb2 & Ec2). fold c1 in Ec1.
  assert (forall c hs, clint_base (clint_env c hs) = clint_base c) as Hbase.
  { intros c hs. destruct (clint_env_ticks c c hs) as (-> & _ & _); [done|]. apply clint_ticks_regs. }
  assert (clint_base (clint_of b1) = CLINT_BASE) as Hcb1 by (rewrite Ec1; unfold c1; by rewrite Hbase).
  assert (clint_base (clint_of b2) = CLINT_BASE) as Hcb2 by (by rewrite Ec2, Hbase).
  assert (is_u 64 (mtime (clint_reg c1))) as Hu by (rewrite <- Ec1; apply (bwf_clint _ (ur_wf _ Hb1))).
  destruct (write_mtimecmp b2 (add64 (mtime (clint_reg c1)) d) Hb2 Hcb2 (add64_u _ _)) as (b3 & E3 & Hb3 & Ec3).
  exists (mk_world b3 i2 future). unfold alarm, clint_read_mtime, clint_set_mtimecmp, mmio_read64, mmio_write64, mmio_read,
    mmio_write, access, mbind, exec_bind. rewrite Hf, E1, read_mtime by done. unfold mret, exec_ret. cbn [w_future w_bus w_in].
  rewrite E2, Ec1, (w64_small (mtime _)), E3 by done. cbn [Z.eqb w_bus w_future].
  split; [done|]. split; [done|]. split; [done|]. split; [|done]. by rewrite Ec3, Ec2, Ec1.
Qed.

(** ** Properties *)

(** C27: what the bare-metal driver is asked to print is what the host receives: every
    character of the string, once and in order, whatever the host types and however
    many instructions run between the accesses of the driver; it takes two accesses
    for each character and disturbs neither what waits in the receive FIFO nor what
    arrives meanwhile.  The console of the FreeRTOS port adds the newline, inside a
    critical section that does not touch the UART. *)
Theorem console_delivers enter exit s rest o t l n w :
  (forall o t l n, triple (serving o t l n) enter (fun _ => serving o t l n) (fun _ _ => False)) ->
  (forall o t l n, triple (serving o t l n) exit (fun _ => serving o t l n) (fun _ _ => False)) ->
  chars s -> serving o t l n w -> (2 * (length s + 1) <= n)%nat ->
  (exists w', uart_putstr UART0_BASE (s ++ 0 :: rest) w = (inr tt, w') /\ serving (o ++ s) t l (n - 2 * length s) w') /\
  (exists w', vSendString enter exit (s ++ 0 :: rest) w = (inr tt, w') /\
     serving (o ++ s ++ [10]) t l (n - 2 * (length s + 1)) w').
Proof.
  intros Henter Hexit Hs Hw Hn. split.
  - pose proof (putstr_triple s rest o t l n Hs w Hw) as H. destruct (uart_putstr _ _ w) as [[e|[]] w'].
    + destruct H as (s' & _ & H & _). lia.
    + by exists w'.
  - assert (triple (serving o t l n) (vSendString enter exit (s ++ 0 :: rest))
      (fun _ => serving (o ++ s ++ [10]) t l (n - 2 * (length s + 1))) (fun _ _ => False)) as H.
    { eapply triple_bind; [apply Henter|]. intros u1. eapply triple_bind.
      - eapply triple_conseq; [by apply for_chars_triple; [intros; apply vOut_triple|]|done|done|].
        intros e w' (s' & _ & H & _). lia.
      - intros u2. eapply triple_bind; [eapply triple_conseq; [apply vOut_triple|done|done|]|].
        { intros e w' (H & _). lia. }
        intros u3. eapply triple_conseq; [apply Hexit|done| |done]. intros u4 w'. rewrite <- app_assoc.
        by replace (n - 2 * length s - 2)%nat with (n - 2 * (length s + 1))%nat by lia. }
    specialize (H w Hw). destruct (vSendString _ _ _ w) as [[e|[]] w']; [done|]. by exists w'.
Qed.

(** C28: [uart_put_num] prints the decimal notation of every 64-bit number: digits
    without a leading zero that denote the number, at most 20 of them, so that its
    buffer of 21 characters is never overrun; 42 accesses suffice. *)
Theorem put_num_decimal num buf o t l n w :
  is_u 64 num -> length buf = 21%nat -> serving o t l n w -> (42 <= n)%nat ->
  exists w' ds m, uart_put_num UART0_BASE num buf w = (inr tt, w') /\ serving (o ++ ds) t l m w' /\
    Forall (fun c => 48 <= c <= 57) ds /\ dec_value ds = num /\ (1 <= length ds <= 20)%nat /\
    (num <> 0 -> head ds <> Some 48).
Proof.
  intros Hnum Hbuf Hw Hn. pose proof (put_num_triple num buf o t l n Hnum Hbuf Hn w Hw) as H.
  destruct (uart_put_num _ _ _ w) as [[e|[]] w']; [done|]. destruct H as (ds & m & Hds & Hlen & Hw').
  exists w', ds, m. split; [done|]. split; [done|]. unfold numeral in Hds. destruct (Z.eqb_spec num 0) as [->|Hnz].
  - subst ds. split; [repeat constructor; lia|]. split; [done|]. by split.
  - destruct Hds as [H1 H2 H3]. split; [done|]. split; [done|]. by split.
Qed.

(** C25: [uart_readline] returns the next line the host typed: its length without the
    newline, and in the buffer as many of its characters as fit, terminated, the
    rest of the buffer untouched; exactly the line and its newline have been taken
    from the input.  It never faults and never writes outside the buffer; it is
    still waiting at the end of the future only if no newline has been taken, and
    never when the whole line was there and the future long enough to read it. *)
Theorem readline_line buf size o l n w :
  0 < size < 2 ^ 64 -> Z.of_nat (length buf) = size -> serving o [] l n w -> Z.of_nat n < 2 ^ 64 ->
  match uart_readline UART0_BASE buf size w with
  | (inr (len, buf'), w') => exists line m, (10 ∉ line) /\ len = Z.of_nat (length line) /\
      buf' = kept size line ++ 0 :: drop (S (length (kept size line))) buf /\ serving o (line ++ [10]) [] m w'
  | (inl e, w') => exists line, (10 ∉ line) /\ e = FutureEnds /\ serving o line [] 0 w' /\ ~ line_waits l n
  end.
Proof.
  intros Hsize Hbuf Hw Hn. unfold uart_readline. rewrite (proj2 (Z.eqb_neq size 0)) by lia.
  rewrite (sv_future _ _ _ _ _ Hw).
  pose proof (readline_loop_triple o [] buf size Hsize Hbuf (S n) l n [] ltac:(lia) ltac:(cbn; lia)
    ltac:(apply not_elem_of_nil) w Hw) as H.
  unfold stored_line, kept in H. rewrite firstn_nil in H. cbn [app length drop] in H.
  destruct (readline_loop _ _ _ _ _ _ w) as [[e|[len buf']] w'].
  - destruct H as (line & Hl & H1 & H2 & H3). by exists line.
  - destruct H as (line & m & Hl & [= -> ->] & H). by exists line, m.
Qed.

(** C29: a timer event [d] ticks ahead, programmed with the driver, is raised exactly
    when [d] ticks of 10 ns have passed since the read: at every later sampling of
    the lines the CLINT asserts the timer interrupt iff the host clock is at least
    [10 * d] ns past the instant the timer stood at when it was read. *)
Theorem alarm_on_time d w hs1 hs2 future hs h :
  uart_ready (w_bus w) -> clint_base (clint_of (w_bus w)) = CLINT_BASE ->
  w_future w = hs1 :: hs2 :: future -> Forall calm_input (hs1 ++ hs2 ++ hs ++ [h]) ->
  let c1 := clint_env (clint_of (w_bus w)) hs1 in
  Sorted Z.le (prev_time_ns c1 :: (h_clock <$> hs2 ++ hs ++ [h])) ->
  0 <= d -> mtime (clint_reg c1) + d < 2 ^ 64 -> mtime (clint_reg c1) + (h_clock h - prev_time_ns c1) / 10 < 2 ^ 64 ->
  exists w' b i, alarm d w = (inr (mtime (clint_reg c1)), w') /\
    world_ticks (hs ++ [h]) (w_bus w') (w_in w') = Some (b, i) /\
    MTIP (clint_of b) = (10 * d <=? h_clock h - prev_time_ns c1).
Proof.
  intros Hr Hcb Hf Hcalm c1 Hsort Hd Hnow Hmt.
  apply Forall_app in Hcalm as [Hc1 Hcalm]. apply Forall_app in Hcalm as [Hc2 Hc3].
  destruct (alarm_run d w hs1 hs2 future Hr Hcb Hf Hc1 Hc2) as (w' & E & Hr' & _ & Ec & Hu). fold c1 in E, Ec, Hu.
  destruct (world_ticks_clint (hs ++ [h]) (w_bus w') (w_in w') Hr' Hc3) as (b & i & Eb & _ & Ecb).
  exists w', b, i. split; [done|]. split; [done|]. rewrite Ecb, clint_env_mtip, Ec, clint_ticks_cmp.
  set (m := mtime (clint_reg c1)) in *.
  change (mtimecmp (clint_reg (set_cmp ?v ?c))) with v. change (mtime (clint_reg (set_cmp ?v ?c))) with (mtime (clint_reg c)).
  destruct (clint_ticks_same _ _ (h_clock <$> hs ++ [h]) (clint_env_ticks c1 c1 hs2 ltac:(done))) as (_ & -> & _).
  assert (clint_ticks (clint_ticks c1 (h_clock <$> hs2)) (h_clock <$> hs ++ [h])
    = clint_ticks c1 ((h_clock <$> hs2 ++ hs) ++ [h_clock h])) as ->.
  { unfold clint_ticks. rewrite <- foldl_app, <- fmap_app, app_assoc. by rewrite fmap_app. }
  rewrite app_assoc, fmap_app in Hsort. destruct (clint_ticks_exact (h_clock <$> hs2 ++ hs) c1 (h_clock h) Hsort) as [-> _].
  pose proof (sorted_last _ _ _ Hsort) as Hge. fold m. unfold add64.
  rewrite !w64_small by (split; [|assumption]; div_lia). apply eq_iff_eq_true. rewrite !Z.leb_le. div_lia.
Qed.

(** ** Concrete runs *)

(** The host types three characters before the first access. *)
Definition typed (b : Z) : host_input := mk_host (PollByte b) 0.
Definition quiet (t : Z) : host_input := mk_host PollNoData t.
Definition drv_world : world :=
  mk_world bus_example [] ([typed 72; typed 105; typed 10] :: replicate 59 [quiet 0]).

Lemma bus_example_ready : uart_ready bus_example.
Proof. constructor; [apply bus_example_wf|reflexivity..]. Qed.
Lemma drv_serving : serving [] [] [] 60 drv_world.
Proof.
  constructor; try reflexivity.
  - apply bus_example_ready.
  - apply Forall_cons. split; [by repeat constructor|]. apply Forall_replicate. by repeat constructor.
Qed.

Lemma console_delivers_witness :
  (exists w', uart_putstr UART0_BASE [79; 75; 0] drv_world = (inr tt, w') /\ serving [79; 75] [] [] 56 w') /\
  (exists w', vSendString (mret tt) (mret tt) [79; 75; 0] drv_world = (inr tt, w') /\ serving [79; 75; 10] [] [] 54 w').
Proof.
  apply (console_delivers (mret tt) (mret tt) [79; 75] [] [] [] [] 60 drv_world).
  - intros. by apply triple_ret.
  - intros. by apply triple_ret.
  - repeat constructor; lia.
  - exact drv_serving.
  - cbn. lia.
Defined.

Lemma put_num_decimal_witness :
  exists w' ds m, uart_put_num UART0_BASE (2 ^ 64 - 1) (replicate 21 0) drv_world = (inr tt, w') /\
    serving ([] ++ ds) [] [] m w' /\ Forall (fun c => 48 <= c <= 57) ds /\ dec_value ds = 2 ^ 64 - 1 /\
    (1 <= length ds <= 20)%nat /\ (2 ^ 64 - 1 <> 0 -> head ds <> Some 48).
Proof.
  exact (put_num_decimal (2 ^ 64 - 1) (replicate 21 0) [] [] [] 60 drv_world ltac:(lia) eq_refl drv_serving ltac:(lia)).
Defined.

Definition line_end : world := (uart_readline UART0_BASE [1; 1; 1; 1] 4 drv_world).2.
Lemma readline_line_witness :
  exists line m, (10 ∉ line) /\ 2 = Z.of_nat (length line) /\
    [72; 105; 0; 1] = kept 4 line ++ 0 :: drop (S (length (kept 4 line))) [1; 1; 1; 1] /\
    serving [] (line ++ [10]) [] m line_end.
Proof.
  pose proof (readline_line [1; 1; 1; 1] 4 [] [] 60 drv_world ltac:(lia) eq_refl drv_serving ltac:(lia)) as H.
  assert (uart_readline UART0_BASE [1; 1; 1; 1] 4 drv_world = (inr (2, [72; 105; 0; 1]), line_end)) as E
    by (vm_compute; reflexivity).
  rewrite E in H. exact H.
Defined.

(** 200 ticks after the read the clock shows 2000 ns. *)
Definition alarm_world : world := mk_world bus_example [] [[]; [quiet 1000]].
Lemma alarm_on_time_witness :
  exists w' b i, alarm 200 alarm_world = (inr 0, w') /\
    world_ticks [quiet 1500; quiet 2000] (w_bus w') (w_in w') = Some (b, i) /\ MTIP (clint_of b) = true.
Proof.
  apply (alarm_on_time 200 alarm_world [] [quiet 1000] [] [quiet 1500] (quiet 2000) bus_example_ready eq_refl eq_refl).
  - by repeat constructor.
  - repeat constructor; vm_compute; discriminate.
  - done.
  - reflexivity.
  - reflexivity.
Defined.
