(* ===== verification/Guest.v ===== *)
(** * The self-test programs of the guest

    Models [baremetal-test.c] (the examples of [software/baremetal]) and the
    [main] of [opensbi-test.c], which runs the same tests between two banners: C
    programs on the emulated machine.  Global and volatile objects are memory of the
    machine at the addresses the linker or the stack gives them ([layout]), so every
    access of the program text is an access of the bus, between which the host and
    the devices go on ([Drivers.world]); scalar locals are values.  The tests are
    what a user runs to see that the emulator works, and what they verify is that
    [crt0.S] has run ([Startup]): [main] returns the number of the first section
    that is not as the C language promises, and 0 on an emulator that works.
    [fib.c], the example without memory of its own, is modelled too. *)
From Stdlib Require Import Ascii String.
From stdpp Require Import base tactics numbers option list sets.
From S2P Require Import Prelude CInt Memory Uart Bus MemOps Arch Exec Drivers DriverProps Startup.

#[local] Open Scope record_scope.
#[local] Open Scope Z_scope.

(** ** C on the machine *)

(** An [int] object, and unsigned ones of [n] bytes. *)
Definition load_int (a : Z) : drv Z := v ← mmio_read a 4; mret (s32 v).
Definition store_int (a v : Z) : drv unit := mmio_write a 4 (w32 v).

(** A statement of a function: [Some v] is [return v]. *)
Abbreviation stmt := (drv (option Z)).
Definition then_stmt (m k : stmt) : stmt := r ← m; match r with Some v => mret (Some v) | None => k end.
Definition return_if (c : bool) (v : Z) : option Z := if c then Some v else None.
(** The value of a function that ends in [return 0]. *)
Definition function (m : stmt) : drv Z := r ← m; mret (default 0 r).

(** [for (int i = i0; i < i0 + n; i++) body] *)
Fixpoint for_loop (n : nat) (i : Z) (body : Z -> stmt) : stmt :=
  match n with
  | O => mret None
  | S n => then_stmt (body i) (for_loop n (i + 1) body)
  end.

Definition int_add (a b : Z) : Z := s32 (a + b).

(** ** The program *)
Record layout := mk_layout {
  test_data_array : Z; test_bss_array : Z; small_data0 : Z; small_data1 : Z;
  stack_array : Z; arr8 : Z; arr16 : Z; arr32 : Z; arr64 : Z;
}.

Section program.
Context (L : layout).

(** [if (array[i] != f(i)) return -1;] and [array[i] = f(i);], for [int] arrays. *)
Definition check_elements (n : nat) (array : Z) (f : Z -> Z) : stmt :=
  for_loop n 0 (fun i => v ← load_int (array + 4 * i); mret (return_if (negb (v =? f i)) (-1))).
Definition store_elements (n : nat) (array : Z) (f : Z -> Z) : stmt :=
  for_loop n 0 (fun i => store_int (array + 4 * i) (f i);; mret None).

Definition test_data : drv Z :=
  function (then_stmt (check_elements 16 (test_data_array L) (fun i => i))
           (then_stmt (store_elements 16 (test_data_array L) (fun i => i * 12))
                      (check_elements 16 (test_data_array L) (fun i => i * 12)))).

Definition test_bss : drv Z :=
  function (then_stmt (check_elements 32 (test_bss_array L) (fun i => 0))
           (then_stmt (store_elements 32 (test_bss_array L) (fun i => i * 8))
                      (check_elements 32 (test_bss_array L) (fun i => i * 8)))).

Definition check_int (a v : Z) : stmt := x ← load_int a; mret (return_if (negb (x =? v)) (-1)).
Definition assign_int (a v : Z) : stmt := store_int a v;; mret None.
Definition test_small_data : drv Z :=
  function (then_stmt (check_int (small_data0 L) 0x0eefcafe)
           (then_stmt (check_int (small_data1 L) 0)
           (then_stmt (assign_int (small_data0 L) 0x12345678)
           (then_stmt (assign_int (small_data1 L) 0x00A0FFFF)
           (then_stmt (check_int (small_data0 L) 0x12345678)
                      (check_int (small_data1 L) 0x00A0FFFF)))))).

(** The loop that adds the elements. *)
Fixpoint sum_elements (n : nat) (i sum : Z) : drv Z :=
  match n with
  | O => mret sum
  | S n => v ← load_int (stack_array L + 4 * i); sum_elements n (i + 1) (int_add sum v)
  end.
Definition test_stack : drv Z :=
  store_elements 256 (stack_array L) (fun i => i);;
  sum ← sum_elements 256 0 0;
  mret (if negb (sum =? 32640) then -1 else 0).

Definition add (a b : Z) : Z := int_add a b.
Definition add3 (a b : Z) : Z := let r := add a b in int_add r 3.
Definition add12num (a0 a1 a2 a3 a4 a5 a6 a7 a8 a9 a10 a11 : Z) : Z :=
  int_add (int_add (int_add (int_add (int_add (int_add (int_add (int_add (int_add (int_add (int_add
    a0 a1) a2) a3) a4) a5) a6) a7) a8) a9) a10) a11.
Definition test_function : Z :=
  let result := int_add (add 1 2) (add3 3 4) in
  let result := int_add result (add12num 1 2 2 3 4 5 6 77 8 9 100 11) in
  if negb (result =? 241) then -1 else 0.

(** The [while] loop: the fuel is the number of rounds it makes. *)
Fixpoint control_loop (fuel : nat) (sum i : Z) : option Z :=
  if i <? 101 then
    match fuel with O => None | S fuel => control_loop fuel (int_add sum i) (int_add i 1) end
  else Some sum.
Definition test_control : option Z :=
  sum ← control_loop 101 0 0;
  mret (if negb (sum =? 5050) then -1 else 0).

(** [ptr8], [ptr16], [ptr32], [ptr64] advance with the loop. *)
Fixpoint pointer_loop (n : nat) (i ptr8 ptr16 ptr32 ptr64 : Z) : drv unit :=
  match n with
  | O => mret tt
  | S n =>
      mmio_write ptr8 1 (w8 (w8 i * 8));;
      mmio_write ptr16 2 (w16 (w16 i * 16));;
      mmio_write ptr32 4 (w32 (w32 i * 32));;
      mmio_write ptr64 8 (w64 (w64 i * 64));;
      pointer_loop n (i + 1) (ptr8 + 1) (ptr16 + 2) (ptr32 + 4) (ptr64 + 8)
  end.
Definition check_unsigned (a n v : Z) : stmt := x ← mmio_read a n; mret (return_if (negb (x =? v)) (-1)).
Definition test_pointer : drv Z :=
  pointer_loop 8 0 (arr8 L) (arr16 L) (arr32 L) (arr64 L);;
  function (for_loop 8 0 (fun i =>
    then_stmt (check_unsigned (arr8 L + i) 1 (i * 8))
   (then_stmt (check_unsigned (arr16 L + 2 * i) 2 (i * 16))
   (then_stmt (check_unsigned (arr32 L + 4 * i) 4 (w32 (w32 i * 32)))
              (check_unsigned (arr64 L + 8 * i) 8 (w64 (w64 i * 64))))))).

(** The strings of [opensbi-test.c]. *)
Definition c_string (s : string) : list Z := (fun c => Z.of_N (N_of_ascii c)) <$> list_ascii_of_string s.
Definition line : list Z := c_string "=================================" ++ [10].
Definition entering : list Z := c_string " Entering OpenSBI Test Program" ++ [10].
Definition complete : list Z := c_string " Complete all the tests" ++ [10].

(** A section of [main]: [if (test() != 0) return k;] *)
Definition section (test : drv Z) (k : Z) (rest : drv Z) : drv Z :=
  r ← test; if negb (r =? 0) then mret k else rest.
(** A loop that has not ended is none of the values of the function. *)
Definition pure_test (r : option Z) : drv Z := match r with Some v => mret v | None => raise FutureEnds end.

Definition tests (rest : drv Z) : drv Z :=
  section test_data 1 (section test_bss 2 (section test_small_data 3 (section test_stack 4
 (section (mret test_function) 5 (section (pure_test test_control) 6 (section test_pointer 7 rest)))))).

(** [main] of [baremetal-test.c], and of [opensbi-test.c]. *)
Definition baremetal_main : drv Z := tests (mret 0).
Definition putstr (s : list Z) : drv unit := uart_putstr UART0_BASE (s ++ [0]).
Definition opensbi_main : drv Z :=
  putstr line;;
  putstr entering;;
  tests (putstr complete;; putstr line;; mret 0).
End program.

(** [fib.c]: the fuel bounds the depth of the calls. *)
Fixpoint fib (fuel : nat) (n : Z) : option Z :=
  match fuel with
  | O => None
  | S fuel =>
      if n =? 0 then Some 0
      else if n =? 1 then Some 1
      else a ← fib fuel (n - 1); b ← fib fuel (n - 2); Some (int_add a b)
  end.
Definition fib_main (fuel : nat) : option Z := n ← fib fuel 10; Some (if n =? 55 then 0 else 1).

(** ** What the tests promise *)

(** The objects: address, size, alignment. *)
Definition objects (L : layout) : list (Z * Z * Z) :=
  [ (test_data_array L, 64, 4); (test_bss_array L, 128, 4); (small_data0 L, 4, 4); (small_data1 L, 4, 4);
    (stack_array L, 1024, 4); (arr8 L, 8, 1); (arr16 L, 16, 2); (arr32 L, 32, 4); (arr64 L, 64, 8) ].
Definition placed (top : Z) (x : Z * Z * Z) : Prop :=
  RAM_BASE <= x.1.1 /\ x.1.1 + x.1.2 <= top /\ x.1.1 mod x.2 = 0.
Definition separate (x y : Z * Z * Z) : Prop := x.1.1 + x.1.2 <= y.1.1 \/ y.1.1 + y.1.2 <= x.1.1.
Record layout_ok (top : Z) (L : layout) : Prop := {
  lo_placed : Forall (placed top) (objects L);
  lo_separate : List.ForallOrdPairs separate (objects L);
}.

(** The elements of an [int] array are those of [f]. *)
Definition ints_are (m : Z -> Z) (a n : Z) (f : Z -> Z) : bool :=
  forallb (fun i => s32 (mem_value m (a + 4 * i) 4) =? f i) (seqZ 0 n).
(** The first section that finds its objects not as the program is entitled to. *)
Definition verdict (L : layout) (m : Z -> Z) : Z :=
  if negb (ints_are m (test_data_array L) 16 (fun i => i)) then 1
  else if negb (ints_are m (test_bss_array L) 32 (fun i => 0)) then 2
  else if negb ((s32 (mem_value m (small_data0 L) 4) =? 0x0eefcafe) && (s32 (mem_value m (small_data1 L) 4) =? 0)) then 3
  else 0.

(** ** Memory under the drivers *)
Section memory.
Context (m0 : memory_t).

(** The UART drivers leave the memory alone. *)
Definition still (w : world) : Prop := (exists o t l n, serving o t l n w) /\ bus_memory (w_bus w) = m0.
Abbreviation keep m := (keeps still (fun _ => True) (fun _ => True) m).

Lemma world_ticks_memory hs b i b' i' : world_ticks hs b i = Some (b', i') -> bus_memory b' = bus_memory b.
Proof.
  revert b i. induction hs as [|h hs IH]; intros b i; cbn [world_ticks]; [by intros [= <- _]|].
  unfold world_tick. destruct (device_update _ _ _) as [r d]. destruct (negb _); [done|]. cbn [mbind option_bind].
  intros E. by rewrite (IH _ _ E).
Qed.

Lemma keep_access {A} (f : bus_t -> option A * bus_t) :
  (forall b o t l n i future, serving o t l n (mk_world b i future) -> bus_memory b = m0 ->
     (exists o' t' l' n', serving o' t' l' n' (mk_world (f b).2 i future)) /\ bus_memory (f b).2 = m0) ->
  keep (access f).
Proof.
  intros Hf w [(o & t & l & n & Hw) Hm]. pose proof Hw as [Hr Hc Ho Hi Hk Hn]. unfold access, calm in *.
  destruct (w_future w) as [|hs future] eqn:Ef; [by split; [split; [exists o, t, l, n|]|]|].
  apply Forall_cons in Hc as [Hh Hc]. destruct (world_ticks_spec hs (w_bus w) (w_in w) Hr Hh) as (b & new & E & Hb & Ho' & Hq).
  rewrite E. pose proof (world_ticks_memory _ _ _ _ _ E) as Hmem.
  destruct (Hf b o t [] (length future) (w_in w ++ new) future) as [Hs Hm']; [|congruence|].
  { constructor; cbn [w_bus w_in w_future]; try done; [congruence|by rewrite Hi, Hq, app_assoc|apply prefix_nil]. }
  destruct (f b) as [[v|] b']; cbn [snd] in *; by split.
Qed.

Lemma keep_lsr : keep (mmio_read8 (add64 UART0_BASE UART_LSR_OFFSET)).
Proof.
  unfold mmio_read8, mmio_read. apply (keeps_bind _ _ (fun _ => True)); [|intros v _; by apply keeps_ret].
  apply keep_access. intros b o t l n i future Hw Hm.
  destruct (read_lsr b o t l n i future Hw) as (v & b' & E & Hw' & _). pose proof (bus_read_memory b (add64 UART0_BASE UART_LSR_OFFSET) 1) as Hmem.
  rewrite E in *. cbn [snd] in *. split; [by exists o, t, l, n|congruence].
Qed.

Lemma write_thr_memory b o t l n i future c :
  serving o t l n (mk_world b i future) -> bus_memory (bus_write b (add64 UART0_BASE UART_THR_OFFSET) 1 c).2 = bus_memory b.
Proof.
  intros Hw. change (add64 UART0_BASE UART_THR_OFFSET) with (UART0_BASE + 0).
  rewrite (bus_write_uart b 0 c (ur_wf _ (sv_ready _ _ _ _ _ Hw)) ltac:(lia)). reflexivity.
Qed.
Lemma keep_thr c : keep (mmio_write8 (add64 UART0_BASE UART_THR_OFFSET) (w8 c)).
Proof.
  unfold mmio_write8, mmio_write. apply keep_access. intros b o t l n i future Hw Hm.
  destruct (write_thr b o t l n i future c Hw) as (b' & E & Hw'). pose proof (write_thr_memory b o t l n i future (w8 (w8 c)) Hw) as Hmem.
  rewrite E in *. cbn [snd] in *. split; [by exists (o ++ [w8 c]), t, l, n|congruence].
Qed.

Lemma keep_spin fuel cond : keep cond -> keep (spin fuel cond).
Proof.
  intros Hc. induction fuel as [|fuel IH]; cbn [spin]; [by apply keeps_raise|].
  apply (keeps_bind _ _ (fun _ => True)); [exact Hc|]. intros v _. destruct (v =? 0); [exact IH|by apply keeps_ret].
Qed.
Lemma keep_wait cond : keep cond -> keep (wait_until cond).
Proof. intros Hc w. by apply keep_spin. Qed.
Lemma keep_putchar c : keep (uart_putchar UART0_BASE c).
Proof.
  unfold uart_putchar. apply (keeps_bind _ _ (fun _ => True)).
  - apply keep_wait. apply (keeps_bind _ _ (fun _ => True)); [apply keep_lsr|]. intros v _. by apply keeps_ret.
  - intros _ _. apply (keeps_bind _ _ (fun _ => True)); [apply keep_thr|]. intros _ _. by apply keeps_ret.
Qed.
Lemma keep_putstr s : keep (uart_putstr UART0_BASE s).
Proof.
  unfold uart_putstr. induction s as [|c s IH]; cbn [for_chars]; [by apply keeps_raise|].
  destruct (c =? 0); [by apply keeps_ret|]. apply (keeps_bind _ _ (fun _ => True)); [|intros _ _; exact IH].
  apply (keeps_bind _ _ (fun _ => True)); [apply keep_putchar|]. intros v _. by apply keeps_ret.
Qed.
End memory.

(** ** The rules of the program logic *)

(** The world of a running program: the host has received [o], memory is [m], RAM
    ends at [top], and [k] more accesses are possible at least. *)
Record guest (top : Z) (o : list Z) (m : Z -> Z) (k : nat) (w : world) : Prop := {
  gu_serving : exists t n, (k <= n)%nat /\ serving o t [] n w;
  gu_top : RAM_BASE + mem_size (bus_memory (w_bus w)) = top;
  gu_mem i : ram_byte (w_bus w) i = m i;
}.

Section rules.
Context (top : Z) (Htop : top <= 2 ^ 64).
Abbreviation guest := (guest top).

(** A total triple: the program ends, with no fault, within its accesses. *)
Definition runs {A} (P : world -> Prop) (m : drv A) (Q : A -> world -> Prop) : Prop :=
  triple P m Q (fun _ _ => False).

Lemma runs_bind {A C} P (m : drv A) (k : A -> drv C) Q' Q :
  runs P m Q' -> (forall a, runs (Q' a) (k a) Q) -> runs P (m ≫= k) Q.
Proof. apply triple_bind. Qed.

(** Fewer accesses are left, and memory is what it is byte by byte. *)
Lemma guest_weaken o m m' k k' w : (k' <= k)%nat -> (forall i, m i = m' i) -> guest o m k w -> guest o m' k' w.
Proof.
  intros Hk Hm [(t & n & Hn & Hw) Ht Hb]. constructor; [exists t, n; split; [lia|done]|done|].
  intros i. by rewrite Hb.
Qed.

(** An object of RAM. *)
Definition object (a n : Z) : Prop := n ∈ [1; 2; 4; 8] /\ RAM_BASE <= a /\ a + n <= top /\ a mod n = 0.

Lemma object_span o m k w a n : guest o m k w -> object a n -> ram_span (w_bus w) a n.
Proof.
  intros Hw (Hn & Hlo & Hhi & Hal). pose proof (gu_top _ _ _ _ _ Hw) as Ht. pose proof (size_cases n Hn).
  split; [unfold RAM_BASE, DRAM_BASE in *; lia|]. split; [exact Hn|]. split; [|exact Hal].
  split; cbn [region_bounds fst snd]; lia.
Qed.

Lemma access_guest {A} (f : bus_t -> option A * bus_t) o m k (Q : A -> world -> Prop) :
  (forall b t n i future, (k <= n)%nat -> serving o t [] n (mk_world b i future) -> guest o m k (mk_world b i future) ->
     exists v b', f b = (Some v, b') /\ Q v (mk_world b' i future)) ->
  runs (guest o m (S k)) (access f) Q.
Proof.
  intros Hf w [(t & n & Hn & Hw) Htp Hm]. pose proof Hw as [Hr Hc Ho Hi Hk Hl]. unfold access, calm in *.
  destruct (w_future w) as [|hs future] eqn:Ef; cbn [length] in Hl; [lia|].
  apply Forall_cons in Hc as [Hh Hc]. destruct (world_ticks_spec hs (w_bus w) (w_in w) Hr Hh) as (b & new & E & Hb & Ho' & Hq).
  rewrite E. pose proof (world_ticks_memory _ _ _ _ _ E) as Hmem.
  assert (serving o t [] (length future) (mk_world b (w_in w ++ new) future)) as Hs.
  { constructor; cbn [w_bus w_in w_future]; try done; [congruence|by rewrite Hi, Hq, app_assoc|apply prefix_nil]. }
  destruct (Hf b t (length future) (w_in w ++ new) future) as (v & b' & -> & HQ); [lia|exact Hs| |exact HQ].
  constructor; [exists t, (length future); split; [lia|exact Hs]|by cbn; rewrite Hmem|].
  intros j. rewrite <- Hm. unfold ram_byte. cbn. by rewrite Hmem.
Qed.

Lemma read_rule o m k a n :
  object a n -> runs (guest o m (S k)) (mmio_read a n) (fun v w => v = mem_value m a n /\ guest o m k w).
Proof.
  intros Ha. apply access_guest. intros b t j i future Hj Hs Hw. pose proof (object_span _ _ _ _ _ _ Hw Ha) as Hsp.
  pose proof (ur_wf _ (sv_ready _ _ _ _ _ Hs)) as Hb. cbn [w_bus] in *.
  exists (ram_value b a n), b. rewrite (bus_read_ram b a n Hb Hsp), (ram_read_some b a n Hb Hsp).
  split; [done|]. split; [|exact Hw]. rewrite (ram_value_bytes b a n Hb Hsp). apply mem_value_ext. intros x _.
  exact (gu_mem _ _ _ _ _ Hw x).
Qed.

Lemma write_rule o m k a n v :
  object a n -> runs (guest o m (S k)) (mmio_write a n v) (fun _ => guest o (mem_update a n v m) k).
Proof.
  intros Ha. apply access_guest. intros b t j i future Hj Hs Hw. pose proof (object_span _ _ _ _ _ _ Hw Ha) as Hsp.
  pose proof Hs as [Hr Hc Ho Hi Hk Hl]. pose proof (ur_wf _ Hr) as Hb. cbn [w_bus w_in w_future] in *.
  exists tt, (ram_store b a n v). rewrite (bus_write_ram b a n v Hb Hsp). split; [reflexivity|].
  constructor.
  - exists t, j. split; [exact Hj|]. constructor; try done. cbn [w_bus].
    apply (uart_ready_ext b); [by apply ram_store_wf|done..].
  - pose proof (bus_write_size b a n v) as E. rewrite (bus_write_ram b a n v Hb Hsp) in E.
    pose proof (gu_top _ _ _ _ _ Hw) as Ht. cbn [w_bus] in *. unfold ram_store. by rewrite <- Ht, <- E.
  - intros x. cbn [w_bus]. rewrite (ram_store_byte b a n Hb Hsp). unfold mem_update.
    by rewrite (gu_mem _ _ _ _ _ Hw x : ram_byte b x = m x).
Qed.

Lemma runs_ret {A} (P : world -> Prop) (a : A) (Q : A -> world -> Prop) : (forall w, P w -> Q a w) -> runs P (mret a) Q.
Proof. apply triple_ret. Qed.
Lemma runs_conseq {A} (P P' : world -> Prop) (m : drv A) (Q Q' : A -> world -> Prop) :
  runs P' m Q' -> (forall w, P w -> P' w) -> (forall a w, Q' a w -> Q a w) -> runs P m Q.
Proof. intros H HP HQ. eapply triple_conseq; [exact H|exact HP|exact HQ|done]. Qed.

Lemma putstr_rule o m k s :
  chars s -> runs (guest o m (2 * length s + k)) (putstr s) (fun _ => guest (o ++ s) m k).
Proof.
  intros Hs w [(t & n & Hn & Hw) Htp Hm].
  pose proof (putstr_triple s [] o t [] n Hs w Hw) as H.
  pose proof (keep_putstr (bus_memory (w_bus w)) (s ++ [0]) w (conj (ex_intro _ o (ex_intro _ t (ex_intro _ [] (ex_intro _ n Hw)))) eq_refl)) as Hk.
  unfold putstr. destruct (uart_putstr _ _ w) as [[e|[]] w'].
  - destruct H as (s' & _ & Hshort & _). lia.
  - destruct Hk as [[_ Hmem] _]. constructor; [exists t, (n - 2 * length s)%nat; split; [lia|done]|by rewrite Hmem|].
    intros i. rewrite <- Hm. unfold ram_byte. by rewrite Hmem.
Qed.

(** ** Loops *)
Lemma then_rule P (m k : stmt) b o m1 n Q :
  runs P m (fun r w => r = return_if (negb b) (-1) /\ guest o m1 n w) ->
  (b = false -> forall w, guest o m1 n w -> Q (Some (-1)) w) -> (b = true -> runs (guest o m1 n) k Q) ->
  runs P (then_stmt m k) Q.
Proof.
  intros Hm Hno Hyes. eapply runs_bind; [exact Hm|]. intros r w [-> Hw].
  destruct b; cbn [return_if negb]; [by apply Hyes|by apply Hno].
Qed.

Lemma check_unsigned_rule a n v o m k :
  object a n ->
  runs (guest o m (S k)) (check_unsigned a n v)
    (fun r w => r = return_if (negb (mem_value m a n =? v)) (-1) /\ guest o m k w).
Proof.
  intros Ha. eapply runs_bind; [by apply read_rule|]. intros x. apply runs_ret. by intros w [-> Hw].
Qed.
Lemma load_int_rule a o m k :
  object a 4 -> runs (guest o m (S k)) (load_int a) (fun v w => v = s32 (mem_value m a 4) /\ guest o m k w).
Proof.
  intros Ha. eapply runs_bind; [by apply read_rule|]. intros x. apply runs_ret. by intros w [-> Hw].
Qed.
Lemma check_int_rule a v o m k :
  object a 4 ->
  runs (guest o m (S k)) (check_int a v)
    (fun r w => r = return_if (negb (s32 (mem_value m a 4) =? v)) (-1) /\ guest o m k w).
Proof.
  intros Ha. eapply runs_bind; [by apply load_int_rule|]. intros x. apply runs_ret. by intros w [-> Hw].
Qed.

Lemma passed_rule a n v rest o m k Q :
  object a n -> mem_value m a n = v -> runs (guest o m k) rest Q ->
  runs (guest o m (S k)) (then_stmt (check_unsigned a n v) rest) Q.
Proof.
  intros Ha Hv H. eapply (then_rule _ _ _ true); [|done|by intros _; exact H].
  eapply runs_conseq; [by apply check_unsigned_rule|by intros w Hw; exact Hw|]. cbn beta. intros r w [-> Hw].
  by rewrite Hv, Z.eqb_refl.
Qed.

Lemma assign_rule a v rest o m k Q :
  object a 4 -> runs (guest o (mem_update a 4 (w32 v) m) k) rest Q ->
  runs (guest o m (S k)) (then_stmt (assign_int a v) rest) Q.
Proof.
  intros Ha H. eapply (runs_bind _ _ _ (fun r w => r = None /\ guest o (mem_update a 4 (w32 v) m) k w)).
  - eapply runs_bind; [by apply write_rule|]. intros u. apply runs_ret. by intros w Hw.
  - intros r w [-> Hw]. by apply H.
Qed.

(** A loop of tests, each of [c] accesses, on a memory that it leaves as it is. *)
Lemma for_rule c n i body test o m k :
  (forall j k, i <= j < i + Z.of_nat n ->
     runs (guest o m (c + k)) (body j) (fun r w => r = return_if (negb (test j)) (-1) /\ guest o m k w)) ->
  runs (guest o m (c * n + k)) (for_loop n i body)
    (fun r w => r = return_if (negb (forallb test (seqZ i (Z.of_nat n)))) (-1) /\ guest o m k w).
Proof.
  revert i. induction n as [|n IH]; intros i Hb; cbn [for_loop].
  - apply runs_ret. intros w Hw. split; [done|]. revert Hw. apply guest_weaken; [lia|done].
  - rewrite seqZ_cons by lia. cbn [forallb]. replace (Z.pred (Z.of_nat (S n))) with (Z.of_nat n) by lia.
    eapply (then_rule _ _ _ (test i) o m (c * n + k)).
    + eapply runs_conseq; [apply (Hb i (c * n + k)%nat); lia| |done]. intros w. apply guest_weaken; [lia|done].
    + intros Hf w Hw. rewrite Hf. split; [done|]. revert Hw. apply guest_weaken; [lia|done].
    + intros ->. apply IH. intros j k' Hj. apply Hb. lia.
Qed.

(** ** Arrays *)
Lemma mem_value_same a n v m : n ∈ [1; 2; 4; 8] -> mem_value (mem_update a n v m) a n = v mod 2 ^ (8 * n).
Proof.
  intros Hn. apply size_cases in Hn. unfold mem_value.
  replace (8 * n) with (8 * Z.of_nat (Z.to_nat n)) by lia. rewrite <- le_value_bytes. f_equal.
  apply list_eq. intros i. rewrite list_lookup_fmap. destruct (decide (i < Z.to_nat n)%nat) as [Hi|Hi].
  - rewrite lookup_seqZ_lt by lia. cbn [fmap option_fmap option_map]. unfold mem_update.
    rewrite (proj2 (Z.leb_le _ _)), (proj2 (Z.ltb_lt _ _)) by lia. cbn [andb].
    destruct (lookup_lt_is_Some_2 (le_bytes (Z.to_nat n) v) i) as [y Hy]; [by rewrite le_bytes_length|].
    rewrite Hy, <- (nth_lookup_Some _ _ 0 _ Hy), le_bytes_nth by done. do 4 f_equal. lia.
  - rewrite lookup_seqZ_ge by lia. symmetry. apply lookup_ge_None_2. rewrite le_bytes_length. lia.
Qed.
Lemma mem_value_other a n v m a' n' :
  a' + n' <= a \/ a + n <= a' -> mem_value (mem_update a n v m) a' n' = mem_value m a' n'.
Proof.
  intros H. apply mem_value_ext. intros i Hi. unfold mem_update.
  destruct (Z.leb_spec a i), (Z.ltb_spec i (a + n)); cbn [andb]; try done. lia.
Qed.
Lemma mem_update_outside a n v m x : x < a \/ a + n <= x -> mem_update a n v m x = m x.
Proof. intros H. unfold mem_update. destruct (Z.leb_spec a x), (Z.ltb_spec x (a + n)); cbn [andb]; try done. lia. Qed.

(** Only the bytes of the object differ. *)
Definition within (a n : Z) (m m' : Z -> Z) : Prop := forall x, x < a \/ a + n <= x -> m' x = m x.

Ltac apart := repeat first [apply Forall_nil_2 | apply Forall_cons_2]; cbn [fst snd]; lia.

(** Only the bytes of the listed objects differ. *)
Definition outside (x : Z) (ob : Z * Z) : Prop := x < ob.1 \/ ob.1 + ob.2 <= x.
Definition only (l : list (Z * Z)) (m m' : Z -> Z) : Prop := forall x, Forall (outside x) l -> m' x = m x.

Lemma only_refl l m : only l m m.
Proof. by intros x _. Qed.
Lemma only_trans l1 l2 m1 m2 m3 : only l1 m1 m2 -> only l2 m2 m3 -> only (l1 ++ l2) m1 m3.
Proof. intros H1 H2 x [Hx1 Hx2]%Forall_app. by rewrite H2, H1. Qed.
Lemma only_update l a n v m m' i s :
  only l m m' -> (a, n) ∈ l -> a <= i -> i + s <= a + n -> only l m (mem_update i s v m').
Proof.
  intros H Hin Hlo Hhi x Hx. rewrite mem_update_outside; [by apply H|].
  rewrite Forall_forall in Hx. specialize (Hx _ Hin). unfold outside in Hx. cbn [fst snd] in Hx. lia.
Qed.
Lemma only_value l a n m m' :
  only l m m' -> Forall (fun ob => a + n <= ob.1 \/ ob.1 + ob.2 <= a) l -> mem_value m' a n = mem_value m a n.
Proof.
  intros H Hl. apply mem_value_ext. intros x Hx. apply H. eapply Forall_impl; [exact Hl|]. intros [a' n'] Hob.
  unfold outside. cbn [fst snd] in *. lia.
Qed.

(** What a test ends with: 0 or -1, and a memory in which only its objects differ. *)
Definition outcome (b : bool) (l : list (Z * Z)) o m c (r : Z) (w : world) : Prop :=
  r = (if b then 0 else -1) /\ exists m', only l m m' /\ guest o m' c w.

Lemma function_rule P (m : stmt) b l o m0 c :
  runs P m (fun r => outcome b l o m0 c (default 0 r)) -> runs P (function m) (outcome b l o m0 c).
Proof. intros H. eapply runs_bind; [exact H|]. intros r. by apply runs_ret. Qed.

Section array.
Context (a n : Z) (Hn : 0 <= n) (Ha : RAM_BASE <= a /\ a + 4 * n <= top /\ a mod 4 = 0).

Lemma element i : 0 <= i < n -> object (a + 4 * i) 4.
Proof. intros Hi. split; [set_solver|]. split; [lia|]. split; [lia|div_lia]. Qed.

Lemma store_loop k i f o m c :
  0 <= i -> i + Z.of_nat k <= n ->
  runs (guest o m (k + c)) (for_loop k i (fun i => store_int (a + 4 * i) (f i);; mret None))
    (fun r w => r = None /\ exists m', (forall j, i <= j < i + Z.of_nat k -> mem_value m' (a + 4 * j) 4 = w32 (f j)) /\
       within (a + 4 * i) (4 * Z.of_nat k) m m' /\ guest o m' c w).
Proof.
  revert i m. induction k as [|k IH]; intros i m Hi Hk; cbn [for_loop].
  - apply runs_ret. intros w Hw. split; [done|]. exists m. split; [lia|]. by split.
  - unfold then_stmt. eapply runs_bind with (Q' := fun r w => r = None /\ guest o (mem_update (a + 4 * i) 4 (w32 (f i)) m) (k + c) w).
    { eapply runs_bind; [apply write_rule, element; lia|]. intros u. apply runs_ret. by intros w Hw. }
    intros r w [-> Hw]. specialize (IH (i + 1) _ ltac:(lia) ltac:(lia) w Hw).
    destruct (for_loop k (i + 1) _ w) as [[e|r'] w']; [done|]. destruct IH as (-> & m' & Hel & Hwi & Hg).
    split; [done|]. exists m'. split; [|split; [|exact Hg]].
    + intros j Hj. destruct (decide (j = i)) as [->|Hne]; [|apply Hel; lia].
      rewrite (mem_value_ext m' (mem_update (a + 4 * i) 4 (w32 (f i)) m)) by (intros x Hx; apply Hwi; lia).
      rewrite mem_value_same by set_solver. apply Z.mod_mod. lia.
    + intros x Hx. rewrite Hwi, mem_update_outside by lia. done.
Qed.

Lemma check_elements_rule k f o m c :
  Z.of_nat k <= n ->
  runs (guest o m (k + c)) (check_elements k a f)
    (fun r w => r = return_if (negb (ints_are m a (Z.of_nat k) f)) (-1) /\ guest o m c w).
Proof.
  intros Hk. replace (k + c)%nat with (1 * k + c)%nat by lia.
  apply (for_rule 1 k 0 _ (fun j => s32 (mem_value m (a + 4 * j) 4) =? f j)).
  intros j c' Hj. apply check_int_rule, element. lia.
Qed.

Lemma stored_ints k f m' :
  (forall j, 0 <= j < Z.of_nat k -> mem_value m' (a + 4 * j) 4 = w32 (f j)) ->
  (forall j, 0 <= j < Z.of_nat k -> - 2 ^ 31 <= f j < 2 ^ 31) -> ints_are m' a (Z.of_nat k) f = true.
Proof.
  intros H Hf. apply forallb_forall. intros j Hj. apply list_elem_of_In, elem_of_seqZ in Hj.
  rewrite H by lia. apply Z.eqb_eq. unfold s32, w32. specialize (Hf j ltac:(lia)). apply signed_unique; [lia..|]. symmetry. apply Z.mod_mod. lia.
Qed.

(** The tests of the two arrays. *)
Lemma array_test_rule k f g o m c :
  Z.of_nat k <= n -> (forall j, 0 <= j < Z.of_nat k -> - 2 ^ 31 <= g j < 2 ^ 31) ->
  runs (guest o m (3 * k + c))
    (function (then_stmt (check_elements k a f) (then_stmt (store_elements k a g) (check_elements k a g))))
    (outcome (ints_are m a (Z.of_nat k) f) [(a, 4 * n)] o m c).
Proof.
  intros Hk Hg. apply function_rule. eapply (then_rule _ _ _ (ints_are m a (Z.of_nat k) f) o m (2 * k + c)).
  - replace (3 * k + c)%nat with (k + (2 * k + c))%nat by lia. by apply check_elements_rule.
  - intros -> w Hw. split; [done|]. exists m. split; [done|]. revert Hw. apply guest_weaken; [lia|done].
  - intros ->. unfold then_stmt. eapply runs_bind.
    { replace (2 * k + c)%nat with (k + (k + c))%nat by lia. apply (store_loop k 0 g); lia. }
    intros r w (-> & m' & Hel & Hwi & Hw). rewrite Z.add_0_l, Z.mul_0_r, Z.add_0_r in *.
    pose proof (check_elements_rule k g o m' c Hk w Hw) as H.
    rewrite (stored_ints k g m' Hel Hg) in H. destruct (check_elements k a g w) as [[e|r] w']; [done|].
    destruct H as [-> Hw']. split; [done|]. exists m'. split; [|exact Hw'].
    intros x Hx. apply Forall_cons in Hx as [Hx _]. apply Hwi. unfold outside in Hx. cbn [fst snd] in Hx. lia.
Qed.

(** The test of the stack. *)
Lemma sum_rule L k i s o m c :
  stack_array L = a -> 0 <= i -> i + Z.of_nat k <= n ->
  runs (guest o m (k + c)) (sum_elements L k i s)
    (fun r w => r = foldl int_add s ((fun j => s32 (mem_value m (a + 4 * j) 4)) <$> seqZ i (Z.of_nat k)) /\ guest o m c w).
Proof.
  intros HL. revert i s. induction k as [|k IH]; intros i s Hi Hk; cbn [sum_elements].
  - apply runs_ret. by intros w Hw.
  - rewrite seqZ_cons by lia. replace (Z.pred (Z.of_nat (S k))) with (Z.of_nat k) by lia. rewrite HL.
    eapply runs_bind; [apply load_int_rule, element; lia|]. intros v w [-> Hw]. apply IH; [lia..|exact Hw].
Qed.
End array.

(** ** The arrays of the pointer test *)
Definition filled (a s : Z) (v : Z -> Z) (i : Z) (m : Z -> Z) : Prop :=
  forall j, 0 <= j < i -> mem_value m (a + s * j) s = v j.

Lemma filled_step a s v i m :
  s ∈ [1; 2; 4; 8] -> 0 <= v i < 2 ^ (8 * s) -> filled a s v i m -> filled a s v (i + 1) (mem_update (a + s * i) s (v i) m).
Proof.
  intros Hs Hv H j Hj. pose proof (size_cases s Hs). destruct (decide (j = i)) as [->|Hne].
  - rewrite mem_value_same by exact Hs. by apply Z.mod_small.
  - rewrite mem_value_other by nia. apply H. lia.
Qed.
Lemma filled_other a s v i m a' s' x :
  filled a s v i m -> a + s * i <= a' \/ a' + s' <= a -> 0 <= s -> filled a s v i (mem_update a' s' x m).
Proof. intros H Hsep Hs j Hj. rewrite mem_value_other by nia. by apply H. Qed.

Definition val8 (i : Z) : Z := w8 (w8 i * 8).
Definition val16 (i : Z) : Z := w16 (w16 i * 16).
Definition val32 (i : Z) : Z := w32 (w32 i * 32).
Definition val64 (i : Z) : Z := w64 (w64 i * 64).

Section pointers.
Context (L : layout) (HL : layout_ok top L).
Definition pointer_objects : list (Z * Z) := [(arr8 L, 8); (arr16 L, 16); (arr32 L, 32); (arr64 L, 64)].

Lemma separated x y i j : (i < j)%nat -> objects L !! i = Some x -> objects L !! j = Some y -> separate x y.
Proof.
  intros Hij Hx Hy. pose proof (lo_separate _ _ HL) as H. revert i j x y Hij Hx Hy.
  induction H as [|z l Hz _ IH]; intros i j x y Hij Hx Hy; [done|]. destruct j as [|j]; [lia|].
  destruct i as [|i]; [injection Hx as <-|apply (IH i j); [lia|done|done]].
  rewrite List.Forall_forall in Hz. apply Hz, list_elem_of_In. by eapply list_elem_of_lookup_2.
Qed.
Lemma in_place i x : objects L !! i = Some x -> placed top x.
Proof. intros H. pose proof (lo_placed _ _ HL) as Hp. rewrite Forall_lookup in Hp. by eapply Hp. Qed.

(** The arrays are filled up to [i]. *)
Record filling (i : Z) (m m' : Z -> Z) : Prop := {
  fi_8 : filled (arr8 L) 1 val8 i m'; fi_16 : filled (arr16 L) 2 val16 i m';
  fi_32 : filled (arr32 L) 4 val32 i m'; fi_64 : filled (arr64 L) 8 val64 i m';
  fi_only : only pointer_objects m m';
}.

Lemma pointers_apart :
  (arr8 L + 8 <= arr16 L \/ arr16 L + 16 <= arr8 L) /\ (arr8 L + 8 <= arr32 L \/ arr32 L + 32 <= arr8 L) /\
  (arr8 L + 8 <= arr64 L \/ arr64 L + 64 <= arr8 L) /\ (arr16 L + 16 <= arr32 L \/ arr32 L + 32 <= arr16 L) /\
  (arr16 L + 16 <= arr64 L \/ arr64 L + 64 <= arr16 L) /\ (arr32 L + 32 <= arr64 L \/ arr64 L + 64 <= arr32 L).
Proof.
  split_and!; [apply (separated _ _ 5 6 ltac:(lia) eq_refl eq_refl)|apply (separated _ _ 5 7 ltac:(lia) eq_refl eq_refl)
    |apply (separated _ _ 5 8 ltac:(lia) eq_refl eq_refl)|apply (separated _ _ 6 7 ltac:(lia) eq_refl eq_refl)
    |apply (separated _ _ 6 8 ltac:(lia) eq_refl eq_refl)|apply (separated _ _ 7 8 ltac:(lia) eq_refl eq_refl)].
Qed.

Definition pointer_memory (i : Z) (m : Z -> Z) : Z -> Z :=
  mem_update (arr64 L + 8 * i) 8 (val64 i) (mem_update (arr32 L + 4 * i) 4 (val32 i)
    (mem_update (arr16 L + 2 * i) 2 (val16 i) (mem_update (arr8 L + 1 * i) 1 (val8 i) m))).

Lemma filling_step i m m' : 0 <= i < 8 -> filling i m m' -> filling (i + 1) m (pointer_memory i m').
Proof.
  intros Hi [H8 H16 H32 H64 Ho]. pose proof pointers_apart as (S1 & S2 & S3 & S4 & S5 & S6).
  unfold pointer_memory. constructor.
  - do 3 (apply filled_other; [|lia..]). apply filled_step; [set_solver|apply Z.mod_pos_bound; lia|exact H8].
  - do 2 (apply filled_other; [|lia..]). apply filled_step; [set_solver|apply Z.mod_pos_bound; lia|].
    apply filled_other; [exact H16|lia..].
  - apply filled_other; [|lia..]. apply filled_step; [set_solver|apply Z.mod_pos_bound; lia|].
    do 2 (apply filled_other; [|lia..]). exact H32.
  - apply filled_step; [set_solver|apply Z.mod_pos_bound; lia|]. do 3 (apply filled_other; [|lia..]). exact H64.
  - unfold pointer_objects. eapply (only_update _ (arr64 L) 64); [|set_solver|lia..].
    eapply (only_update _ (arr32 L) 32); [|set_solver|lia..]. eapply (only_update _ (arr16 L) 16); [|set_solver|lia..].
    eapply (only_update _ (arr8 L) 8); [exact Ho|set_solver|lia..].
Qed.

Lemma pointer_object i :
  0 <= i < 8 -> object (arr8 L + 1 * i) 1 /\ object (arr16 L + 2 * i) 2 /\ object (arr32 L + 4 * i) 4 /\ object (arr64 L + 8 * i) 8.
Proof.
  intros Hi. pose proof (in_place 5 _ eq_refl) as (? & ? & _). pose proof (in_place 6 _ eq_refl) as (? & ? & ?).
  pose proof (in_place 7 _ eq_refl) as (? & ? & ?). pose proof (in_place 8 _ eq_refl) as (? & ? & ?). cbn [fst snd] in *.
  split_and!; (split; [set_solver|split; [lia|split; [lia|]]]); [apply Z.mod_1_r|div_lia..].
Qed.

Lemma pointer_loop_rule k i o m m' c :
  0 <= i -> i + Z.of_nat k <= 8 -> filling i m m' ->
  runs (guest o m' (4 * k + c)) (pointer_loop k i (arr8 L + 1 * i) (arr16 L + 2 * i) (arr32 L + 4 * i) (arr64 L + 8 * i))
    (fun _ w => exists m'', filling (i + Z.of_nat k) m m'' /\ guest o m'' c w).
Proof.
  revert i m'. induction k as [|k IH]; intros i m' Hi Hk Hf; cbn [pointer_loop].
  - apply runs_ret. intros w Hw. exists m'. by rewrite Z.add_0_r.
  - destruct (pointer_object i ltac:(lia)) as (O8 & O16 & O32 & O64).
    replace (4 * S k + c)%nat with (S (S (S (S (4 * k + c))))) by lia.
    eapply runs_bind; [by apply write_rule|]. intros u1. eapply runs_bind; [by apply write_rule|]. intros u2.
    eapply runs_bind; [by apply write_rule|]. intros u3. eapply runs_bind; [by apply write_rule|]. intros u4.
    replace (i + Z.of_nat (S k)) with (i + 1 + Z.of_nat k) by lia.
    replace (arr8 L + 1 * i + 1) with (arr8 L + 1 * (i + 1)) by lia. replace (arr16 L + 2 * i + 2) with (arr16 L + 2 * (i + 1)) by lia.
    replace (arr32 L + 4 * i + 4) with (arr32 L + 4 * (i + 1)) by lia. replace (arr64 L + 8 * i + 8) with (arr64 L + 8 * (i + 1)) by lia.
    apply (IH (i + 1) (pointer_memory i m')); [lia..|]. apply filling_step; [lia|exact Hf].
Qed.

Lemma pointer_values i : 0 <= i < 8 -> val8 i = i * 8 /\ val16 i = i * 16.
Proof. intros Hi. unfold val8, val16, w8, w16. split; div_lia. Qed.

Lemma pointer_rule o m c : runs (guest o m (64 + c)) (test_pointer L) (outcome true pointer_objects o m c).
Proof.
  unfold test_pointer. eapply runs_bind.
  { replace (64 + c)%nat with (4 * 8 + (4 * 8 + c))%nat by lia.
    rewrite <- (Z.add_0_r (arr8 L)), <- (Z.add_0_r (arr16 L)), <- (Z.add_0_r (arr32 L)), <- (Z.add_0_r (arr64 L)).
    apply (pointer_loop_rule 8 0 o m m); [lia..|]. by constructor; try (intros j Hj; lia). }
  intros u w (m' & [F8 F16 F32 F64 Ho] & Hw). revert w Hw. apply function_rule.
  eapply runs_conseq with (Q' := fun r w => r = return_if (negb (forallb (fun _ => true) (seqZ 0 8))) (-1) /\ guest o m' c w); cycle 1.
  { intros w Hw. exact Hw. } { intros r w [-> Hw]. split; [done|]. by exists m'. }
  apply (for_rule 4 8 0 _ (fun _ => true)). intros i k Hi. destruct (pointer_object i ltac:(lia)) as (O8 & O16 & O32 & O64).
  destruct (pointer_values i ltac:(lia)) as [V8 V16]. replace (arr8 L + i) with (arr8 L + 1 * i) by lia.
  apply passed_rule; [exact O8|by rewrite F8|]. apply passed_rule; [exact O16|by rewrite F16|].
  apply passed_rule; [exact O32|by rewrite F32|]. eapply runs_conseq; [apply check_unsigned_rule, O64|done|].
  cbn beta. intros r w [-> Hw]. by rewrite F64, Z.eqb_refl.
Qed.

(** ** The other sections *)
Lemma int_object i x : objects L !! i = Some x -> x.1.2 = 4 -> x.2 = 4 -> object x.1.1 4.
Proof.
  intros Hx Hs Hal. pose proof (in_place i x Hx) as (Hlo & Hhi & Hm). rewrite Hs, Hal in *.
  split; [set_solver|]. by split_and!.
Qed.

Lemma int_array i x n :
  objects L !! i = Some x -> x.1.2 = 4 * n -> x.2 = 4 -> RAM_BASE <= x.1.1 /\ x.1.1 + 4 * n <= top /\ x.1.1 mod 4 = 0.
Proof. intros Hx Hs Hal. pose proof (in_place i x Hx) as (Hlo & Hhi & Hm). by rewrite Hs, Hal in *. Qed.

Lemma data_rule o m c :
  runs (guest o m (48 + c)) (test_data L)
    (outcome (ints_are m (test_data_array L) 16 (fun i => i)) [(test_data_array L, 64)] o m c).
Proof.
  apply (array_test_rule (test_data_array L) 16 ltac:(lia) (int_array 0 _ 16 eq_refl eq_refl eq_refl) 16); lia.
Qed.
Lemma bss_rule o m c :
  runs (guest o m (96 + c)) (test_bss L)
    (outcome (ints_are m (test_bss_array L) 32 (fun i => 0)) [(test_bss_array L, 128)] o m c).
Proof.
  apply (array_test_rule (test_bss_array L) 32 ltac:(lia) (int_array 1 _ 32 eq_refl eq_refl eq_refl) 32); lia.
Qed.

Definition small_ok (m : Z -> Z) : bool :=
  (s32 (mem_value m (small_data0 L) 4) =? 0x0eefcafe) && (s32 (mem_value m (small_data1 L) 4) =? 0).

Lemma small_rule o m c :
  runs (guest o m (6 + c)) (test_small_data L)
    (outcome (small_ok m) [(small_data0 L, 4); (small_data1 L, 4)] o m c).
Proof.
  pose proof (int_object 2 _ eq_refl eq_refl eq_refl) as O0. pose proof (int_object 3 _ eq_refl eq_refl eq_refl) as O1.
  pose proof (separated _ _ 2 3 ltac:(lia) eq_refl eq_refl) as Hs. unfold separate in Hs. cbn [fst snd] in *.
  apply function_rule. unfold small_ok.
  eapply then_rule; [apply check_int_rule, O0| |].
  { intros -> w Hw. split; [done|]. exists m. split; [apply only_refl|]. revert Hw. apply guest_weaken; [lia|done]. }
  intros ->. eapply then_rule; [apply check_int_rule, O1| |].
  { intros -> w Hw. split; [done|]. exists m. split; [apply only_refl|]. revert Hw. apply guest_weaken; [lia|done]. }
  intros ->. cbn [andb]. do 2 (eapply assign_rule; [done|]).
  set (m' := mem_update _ _ _ _).
  assert (mem_value m' (small_data0 L) 4 = 0x12345678) as V0.
  { unfold m'. rewrite mem_value_other by lia. rewrite mem_value_same by set_solver. reflexivity. }
  assert (mem_value m' (small_data1 L) 4 = 0x00A0FFFF) as V1.
  { unfold m'. rewrite mem_value_same by set_solver. reflexivity. }
  eapply (then_rule _ _ _ true); [|done|].
  { eapply runs_conseq; [apply check_int_rule, O0|by intros w Hw; exact Hw|]. cbn beta. by rewrite V0. }
  intros _. eapply runs_conseq; [apply check_int_rule, O1|by intros w Hw; exact Hw|]. cbn beta. rewrite V1.
  intros r w [-> Hw]. split; [done|]. exists m'. split; [|exact Hw]. unfold m'.
  apply (only_update _ (small_data1 L) 4); [|set_solver|lia..].
  apply (only_update _ (small_data0 L) 4); [apply only_refl|set_solver|lia..].
Qed.

Lemma stack_rule o m c : runs (guest o m (512 + c)) (test_stack L) (outcome true [(stack_array L, 1024)] o m c).
Proof.
  pose proof (int_array 4 _ 256 eq_refl eq_refl eq_refl) as Ha. cbn [fst snd] in Ha.
  unfold test_stack. eapply runs_bind.
  { replace (512 + c)%nat with (256 + (256 + c))%nat by lia. apply (store_loop (stack_array L) 256 ltac:(lia) Ha 256 0); lia. }
  intros u w (-> & m' & Hel & Hwi & Hw). revert w Hw. eapply runs_bind; [by apply (sum_rule (stack_array L) 256 ltac:(lia) Ha L 256); [|lia..]|].
  intros sum. apply runs_ret. intros w [-> Hw].
  assert ((fun j => s32 (mem_value m' (stack_array L + 4 * j) 4)) <$> seqZ 0 (Z.of_nat 256) = seqZ 0 256) as ->.
  { change (Z.of_nat 256) with 256. rewrite <- (list_fmap_id (seqZ 0 256)) at 2. apply list_fmap_ext. intros i x Hx. apply lookup_seqZ in Hx as [-> Hx].
    rewrite Hel by lia. unfold s32, w32, id. apply signed_unique; [lia..|]. symmetry. apply Z.mod_mod. lia. }
  split; [vm_compute; reflexivity|]. exists m'. split; [|exact Hw]. intros x Hx. apply Forall_cons in Hx as [Hx _].
  apply Hwi. unfold outside in Hx. cbn [fst snd] in Hx. lia.
Qed.

(** ** The whole program *)
Definition program_objects : list (Z * Z) := fst <$> objects L.

Lemma only_mono l l' m m' : l ⊆ l' -> only l m m' -> only l' m m'.
Proof. intros Hl H x Hx. apply H. rewrite Forall_forall in *. intros ob Hob. by apply Hx, Hl. Qed.

Lemma section_rule test b l num rest o m c k Q :
  runs (guest o m (k + c)) test (outcome b l o m c) ->
  (b = false -> forall m' w, only l m m' -> guest o m' c w -> Q num w) ->
  (b = true -> forall m', only l m m' -> runs (guest o m' c) rest Q) ->
  runs (guest o m (k + c)) (section test num rest) Q.
Proof.
  intros Ht Hno Hyes. eapply runs_bind; [exact Ht|]. intros r w [-> (m' & Hm & Hw)].
  destruct b; cbn [Z.eqb negb]; [by apply (Hyes eq_refl m' Hm)|by apply (Hno eq_refl m')].
Qed.

Lemma ints_are_only l m m' a n f :
  only l m m' -> Forall (fun ob => a + 4 * n <= ob.1 \/ ob.1 + ob.2 <= a) l -> ints_are m' a n f = ints_are m a n f.
Proof.
  intros H Hl. apply eq_true_iff_eq. unfold ints_are. rewrite !forallb_forall.
  assert (forall i, In i (seqZ 0 n) -> mem_value m' (a + 4 * i) 4 = mem_value m (a + 4 * i) 4) as E.
  { intros i Hi. apply list_elem_of_In, elem_of_seqZ in Hi. apply (only_value l); [exact H|].
    eapply Forall_impl; [exact Hl|]. intros [x y]. cbn [fst snd]. lia. }
  split; intros Hall i Hi; [rewrite <- E by exact Hi|rewrite E by exact Hi]; by apply Hall.
Qed.

Lemma small_only m m' :
  only [(test_data_array L, 64); (test_bss_array L, 128)] m m' -> small_ok m' = small_ok m.
Proof.
  intros H. pose proof (separated _ _ 0 2 ltac:(lia) eq_refl eq_refl) as S1. pose proof (separated _ _ 0 3 ltac:(lia) eq_refl eq_refl) as S2.
  pose proof (separated _ _ 1 2 ltac:(lia) eq_refl eq_refl) as S3. pose proof (separated _ _ 1 3 ltac:(lia) eq_refl eq_refl) as S4.
  unfold separate, small_ok in *. cbn [fst snd] in *.
  by rewrite !(only_value _ _ _ _ _ H) by apart.
Qed.

Ltac in_program := intros ob Hob; unfold program_objects, pointer_objects in *; cbn [fmap list_fmap objects fst] in *;
  repeat (apply elem_of_cons in Hob as [->|Hob]; [set_solver +|]); by apply not_elem_of_nil in Hob.

(** The verdict, section by section. *)
Lemma verdict_cases m m1 m2 :
  only [(test_data_array L, 64)] m m1 -> only [(test_bss_array L, 128)] m1 m2 ->
  verdict L m = if negb (ints_are m (test_data_array L) 16 (fun i => i)) then 1
    else if negb (ints_are m1 (test_bss_array L) 32 (fun i => 0)) then 2 else if negb (small_ok m2) then 3 else 0.
Proof.
  intros H1 H2. pose proof (separated _ _ 0 1 ltac:(lia) eq_refl eq_refl) as S1. unfold separate in S1. cbn [fst snd] in S1.
  rewrite (ints_are_only _ _ _ (test_bss_array L) 32 (fun _ => 0) H1) by apart.
  by rewrite (small_only m m2 (only_trans _ _ _ _ _ H1 H2)).
Qed.

Lemma only_program l1 l2 m1 m2 m3 :
  only l1 m1 m2 -> only l2 m2 m3 -> l1 ⊆ program_objects -> l2 ⊆ program_objects -> only program_objects m1 m3.
Proof. intros H1 H2 I1 I2. eapply only_mono; [|exact (only_trans _ _ _ _ _ H1 H2)]. set_solver. Qed.

(** The sections that depend on nothing. *)
Lemma tail_rule rest o m0 m c Q :
  only program_objects m0 m -> (forall m', only program_objects m0 m' -> runs (guest o m' c) rest Q) ->
  runs (guest o m (512 + (64 + c))) (section (test_stack L) 4 (section (mret test_function) 5
    (section (pure_test test_control) 6 (section (test_pointer L) 7 rest)))) Q.
Proof.
  intros H0 Hrest. eapply section_rule; [apply stack_rule|done|]. intros _ m1 H1.
  assert (only program_objects m0 m1) as H01 by (eapply only_program; [exact H0|exact H1|done|in_program]).
  change (runs (guest o m1 (64 + c)) (section (test_pointer L) 7 rest) Q).
  eapply section_rule; [apply pointer_rule|done|]. intros _ m2 H2. apply Hrest.
  eapply only_program; [exact H01|exact H2|done|in_program].
Qed.

Lemma tests_rule rest o m c Q :
  (verdict L m <> 0 -> forall m' w, only program_objects m m' -> guest o m' c w -> Q (verdict L m) w) ->
  (verdict L m = 0 -> forall m', only program_objects m m' -> runs (guest o m' c) rest Q) ->
  runs (guest o m (726 + c)) (tests L rest) Q.
Proof.
  intros Hno Hyes. unfold tests. replace (726 + c)%nat with (48 + (96 + (6 + (512 + (64 + c)))))%nat by lia.
  assert (forall m' k w, (c <= k)%nat -> guest o m' k w -> guest o m' c w) as Hk by (intros ????; by apply guest_weaken).
  eapply section_rule; [apply data_rule| |].
  { intros E m' w Hm Hw. assert (verdict L m = 1) as V by (unfold verdict; by rewrite E). rewrite V in Hno.
    apply (Hno ltac:(done) m'); [eapply only_mono; [|exact Hm]; in_program|]. eapply Hk; [|exact Hw]. lia. }
  intros E1 m1 Hm1. eapply section_rule; [apply bss_rule| |].
  { intros E m' w Hm Hw. assert (verdict L m = 2) as V by (by rewrite (verdict_cases m m1 m' Hm1 Hm), E1, E). rewrite V in Hno.
    apply (Hno ltac:(done) m'); [|eapply Hk; [|exact Hw]; lia]. eapply only_program; [exact Hm1|exact Hm|in_program..]. }
  intros E2 m2 Hm2. pose proof (verdict_cases m m1 m2 Hm1 Hm2) as V. rewrite E1, E2 in V. cbn [negb] in V.
  assert (only program_objects m m2) as H2 by (eapply only_program; [exact Hm1|exact Hm2|in_program..]).
  eapply section_rule; [apply small_rule| |].
  { intros E m' w Hm Hw. rewrite E in V. cbn [negb] in V. rewrite V in Hno. apply (Hno ltac:(done) m'); [|eapply Hk; [|exact Hw]; lia].
    eapply only_program; [exact H2|exact Hm|done|in_program]. }
  intros E3 m3 Hm3. rewrite E3 in V. apply (tail_rule _ _ m); [|by apply Hyes].
  eapply only_program; [exact H2|exact Hm3|done|in_program].
Qed.
End pointers.
End rules.

(** ** [fib.c] *)
(** The sequence by its recurrence, a pair at a time. *)
Fixpoint fibonacci (n : nat) : Z * Z :=
  match n with O => (0, 1) | S n => let '(a, b) := fibonacci n in (b, a + b) end.

Lemma fib_spec n : forall fuel, (n < fuel)%nat -> fib fuel (Z.of_nat n) = Some (s32 (fibonacci n).1).
Proof.
  induction n as [n IH] using lt_wf_ind. intros [|fuel] Hf; [lia|]. cbn [fib].
  destruct n as [|[|n]]; [done..|]. rewrite !(proj2 (Z.eqb_neq _ _)) by lia.
  replace (Z.of_nat (S (S n)) - 1) with (Z.of_nat (S n)) by lia. replace (Z.of_nat (S (S n)) - 2) with (Z.of_nat n) by lia.
  rewrite !IH by lia. cbn [mbind option_bind fibonacci]. destruct (fibonacci n) as [x y]. cbn [fst]. f_equal. unfold int_add, s32.
  apply signed_unique; [lia|apply signed_range; lia|]. rewrite signed_mod by lia. rewrite (Z.add_mod (signed 32 y)) by lia.
  rewrite !signed_mod by lia. rewrite <- Z.add_mod by lia. f_equal. lia.
Qed.
(** [main] returns 0: [fib(10)] ends within eleven nested calls, with 55. *)
Lemma fib_main_returns fuel : (10 < fuel)%nat -> fib_main fuel = Some 0.
Proof. intros Hf. unfold fib_main. pose proof (fib_spec 10 fuel Hf) as E. change (Z.of_nat 10) with 10 in E. by rewrite E. Qed.

(** The characters of the banners. *)
Definition banner : list Z := line ++ entering.
Lemma banners_chars : chars line /\ chars entering /\ chars complete.
Proof. split_and!; (apply Forall_forall; intros c Hc; revert c Hc; apply Forall_forall); by repeat constructor. Qed.

(** C17: the verdict of the self-test programs.  Whatever the linker's placement of
    their objects in RAM (apart and aligned), whatever RAM holds and whatever the
    host does, [main] of baremetal-test.c ends within its 726 accesses and returns 1
    when the initialised array does not hold its initialisers, else 2 when the array
    of the BSS segment is not zero, else 3 when the small data are not, and 0
    otherwise: stack, calls, loops and pointers of all widths never fail on this bus;
    no byte outside the objects has changed and nothing is printed.  [main] of
    opensbi-test.c returns the same, the host having received the two lines of its
    banner, and the two closing lines exactly when all is well. *)
Theorem selftest_verdict top L o m k w :
  top <= 2 ^ 64 -> layout_ok top L -> guest top o m k w ->
  ((726 <= k)%nat -> exists w' m', baremetal_main L w = (inr (verdict L m), w') /\
     only (program_objects L) m m' /\ guest top o m' 0 w') /\
  ((726 + 2 * length (line ++ entering ++ complete ++ line) <= k)%nat ->
   exists w' m', opensbi_main L w = (inr (verdict L m), w') /\ only (program_objects L) m m' /\
     guest top (o ++ line ++ entering ++ (if verdict L m =? 0 then complete ++ line else [])) m' 0 w').
Proof.
  intros Htop HL Hw. destruct banners_chars as (Cl & Ce & Cc). split; intros Hk.
  - assert (guest top o m (726 + 0) w) as Hw' by (revert Hw; apply guest_weaken; [lia|done]).
    pose proof (tests_rule top Htop L HL (mret 0) o m 0 (fun r w => r = verdict L m /\ exists m', only (program_objects L) m m' /\
      guest top o m' 0 w)) as H.
    specialize (H (fun _ m' w Hm Hg => conj eq_refl (ex_intro _ m' (conj Hm Hg)))).
    specialize (H (fun V m' Hm => runs_ret _ _ _ (fun w Hg => conj (eq_sym V) (ex_intro _ m' (conj Hm Hg)))) w Hw').
    unfold baremetal_main. destruct (tests L (mret 0) w) as [[e|r] w']; [done|]. destruct H as (-> & m' & Hm & Hg). by exists w', m'.
  - set (fin := fun r w => r = verdict L m /\ exists m', only (program_objects L) m m' /\
      guest top (o ++ line ++ entering ++ (if verdict L m =? 0 then complete ++ line else [])) m' 0 w).
    enough (runs (guest top o m k) (opensbi_main L) fin) as H.
    { specialize (H w Hw). destruct (opensbi_main L w) as [[e|r] w']; [done|]. destruct H as (-> & m' & Hm & Hg). by exists w', m'. }
    rewrite !length_app in Hk.
    eapply runs_bind.
    { eapply runs_conseq; [apply (putstr_rule top o m (2 * length entering + (726 + (2 * length complete + (2 * length line + 0))))); exact Cl| |].
      - intros w0. apply guest_weaken; [lia|done].
      - intros u w0 H. exact H. }
    intros u. eapply runs_bind; [apply putstr_rule; exact Ce|]. intros u'. apply tests_rule; [exact Htop|exact HL|..].
    + intros V m' w0 Hm Hg. split; [done|]. exists m'. split; [exact Hm|]. rewrite (proj2 (Z.eqb_neq _ _) V), app_nil_r, app_assoc.
      revert Hg. apply guest_weaken; [lia|done].
    + intros V m' Hm. eapply runs_bind; [apply putstr_rule; exact Cc|]. intros u2. eapply runs_bind; [apply putstr_rule; exact Cl|].
      intros u3. apply runs_ret. intros w0 Hg. split; [done|]. exists m'. split; [exact Hm|]. rewrite V. cbn [Z.eqb].
      by rewrite !app_assoc in *.
Qed.

(** A RAM of 4 KiB filled with 0xA5, except for the data that the image and the
    start-up code provide, and a host that sends nothing. *)
Definition self_layout : layout :=
  mk_layout 0x80000000 0x80000100 0x80000180 0x80000184 0x80000400 0x80000200 0x80000210 0x80000220 0x80000240.
Definition self_ram : memory_t :=
  mem_store (mem_store (mem_store ram_example 0 (concat (le_bytes 4 <$> seqZ 0 16))) 256 (replicate 128 0))
    384 (le_bytes 4 0x0eefcafe ++ le_bytes 4 0).
Definition self_world : world := mk_world (bus_example <| bus_memory := self_ram |>) [] (replicate 1000 [quiet 0]).

Lemma self_serving : serving [] [] [] 1000 self_world.
Proof.
  constructor; try reflexivity; [|apply Forall_replicate; by repeat constructor].
  destruct bus_example_ready as [[] ? ? ?]. constructor; try done. constructor; try done.
  cbn [w_bus self_world bus_memory update]. unfold self_ram. repeat apply mem_store_wf; try exact ram_example_wf.
  - apply Forall_concat, Forall_fmap, Forall_forall. intros x _. apply le_bytes_ok.
  - apply Forall_replicate. unfold byte_ok. lia.
  - apply Forall_app. split; apply le_bytes_ok.
Qed.

Lemma self_layout_ok : layout_ok 0x80001000 self_layout.
Proof.
  constructor.
  - unfold objects, placed. cbn. repeat first [apply Forall_nil_2 | apply Forall_cons_2]; vm_compute; by split_and!.
  - unfold objects. repeat (constructor; [repeat (constructor; [unfold separate; cbn; lia|]); constructor|]). constructor.
Qed.

Lemma selftest_verdict_witness :
  exists w' m', opensbi_main self_layout self_world = (inr 0, w') /\
    guest 0x80001000 (line ++ entering ++ complete ++ line) m' 0 w'.
Proof.
  assert (guest 0x80001000 [] (ram_byte (w_bus self_world)) 1000 self_world) as Hw.
  { constructor; [exists [], 1000%nat; split; [lia|exact self_serving]|vm_compute; reflexivity|done]. }
  assert (verdict self_layout (ram_byte (w_bus self_world)) = 0) as V by (vm_compute; reflexivity).
  assert (726 + 2 * length (line ++ entering ++ complete ++ line) <= 1000)%nat as Hk by (apply Nat.leb_le; vm_compute; reflexivity).
  destruct (selftest_verdict 0x80001000 self_layout [] (ram_byte (w_bus self_world)) 1000 self_world
    ltac:(vm_compute; discriminate) self_layout_ok Hw) as [_ H].
  destruct (H Hk) as (w' & m' & E & _ & Hg). clear H Hw Hk. exists w', m'. revert E Hg. generalize V. clear V.
  generalize (verdict self_layout (ram_byte (w_bus self_world))). intros v -> E Hg. split; [exact E|exact Hg].
Defined.
