(* ===== verification/Printf.v ===== *)
(** * Formatted output of the CoreMark port

    Models [ee_printf.c] of the port of CoreMark to the bare-metal environment, as it
    is configured ([HAS_FLOAT] is 0 in [core_portme.h], so the conversions of
    floating-point numbers are not compiled).  A C string is the list of its
    characters before the terminator; a function that writes at [str] and returns
    the advanced pointer returns what it has written.  The fields of a number are
    [int]s whose overflow is undefined in C; they are exact integers here.  The specification is the
    grammar of format strings ([piece], [render]) and what each directive prints
    ([prints]); [format_refines] relates the two. *)
From Stdlib Require Import Ascii String.
From stdpp Require Import base tactics numbers option list sets.
From S2P Require Import Prelude CInt Memory Bus Alu Drivers DriverProps.

#[local] Open Scope Z_scope.

(** ** Characters *)
Abbreviation ch c := (Z.of_N (N_of_ascii c%char)).
Definition text (s : string) : list Z := (fun c => ch c) <$> list_ascii_of_string s.
Definition SPC : Z := ch " ".
Definition ZERO : Z := ch "0".
Definition digits : list Z := text "0123456789abcdefghijklmnopqrstuvwxyz".
Definition upper_digits : list Z := text "0123456789ABCDEFGHIJKLMNOPQRSTUVWXYZ".
Definition is_digit (c : Z) : bool := (ZERO <=? c) && (c <=? ch "9").

Definition ZEROPAD : Z := 1.
Definition SIGN : Z := 2.
Definition PLUS : Z := 4.
Definition SPACE : Z := 8.
Definition LEFT : Z := 16.
Definition HEX_PREP : Z := 32.
Definition UPPERCASE : Z := 64.
Definition has (type flag : Z) : bool := negb (Z.land type flag =? 0).

(** ** Fields *)

(** [while (lo < x--) *str++ = c;]: what is written, and [x] afterwards.  The other
    loops of the file are of this form: [size-- > 0] is [0 < size--], and
    [--width > 0] is [1 < width--]. *)
Fixpoint while_above (n : nat) (lo x c : Z) : list Z * Z :=
  if lo <? x then
    match n with
    | O => ([], x - 1)
    | S n => let '(s, x) := while_above n lo (x - 1) c in (c :: s, x)
    end
  else ([], x - 1).
Definition put_while (lo x c : Z) : list Z * Z := while_above (Z.to_nat (x - lo)) lo x c.

(** [while (i-- > 0) *str++ = tmp[i];] *)
Fixpoint copy_down (i : nat) (tmp : list Z) : list Z :=
  match i with O => [] | S i => aget 0 tmp (Z.of_nat i) :: copy_down i tmp end.

(** The digits that the loop of [number] leaves in [tmp], least significant first. *)
Fixpoint number_digits (fuel : nat) (num base : Z) (dig : list Z) : list Z :=
  if num =? 0 then []
  else match fuel with
       | O => []
       | S fuel => aget 0 dig (num mod base) :: number_digits fuel (num / base) base dig
       end.

(** A [long] is its 64-bit word. *)
Definition number (num base size precision type : Z) : option (list Z) :=
  let dig := if has type UPPERCASE then upper_digits else digits in
  let type := if has type LEFT then Z.land type (Z.lnot ZEROPAD) else type in
  if (base <? 2) || (36 <? base) then None
  else
    let c := if has type ZEROPAD then ZERO else SPC in
    let '(sign, num, size) :=
      if has type SIGN then
        if s64 num <? 0 then ([ch "-"], w64 (- num), size - 1)
        else if has type PLUS then ([ch "+"], num, size - 1)
        else if has type SPACE then ([SPC], num, size - 1)
        else ([], num, size)
      else ([], num, size) in
    let size := if has type HEX_PREP then if base =? 16 then size - 2 else if base =? 8 then size - 1 else size else size in
    let tmp := if num =? 0 then [ZERO] else number_digits 64 num base dig in
    let i := Z.of_nat (length tmp) in
    let precision := if precision <? i then i else precision in
    let size := size - precision in
    let '(s1, size) := if has type (Z.lor ZEROPAD LEFT) then ([], size) else put_while 0 size SPC in
    let s2 := if has type HEX_PREP then if base =? 8 then [ZERO] else if base =? 16 then [ZERO; aget 0 digits 33] else [] else [] in
    let '(s3, size) := if has type LEFT then ([], size) else put_while 0 size c in
    let '(s4, _) := put_while i precision ZERO in
    let s5 := copy_down (length tmp) tmp in
    let '(s6, _) := put_while 0 size SPC in
    Some (s1 ++ sign ++ s2 ++ s3 ++ s4 ++ s5 ++ s6).

(** The two formats of addresses write a text of their own between the blanks. *)
Definition justify_text (tmp : list Z) (size type : Z) : list Z :=
  let len := Z.of_nat (length tmp) in
  let '(s1, size) := if has type LEFT then ([], size) else put_while len size SPC in
  let '(s2, _) := put_while len size SPC in
  s1 ++ tmp ++ s2.

Fixpoint separated_by (sep : Z) (l : list (list Z)) : list Z :=
  match l with [] => [] | [x] => x | x :: l => x ++ sep :: separated_by sep l end.

Definition eaddr (addr : list Z) (size precision type : Z) : list Z :=
  let dig := if has type UPPERCASE then upper_digits else digits in
  justify_text (separated_by (ch ":")
    ((fun b => [aget 0 dig (Z.shiftr b 4); aget 0 dig (Z.land b 0x0F)]) <$> take 6 addr)) size type.

Definition iaddr_byte (n : Z) : list Z :=
  if n =? 0 then [aget 0 digits 0]
  else if 100 <=? n then [aget 0 digits (n / 100); aget 0 digits (n mod 100 / 10); aget 0 digits (n mod 100 mod 10)]
  else if 10 <=? n then [aget 0 digits (n / 10); aget 0 digits (n mod 10)]
  else [aget 0 digits n].
Definition iaddr (addr : list Z) (size precision type : Z) : list Z :=
  justify_text (separated_by (ch ".") (iaddr_byte <$> take 4 addr)) size type.

(** ** The format string *)
Fixpoint strnlen (s : list Z) (count : Z) : nat :=
  match s with
  | [] => O
  | _ :: s => if count =? 0 then O else S (strnlen s (count - 1))
  end.

Fixpoint skip_atoi (i : Z) (s : list Z) : Z * list Z :=
  match s with
  | c :: s' => if is_digit c then skip_atoi (s32 (i * 10 + c - ZERO)) s' else (i, s)
  | [] => (i, [])
  end.

(** The arguments: words, strings, addresses; [va_arg] of another type is undefined. *)
Inductive value := Word (v : Z) | Str (s : option (list Z)) | Addr (bytes : list Z).
Definition va_word (args : list value) : option (Z * list value) :=
  match args with Word v :: args => Some (v, args) | _ => None end.
Definition va_int (args : list value) : option (Z * list value) := '(v, args) ← va_word args; Some (s32 v, args).

Fixpoint scan_flags (fmt : list Z) (flags : Z) : list Z * Z :=
  match fmt with
  | [] => ([], flags)
  | c :: fmt' =>
      if c =? ch "-" then scan_flags fmt' (Z.lor flags LEFT)
      else if c =? ch "+" then scan_flags fmt' (Z.lor flags PLUS)
      else if c =? ch " " then scan_flags fmt' (Z.lor flags SPACE)
      else if c =? ch "#" then scan_flags fmt' (Z.lor flags HEX_PREP)
      else if c =? ch "0" then scan_flags fmt' (Z.lor flags ZEROPAD)
      else (fmt, flags)
  end.

Definition scan_width (fmt : list Z) (flags : Z) (args : list value) : option (Z * Z * list Z * list value) :=
  match fmt with
  | c :: fmt' =>
      if is_digit c then let '(w, fmt) := skip_atoi 0 fmt in Some (w, flags, fmt, args)
      else if c =? ch "*" then
        '(w, args) ← va_int args;
        if w <? 0 then Some (- w, Z.lor flags LEFT, fmt', args) else Some (w, flags, fmt', args)
      else Some (-1, flags, fmt, args)
  | [] => Some (-1, flags, [], args)
  end.

Definition scan_precision (fmt : list Z) (args : list value) : option (Z * list Z * list value) :=
  match fmt with
  | c :: fmt' =>
      if c =? ch "." then
        '(p, fmt, args) ←
          match fmt' with
          | d :: fmt'' =>
              if is_digit d then let '(p, fmt) := skip_atoi 0 fmt' in Some (p, fmt, args)
              else if d =? ch "*" then '(p, args) ← va_int args; Some (p, fmt'', args)
              else Some (-1, fmt', args)
          | [] => Some (-1, [], args)
          end;
        Some (if p <? 0 then 0 else p, fmt, args)
      else Some (-1, fmt, args)
  | [] => Some (-1, [], args)
  end.

Definition scan_qualifier (fmt : list Z) : Z * list Z :=
  match fmt with
  | c :: fmt' => if (c =? ch "l") || (c =? ch "L") then (c, fmt') else (-1, fmt)
  | [] => (-1, [])
  end.

(** What follows the [switch] on the conversion, for integers. *)
Definition convert_integer (base flags field_width precision qualifier : Z) (args : list value) : option (list Z * list value) :=
  '(v, args) ← va_word args;
  let num := if qualifier =? ch "l" then w64 v else if has flags SIGN then w64 (s32 v) else w32 v in
  s ← number num base field_width precision flags;
  Some (s, args).

Definition convert (c flags field_width precision qualifier : Z) (args : list value) : option (list Z * list value) :=
  if c =? ch "c" then
    let '(s1, w) := if has flags LEFT then ([], field_width) else put_while 1 field_width SPC in
    '(v, args) ← va_int args;
    let '(s2, _) := put_while 1 w SPC in
    Some (s1 ++ [w8 v] ++ s2, args)
  else if c =? ch "s" then
    match args with
    | Str s :: args =>
        let s := default (text "<NULL>") s in
        let len := strnlen s (w64 precision) in
        Some (justify_text (take len s) field_width flags, args)
    | _ => None
    end
  else if c =? ch "p" then
    let '(w, flags) := if field_width =? -1 then (16, Z.lor flags ZEROPAD) else (field_width, flags) in
    '(v, args) ← va_word args;
    s ← number (w64 v) 16 w precision flags;
    Some (s, args)
  else if (c =? ch "A") || (c =? ch "a") then
    let flags := if c =? ch "A" then Z.lor flags UPPERCASE else flags in
    match args with
    | Addr bs :: args =>
        Some (if qualifier =? ch "l" then eaddr bs field_width precision flags else iaddr bs field_width precision flags, args)
    | _ => None
    end
  else if c =? ch "o" then convert_integer 8 flags field_width precision qualifier args
  else if c =? ch "X" then convert_integer 16 (Z.lor flags UPPERCASE) field_width precision qualifier args
  else if c =? ch "x" then convert_integer 16 flags field_width precision qualifier args
  else if (c =? ch "d") || (c =? ch "i") then convert_integer 10 (Z.lor flags SIGN) field_width precision qualifier args
  else if c =? ch "u" then convert_integer 10 flags field_width precision qualifier args
  else Some ((if c =? ch "%" then [] else [ch "%"]) ++ [c], args).

(** A format that ends inside a directive prints [%]. *)
Fixpoint vsprintf_loop (fuel : nat) (fmt : list Z) (args : list value) : option (list Z) :=
  match fuel, fmt with
  | O, _ => None
  | _, [] => Some []
  | S fuel, c :: fmt =>
      if negb (c =? ch "%") then s ← vsprintf_loop fuel fmt args; Some (c :: s)
      else
        let '(fmt, flags) := scan_flags fmt 0 in
        '(w, flags, fmt, args) ← scan_width fmt flags args;
        '(p, fmt, args) ← scan_precision fmt args;
        let '(q, fmt) := scan_qualifier fmt in
        match fmt with
        | [] => Some [ch "%"]
        | c :: fmt =>
            '(s1, args) ← convert c flags w p q args;
            s2 ← vsprintf_loop fuel fmt args;
            Some (s1 ++ s2)
        end
  end.
Definition ee_vsprintf (fmt : list Z) (args : list value) : option (list Z) := vsprintf_loop (S (length fmt)) fmt args.

Example format_example :
  ee_vsprintf (text "[%5d|%-5u|%05d|%#x|%+d|%5s|%-4.2s|%c|%p|%%|%la|%a|%4.3d|% d|%lu|%08lX|%q")
    [Word 42; Word 7; Word (2 ^ 32 - 42); Word 255; Word 3; Str (Some (text "ab")); Str (Some (text "xyz")); Word 65;
     Word 0x80001234; Addr [1; 2; 0xAB; 4; 5; 6]; Addr [192; 168; 0; 17]; Word 5; Word 9; Word (2 ^ 64 - 1); Word 0xBEEF]
  = Some (text "[   42|7    |-0042|0xff|+3|   ab|xy  |A|0000000080001234|%|01:02:ab:04:05:06|192.168.0.17| 005| 9|18446744073709551615|0000BEEF|%q").
Proof. vm_compute. reflexivity. Qed.

(** ** Fields, specified *)

(** A field of [width] characters at least: blanks on the right, zeros between the
    prefix and the body, or blanks on the left. *)
Definition justify (left zero : bool) (width : Z) (pre body : list Z) : list Z :=
  let gap := Z.to_nat (width - Z.of_nat (length pre) - Z.of_nat (length body)) in
  if left then pre ++ body ++ replicate gap SPC
  else if zero then pre ++ replicate gap ZERO ++ body
  else replicate gap SPC ++ pre ++ body.

Definition alphabet (upper : bool) : list Z := if upper then upper_digits else digits.
Definition digit_value (c : Z) : Z := if c <=? ch "9" then c - ZERO else if c <=? ch "Z" then c - ch "A" + 10 else c - ch "a" + 10.

(** [ds] is the notation of [n] in a base, with no superfluous zero. *)
Record numeral (base : Z) (upper : bool) (n : Z) (ds : list Z) : Prop := {
  nu_digits : Forall (fun c => c ∈ take (Z.to_nat base) (alphabet upper)) ds;
  nu_value : foldl (fun v c => base * v + digit_value c) 0 ds = n;
  nu_lead : head ds = Some ZERO -> ds = [ZERO];
  nu_some : ds <> [];
}.

Lemma put_while_spec lo x c :
  put_while lo x c = (replicate (Z.to_nat (x - lo)) c, (if lo <? x then lo else x) - 1).
Proof.
  unfold put_while. remember (Z.to_nat (x - lo)) as n eqn:Hn. revert x Hn. induction n as [|n IH]; intros x Hn; cbn [while_above].
  - rewrite (proj2 (Z.ltb_ge lo x)) by lia. done.
  - rewrite (proj2 (Z.ltb_lt lo x)) by lia. rewrite (IH (x - 1)) by lia. cbn [replicate]. do 2 f_equal.
    destruct (Z.ltb_spec lo (x - 1)); lia.
Qed.

Lemma copy_down_rev tmp : copy_down (length tmp) tmp = rev tmp.
Proof.
  induction tmp as [|c tmp IH] using rev_ind; [done|]. rewrite rev_unit, length_app, Nat.add_1_r. cbn [copy_down].
  f_equal; [unfold aget; rewrite Nat2Z.id; by rewrite app_nth2, Nat.sub_diag by lia|].
  rewrite <- IH. clear IH. assert (forall i, (i <= length tmp)%nat -> copy_down i (tmp ++ [c]) = copy_down i tmp) as E; [|by apply E].
  induction i as [|i IH]; intros Hi; cbn [copy_down]; [done|]. rewrite IH by lia. f_equal. unfold aget. rewrite Nat2Z.id, app_nth1 by lia. done.
Qed.

(** *** Flags *)
Lemma has_bit type k : 0 <= k -> has type (2 ^ k) = Z.testbit type k.
Proof.
  intros Hk. unfold has. destruct (Z.testbit type k) eqn:E.
  - destruct (Z.eqb_spec (Z.land type (2 ^ k)) 0) as [H|]; [|done]. exfalso.
    assert (Z.testbit (Z.land type (2 ^ k)) k = true) by (rewrite Z.land_spec, E, Z.pow2_bits_true by lia; done).
    rewrite H, Z.bits_0 in *. done.
  - apply Bool.negb_false_iff, Z.eqb_eq. apply Z.bits_inj'. intros i Hi. rewrite Z.land_spec, Z.bits_0.
    destruct (decide (i = k)) as [->|]; [by rewrite E|]. by rewrite Z.pow2_bits_false, andb_false_r by lia.
Qed.
Lemma has_lor type flag f : has (Z.lor type flag) f = has type f || has flag f.
Proof.
  unfold has. rewrite Z.land_lor_distr_l. destruct (Z.eqb_spec (Z.lor (Z.land type f) (Z.land flag f)) 0) as [H|H].
  - apply Z.lor_eq_0_iff in H as [-> ->]. done.
  - destruct (Z.eqb_spec (Z.land type f) 0) as [E|]; [|done]. rewrite E, Z.lor_0_l in H. by rewrite (proj2 (Z.eqb_neq _ _) H).
Qed.
Lemma has_either type f g : has type (Z.lor f g) = has type f || has type g.
Proof.
  unfold has. rewrite Z.land_lor_distr_r. destruct (Z.eqb_spec (Z.lor (Z.land type f) (Z.land type g)) 0) as [H|H].
  - apply Z.lor_eq_0_iff in H as [-> ->]. done.
  - destruct (Z.eqb_spec (Z.land type f) 0) as [E|]; [|done]. rewrite E, Z.lor_0_l in H. by rewrite (proj2 (Z.eqb_neq _ _) H).
Qed.
Lemma has_clear type f : has (Z.land type (Z.lnot ZEROPAD)) f = has type (Z.land (Z.lnot ZEROPAD) f).
Proof. unfold has. by rewrite Z.land_assoc. Qed.

(** *** Numerals *)
Lemma alphabet_value upper d : 0 <= d < 36 -> digit_value (aget 0 (alphabet upper) d) = d /\ length (alphabet upper) = 36%nat.
Proof.
  intros Hd. split; [|by destruct upper].
  assert (forallb (fun d => (digit_value (aget 0 digits d) =? d) && (digit_value (aget 0 upper_digits d) =? d)) (seqZ 0 36) = true) as H
    by (vm_compute; reflexivity).
  rewrite forallb_forall in H. specialize (H d). rewrite <- list_elem_of_In, elem_of_seqZ in H.
  specialize (H ltac:(lia)). apply andb_prop in H as [H1 H2]. destruct upper; by apply Z.eqb_eq.
Qed.
Lemma alphabet_in base upper d : 0 <= d < base -> base <= 36 -> aget 0 (alphabet upper) d ∈ take (Z.to_nat base) (alphabet upper).
Proof.
  intros Hd Hb. destruct (alphabet_value upper d ltac:(lia)) as [_ Hl].
  apply list_elem_of_lookup. exists (Z.to_nat d). rewrite lookup_take_lt by lia. apply aget_lookup. rewrite Hl. lia.
Qed.

Lemma number_digits_numeral fuel num base upper :
  2 <= base <= 36 -> 0 < num < base ^ Z.of_nat fuel ->
  numeral base upper num (rev (number_digits fuel num base (alphabet upper))) /\
  head (rev (number_digits fuel num base (alphabet upper))) <> Some ZERO.
Proof.
  intros Hb. revert num. induction fuel as [|fuel IH]; intros num Hn; [cbn in Hn; lia|].
  cbn [number_digits]. rewrite (proj2 (Z.eqb_neq _ _)) by lia. cbn [rev].
  rewrite Nat2Z.inj_succ, Z.pow_succ_r in Hn by lia. pose proof (Z.mod_pos_bound num base ltac:(lia)) as Hm.
  destruct (alphabet_value upper (num mod base) ltac:(lia)) as [Hv _].
  pose proof (alphabet_in base upper (num mod base) Hm ltac:(lia)) as Hin.
  pose proof (Z.div_mod num base ltac:(lia)) as Hdm.
  destruct (decide (num < base)) as [Hlt|Hge].
  - rewrite (Z.div_small num base) by lia. assert (number_digits fuel 0 base (alphabet upper) = []) as -> by (by destruct fuel).
    rewrite Z.mod_small in * by lia. cbn [rev app]. split; [constructor|].
    + by apply Forall_singleton.
    + cbn [foldl]. lia.
    + by intros [= ->].
    + done.
    + cbn [head]. intros [= E]. rewrite E in Hv. cbv in Hv. lia.
  - destruct (IH (num / base)) as [[Hd Hval Hlead Hsome] Hh].
    { split; [apply Z.div_str_pos; lia|apply Z.div_lt_upper_bound; lia]. }
    destruct (rev (number_digits fuel (num / base) base (alphabet upper))) as [|c ds] eqn:E; [done|].
    split; [constructor|done].
    + apply Forall_app. split; [exact Hd|by apply Forall_singleton].
    + rewrite foldl_app, Hval. cbn [foldl]. lia.
    + cbn [head app] in *. intros [= ->]. by destruct Hh.
    + done.
Qed.

(** The digits that [number] prints. *)
Lemma numeral_exists base upper num :
  2 <= base <= 36 -> is_u 64 num ->
  numeral base upper num (rev (if num =? 0 then [ZERO] else number_digits 64 num base (alphabet upper))).
Proof.
  intros Hb Hn. destruct (Z.eqb_spec num 0) as [->|Hne].
  - pose proof (alphabet_in base upper 0 ltac:(lia) ltac:(lia)) as H. constructor; try done.
    + apply Forall_singleton. by destruct upper.
    + cbn [rev app foldl]. change (digit_value ZERO) with 0. lia.
  - apply number_digits_numeral; [exact Hb|]. split; [lia|]. apply (Z.lt_le_trans _ (2 ^ 64)); [lia|].
    change (Z.of_nat 64) with 64. apply Z.pow_le_mono_l. lia.
Qed.

(** ** [number] lays out a numeral *)
Definition sign_text (type num : Z) : list Z :=
  if has type SIGN then
    if s64 num <? 0 then [ch "-"] else if has type PLUS then [ch "+"] else if has type SPACE then [SPC] else []
  else [].
Definition prefix_text (type base : Z) : list Z :=
  if has type HEX_PREP then if base =? 8 then [ZERO] else if base =? 16 then [ZERO; ch "x"] else [] else [].
Definition magnitude (type num : Z) : Z := if has type SIGN && (s64 num <? 0) then w64 (- num) else num.

Lemma justify_loops (left zero : bool) w n pre body :
  w = n + Z.of_nat (length body) + Z.of_nat (length pre) ->
  justify left zero w pre body =
    (let '(s1, size) := if zero || left then ([], n) else put_while 0 n SPC in
     let '(s3, size) := if left then ([], size) else put_while 0 size (if zero && negb left then ZERO else SPC) in
     let '(s6, _) := put_while 0 size SPC in
     s1 ++ pre ++ s3 ++ body ++ s6).
Proof.
  intros ->. unfold justify. replace (n + Z.of_nat (length body) + Z.of_nat (length pre) - Z.of_nat (length pre) - Z.of_nat (length body)) with n by lia.
  assert (forall x, replicate (Z.to_nat ((if 0 <? x then 0 else x) - 1)) SPC = []) as E.
  { intros x. replace (Z.to_nat _) with O; [done|]. destruct (Z.ltb_spec 0 x); lia. }
  destruct left, zero; cbn [orb andb negb]; rewrite ?put_while_spec, ?Z.sub_0_r; cbn [app]; rewrite ?E, ?app_nil_r; try done.
Qed.

(** Left alignment turns zero padding off. *)
Lemma cleared_flags type (type' := if has type LEFT then Z.land type (Z.lnot ZEROPAD) else type) :
  has type' ZEROPAD = has type ZEROPAD && negb (has type LEFT) /\
  has type' (Z.lor ZEROPAD LEFT) = has type ZEROPAD || has type LEFT /\
  forall f, In f [SIGN; PLUS; SPACE; LEFT; HEX_PREP] -> has type' f = has type f.
Proof.
  assert (forall f, In f [SIGN; PLUS; SPACE; LEFT; HEX_PREP] -> has type' f = has type f) as H.
  { intros f Hf. unfold type'. destruct (has type LEFT); [|done]. rewrite has_clear.
    cbn in Hf. by destruct Hf as [<-|[<-|[<-|[<-|[<-|[]]]]]]. }
  split; [|split; [|exact H]].
  - unfold type'. destruct (has type LEFT); [rewrite has_clear; by rewrite andb_false_r; unfold has; rewrite Z.land_0_r|by rewrite andb_true_r].
  - rewrite has_either, (H LEFT) by (cbn; tauto). unfold type'. destruct (has type LEFT); [by rewrite !orb_true_r|done].
Qed.

Lemma number_sign type num size :
  (if has type SIGN then
     if s64 num <? 0 then ([ch "-"], w64 (- num), size - 1)
     else if has type PLUS then ([ch "+"], num, size - 1) else if has type SPACE then ([SPC], num, size - 1) else ([], num, size)
   else ([], num, size)) = (sign_text type num, magnitude type num, size - Z.of_nat (length (sign_text type num))).
Proof.
  unfold sign_text, magnitude. destruct (has type SIGN), (s64 num <? 0), (has type PLUS), (has type SPACE); cbn [andb length];
    rewrite ?Z.sub_0_r; done.
Qed.
Lemma number_prefix type base size :
  (if has type HEX_PREP then if base =? 16 then size - 2 else if base =? 8 then size - 1 else size else size) =
  size - Z.of_nat (length (prefix_text type base)).
Proof.
  unfold prefix_text. destruct (has type HEX_PREP); [|cbn [length]; lia].
  destruct (Z.eqb_spec base 8) as [E|_]; [rewrite E; cbn [Z.eqb Pos.eqb length]; lia|].
  destruct (base =? 16); cbn [length]; lia.
Qed.

Lemma number_layout num base size precision type :
  2 <= base <= 36 -> is_u 64 num ->
  exists ds, numeral base (has type UPPERCASE) (magnitude type num) ds /\
    number num base size precision type =
      Some (justify (has type LEFT) (has type ZEROPAD) size (sign_text type num ++ prefix_text type base)
              (replicate (Z.to_nat (precision - Z.of_nat (length ds))) ZERO ++ ds)).
Proof.
  intros Hb Hn. set (mag := magnitude type num).
  assert (is_u 64 mag) as Hmag by (unfold mag, magnitude; destruct (_ && _); [apply Z.mod_pos_bound; lia|exact Hn]).
  set (tmp := if mag =? 0 then [ZERO] else number_digits 64 mag base (alphabet (has type UPPERCASE))).
  exists (rev tmp). split; [by apply numeral_exists|].
  rewrite length_rev. unfold number.
  rewrite (proj2 (Z.ltb_ge base 2)), (proj2 (Z.ltb_ge 36 base)) by lia. cbn [orb]. fold (alphabet (has type UPPERCASE)).
  set (type' := if has type LEFT then _ else type).
  pose proof (cleared_flags type) as (Fz & Fe & F). fold type' in Fz, Fe, F.
  rewrite Fz, Fe, !F by (cbn; tauto). rewrite (number_sign type num size). fold mag tmp.
  rewrite number_prefix, copy_down_rev. change (aget 0 digits 33) with (ch "x"). fold (prefix_text type base).
  set (prec := if precision <? _ then _ else precision).
  rewrite (put_while_spec (Z.of_nat (length tmp)) prec).
  replace (Z.to_nat (prec - Z.of_nat (length tmp))) with (Z.to_nat (precision - Z.of_nat (length tmp)));
    [|unfold prec; destruct (Z.ltb_spec precision (Z.of_nat (length tmp))); lia].
  set (body := replicate _ ZERO ++ rev tmp).
  rewrite (justify_loops _ _ size (size - Z.of_nat (length (sign_text type num)) - Z.of_nat (length (prefix_text type base)) - prec)).
  - destruct (if has type ZEROPAD || has type LEFT then _ else _) as [s1 n1].
    destruct (if has type LEFT then ([], n1) else _) as [s3 n3]. destruct (put_while 0 n3 SPC) as [s6 n6].
    unfold body. by rewrite <- !app_assoc.
  - unfold body. rewrite !length_app, length_replicate, length_rev. unfold prec.
    destruct (Z.ltb_spec precision (Z.of_nat (length tmp))); lia.
Qed.

Lemma justify_text_spec tmp size type : justify_text tmp size type = justify (has type LEFT) false size [] tmp.
Proof.
  unfold justify_text, justify. rewrite !put_while_spec. cbn [length app].
  replace (size - Z.of_nat 0 - Z.of_nat (length tmp)) with (size - Z.of_nat (length tmp)) by lia.
  destruct (has type LEFT); rewrite put_while_spec; [done|]. f_equal.
  replace (Z.to_nat _) with O; [by rewrite app_nil_r|]. destruct (Z.ltb_spec (Z.of_nat (length tmp)) size); lia.
Qed.

Lemma strnlen_spec s count : strnlen s count = (if count <? 0 then length s else Nat.min (length s) (Z.to_nat count)).
Proof.
  revert count. induction s as [|c s IH]; intros count; cbn [strnlen length]; [by destruct (count <? 0)|].
  destruct (Z.eqb_spec count 0) as [->|Hne]; [done|]. rewrite IH.
  destruct (Z.ltb_spec (count - 1) 0), (Z.ltb_spec count 0); lia.
Qed.
Lemma take_strnlen s p : p < 2 ^ 31 -> - 2 ^ 31 <= p -> Z.of_nat (length s) < 2 ^ 32 ->
  take (strnlen s (w64 p)) s = if p <? 0 then s else take (Z.to_nat p) s.
Proof.
  intros Hp1 Hp2 Hs. rewrite strnlen_spec. pose proof (Z.mod_pos_bound p (2 ^ 64) ltac:(lia)) as Hb. fold (w64 p) in Hb.
  rewrite (proj2 (Z.ltb_ge (w64 p) 0)) by lia. destruct (Z.ltb_spec p 0).
  - assert (w64 p = p + 2 ^ 64) as E.
    { unfold w64. rewrite <- (Z.mod_add p 1 (2 ^ 64)) by lia. rewrite Z.mod_small; lia. }
    rewrite take_ge; [done|]. rewrite E. lia.
  - unfold w64. rewrite Z.mod_small by lia. rewrite <- firstn_firstn, firstn_all2 at 1; [done|].
    rewrite length_take. lia.
Qed.

(** ** The grammar of formats *)
Inductive flag := FLeft | FPlus | FSpace | FHash | FZero.
Definition flag_char (f : flag) : Z :=
  match f with FLeft => ch "-" | FPlus => ch "+" | FSpace => ch " " | FHash => ch "#" | FZero => ch "0" end.
Definition flag_bit (f : flag) : Z :=
  match f with FLeft => LEFT | FPlus => PLUS | FSpace => SPACE | FHash => HEX_PREP | FZero => ZEROPAD end.
Definition flags_of (fs : list flag) : Z := foldl (fun z f => Z.lor z (flag_bit f)) 0 fs.

(** A width or a precision: a number, or [*] for an argument. *)
Inductive amount := Lit (n : Z) | Star.
Record directive := mk_directive {
  d_flags : list flag; d_width : option amount; d_precision : option (option amount); d_qualifier : option Z; d_conversion : Z;
}.
Inductive piece := Char (c : Z) | Directive (d : directive).

Definition render_number (n : Z) : list Z := rev (if n =? 0 then [ZERO] else number_digits 64 n 10 digits).
Definition render_amount (a : option amount) : list Z :=
  match a with None => [] | Some (Lit n) => render_number n | Some Star => [ch "*"] end.
Definition render_directive (d : directive) : list Z :=
  ch "%" :: (flag_char <$> d_flags d) ++ render_amount (d_width d) ++
  match d_precision d with None => [] | Some a => ch "." :: render_amount a end ++
  match d_qualifier d with None => [] | Some q => [q] end ++ [d_conversion d].
Definition render_piece (p : piece) : list Z := match p with Char c => [c] | Directive d => render_directive d end.
Definition render (ps : list piece) : list Z := concat (render_piece <$> ps).

(** What a directive is made of: a width starts with no zero (that is a flag), and a
    conversion is no character with another meaning. *)
Definition special (c : Z) : bool :=
  is_digit c || existsb (Z.eqb c) (text "-+ #*.lL").
Record directive_ok (d : directive) : Prop := {
  ok_width n : d_width d = Some (Lit n) -> 0 < n < 2 ^ 27;
  ok_precision n : d_precision d = Some (Some (Lit n)) -> 0 <= n < 2 ^ 27;
  ok_qualifier q : d_qualifier d = Some q -> q = ch "l" \/ q = ch "L";
  ok_conversion : special (d_conversion d) = false;
}.
Definition piece_ok (p : piece) : Prop :=
  match p with Char c => c <> ch "%" /\ c <> 0 | Directive d => directive_ok d /\ d_conversion d <> 0 end.

(** *** Scanning what was rendered *)
Lemma scan_flags_render fs rest z :
  (forall c f, head rest = Some c -> c <> flag_char f) ->
  scan_flags ((flag_char <$> fs) ++ rest) z = (rest, foldl (fun z f => Z.lor z (flag_bit f)) z fs).
Proof.
  intros Hr. revert z. induction fs as [|f fs IH]; intros z; cbn [fmap list_fmap app foldl].
  - destruct rest as [|c rest]; [done|]. cbn [scan_flags]. specialize (Hr c).
    pose proof (Hr FLeft eq_refl) as H1. pose proof (Hr FPlus eq_refl) as H2. pose proof (Hr FSpace eq_refl) as H3.
    pose proof (Hr FHash eq_refl) as H4. pose proof (Hr FZero eq_refl) as H5. cbn [flag_char] in *.
    by rewrite !(proj2 (Z.eqb_neq _ _)) by assumption.
  - destruct f; apply IH.
Qed.

Lemma decimal_digit c : is_digit c = true -> 0 <= digit_value c <= 9 /\ c = ZERO + digit_value c.
Proof.
  unfold is_digit, digit_value. intros [H1%Z.leb_le H2%Z.leb_le]%andb_prop. rewrite (proj2 (Z.leb_le _ _) H2).
  change (ch "9") with 57 in *. change ZERO with 48 in *. lia.
Qed.
Lemma skip_atoi_digits ds i rest :
  Forall (fun c => is_digit c = true) ds -> (forall c, head rest = Some c -> is_digit c = false) ->
  0 <= i -> foldl (fun v c => 10 * v + digit_value c) i ds < 2 ^ 31 ->
  i <= foldl (fun v c => 10 * v + digit_value c) i ds /\
  skip_atoi i (ds ++ rest) = (foldl (fun v c => 10 * v + digit_value c) i ds, rest).
Proof.
  intros Hd Hr. revert i. induction Hd as [|c ds Hc Hd IH]; intros i Hi Hlt; cbn [app foldl] in *.
  - split; [lia|]. destruct rest as [|c rest]; [done|]. cbn [skip_atoi]. by rewrite (Hr c).
  - destruct (decimal_digit c Hc) as [Hv Hcv]. destruct (IH (10 * i + digit_value c) ltac:(lia) Hlt) as [Hle E].
    split; [lia|]. cbn [skip_atoi]. rewrite Hc.
    replace (s32 (i * 10 + c - ZERO)) with (10 * i + digit_value c); [exact E|]. symmetry. unfold s32.
    apply signed_unique; [lia| |f_equal; lia]. change (2 ^ (32 - 1)) with (2 ^ 31). lia.
Qed.

Lemma digit_of c : c ∈ take (Z.to_nat 10) digits -> is_digit c = true.
Proof. revert c. apply Forall_forall. by repeat constructor. Qed.
Lemma render_number_scan n rest :
  0 <= n < 2 ^ 31 -> (forall c, head rest = Some c -> is_digit c = false) -> skip_atoi 0 (render_number n ++ rest) = (n, rest).
Proof.
  intros Hn Hr. destruct (numeral_exists 10 false n ltac:(lia) ltac:(lia)) as [Hd Hv _ _]. cbn [alphabet] in *.
  fold (render_number n) in *.
  destruct (skip_atoi_digits (render_number n) 0 rest) as [_ E]; [|exact Hr|lia|by rewrite Hv; lia|by rewrite E, Hv].
  eapply Forall_impl; [exact Hd|exact digit_of].
Qed.
(** The first character of a number is a digit, and is not 0 if the number is not. *)
Lemma render_number_head n : 0 <= n < 2 ^ 31 -> exists c ds, render_number n = c :: ds /\ is_digit c = true /\ (0 < n -> c <> ZERO).
Proof.
  intros Hn. destruct (numeral_exists 10 false n ltac:(lia) ltac:(lia)) as [Hd Hv Hl Hs]. cbn [alphabet] in *.
  fold (render_number n) in *. destruct (render_number n) as [|c ds]; [done|]. exists c, ds. split; [done|]. split.
  - apply Forall_cons in Hd as [Hc _]. by apply digit_of.
  - intros Hpos ->. specialize (Hl eq_refl). injection Hl as ->. cbn [foldl] in Hv. change (digit_value ZERO) with 0 in Hv. lia.
Qed.

(** The fields of a directive, with the arguments they take. *)
Definition resolve_width (a : option amount) (flags : Z) (args : list value) : option (Z * Z * list value) :=
  match a with
  | None => Some (-1, flags, args)
  | Some (Lit n) => Some (n, flags, args)
  | Some Star => '(v, args) ← va_int args; Some (if v <? 0 then (- v, Z.lor flags LEFT, args) else (v, flags, args))
  end.
Definition resolve_precision (a : option (option amount)) (args : list value) : option (Z * list value) :=
  match a with
  | None => Some (-1, args)
  | Some None => Some (0, args)
  | Some (Some (Lit n)) => Some (n, args)
  | Some (Some Star) => '(v, args) ← va_int args; Some (Z.max 0 v, args)
  end.

Definition resolve_fields (d : directive) (args : list value) : option (Z * Z * Z * list value) :=
  '(w, fl, args) ← resolve_width (d_width d) (flags_of (d_flags d)) args;
  '(p, args) ← resolve_precision (d_precision d) args;
  Some (w, fl, p, args).

(** A character that ends the flags and a number. *)
Definition follows (rest : list Z) : Prop :=
  forall c, head rest = Some c -> is_digit c = false /\ existsb (Z.eqb c) (text "-+ #*") = false.

Lemma follows_flag rest c f : follows rest -> head rest = Some c -> c <> flag_char f.
Proof. intros H Hc. destruct (H c Hc) as [Hd He]. intros ->. by destruct f. Qed.
Lemma follows_star rest c : follows rest -> head rest = Some c -> c <> ch "*".
Proof. intros H Hc. destruct (H c Hc) as [Hd He]. by intros ->. Qed.
Lemma follows_digit rest c : follows rest -> head rest = Some c -> is_digit c = false.
Proof. intros H Hc. by destruct (H c Hc). Qed.

Lemma special_follows c rest : special c = false -> follows (c :: rest).
Proof.
  intros Hs _ [= <-]. unfold special in Hs. apply orb_false_elim in Hs as [H1 H2]. split; [done|].
  change (text "-+ #*.lL") with (text "-+ #*" ++ text ".lL") in H2. rewrite existsb_app in H2. by apply orb_false_elim in H2 as [-> _].
Qed.

Lemma scan_width_render a rest flags args :
  (forall n, a = Some (Lit n) -> 0 < n < 2 ^ 27) -> follows rest ->
  scan_width (render_amount a ++ rest) flags args = '(w, fl, args) ← resolve_width a flags args; Some (w, fl, rest, args).
Proof.
  intros Ha Hr. destruct a as [[n|]|]; cbn [render_amount resolve_width app].
  - destruct (render_number_head n ltac:(specialize (Ha n eq_refl); lia)) as (c & ds & E & Hc & _).
    pose proof (render_number_scan n rest ltac:(specialize (Ha n eq_refl); lia) (fun c => follows_digit rest c Hr)) as Hs.
    rewrite E in *. cbn [app scan_width mbind option_bind]. cbn [app] in Hs. by rewrite Hc, Hs.
  - cbn [scan_width]. change (is_digit (ch "*")) with false. cbn [Z.eqb].
    change (ch "*" =? ch "*") with true. cbv iota. destruct (va_int args) as [[v a]|]; [|done]. cbn [mbind option_bind].
    by destruct (v <? 0).
  - destruct rest as [|c rest]; [done|]. cbn [scan_width mbind option_bind]. rewrite (follows_digit _ c Hr eq_refl).
    by rewrite (proj2 (Z.eqb_neq _ _) (follows_star _ c Hr eq_refl)).
Qed.

Definition render_precision (a : option (option amount)) : list Z :=
  match a with None => [] | Some a => ch "." :: render_amount a end.
Definition render_qualifier (q : option Z) : list Z := match q with None => [] | Some q => [q] end.

Lemma scan_precision_render a rest args :
  (forall n, a = Some (Some (Lit n)) -> 0 <= n < 2 ^ 27) -> follows rest -> head rest <> Some (ch ".") ->
  scan_precision (render_precision a ++ rest) args = '(p, args) ← resolve_precision a args; Some (p, rest, args).
Proof.
  intros Ha Hr Hdot. destruct a as [[[n|]|]|]; cbn [render_precision render_amount resolve_precision app scan_precision].
  - change (ch "." =? ch ".") with true. cbv iota.
    destruct (render_number_head n ltac:(specialize (Ha n eq_refl); lia)) as (c & ds & E & Hc & _).
    pose proof (render_number_scan n rest ltac:(specialize (Ha n eq_refl); lia) (fun c => follows_digit rest c Hr)) as Hs.
    rewrite E in *. cbn [app mbind option_bind]. cbn [app] in Hs. rewrite Hc, Hs. cbn [mbind option_bind].
    rewrite (proj2 (Z.ltb_ge n 0)); [done|]. specialize (Ha n eq_refl). lia.
  - change (ch "." =? ch ".") with true. change (is_digit (ch "*")) with false. change (ch "*" =? ch "*") with true. cbv iota.
    destruct (va_int args) as [[v a]|]; [|done]. cbn [mbind option_bind]. do 3 f_equal. destruct (Z.ltb_spec v 0); lia.
  - change (ch "." =? ch ".") with true. cbv iota. destruct rest as [|c rest]; [done|].
    rewrite (follows_digit _ c Hr eq_refl). by rewrite (proj2 (Z.eqb_neq _ _) (follows_star _ c Hr eq_refl)).
  - destruct rest as [|c rest]; [done|]. cbn [scan_precision mbind option_bind]. cbn [head] in Hdot.
    rewrite (proj2 (Z.eqb_neq c (ch "."))); [done|]. congruence.
Qed.

Lemma scan_qualifier_render q c rest :
  (forall q', q = Some q' -> q' = ch "l" \/ q' = ch "L") -> special c = false ->
  scan_qualifier (render_qualifier q ++ c :: rest) = (default (-1) q, c :: rest).
Proof.
  intros Hq Hc. destruct q as [q|]; cbn [render_qualifier app scan_qualifier default].
  - by destruct (Hq q eq_refl) as [->| ->].
  - unfold special in Hc. apply orb_false_elim in Hc as [_ H2]. cbn [text existsb fmap list_fmap list_ascii_of_string] in H2.
    repeat (apply orb_false_elim in H2 as [? H2]). by repeat match goal with H : (c =? _) = false |- _ => rewrite H; clear H end.
Qed.

Lemma directive_tail d rest :
  directive_ok d -> let tail := render_qualifier (d_qualifier d) ++ d_conversion d :: rest in
  follows tail /\ head tail <> Some (ch ".") /\ follows (render_precision (d_precision d) ++ tail).
Proof.
  intros Hd tail. assert (follows tail /\ head tail <> Some (ch ".")) as [H1 H2].
  { unfold tail. destruct (d_qualifier d) as [q|] eqn:Eq; cbn [render_qualifier app].
    - destruct (ok_qualifier d Hd q Eq) as [->| ->]; (split; [by intros c [= <-]|done]).
    - split; [by apply special_follows, Hd|]. cbn [head]. intros [= E]. pose proof (ok_conversion d Hd) as Hc. by rewrite E in Hc. }
  split; [exact H1|]. split; [exact H2|]. destruct (d_precision d) as [a|]; cbn [render_precision app]; [by intros c [= <-]|exact H1].
Qed.

Lemma width_head a rest f c :
  (forall n, a = Some (Lit n) -> 0 < n < 2 ^ 27) -> follows rest -> head (render_amount a ++ rest) = Some c -> c <> flag_char f.
Proof.
  intros Ha Hr. destruct a as [[n|]|]; cbn [render_amount app].
  - destruct (render_number_head n ltac:(specialize (Ha n eq_refl); lia)) as (c' & ds & -> & Hc & Hz). intros [= ->].
    specialize (Hz ltac:(specialize (Ha n eq_refl); lia)). destruct f; cbn [flag_char]; [by intros ->..|exact Hz].
  - intros [= <-]. by destruct f.
  - by apply follows_flag.
Qed.

Lemma loop_directive fuel d rest args :
  directive_ok d ->
  vsprintf_loop (S fuel) (render_directive d ++ rest) args =
    '(w, fl, p, args) ← resolve_fields d args;
    '(s1, args) ← convert (d_conversion d) fl w p (default (-1) (d_qualifier d)) args;
    s2 ← vsprintf_loop fuel rest args;
    Some (s1 ++ s2).
Proof.
  intros Hd. destruct (directive_tail d rest Hd) as (Hf & Hdot & Hp). cbn zeta in *.
  unfold render_directive. fold (render_precision (d_precision d)) (render_qualifier (d_qualifier d)).
  cbn [app vsprintf_loop]. change (ch "%" =? ch "%") with true. cbn [negb].
  rewrite <- !app_assoc. cbn [app].
  rewrite (scan_flags_render (d_flags d)) by (intros c f; apply width_head; [apply Hd|exact Hp]).
  rewrite scan_width_render by (exact Hp || apply Hd). fold (flags_of (d_flags d)).
  unfold resolve_fields. destruct (resolve_width _ _ _) as [[[w fl] a1]|]; [|done]. cbn [mbind option_bind].
  rewrite scan_precision_render by (exact Hf || exact Hdot || apply Hd).
  destruct (resolve_precision _ _) as [[p a2]|]; [|done]. cbn [mbind option_bind].
  by rewrite scan_qualifier_render by apply Hd.
Qed.

(** ** What a format prints *)
Definition hex2 (upper : bool) (b : Z) : list Z := [aget 0 (alphabet upper) (b / 16); aget 0 (alphabet upper) (b mod 16)].
Definition zeros (p : Z) (ds : list Z) : list Z := replicate (Z.to_nat (p - Z.of_nat (length ds))) ZERO.
Definition is_long (q : option Z) : bool := bool_decide (q = Some (ch "l")).
Definition null : list Z := text "<NULL>".

(** A conversion prints [s] for the arguments it takes. *)
Inductive converts (fl w p : Z) (q : option Z) : Z -> list value -> list Z -> Prop :=
  | cv_char v : converts fl w p q (ch "c") [Word v] (justify (has fl LEFT) false w [] [w8 v])
  | cv_string s : let s' := default null s in
      converts fl w p q (ch "s") [Str s] (justify (has fl LEFT) false w [] (if p <? 0 then s' else take (Z.to_nat p) s'))
  | cv_signed c v ds : c ∈ [ch "d"; ch "i"] -> let n := if is_long q then s64 v else s32 v in
      numeral 10 false (Z.abs n) ds ->
      let sign := if n <? 0 then [ch "-"] else if has fl PLUS then [ch "+"] else if has fl SPACE then [SPC] else [] in
      converts fl w p q c [Word v] (justify (has fl LEFT) (has fl ZEROPAD) w sign (zeros p ds ++ ds))
  | cv_unsigned c base upper v ds :
      (c, base, upper) ∈ [(ch "u", 10, false); (ch "o", 8, false); (ch "x", 16, false); (ch "X", 16, true)] ->
      numeral base upper (if is_long q then w64 v else w32 v) ds ->
      converts fl w p q c [Word v] (justify (has fl LEFT) (has fl ZEROPAD) w (prefix_text fl base) (zeros p ds ++ ds))
  | cv_pointer v ds : numeral 16 false (w64 v) ds ->
      converts fl w p q (ch "p") [Word v]
        (justify (has fl LEFT) (has fl ZEROPAD || (w =? -1)) (if w =? -1 then 16 else w) (prefix_text fl 16) (zeros p ds ++ ds))
  | cv_ethernet c bs : c ∈ [ch "A"; ch "a"] -> is_long q = true ->
      converts fl w p q c [Addr bs] (justify (has fl LEFT) false w [] (separated_by (ch ":") (hex2 (c =? ch "A") <$> take 6 bs)))
  | cv_internet c bs : c ∈ [ch "A"; ch "a"] -> is_long q = false ->
      converts fl w p q c [Addr bs] (justify (has fl LEFT) false w [] (separated_by (ch ".") (render_number <$> take 4 bs)))
  | cv_other c : c ∉ text "cspAaoXxdiu" ->
      converts fl w p q c [] (if c =? ch "%" then [ch "%"] else [ch "%"; c]).

Inductive prints : list piece -> list value -> list Z -> Prop :=
  | prints_nil : prints [] [] []
  | prints_char c ps args s : prints ps args s -> prints (Char c :: ps) args (c :: s)
  | prints_directive d ps args fl w p used args' s1 s2 :
      resolve_fields d args = Some (w, fl, p, used ++ args') ->
      converts fl w p (d_qualifier d) (d_conversion d) used s1 -> prints ps args' s2 ->
      prints (Directive d :: ps) args (s1 ++ s2).

(** The arguments a format takes. *)
Inductive kind := KWord | KStr | KAddr.
Definition has_kind (k : kind) (v : value) : Prop :=
  match k, v with
  | KWord, Word _ => True
  | KStr, Str s => Z.of_nat (length (default null s)) < 2 ^ 32
  | KAddr, Addr bs => Forall byte_ok bs
  | _, _ => False
  end.
Definition star (a : option amount) : list kind := match a with Some Star => [KWord] | _ => [] end.
Definition conversion_wants (c : Z) : list kind :=
  if bool_decide (c ∈ text "cpoXxdiu") then [KWord] else if c =? ch "s" then [KStr]
  else if bool_decide (c ∈ text "Aa") then [KAddr] else [].
Definition wants (p : piece) : list kind :=
  match p with
  | Char _ => []
  | Directive d => star (d_width d) ++ star (default None (d_precision d)) ++ conversion_wants (d_conversion d)
  end.
Definition args_fit (ps : list piece) (args : list value) : Prop := Forall2 has_kind (concat (wants <$> ps)) args.

(** *** Conversions *)
Definition plain (fl : Z) : Prop := has fl SIGN = false /\ has fl UPPERCASE = false.
Lemma plain_lor fl f : plain fl -> plain f -> plain (Z.lor fl f).
Proof. unfold plain. rewrite !has_lor. by intros [-> ->] [-> ->]. Qed.
Lemma plain_flags fs : plain (flags_of fs).
Proof.
  unfold flags_of. assert (plain 0) as H0 by done. revert H0. generalize 0. induction fs as [|f fs IH]; intros z Hz; [done|].
  cbn [foldl]. apply IH, plain_lor; [done|by destruct f].
Qed.

Lemma iaddr_numeral b : byte_ok b -> iaddr_byte b = render_number b.
Proof.
  intros Hb. assert (forallb (fun b => bool_decide (iaddr_byte b = render_number b)) (seqZ 0 256) = true) as H by (vm_compute; reflexivity).
  rewrite forallb_forall in H. eapply bool_decide_eq_true, H, list_elem_of_In, elem_of_seqZ. unfold byte_ok in Hb. lia.
Qed.
Lemma eaddr_hex upper b : byte_ok b ->
  [aget 0 (alphabet upper) (Z.shiftr b 4); aget 0 (alphabet upper) (Z.land b 0x0F)] = hex2 upper b.
Proof.
  intros Hb. unfold hex2. rewrite Z.shiftr_div_pow2 by lia. change 0x0F with (Z.ones 4). by rewrite Z.land_ones by lia.
Qed.

Lemma s64_abs n : is_u 64 n -> Z.abs (s64 n) = if s64 n <? 0 then w64 (- n) else n.
Proof.
  intros Hn. unfold s64, signed, w64. rewrite (Z.mod_small n) by lia. change (2 ^ (64 - 1)) with (2 ^ 63).
  destruct (Z.ltb_spec n (2 ^ 63)) as [H|H].
  - rewrite (proj2 (Z.ltb_ge n 0)) by lia. lia.
  - rewrite (proj2 (Z.ltb_lt _ 0)) by lia. replace (- n) with (2 ^ 64 - n + -1 * 2 ^ 64) by lia.
    rewrite Z.mod_add, Z.mod_small by lia. lia.
Qed.

Lemma number_signed n w p fl :
  is_u 64 n -> plain fl ->
  exists s ds, number n 10 w p (Z.lor fl SIGN) = Some s /\ numeral 10 false (Z.abs (s64 n)) ds /\
    s = justify (has fl LEFT) (has fl ZEROPAD) w
          (if s64 n <? 0 then [ch "-"] else if has fl PLUS then [ch "+"] else if has fl SPACE then [SPC] else []) (zeros p ds ++ ds).
Proof.
  intros Hn [Hs Hu]. destruct (number_layout n 10 w p (Z.lor fl SIGN) ltac:(lia) Hn) as (ds & Hds & ->).
  unfold magnitude, sign_text, prefix_text in *. rewrite !has_lor, Hu in *.
  change (has SIGN SIGN) with true in *. change (has SIGN UPPERCASE) with false in *. change (has SIGN PLUS) with false.
  change (has SIGN SPACE) with false. change (has SIGN LEFT) with false. change (has SIGN ZEROPAD) with false.
  rewrite Hs, !orb_false_r in *. cbn [orb andb] in *. eexists _, ds. split; [reflexivity|]. split.
  - rewrite (s64_abs n Hn). exact Hds.
  - destruct (has _ HEX_PREP); cbn [Z.eqb Pos.eqb]; by rewrite app_nil_r.
Qed.

Lemma number_unsigned n base w p fl :
  is_u 64 n -> 2 <= base <= 36 -> has fl SIGN = false ->
  exists s ds, number n base w p fl = Some s /\ numeral base (has fl UPPERCASE) n ds /\
    s = justify (has fl LEFT) (has fl ZEROPAD) w (prefix_text fl base) (zeros p ds ++ ds).
Proof.
  intros Hn Hb Hs. destruct (number_layout n base w p fl Hb Hn) as (ds & Hds & ->).
  unfold magnitude, sign_text in *. rewrite Hs in *. by eexists _, ds.
Qed.

Section conversion.
Context (fl w p : Z) (q : option Z) (Hfl : plain fl) (Hp : - 2 ^ 31 <= p < 2 ^ 31).

Lemma long_qualifier : (default (-1) q =? ch "l") = is_long q.
Proof.
  unfold is_long. destruct q as [q'|]; cbn [default]; [|done].
  unfold id. destruct (Z.eqb_spec q' (ch "l")) as [->|H]; symmetry; [by apply bool_decide_eq_true|]. apply bool_decide_eq_false. congruence.
Qed.

(** [c] prints the argument, whatever follows it. *)
Definition conversion_ok (c : Z) (used : list value) : Prop :=
  forall rest, exists s, convert c fl w p (default (-1) q) (used ++ rest) = Some (s, rest) /\ converts fl w p q c used s.

Lemma signed_ok c v : c ∈ [ch "d"; ch "i"] -> conversion_ok c [Word v].
Proof.
  intros Hc rest. set (n := if is_long q then w64 v else w64 (s32 v)).
  assert (is_u 64 n) as Hn by (unfold n; destruct (is_long q); apply w64_u).
  destruct (number_signed n w p fl Hn Hfl) as (s & ds & E & Hds & ->).
  assert (s64 n = if is_long q then s64 v else s32 v) as En.
  { unfold n. destruct (is_long q); [apply s64_w64|]. apply s64_small. pose proof (s32_range v). lia. }
  rewrite En in *. eexists. split; [|by eapply cv_signed].
  assert (convert c fl w p (default (-1) q) ([Word v] ++ rest) = convert_integer 10 (Z.lor fl SIGN) w p (default (-1) q) (Word v :: rest)) as ->
    by (apply elem_of_cons in Hc as [->|Hc]; [done|]; by apply list_elem_of_singleton in Hc as ->).
  unfold convert_integer. cbn [va_word mbind option_bind]. rewrite long_qualifier, has_lor. change (has SIGN SIGN) with true.
  rewrite orb_true_r. fold n. by rewrite E.
Qed.

Lemma unsigned_ok c base upper v :
  (c, base, upper) ∈ [(ch "u", 10, false); (ch "o", 8, false); (ch "x", 16, false); (ch "X", 16, true)] -> conversion_ok c [Word v].
Proof.
  intros Hc rest. destruct Hfl as [Hs Hu]. set (n := if is_long q then w64 v else w32 v).
  assert (is_u 64 n) as Hn by (unfold n; destruct (is_long q); [apply w64_u|pose proof (w32_u v); lia]).
  set (fl' := if upper then Z.lor fl UPPERCASE else fl).
  assert (has fl' SIGN = false /\ has fl' UPPERCASE = upper /\ has fl' LEFT = has fl LEFT /\ has fl' ZEROPAD = has fl ZEROPAD /\
    prefix_text fl' base = prefix_text fl base) as (Hs' & Hu' & Hl & Hz & Hpre).
  { unfold fl', prefix_text. destruct upper; [|done]. rewrite !has_lor, Hs, Hu. change (has UPPERCASE SIGN) with false.
    change (has UPPERCASE LEFT) with false. change (has UPPERCASE ZEROPAD) with false. change (has UPPERCASE HEX_PREP) with false.
    by rewrite !orb_false_r. }
  assert (2 <= base <= 36 /\ convert c fl w p (default (-1) q) ([Word v] ++ rest) = convert_integer base fl' w p (default (-1) q) (Word v :: rest))
    as [Hb ->].
  { repeat (apply elem_of_cons in Hc as [[= -> -> ->]|Hc]; [split; [lia|done]|]). by apply not_elem_of_nil in Hc. }
  destruct (number_unsigned n base w p fl' Hn Hb Hs') as (s & ds & E & Hds & ->). rewrite Hu', Hl, Hz, Hpre in *.
  eexists. split; [|by eapply cv_unsigned]. unfold convert_integer. cbn [va_word mbind option_bind].
  rewrite long_qualifier, Hs'. fold n. by rewrite E.
Qed.

Lemma pointer_ok v : conversion_ok (ch "p") [Word v].
Proof.
  intros rest. destruct Hfl as [Hs Hu]. set (fl' := if w =? -1 then Z.lor fl ZEROPAD else fl).
  assert (has fl' SIGN = false /\ has fl' UPPERCASE = false /\ has fl' LEFT = has fl LEFT /\
    has fl' ZEROPAD = has fl ZEROPAD || (w =? -1) /\ prefix_text fl' 16 = prefix_text fl 16) as (Hs' & Hu' & Hl & Hz & Hpre).
  { unfold fl', prefix_text. destruct (w =? -1); [|by rewrite orb_false_r]. rewrite !has_lor, Hs, Hu.
    change (has ZEROPAD SIGN) with false. change (has ZEROPAD LEFT) with false. change (has ZEROPAD ZEROPAD) with true.
    change (has ZEROPAD HEX_PREP) with false. change (has ZEROPAD UPPERCASE) with false. by rewrite !orb_false_r. }
  destruct (number_unsigned (w64 v) 16 (if w =? -1 then 16 else w) p fl' (w64_u v) ltac:(lia) Hs') as (s & ds & E & Hds & ->).
  rewrite Hu', Hl, Hz, Hpre in *. eexists. split; [|by eapply cv_pointer].
  change (convert (ch "p") fl w p (default (-1) q) ([Word v] ++ rest)) with
    (let '(w', fl') := if w =? -1 then (16, Z.lor fl ZEROPAD) else (w, fl) in
     s ← number (w64 v) 16 w' p fl'; Some (s, rest)).
  unfold fl' in E. destruct (w =? -1); by rewrite E.
Qed.

Lemma w8_s32 v : w8 (s32 v) = w8 v.
Proof.
  unfold w8, s32. rewrite <- (Z.mod_mod_divide (signed 32 v) (2 ^ 32) (2 ^ 8)) by (by exists (2 ^ 24)).
  rewrite signed_mod by lia. apply Z.mod_mod_divide. by exists (2 ^ 24).
Qed.
Lemma take_bytes bs n i b : Forall byte_ok bs -> take n bs !! i = Some b -> byte_ok b.
Proof. intros H E. eapply (Forall_lookup_1 byte_ok (take n bs)); [by apply Forall_take|exact E]. Qed.

Lemma char_ok v : conversion_ok (ch "c") [Word v].
Proof.
  intros rest. eexists. split; [|apply cv_char].
  change (convert (ch "c") fl w p (default (-1) q) ([Word v] ++ rest)) with
    (let '(s1, w) := if has fl LEFT then ([], w) else put_while 1 w SPC in
     let '(s2, _) := put_while 1 w SPC in Some (s1 ++ [w8 (s32 v)] ++ s2, rest)).
  replace (w8 (s32 v)) with (w8 v) by (symmetry; apply w8_s32).
  pose proof (justify_text_spec [w8 v] w fl) as H. unfold justify_text in H. change (Z.of_nat (length [w8 v])) with 1 in H.
  destruct (if has fl LEFT then ([], w) else _) as [s1 w1]. destruct (put_while 1 w1 SPC) as [s2 w2]. by rewrite <- H.
Qed.

Lemma string_ok s : Z.of_nat (length (default null s)) < 2 ^ 32 -> conversion_ok (ch "s") [Str s].
Proof.
  intros Hs rest. eexists. split; [|apply cv_string].
  change (convert (ch "s") fl w p (default (-1) q) ([Str s] ++ rest)) with
    (Some (justify_text (take (strnlen (default null s) (w64 p)) (default null s)) w fl, rest)).
  by rewrite justify_text_spec, take_strnlen by lia.
Qed.

Lemma address_ok c bs : c ∈ [ch "A"; ch "a"] -> Forall byte_ok bs -> conversion_ok c [Addr bs].
Proof.
  intros Hc Hbs rest. destruct Hfl as [_ Hu]. set (fl' := if c =? ch "A" then Z.lor fl UPPERCASE else fl).
  assert (has fl' UPPERCASE = (c =? ch "A") /\ has fl' LEFT = has fl LEFT) as [Hu' Hl].
  { unfold fl'. destruct (c =? ch "A"); [|done]. rewrite !has_lor, Hu. change (has UPPERCASE LEFT) with false. by rewrite orb_false_r. }
  assert (convert c fl w p (default (-1) q) ([Addr bs] ++ rest) =
    Some (if default (-1) q =? ch "l" then eaddr bs w p fl' else iaddr bs w p fl', rest)) as ->
    by (apply elem_of_cons in Hc as [->|Hc]; [done|]; by apply list_elem_of_singleton in Hc as ->).
  rewrite long_qualifier. eexists. split; [reflexivity|]. destruct (is_long q) eqn:El; unfold eaddr, iaddr; rewrite justify_text_spec, Hl.
  - fold (alphabet (has fl' UPPERCASE)). rewrite Hu'. rewrite (list_fmap_ext _ (hex2 (c =? ch "A"))); [by apply cv_ethernet|].
    intros i b Hb. by eapply eaddr_hex, take_bytes.
  - rewrite (list_fmap_ext iaddr_byte render_number); [by apply cv_internet|].
    intros i b Hb. by eapply iaddr_numeral, take_bytes.
Qed.

Lemma other_ok c : c ∉ text "cspAaoXxdiu" -> conversion_ok c [].
Proof.
  intros Hc rest. eexists. split; [|by apply cv_other]. cbn [app]. unfold convert.
  cbn [text fmap list_fmap list_ascii_of_string] in Hc.
  repeat (apply not_elem_of_cons in Hc as [? Hc]).
  repeat match goal with H : c <> ?x |- context [c =? ?x] => rewrite (proj2 (Z.eqb_neq c x) H); clear H end. cbn [orb].
  by destruct (Z.eqb_spec c (ch "%")) as [->|].
Qed.

(** A conversion prints its argument. *)
Lemma convert_ok c used : Forall2 has_kind (conversion_wants c) used -> conversion_ok c used.
Proof.
  unfold conversion_wants. case_bool_decide as Hw.
  - intros (v & used' & Hv & ->%Forall2_nil_inv_l & ->)%Forall2_cons_inv_l. destruct v as [v|s|bs]; [|done..].
    cbn [text fmap list_fmap list_ascii_of_string] in Hw.
    repeat (apply elem_of_cons in Hw as [->|Hw]); [apply char_ok|apply pointer_ok|..|by apply not_elem_of_nil in Hw].
    + apply (unsigned_ok _ 8 false). set_solver +.
    + apply (unsigned_ok _ 16 true). set_solver +.
    + apply (unsigned_ok _ 16 false). set_solver +.
    + apply signed_ok. set_solver +.
    + apply signed_ok. set_solver +.
    + apply (unsigned_ok _ 10 false). set_solver +.
  - destruct (Z.eqb_spec c (ch "s")) as [->|Hs].
    { intros (v & used' & Hv & ->%Forall2_nil_inv_l & ->)%Forall2_cons_inv_l. destruct v as [v|s|bs]; [done| |done]. by apply string_ok. }
    case_bool_decide as Ha.
    { intros (v & used' & Hv & ->%Forall2_nil_inv_l & ->)%Forall2_cons_inv_l. destruct v as [v|s|bs]; [done..|]. by apply address_ok. }
    intros ->%Forall2_nil_inv_l. apply other_ok. cbn [text fmap list_fmap list_ascii_of_string] in *. set_solver.
Qed.
End conversion.

(** ** Formats print what they say *)
Lemma star_width a fl args ks :
  (forall n, a = Some (Lit n) -> 0 < n < 2 ^ 27) -> plain fl -> Forall2 has_kind (star a ++ ks) args ->
  exists w fl' args', resolve_width a fl args = Some (w, fl', args') /\ plain fl' /\ Forall2 has_kind ks args'.
Proof.
  intros Ha Hfl H. destruct a as [[n|]|]; cbn [star app resolve_width] in *; [by exists n, fl, args| |by exists (-1), fl, args].
  apply Forall2_cons_inv_l in H as (v & args' & Hv & H & ->). destruct v as [v|s|bs]; [|done..].
  cbn [va_int va_word mbind option_bind]. destruct (s32 v <? 0); eexists _, _, _; split; [reflexivity| |reflexivity|]; [|by split].
  split; [by apply plain_lor|done].
Qed.
Lemma star_precision a args ks :
  (forall n, a = Some (Some (Lit n)) -> 0 <= n < 2 ^ 27) -> Forall2 has_kind (star (default None a) ++ ks) args ->
  exists p args', resolve_precision a args = Some (p, args') /\ - 2 ^ 31 <= p < 2 ^ 31 /\ Forall2 has_kind ks args'.
Proof.
  intros Ha H. destruct a as [[[n|]|]|]; cbn [default star app resolve_precision] in *.
  - exists n, args. specialize (Ha n eq_refl). split; [done|]. split; [lia|exact H].
  - apply Forall2_cons_inv_l in H as (v & args' & Hv & H & ->). destruct v as [v|s|bs]; [|done..].
    cbn [va_int va_word mbind option_bind]. eexists _, _. split; [reflexivity|]. pose proof (s32_range v). split; [lia|exact H].
  - by exists 0, args.
  - by exists (-1), args.
Qed.

Lemma vsprintf_loop_prints ps args fuel :
  Forall piece_ok ps -> args_fit ps args -> (length (render ps) < fuel)%nat ->
  exists s, vsprintf_loop fuel (render ps) args = Some s /\ prints ps args s.
Proof.
  intros Hok. revert args fuel. induction Hok as [|pc ps Hpc Hok IH]; intros args fuel Hfit Hfuel; (destruct fuel as [|fuel]; [lia|]).
  - apply Forall2_nil_inv_l in Hfit as ->. exists []. split; [done|constructor].
  - unfold args_fit, render in *. cbn [fmap list_fmap concat] in *. rewrite length_app in Hfuel. destruct pc as [c|d]; cbn [wants render_piece app length] in *.
    + destruct Hpc as [Hpc _]. cbn [vsprintf_loop]. rewrite (proj2 (Z.eqb_neq _ _) Hpc). cbn [negb].
      destruct (IH args fuel Hfit ltac:(lia)) as (s & -> & Hs). exists (c :: s). split; [done|by constructor].
    + rewrite <- !app_assoc in Hfit. destruct Hpc as [Hpc _].
      destruct (star_width _ (flags_of (d_flags d)) args _ (ok_width d Hpc) (plain_flags _) Hfit) as (w & fl & a1 & E1 & Hfl & H1).
      destruct (star_precision _ a1 _ (ok_precision d Hpc) H1) as (p & a2 & E2 & Hp & H2).
      apply Forall2_app_inv_l in H2 as (used & a3 & Hused & H3 & ->).
      destruct (convert_ok fl w p (d_qualifier d) Hfl Hp (d_conversion d) used Hused a3) as (s1 & Es1 & Hs1).
      assert (0 < length (render_directive d))%nat as Hpos by (unfold render_directive; cbn [length]; lia).
      destruct (IH a3 fuel H3 ltac:(lia)) as (s2 & Es2 & Hs2). exists (s1 ++ s2).
      assert (resolve_fields d args = Some (w, fl, p, used ++ a3)) as Er by (unfold resolve_fields; rewrite E1; cbn [mbind option_bind]; by rewrite E2).
      split; [|by eapply prints_directive]. rewrite loop_directive by exact Hpc. rewrite Er. cbn [mbind option_bind].
      rewrite Es1. cbn [mbind option_bind]. by rewrite Es2.
Qed.

(** Formatted output refines its grammar: for every format made of characters
    and directives (any flags, widths and precisions, given or taken from the
    arguments, qualifiers and conversions) and arguments of the types it takes,
    [ee_vsprintf] parses the rendered format back and writes what the directives
    mean: numerals of the right value in their base, without superfluous zeros,
    padded to precision and width, aligned, with sign and prefix; strings,
    characters and addresses alike. *)
Theorem format_refines ps args :
  Forall piece_ok ps -> args_fit ps args -> exists s, ee_vsprintf (render ps) args = Some s /\ prints ps args s.
Proof. intros Hok Hfit. apply vsprintf_loop_prints; [exact Hok|exact Hfit|lia]. Qed.
