(* ===== verification/Coremark.v ===== *)
(** * The CoreMark port on the emulator

    Models the rest of [ee_printf.c], which sends the formatted text ([Printf]) to the
    UART, and [core_portme.c], which times the benchmark with the CLINT.  The
    benchmark itself is third-party code in a submodule. *)
From Stdlib Require Import Ascii String.
From stdpp Require Import base tactics numbers option list sets sorting.
From S2P Require Import Prelude CInt Memory Clint Plic Uart Bus Cpu CpuInv Isolation Exec Progress Drivers DriverProps Printf.

#[local] Open Scope record_scope.
#[local] Open Scope Z_scope.

(** ** ee_printf *)
Definition uart_send_char (c : Z) : drv unit := uart_putchar UART0_BASE c;; mret tt.

(** The loop over the characters of the buffer, which counts them. *)
Fixpoint print_loop (p : list Z) (n : Z) : drv Z :=
  match p with
  | [] => raise AccessFault
  | c :: p => if c =? 0 then mret n else uart_send_char c;; print_loop p (n + 1)
  end.

(** The text is built in a buffer of 1024 characters, which [ee_vsprintf] knows
    nothing of: a longer text overruns it.  [None] is undefined behaviour. *)
Definition buf_size : Z := 1024.
Definition ee_printf (fmt : list Z) (args : list value) : option (drv Z) :=
  s ← ee_vsprintf fmt args;
  if Z.of_nat (length s) <? buf_size then Some (print_loop (s ++ [0]) 0) else None.

(** ** core_portme.c *)
Record timing := mk_timing { start_time_val : Z; stop_time_val : Z }.
#[export] Instance eta_timing : Eta timing := fun g => mk_timing (start_time_val g) (stop_time_val g).

Definition barebones_clock : drv Z := clint_read_mtime CLINT_BASE.
Definition start_time (g : timing) : drv timing := v ← barebones_clock; mret (g <| start_time_val := v |>).
Definition stop_time (g : timing) : drv timing := v ← barebones_clock; mret (g <| stop_time_val := v |>).
Definition get_time (g : timing) : Z := sub64 (stop_time_val g) (start_time_val g).

Definition CLOCKS_PER_SEC : Z := 100000.
Definition TIMER_RES_DIVIDER : Z := 1.
Definition EE_TICKS_PER_SEC : Z := CLOCKS_PER_SEC / TIMER_RES_DIVIDER.
(** [secs_ret] is a type of the benchmark: the conversion to it is a parameter. *)
Definition time_in_secs (secs_ret : Z -> Z) (ticks : Z) : Z := secs_ret ticks / secs_ret EE_TICKS_PER_SEC.

Record core_portable := mk_core_portable { portable_id : Z }.
#[export] Instance eta_core_portable : Eta core_portable := fun p => mk_core_portable (portable_id p).

(** The sizes of the types are those of the compiler. *)
Definition portable_init (sizeof_ptr_int sizeof_ptr sizeof_u32 : Z) (p : core_portable) : option (drv core_portable) :=
  let check (ok : bool) (msg : list Z) : option (drv Z) := if ok then Some (mret 0) else ee_printf msg [] in
  m1 ← check (sizeof_ptr_int =? sizeof_ptr) (text "ERROR! Please define ee_ptr_int to a type that holds a pointer!" ++ [10]);
  m2 ← check (sizeof_u32 =? 4) (text "ERROR! Please define ee_u32 to a 32b unsigned type!" ++ [10]);
  Some (m1;; m2;; mret (p <| portable_id := 1 |>)).
Definition portable_fini (p : core_portable) : core_portable := p <| portable_id := 0 |>.

(** ** What is printed *)
Lemma print_loop_triple s o t l n k :
  chars s ->
  triple (serving o t l n) (print_loop (s ++ [0]) k)
    (fun v w => v = k + Z.of_nat (length s) /\ serving (o ++ s) t l (n - 2 * length s) w)
    (fun _ _ => (n < 2 * length s)%nat).
Proof.
  intros Hs. revert o n k. induction Hs as [|c s Hc Hs IH]; intros o n k; cbn [app print_loop].
  - apply triple_ret. intros w Hw. rewrite app_nil_r. split; [cbn; lia|]. by replace (n - 2 * length [])%nat with n by (cbn; lia).
  - rewrite (proj2 (Z.eqb_neq c 0)) by lia. eapply triple_bind.
    + eapply triple_conseq; [apply putchar_unit_triple|done|done|]. intros e w (H & _). cbn [length]. lia.
    + intros u. assert (w8 c = c) as -> by (apply Z.mod_small; lia).
      eapply triple_conseq; [apply IH|done| |].
      * intros v w [-> Hw]. rewrite <- app_assoc in Hw. cbn [length].
        split; [lia|]. by replace (n - 2 * S (length s))%nat with (n - 2 - 2 * length s)%nat by lia.
      * intros e w H. cbn [length] in *. lia.
Qed.

(** C26: [ee_printf] prints what its format says: for every format of the grammar and
    arguments of its types, the text is the one the directives mean; if it has no NUL
    character and fits into the buffer, the host receives exactly this text, whatever it
    sends and however many instructions run between the accesses, two accesses for
    each character, and the result is its length. *)
Theorem ee_printf_prints ps args o t l n w :
  Forall piece_ok ps -> args_fit ps args -> serving o t l n w ->
  exists s, ee_vsprintf (render ps) args = Some s /\ prints ps args s /\
    (chars s -> Z.of_nat (length s) < buf_size -> (2 * length s <= n)%nat ->
     exists m w', ee_printf (render ps) args = Some m /\ m w = (inr (Z.of_nat (length s)), w') /\
       serving (o ++ s) t l (n - 2 * length s) w').
Proof.
  intros Hok Hfit Hw. destruct (vsprintf_loop_prints ps args (S (length (render ps))) Hok Hfit ltac:(lia)) as (s & Es & Hs).
  exists s. split; [exact Es|]. split; [exact Hs|]. intros Hc Hlen Hn. unfold ee_printf, ee_vsprintf. rewrite Es. cbn [mbind option_bind].
  rewrite (proj2 (Z.ltb_lt _ _) Hlen). pose proof (print_loop_triple s o t l n 0 Hc w Hw) as H.
  destruct (print_loop (s ++ [0]) 0 w) as [[e|v] w'] eqn:E; [lia|]. destruct H as [-> H].
  exists (print_loop (s ++ [0]) 0), w'. rewrite E. by split.
Qed.

(** ** What is measured *)
Lemma clint_env_base c hs : clint_base (clint_env c hs) = clint_base c.
Proof. destruct (clint_env_ticks c c hs) as (-> & _ & _); [done|]. apply clint_ticks_regs. Qed.

Lemma barebones_clock_run w hs future :
  uart_ready (w_bus w) -> clint_base (clint_of (w_bus w)) = CLINT_BASE -> w_future w = hs :: future -> Forall calm_input hs ->
  let c := clint_env (clint_of (w_bus w)) hs in
  exists w', barebones_clock w = (inr (mtime (clint_reg c)), w') /\ uart_ready (w_bus w') /\ clint_of (w_bus w') = c /\
    w_future w' = future /\ is_u 64 (mtime (clint_reg c)).
Proof.
  intros Hr Hcb Hf Hc c. destruct (world_ticks_clint hs (w_bus w) (w_in w) Hr Hc) as (b & i & E & Hb & Ec). fold c in Ec.
  assert (clint_base (clint_of b) = CLINT_BASE) as Hcb' by (rewrite Ec; unfold c; by rewrite clint_env_base).
  exists (mk_world b i future). unfold barebones_clock, clint_read_mtime, mmio_read64, mmio_read, access, mbind, exec_bind.
  rewrite Hf, E, read_mtime by done. unfold mret, exec_ret. rewrite Ec. cbn [w_bus w_future].
  assert (is_u 64 (mtime (clint_reg c))) as Hu by (rewrite <- Ec; apply (bwf_clint _ (ur_wf _ Hb))).
  by rewrite (w64_small (mtime _)) by exact Hu.
Qed.

(** The benchmark is timed by the host clock: the ticks between [start_time] and
    [stop_time] are the units of 10 ns between the instants at which the timer
    stood when it was read, however many instructions ([hs]) ran in between. *)
Theorem benchmark_time g w hs1 hs h future :
  uart_ready (w_bus w) -> clint_base (clint_of (w_bus w)) = CLINT_BASE ->
  w_future w = hs1 :: (hs ++ [h]) :: future -> Forall calm_input hs1 -> Forall calm_input (hs ++ [h]) ->
  let c1 := clint_env (clint_of (w_bus w)) hs1 in
  Sorted Z.le (prev_time_ns c1 :: (h_clock <$> hs ++ [h])) -> (h_clock h - prev_time_ns c1) / 10 < 2 ^ 64 ->
  exists g' w', (g ← start_time g; stop_time g) w = (inr g', w') /\ w_future w' = future /\
    get_time g' = (h_clock h - prev_time_ns c1) / 10.
Proof.
  intros Hr Hcb Hf Hc1 Hc2 c1 Hsort Hd.
  destruct (barebones_clock_run w hs1 _ Hr Hcb Hf Hc1) as (w1 & E1 & Hr1 & Ec1 & Hf1 & Hu1). fold c1 in E1, Ec1, Hu1.
  assert (clint_base (clint_of (w_bus w1)) = CLINT_BASE) as Hcb1 by (rewrite Ec1; unfold c1; by rewrite clint_env_base).
  destruct (barebones_clock_run w1 _ future Hr1 Hcb1 Hf1 Hc2) as (w2 & E2 & _ & _ & Hf2 & _). rewrite Ec1 in E2.
  exists (g <| start_time_val := mtime (clint_reg c1) |> <| stop_time_val := mtime (clint_reg (clint_env c1 (hs ++ [h]))) |>), w2.
  split.
  - unfold start_time, stop_time, mbind, exec_bind. rewrite E1. unfold mret, exec_ret. by rewrite E2.
  - split; [exact Hf2|]. set (m := mtime (clint_reg c1)) in *.
    change (get_time _) with (sub64 (mtime (clint_reg (clint_env c1 (hs ++ [h])))) m).
    destruct (clint_env_ticks c1 c1 (hs ++ [h]) ltac:(done)) as (_ & Hm & _).
    rewrite fmap_app in *. cbn [fmap list_fmap] in *. destruct (clint_ticks_exact (h_clock <$> hs) c1 (h_clock h) Hsort) as [Hx _].
    rewrite Hm, Hx. fold m. pose proof (sorted_last _ _ _ Hsort) as Hge. unfold add64, sub64, w64.
    rewrite Zminus_mod_idemp_l. replace (m + _ - m) with ((h_clock h - prev_time_ns c1) / 10) by lia.
    apply Z.mod_small. div_lia.
Qed.

(** The buffer is overrun by a long text. *)
Lemma ee_printf_overrun : ee_printf (text "%1024d") [Word 0] = None.
Proof. vm_compute. reflexivity. Qed.

Definition printf_ps : list piece :=
  [Char 110; Char 61; Directive (mk_directive [FLeft; FHash] (Some (Lit 6)) None None (ch "x"));
   Char 124; Directive (mk_directive [] (Some Star) (Some (Some (Lit 2))) (Some (ch "l")) (ch "d"))].
Definition printf_args : list value := [Word 255; Word 5; Word (2 ^ 64 - 5)].

Lemma ee_printf_prints_witness :
  render printf_ps = text "n=%-#6x|%*.2ld" /\
  exists m w', ee_printf (render printf_ps) printf_args = Some m /\ m drv_world = (inr 14, w') /\
    serving (text "n=0xff  |  -05") [] [] 32 w'.
Proof.
  split; [vm_compute; reflexivity|].
  destruct (ee_printf_prints printf_ps printf_args [] [] [] 60 drv_world) as (s & Es & _ & H).
  - unfold printf_ps. repeat apply Forall_cons_2; try apply Forall_nil_2; try (by split); (split; [|done]).
    + constructor; try done. intros n [= <-]. lia.
    + constructor; try done; [intros n [= <-]; lia|intros q [= <-]; by left].
  - unfold args_fit. repeat constructor.
  - exact drv_serving.
  - assert (s = text "n=0xff  |  -05") as ->.
    { assert (ee_vsprintf (render printf_ps) printf_args = Some (text "n=0xff  |  -05")) as E by (vm_compute; reflexivity). congruence. }
    destruct H as (m & w' & E & Em & Hs).
    + repeat constructor; vm_compute; try reflexivity; discriminate.
    + vm_compute. reflexivity.
    + apply Nat.leb_le. vm_compute. reflexivity.
    + exists m, w'. split; [exact E|]. split; [exact Em|exact Hs].
Defined.
