(* ===== verification/Platform.v ===== *)
(** * The OpenSBI platform of the emulator

    Models [platform.c] of [linux/opensbi/platform/tinylinuxrv_emu]: the description
    of the machine that the firmware is given, and the hooks it calls.  The functions
    and the constants of OpenSBI are parameters: a call of its library is an operation
    [sbi] on the state of the firmware, and the offsets within an ACLINT are
    hypotheses where a theorem depends on them. *)
From stdpp Require Import base tactics numbers option list.
From S2P Require Import Prelude CInt Memory Clint Plic Uart Bus.

#[local] Open Scope record_scope.
#[local] Open Scope Z_scope.

(** The structures of OpenSBI, as far as the platform fills them in. *)
Record plic_data := mk_plic_data {
  unique_id : Z; plic_addr : Z; plic_size : Z; num_src : Z; context_map : list (Z * Z);
}.
Record aclint_mswi_data := mk_mswi { mswi_addr : Z; mswi_size : Z; mswi_first_hartid : Z; mswi_hart_count : Z }.
Record aclint_mtimer_data := mk_mtimer {
  mtime_freq : Z; mtime_addr : Z; mtime_size : Z; mtimecmp_addr : Z; mtimecmp_size : Z;
  mtimer_first_hartid : Z; mtimer_hart_count : Z; has_64bit_mmio : bool;
}.

(** The calls into OpenSBI. *)
Inductive sbi_call :=
  | uart8250_init (base in_freq baudrate reg_shift reg_width reg_offset caps : Z)
  | aclint_mswi_cold_init (d : aclint_mswi_data)
  | fdt_driver_init_all
  | fdt_reserved_memory_fixup
  | plic_cold_irqchip_init (d : plic_data)
  | aclint_mtimer_cold_init (d : aclint_mtimer_data).

Definition PLATFORM_HART_COUNT : Z := 1.
Definition PLATFORM_PLIC_ADDR : Z := 0xc000000.
Definition PLATFORM_PLIC_SIZE : Z := 0x200000 + PLATFORM_HART_COUNT * 0x1000.
Definition PLATFORM_PLIC_NUM_SOURCES : Z := 10.
Definition PLATFORM_CLINT_ADDR : Z := 0x2000000.
Definition PLATFORM_ACLINT_MTIMER_FREQ : Z := 100000000.
Definition PLATFORM_UART_ADDR : Z := 0x10000000.
Definition PLATFORM_UART_INPUT_FREQ : Z := 10000000.
Definition PLATFORM_UART_BAUDRATE : Z := 115200.

Definition plic : plic_data :=
  mk_plic_data 0 PLATFORM_PLIC_ADDR PLATFORM_PLIC_SIZE PLATFORM_PLIC_NUM_SOURCES [(0, 1)].

Section opensbi.
Context (CLINT_MSWI_OFFSET CLINT_MTIMER_OFFSET ACLINT_MSWI_SIZE : Z).
Context (ACLINT_DEFAULT_MTIME_OFFSET ACLINT_DEFAULT_MTIME_SIZE ACLINT_DEFAULT_MTIMECMP_OFFSET ACLINT_DEFAULT_MTIMECMP_SIZE : Z).
Context {S : Type} (sbi : sbi_call -> S -> Z * S).

Definition PLATFORM_ACLINT_MSWI_ADDR : Z := PLATFORM_CLINT_ADDR + CLINT_MSWI_OFFSET.
Definition PLATFORM_ACLINT_MTIMER_ADDR : Z := PLATFORM_CLINT_ADDR + CLINT_MTIMER_OFFSET.

Definition mswi : aclint_mswi_data := mk_mswi PLATFORM_ACLINT_MSWI_ADDR ACLINT_MSWI_SIZE 0 PLATFORM_HART_COUNT.
Definition mtimer : aclint_mtimer_data :=
  mk_mtimer PLATFORM_ACLINT_MTIMER_FREQ
    (PLATFORM_ACLINT_MTIMER_ADDR + ACLINT_DEFAULT_MTIME_OFFSET) ACLINT_DEFAULT_MTIME_SIZE
    (PLATFORM_ACLINT_MTIMER_ADDR + ACLINT_DEFAULT_MTIMECMP_OFFSET) ACLINT_DEFAULT_MTIMECMP_SIZE 0 PLATFORM_HART_COUNT true.

Definition platform_early_init (cold_boot : bool) (s : S) : Z * S :=
  if negb cold_boot then (0, s)
  else
    let '(rc, s) := sbi (uart8250_init PLATFORM_UART_ADDR PLATFORM_UART_INPUT_FREQ PLATFORM_UART_BAUDRATE 0 1 0 0) s in
    if negb (rc =? 0) then (rc, s)
    else
      let '(rc, s) := sbi (aclint_mswi_cold_init mswi) s in
      if negb (rc =? 0) then (rc, s)
      else let '(_, s) := sbi fdt_driver_init_all s in (0, s).

Definition platform_final_init (cold_boot : bool) (s : S) : Z * S :=
  if negb cold_boot then (0, s) else let '(_, s) := sbi fdt_reserved_memory_fixup s in (0, s).
Definition platform_irqchip_init (s : S) : Z * S := sbi (plic_cold_irqchip_init plic) s.
Definition platform_timer_init (s : S) : Z * S := sbi (aclint_mtimer_cold_init mtimer) s.

(** ** The description is that of the machine *)
Section offsets.
Context (Hmswi : CLINT_MSWI_OFFSET = 0) (Hmtimer : CLINT_MTIMER_OFFSET = 0x4000).
Context (Hmtime : ACLINT_DEFAULT_MTIME_OFFSET = 0x7ff8) (Hmtimecmp : ACLINT_DEFAULT_MTIMECMP_OFFSET = 0).

(** The firmware finds the software interrupt, the timer and its comparator where the
    emulated CLINT has them, and the timer ticks at the rate it is told. *)
Theorem clint_described c v :
  clint_base c = CLINT_BASE -> is_u 64 v ->
  clint_write c (mswi_addr mswi) 4 1 = (0, c <| clint_reg ::= fun r => r <| msip := 1 |> |>) /\
  clint_read c (mtime_addr mtimer) 8 = Some (mtime (clint_reg c)) /\
  clint_write c (mtimecmp_addr mtimer) 8 v = (0, c <| clint_reg ::= fun r => r <| mtimecmp := v |> |>) /\
  clint_read (clint_mtime_tick c (prev_time_ns c + 10 ^ 9)) (mtime_addr mtimer) 8 =
    Some (add64 (mtime (clint_reg c)) (mtime_freq mtimer)).
Proof.
  destruct c as [base r ms mt t]. cbn [clint_base]. intros -> Hv.
  unfold mtimer, mswi, PLATFORM_ACLINT_MSWI_ADDR, PLATFORM_ACLINT_MTIMER_ADDR, clint_mtime_tick.
  cbn [mswi_addr mtime_addr mtimecmp_addr mtime_freq prev_time_ns]. rewrite Hmswi, Hmtimer, Hmtime, Hmtimecmp.
  split; [reflexivity|]. split; [reflexivity|]. split.
  - unfold clint_write. cbn [clint_base].
    change (sub64 (PLATFORM_CLINT_ADDR + 0x4000 + 0) CLINT_BASE) with 0x4000. cbn [Z.eqb Pos.eqb negb]. by rewrite (w64_small v Hv).
  - replace (t + 10 ^ 9 - t) with (10 ^ 9) by lia. reflexivity.
Qed.
End offsets.
End opensbi.

(** The firmware finds the registers of both contexts of its hart where the emulated
    PLIC has them, machine mode first, and is told of exactly the sources there are. *)
Theorem plic_described p k :
  plic_base p = PLIC_BASE -> k ∈ seqZ 0 PLIC_MAX_CONTEXT ->
  addr_decode p (plic_addr plic + THRESHOLD_OFFSET + k * THRESHOLD_CONTEXT_INC) 4 = mk_reg_info R_THRESHOLD k k /\
  addr_decode p (plic_addr plic + THRESHOLD_OFFSET + k * THRESHOLD_CONTEXT_INC + 4) 4 = mk_reg_info R_CLAIM k k /\
  context_map plic = [(0, 1)] /\ forall id, 1 <= id <= num_src plic <-> 0 < id < PLIC_MAX_INTERRUPT.
Proof.
  intros Hb Hk. unfold addr_decode. rewrite Hb. change (seqZ 0 PLIC_MAX_CONTEXT) with [0; 1] in Hk.
  cbn [num_src plic]. unfold PLATFORM_PLIC_NUM_SOURCES, PLIC_MAX_INTERRUPT.
  repeat (apply elem_of_cons in Hk as [->|Hk]; [split; [reflexivity|split; [reflexivity|split; [reflexivity|lia]]]|]).
  by apply not_elem_of_nil in Hk.
Qed.

(** The size the platform gives leaves out the context of supervisor mode: its first
    register is the first byte after the end. *)
Lemma plic_size_short : plic_addr plic + plic_size plic = plic_addr plic + THRESHOLD_OFFSET + 1 * THRESHOLD_CONTEXT_INC.
Proof. reflexivity. Qed.
