(* ===== verification/Trace.v ===== *)
(** * Tracing

    Models [emulator/src/utils/iringbuf.c], [symtable.c] and [func_trace.c]: the
    ring of the last instructions, the symbol table, the indented function trace.
    The core's [trace_event]s are the calls into this code ([record_event]).  A
    printed line is a record of the values printed; a C string is the list of its
    bytes.  The outcomes of the allocations and the contents of fresh memory are
    arguments. *)
From stdpp Require Import base tactics numbers option list.
From S2P Require Import Prelude CInt Csr Cpu.

#[local] Open Scope record_scope.
#[local] Open Scope Z_scope.

(** ** iringbuf.c *)
Definition IRINGBUF_LEN : Z := 64.

Record iringbuf_t := mk_iringbuf { ring_addr : list Z; ring_inst : list Z; ring_count : Z; ring_ptr : Z }.
#[export] Instance eta_iringbuf : Eta iringbuf_t := fun b =>
  mk_iringbuf (ring_addr b) (ring_inst b) (ring_count b) (ring_ptr b).

(** Static storage is zero. *)
Definition iringbuf : iringbuf_t :=
  mk_iringbuf (replicate (Z.to_nat IRINGBUF_LEN) 0) (replicate (Z.to_nat IRINGBUF_LEN) 0) 0 0.

Definition ptr_advance (b : iringbuf_t) : iringbuf_t :=
  let b := b <| ring_ptr ::= fun p => p + 1 |> in
  if ring_ptr b =? IRINGBUF_LEN then b <| ring_ptr := 0 |> else b.

Definition iringbuf_write (addr inst : Z) (b : iringbuf_t) : iringbuf_t :=
  let b := b <| ring_addr ::= fun l => aset l (ring_ptr b) addr |>
             <| ring_inst ::= fun l => aset l (ring_ptr b) inst |> in
  let b := if ring_count b <? IRINGBUF_LEN then b <| ring_count ::= fun n => n + 1 |> else b in
  ptr_advance b.

(** The lines printed: plain ones, then the one with the arrow.  [None] is an
    access outside the arrays. *)
Inductive ring_line := Plain (addr inst : Z) | Arrow (addr inst : Z).

Definition ring_get (b : iringbuf_t) (pos : Z) : option (Z * Z) :=
  if (0 <=? pos) && (pos <? IRINGBUF_LEN) then Some (aget 0 (ring_addr b) pos, aget 0 (ring_inst b) pos) else None.

Definition iringbuf_print (b : iringbuf_t) : option (list ring_line) :=
  let first_pos := if ring_count b =? IRINGBUF_LEN then ring_ptr b else 0 in
  plain ← mapM (fun i => ring_get b (Z.rem (first_pos + i) IRINGBUF_LEN)) (seqZ 0 (ring_count b - 1));
  last ← ring_get b (Z.rem (first_pos + ring_count b - 1) IRINGBUF_LEN);
  Some (((fun p => Plain p.1 p.2) <$> plain) ++ [Arrow last.1 last.2]).

(** ** symtable.c *)
Definition STT_NOTYPE : Z := 0.
Definition STT_FUNC : Z := 2.

(** [name] is NULL when [str_dup] could not allocate. *)
Record symbol_t := mk_symbol { sym_type : Z; sym_start : Z; sym_size : Z; sym_name : option (list Z) }.
(** [symbols] is [None] once [realloc] has failed and the array is freed. *)
Record symbol_table_t := mk_symtab { symbols : option (list symbol_t); sym_count : Z; sym_capacity : Z }.
#[export] Instance eta_symbol : Eta symbol_t := fun s =>
  mk_symbol (sym_type s) (sym_start s) (sym_size s) (sym_name s).
#[export] Instance eta_symtab : Eta symbol_table_t := fun t =>
  mk_symtab (symbols t) (sym_count t) (sym_capacity t).

(** Fresh array slots hold [junk]. *)
Definition symbol_table_init (capacity : Z) (malloc_ok : bool) (junk : symbol_t) : Z * symbol_table_t :=
  if malloc_ok then (0, mk_symtab (Some (replicate (Z.to_nat capacity) junk)) 0 capacity)
  else (1, mk_symtab None 0 capacity).

Definition str_dup (s : list Z) (malloc_ok : bool) : option (list Z) := if malloc_ok then Some s else None.

Definition symbol_table_double (table : symbol_table_t) (realloc_ok : bool) (junk : symbol_t) : Z * symbol_table_t :=
  let capacity := mul64 (sym_capacity table) 2 in
  let table := table <| sym_capacity := capacity |> in
  if realloc_ok then
    (0, table <| symbols ::= fmap (fun l => l ++ replicate (Z.to_nat capacity - length l) junk) |>)
  else (1, table <| symbols := None |>).

Definition symbol_table_free (table : symbol_table_t) : symbol_table_t := table <| symbols := None |>.

(** A store through the freed array is undefined: [None]. *)
Definition symbol_table_add (table : symbol_table_t) (type start size : Z) (name : list Z)
    (realloc_ok malloc_ok : bool) (junk : symbol_t) : option (Z * symbol_table_t) :=
  let '(r, table) := if sym_count table =? sym_capacity table then symbol_table_double table realloc_ok junk
                     else (0, table) in
  if negb (r =? 0) then Some (1, table)
  else
    match symbols table with
    | None => None
    | Some l =>
        let s := mk_symbol type start size (str_dup name malloc_ok) in
        Some (0, table <| symbols := Some (aset l (sym_count table) s) |> <| sym_count ::= fun n => n + 1 |>)
    end.

Definition sym_matches (addr : Z) (s : symbol_t) : bool :=
  if sym_type s =? STT_FUNC then (sym_start s <=? addr) && (addr <? add64 (sym_start s) (sym_size s))
  else addr =? sym_start s.

(** [Found] carries the name stored through the pointer; [Freed] is the use of a
    freed array. *)
Inductive search_result := Found (name : option (list Z)) | NotFound | Freed.

Definition symbol_table_search (table : symbol_table_t) (addr : Z) : search_result :=
  match symbols table with
  | None => if sym_count table =? 0 then NotFound else Freed
  | Some l =>
      match find (sym_matches addr) (take (Z.to_nat (sym_count table)) l) with
      | Some s => Found (sym_name s)
      | None => NotFound
      end
  end.

(** ** func_trace.c *)
Definition RISCV_TEST_MODE : bool := true.

(** U, S, R, M *)
Definition priv_char : list Z := [85; 83; 82; 77].

Definition resolve_symbol_addr (addr : Z) : Z :=
  if 0xffffffffffe00000 <=? addr then add64 (sub64 addr 0xffffffffffe00000) 0x80000000 else addr.

Inductive trace_kind := T_CALL | T_JUMP | T_TRAP | T_RET.
(** What is printed for the target (of a return: the pc): its name or its address. *)
Inductive trace_label := ByName (name : option (list Z)) | ByAddr (addr : Z).
(** [tl_indent] columns, the privilege letter, the kind, the label, the address
    after the arrow. *)
Record trace_line := mk_trace_line {
  tl_indent : Z; tl_priv : Z; tl_kind : trace_kind; tl_label : trace_label; tl_addr : Z;
}.

(** [call_depth], and the lines written to [fp]. *)
Record func_trace_t := mk_func_trace { call_depth : Z; fp : list trace_line }.
#[export] Instance eta_func_trace : Eta func_trace_t := fun f => mk_func_trace (call_depth f) (fp f).

Section func_trace.
Context (table : symbol_table_t).

(** [None] is the search in a freed table. *)
Definition symbol_label (addr : Z) : option trace_label :=
  match symbol_table_search table addr with
  | Found name => Some (ByName name)
  | NotFound => Some (ByAddr addr)
  | Freed => None
  end.

Definition resolve (addr : Z) : Z := if RISCV_TEST_MODE then resolve_symbol_addr addr else addr.

Definition trace_jump_or_call (pc target priv : Z) (type : trace_kind) (f : func_trace_t) : option func_trace_t :=
  let pc := resolve pc in
  let target := resolve target in
  label ← symbol_label target;
  let line := mk_trace_line (call_depth f * 2) (aget 0 priv_char priv) type label pc in
  Some (f <| fp ::= fun l => l ++ [line] |> <| call_depth ::= fun n => n + 1 |>).

Definition trace_call (pc target priv : Z) := trace_jump_or_call pc target priv T_CALL.
Definition trace_jump (pc target priv : Z) := trace_jump_or_call pc target priv T_JUMP.
Definition trace_trap (pc target priv : Z) := trace_jump_or_call pc target priv T_TRAP.

Definition trace_return (pc target priv : Z) (f : func_trace_t) : option func_trace_t :=
  let pc := resolve pc in
  let target := resolve target in
  let f := if 0 <? call_depth f then f <| call_depth ::= fun n => n - 1 |> else f in
  label ← symbol_label pc;
  let line := mk_trace_line (call_depth f * 2) (aget 0 priv_char priv) T_RET label target in
  Some (f <| fp ::= fun l => l ++ [line] |>).

(** The core's events as calls into the tracing code. *)
Definition record_event (e : trace_event) (st : iringbuf_t * func_trace_t) : option (iringbuf_t * func_trace_t) :=
  let '(b, f) := st in
  match e with
  | IRING pc inst => Some (iringbuf_write pc inst b, f)
  | CALL pc target priv => f ← trace_call pc target priv f; Some (b, f)
  | TRAP pc target priv => f ← trace_trap pc target priv f; Some (b, f)
  | RETURN pc target priv => f ← trace_return pc target priv f; Some (b, f)
  end.

Fixpoint record_events (es : list trace_event) (st : iringbuf_t * func_trace_t) : option (iringbuf_t * func_trace_t) :=
  match es with
  | [] => Some st
  | e :: es => st ← record_event e st; record_events es st
  end.
End func_trace.

(** [func_trace_init]: a fresh file, or the open failed. *)
Definition func_trace_init (fopen_ok : bool) (f : func_trace_t) : Z * func_trace_t :=
  if fopen_ok then (0, mk_func_trace 0 []) else (1, f <| call_depth := 0 |>).

(** ** The ring holds the last instructions *)

Definition ring_of (l : list (Z * Z)) : iringbuf_t := foldl (fun b p => iringbuf_write p.1 p.2 b) iringbuf l.

(** The window of the last [IRINGBUF_LEN] writes, as printed. *)
Definition ring_window (l : list (Z * Z)) : list (Z * Z) := drop (length l - Z.to_nat IRINGBUF_LEN) l.
Definition ring_spec (l : list (Z * Z)) : list ring_line :=
  let w := ring_window l in
  ((fun p => Plain p.1 p.2) <$> take (length w - 1) w) ++ ((fun p => Arrow p.1 p.2) <$> drop (length w - 1) w).

Record ring_repr (l : list (Z * Z)) (b : iringbuf_t) : Prop := {
  rr_addr : length (ring_addr b) = 64%nat;
  rr_inst : length (ring_inst b) = 64%nat;
  rr_count : ring_count b = Z.min (Z.of_nat (length l)) 64;
  rr_ptr : ring_ptr b = Z.of_nat (length l) mod 64;
  rr_data k p : l !! k = Some p -> Z.of_nat (length l) - 64 <= Z.of_nat k ->
    aget 0 (ring_addr b) (Z.of_nat k mod 64) = p.1 /\ aget 0 (ring_inst b) (Z.of_nat k mod 64) = p.2;
}.

Lemma ring_write_repr l b p : ring_repr l b -> ring_repr (l ++ [p]) (iringbuf_write p.1 p.2 b).
Proof.
  intros [Ha Hi Hc Hp Hd]. unfold iringbuf_write. set (b1 := b <| ring_addr ::= _ |> <| ring_inst ::= _ |>).
  set (b2 := if _ <? _ then _ else _).
  assert (ring_addr b2 = ring_addr b1 /\ ring_inst b2 = ring_inst b1 /\ ring_ptr b2 = ring_ptr b /\
          ring_count b2 = Z.min (Z.of_nat (length (l ++ [p]))) 64) as (E1 & E2 & E3 & E4).
  { unfold b2. rewrite length_app. cbn [length]. change (ring_count b1) with (ring_count b). unfold IRINGBUF_LEN.
    destruct (Z.ltb_spec (ring_count b) 64); cbn; repeat split; lia. }
  assert (ring_addr (ptr_advance b2) = ring_addr b2 /\ ring_inst (ptr_advance b2) = ring_inst b2 /\
          ring_count (ptr_advance b2) = ring_count b2 /\
          ring_ptr (ptr_advance b2) = Z.of_nat (length (l ++ [p])) mod 64) as (F1 & F2 & F3 & F4).
  { unfold ptr_advance. rewrite length_app. cbn [length]. cbv zeta.
    change (ring_ptr (b2 <| ring_ptr ::= fun p => p + 1 |>)) with (ring_ptr b2 + 1). rewrite E3, Hp. unfold IRINGBUF_LEN.
    destruct (Z.eqb_spec (Z.of_nat (length l) mod 64 + 1) 64); cbn; repeat split;
      rewrite ?E3, ?Hp; div_lia. }
  constructor; rewrite ?F1, ?F2, ?F3, ?F4, ?E1, ?E2, ?E4; try done.
  1,2: by cbn; rewrite aset_length.
  intros k q Hk Hr. rewrite length_app in Hr. cbn [length] in Hr.
  assert (0 <= Z.of_nat (length l) mod 64 < 64) as Hb by (apply Z.mod_pos_bound; lia).
  unfold b1. cbn. rewrite Hp. apply lookup_snoc_Some in Hk as [[Hlt Hk]|[-> <-]].
  - rewrite !aget_aset_ne; [apply (Hd k q Hk); lia|..]; div_lia.
  - rewrite !aget_aset_eq; [done|lia..].
Qed.

Lemma ring_of_repr l : ring_repr l (ring_of l).
Proof.
  induction l as [|p l IH] using rev_ind.
  - constructor; try done.
  - unfold ring_of. rewrite foldl_snoc. by apply ring_write_repr.
Qed.

(** C36: the instruction trace keeps exactly the last 64 instructions, in order,
    however many were recorded: after a non-empty sequence of writes the dump
    lists that window, oldest first, with the arrow on the latest one. *)
Theorem iringbuf_window l : l <> [] -> iringbuf_print (ring_of l) = Some (ring_spec l).
Proof.
  intros Hl. destruct (ring_of_repr l) as [Ha Hi Hc Hp Hd]. set (b := ring_of l) in *. clearbody b.
  assert (0 < Z.of_nat (length l)) as Hpos by (destruct l; cbn; (done || lia)).
  set (n := Z.of_nat (length l)) in *. set (w := ring_window l).
  assert (length w = Z.to_nat (Z.min n 64)) as Hw by (unfold w, ring_window, IRINGBUF_LEN; rewrite length_drop; lia).
  assert (forall i p, w !! i = Some p ->
    ring_get b (Z.rem ((if ring_count b =? IRINGBUF_LEN then ring_ptr b else 0) + Z.of_nat i) IRINGBUF_LEN) = Some p) as Hget.
  { intros i p Hip. assert (i < length w)%nat as Hlt by (by eapply lookup_lt_Some).
    unfold w, ring_window in Hip. rewrite lookup_drop in Hip.
    destruct (Hd _ _ Hip) as [Hx Hy]; [unfold IRINGBUF_LEN; lia|]. unfold IRINGBUF_LEN in *.
    set (k := (length l - Z.to_nat 64 + i)%nat) in *.
    assert (Z.rem ((if ring_count b =? 64 then ring_ptr b else 0) + Z.of_nat i) 64 = Z.of_nat k mod 64) as ->.
    { rewrite Z.rem_mod_nonneg by (destruct (ring_count b =? 64); div_lia).
      destruct (Z.eqb_spec (ring_count b) 64); rewrite ?Hp; unfold k; div_lia. }
    unfold ring_get, IRINGBUF_LEN. pose proof (Z.mod_pos_bound (Z.of_nat k) 64).
    destruct (Z.leb_spec 0 (Z.of_nat k mod 64)), (Z.ltb_spec (Z.of_nat k mod 64) 64); try lia. cbn [andb].
    rewrite Hx, Hy. by destruct p. }
  clear Hd Ha Hi. unfold iringbuf_print, ring_spec. fold w. cbv zeta.
  set (f := if ring_count b =? IRINGBUF_LEN then ring_ptr b else 0) in *.
  assert (exists p, drop (length w - 1) w = [p] /\ w !! (length w - 1)%nat = Some p) as (p & Hdrop & Hlast).
  { destruct (lookup_lt_is_Some_2 w (length w - 1)) as [p Hp']; [lia|]. exists p. split; [|done].
    rewrite (drop_S w p _ Hp'), drop_ge by lia. done. }
  assert (mapM (fun i => ring_get b (Z.rem (f + i) IRINGBUF_LEN)) (seqZ 0 (ring_count b - 1))
          = Some (take (length w - 1) w)) as ->.
  { apply mapM_Some_2, Forall2_same_length_lookup_2.
    { rewrite length_seqZ, length_take. lia. }
    intros i x q Hx Hq. apply lookup_seqZ in Hx as [-> Hi]. apply lookup_take_Some in Hq as [Hq _].
    rewrite Z.add_0_l. by apply Hget. }
  cbn [mbind option_bind]. apply Hget in Hlast. rewrite Hdrop.
  replace (f + Z.of_nat (length w - 1)) with (f + ring_count b - 1) in Hlast by lia. rewrite Hlast. done.
Qed.

(** ** The symbol table is the list of the symbols added *)

Record symtab_repr (cap0 : Z) (l : list symbol_t) (t : symbol_table_t) : Prop := {
  sr_arr : exists arr, symbols t = Some arr /\ take (length l) arr = l /\ Z.of_nat (length arr) = sym_capacity t;
  sr_count : sym_count t = Z.of_nat (length l);
  sr_cap : 0 < sym_capacity t /\ Z.of_nat (length l) <= sym_capacity t <= Z.max cap0 (2 * Z.of_nat (length l));
}.

Lemma symtab_search_repr cap0 l t addr :
  symtab_repr cap0 l t ->
  symbol_table_search t addr =
    match find (sym_matches addr) l with Some s => Found (sym_name s) | None => NotFound end.
Proof.
  intros [(arr & Ha & Ht & _) Hc _]. unfold symbol_table_search. rewrite Ha, Hc, Nat2Z.id, Ht. done.
Qed.

Lemma symtab_add_repr cap0 l t type start size name junk :
  0 < cap0 < 2 ^ 62 -> Z.of_nat (length l) < 2 ^ 62 -> symtab_repr cap0 l t ->
  exists t', symbol_table_add t type start size name true true junk = Some (0, t') /\
    symtab_repr cap0 (l ++ [mk_symbol type start size (Some name)]) t'.
Proof.
  intros Hc0 Hl [(arr & Ha & Ht & Hlen) Hc Hcap]. destruct t as [sy co ca]. cbn in Ha, Hlen, Hc, Hcap. subst sy co ca.
  unfold symbol_table_add. set (t1 := if _ =? _ then _ else _).
  assert (exists arr1, t1 = (0, mk_symtab (Some arr1) (Z.of_nat (length l)) (Z.of_nat (length arr1))) /\
    take (length l) arr1 = l /\ (length l < length arr1)%nat /\
    Z.of_nat (length arr1) <= Z.max cap0 (2 * Z.of_nat (length l + 1))) as (arr1 & -> & Ht1 & Hlt & Hle).
  { unfold t1. cbn [sym_count sym_capacity]. destruct (Z.eqb_spec (Z.of_nat (length l)) (Z.of_nat (length arr))).
    - unfold symbol_table_double, mul64. cbn [sym_capacity]. rewrite w64_small by lia.
      exists (arr ++ replicate (Z.to_nat (Z.of_nat (length arr) * 2) - length arr) junk).
      rewrite take_app_le, length_app, length_replicate by lia.
      split; [unfold update; cbn; do 2 f_equal; lia|]. split; [done|lia].
    - exists arr. split; [done|]. split; [done|lia]. }
  cbn [negb Z.eqb symbols]. eexists. split; [reflexivity|].
  constructor; cbn; rewrite ?length_app; cbn [length]; [|lia|lia].
  eexists. split; [reflexivity|]. rewrite aset_length. split; [|done]. unfold aset. rewrite Nat2Z.id.
  rewrite Nat.add_1_r, (take_S_r _ _ (mk_symbol type start size (Some name))) by (rewrite list_lookup_insert_eq; (done || lia)).
  by rewrite take_insert_ge, Ht1 by lia.
Qed.

(** Symbols added in sequence, with memory available. *)
Fixpoint symtab_add_all (junk : symbol_t) (l : list (Z * Z * Z * list Z)) (t : symbol_table_t) : option symbol_table_t :=
  match l with
  | [] => Some t
  | (type, start, size, name) :: l =>
      '(_, t) ← symbol_table_add t type start size name true true junk; symtab_add_all junk l t
  end.
Definition symbol_of (x : Z * Z * Z * list Z) : symbol_t :=
  let '(type, start, size, name) := x in mk_symbol type start size (Some name).

Lemma symtab_add_all_repr cap0 junk l l0 t :
  0 < cap0 < 2 ^ 62 -> Z.of_nat (length l0 + length l) < 2 ^ 62 -> symtab_repr cap0 l0 t ->
  exists t', symtab_add_all junk l t = Some t' /\ symtab_repr cap0 (l0 ++ (symbol_of <$> l)) t'.
Proof.
  intros Hc. revert l0 t. induction l as [|[[[type start] size] name] l IH]; intros l0 t Hl Ht; cbn [length] in Hl.
  - exists t. by rewrite app_nil_r.
  - destruct (symtab_add_repr cap0 l0 t type start size name junk Hc ltac:(lia) Ht) as (t1 & E & H1).
    cbn [symtab_add_all]. rewrite E. cbn [mbind option_bind].
    destruct (IH (l0 ++ [mk_symbol type start size (Some name)]) t1 ltac:(rewrite length_app; cbn [length]; lia) H1) as (t2 & E2 & H2).
    exists t2. split; [done|]. cbn. by rewrite <- app_assoc in H2.
Qed.

(** C37: the symbol table is the list of the symbols added to it: through every
    doubling of the array no entry is lost or moved, and a search yields the name
    of the first symbol added that covers the address: a function if the address is
    in its extent, anything else if it starts there. *)
Theorem symbol_table_refines capacity junk l addr :
  0 < capacity < 2 ^ 62 -> Z.of_nat (length l) < 2 ^ 62 ->
  exists t, symtab_add_all junk l (symbol_table_init capacity true junk).2 = Some t /\
    symbol_table_search t addr =
      match find (fun x => sym_matches addr (symbol_of x)) l with
      | Some (_, _, _, name) => Found (Some name)
      | None => NotFound
      end.
Proof.
  intros Hc Hl. destruct (symtab_add_all_repr capacity junk l [] (symbol_table_init capacity true junk).2) as (t & E & Ht);
    [done|done| |].
  { constructor; cbn; [|done|lia]. eexists. split; [reflexivity|]. rewrite length_replicate. split; [done|lia]. }
  exists t. split; [done|]. rewrite (symtab_search_repr _ _ _ addr Ht). cbn [app]. clear.
  induction l as [|[[[type start] size] name] l IH]; [done|]. cbn. by destruct (sym_matches _ _).
Qed.

(** When [realloc] fails the array is gone, while [count] and [capacity] say there
    is room: the next addition stores into freed memory. *)
Lemma symtab_oom_use_after_free junk x :
  exists t, symbol_table_add (mk_symtab (Some [x]) 1 1) 0 0 0 [] false true junk = Some (1, t) /\
    symbol_table_add t 0 0 0 [] true true junk = None.
Proof. eexists. split; reflexivity. Qed.

(** ** The function trace *)

(** Sequences of events where every call or trap returns. *)
Inductive nested : list trace_event -> Prop :=
  | nested_nil : nested []
  | nested_ring pc inst es : nested es -> nested (IRING pc inst :: es)
  | nested_call e pc target priv es es' :
      (exists a b c, e = CALL a b c \/ e = TRAP a b c) -> nested es -> nested es' ->
      nested (e :: es ++ RETURN pc target priv :: es').

Lemma record_events_app table es es' st :
  record_events table (es ++ es') st = st' ← record_events table es st; record_events table es' st'.
Proof. revert st. induction es as [|e es IH]; intros st; [done|]. cbn. destruct (record_event _ _ _); cbn; auto. Qed.

(** The lines added to a trace, each at depth [d] at least. *)
Definition deepens (d : Z) (f f' : func_trace_t) : Prop :=
  exists ls, fp f' = fp f ++ ls /\ Forall (fun l => 2 * d <= tl_indent l) ls.

Lemma deepens_trans d f1 f2 f3 : deepens d f1 f2 -> deepens d f2 f3 -> deepens d f1 f3.
Proof.
  intros (l1 & E1 & H1) (l2 & E2 & H2). exists (l1 ++ l2). rewrite E2, E1, app_assoc. split; [done|by apply Forall_app].
Qed.
Lemma deepens_weaken d d' f f' : d' <= d -> deepens d f f' -> deepens d' f f'.
Proof. intros Hd (l & E & H). exists l. split; [done|]. eapply Forall_impl; [exact H|]. cbn. lia. Qed.

Lemma record_call table e b f st' :
  (exists x y z, e = CALL x y z \/ e = TRAP x y z) -> record_event table e (b, f) = Some st' ->
  st'.1 = b /\ call_depth st'.2 = call_depth f + 1 /\ deepens (call_depth f) f st'.2.
Proof.
  intros (x & y & z & [-> | ->]); cbn; unfold trace_call, trace_trap, trace_jump_or_call;
    destruct (symbol_label _ _); cbn; [|done| |done]; intros [= <-]; (split; [done|]); (split; [done|]);
    eexists; (split; [reflexivity|]); repeat constructor; cbn; lia.
Qed.

Lemma record_return table pc target priv b f st' :
  0 < call_depth f -> record_event table (RETURN pc target priv) (b, f) = Some st' ->
  st'.1 = b /\ call_depth st'.2 = call_depth f - 1 /\ deepens (call_depth f - 1) f st'.2.
Proof.
  intros Hd. cbn. unfold trace_return. rewrite (proj2 (Z.ltb_lt _ _) Hd).
  destruct (symbol_label _ _); cbn; [|done]. intros [= <-]. split; [done|]. split; [done|].
  eexists. split; [reflexivity|]. repeat constructor. cbn. lia.
Qed.

(** Indentation shows nesting: over a sequence of events in which every call
    and every trap returns, the depth comes back to where it was, and nothing in
    between is printed further left than the call it belongs to. *)
Theorem func_trace_nesting table es b f b' f' :
  nested es -> 0 <= call_depth f -> record_events table es (b, f) = Some (b', f') ->
  call_depth f' = call_depth f /\ deepens (call_depth f) f f'.
Proof.
  intros Hn. revert b f b' f'. induction Hn as [|pc inst es _ IH|e pc target priv es es' He _ IH1 _ IH2];
    intros b f b' f' Hd.
  - intros [= <- <-]. split; [done|]. exists []. by rewrite app_nil_r.
  - apply IH. done.
  - cbn [record_events]. destruct (record_event table e (b, f)) as [[b1 f1]|] eqn:E1; [|done].
    destruct (record_call _ _ _ _ _ He E1) as (_ & D1 & P1). cbn [mbind option_bind fst snd] in *.
    rewrite record_events_app. destruct (record_events table es (b1, f1)) as [[b2 f2]|] eqn:E2; [|done].
    destruct (IH1 b1 f1 b2 f2 ltac:(lia) E2) as (D2 & P2). cbn [mbind option_bind record_events].
    destruct (record_event table (RETURN pc target priv) (b2, f2)) as [[b3 f3]|] eqn:E3; [|done].
    destruct (record_return table pc target priv b2 f2 (b3, f3) ltac:(cbn in *; lia) E3) as (_ & D3 & P3). cbn [mbind option_bind fst snd] in *.
    intros E4. destruct (IH2 b3 f3 b' f' ltac:(cbn in *; lia) E4) as (D4 & P4). split; [lia|].
    eapply deepens_trans; [exact P1|]. eapply deepens_trans; [eapply deepens_weaken; [|exact P2]; lia|].
    eapply deepens_trans; [eapply deepens_weaken; [|exact P3]; lia|]. eapply deepens_weaken; [|exact P4]. lia.
Qed.

(** ** Examples *)
Lemma iringbuf_window_witness :
  iringbuf_print (ring_of ((fun i => (i, i + 1)) <$> seqZ 0 66)) =
    Some (((fun i => Plain i (i + 1)) <$> seqZ 2 63) ++ [Arrow 65 66]).
Proof.
  transitivity (Some (ring_spec ((fun i => (i, i + 1)) <$> seqZ 0 66))).
  - apply iringbuf_window. discriminate.
  - vm_compute. reflexivity.
Defined.

Definition symtab_example : list (Z * Z * Z * list Z) :=
  [(STT_FUNC, 0x80000000, 0x20, [109; 97; 105; 110]); (STT_NOTYPE, 0x80000010, 0, [120]); (STT_FUNC, 0x80000020, 8, [102])].

Lemma symbol_table_refines_witness :
  (exists t, symtab_add_all (mk_symbol 0 0 0 None) symtab_example (symbol_table_init 1 true (mk_symbol 0 0 0 None)).2 = Some t /\
     symbol_table_search t 0x80000010 = Found (Some [109; 97; 105; 110])) /\ length symtab_example = 3%nat.
Proof.
  split; [|reflexivity].
  exact (symbol_table_refines 1 (mk_symbol 0 0 0 None) symtab_example 0x80000010 ltac:(lia) ltac:(cbn; lia)).
Defined.

Lemma func_trace_nesting_witness :
  match record_events (mk_symtab (Some []) 0 0)
          [CALL 0x80000000 0x80000100 3; TRAP 0x80000100 0x80000200 0; RETURN 0x80000200 0x80000104 3;
           RETURN 0x80000104 0x80000004 0] (iringbuf, mk_func_trace 0 []) with
  | Some (_, f') => call_depth f' = 0 /\ (tl_indent <$> fp f') = [0; 2; 2; 0]
  | None => False
  end.
Proof.
  destruct (record_events _ _ _) as [[b' f']|] eqn:E; [|vm_compute in E; discriminate E].
  assert (nested [CALL 0x80000000 0x80000100 3; TRAP 0x80000100 0x80000200 0; RETURN 0x80000200 0x80000104 3;
                  RETURN 0x80000104 0x80000004 0]) as Hn.
  { apply (nested_call _ _ _ _ [TRAP _ _ _; RETURN _ _ _] []); [by eauto| |constructor].
    apply (nested_call _ _ _ _ [] []); [by eauto|constructor..]. }
  split; [exact (proj1 (func_trace_nesting _ _ iringbuf (mk_func_trace 0 []) _ _ Hn (Z.le_refl 0) E))|].
  vm_compute in E. injection E as _ <-. reflexivity.
Defined.
