(* ===== verification/Loader.v ===== *)
(** * The image loader

    Models [emulator/src/memory/loader.c]: raw binaries, the probe of the ELF
    header, the program segments, the symbol table.  A [FILE] is its bytes, a
    position, the offset from which the host reports a read error (if any), and the
    error flag; [fread], [fseek] and [rewind] are those of C on such a file.  The
    ELF structures of [<elf.h>] are read out of their bytes at the offsets of the
    64-bit little-endian format.  Calls to [LOG_*] have no effect on the result.
    [load_elf_entry] and [load_auto_entry] say which entry point a load reports. *)
From stdpp Require Import base tactics numbers option list gmap.
From S2P Require Import Prelude CInt Memory Trace.

#[local] Open Scope record_scope.
#[local] Open Scope Z_scope.

(** ** stdio *)
Record FILE := mk_file { f_bytes : list Z; f_pos : Z; f_bad : option Z; f_err : bool; f_seekable : bool }.
#[export] Instance eta_FILE : Eta FILE := fun f => mk_file (f_bytes f) (f_pos f) (f_bad f) (f_err f) (f_seekable f).

(** The bytes that can be read at all. *)
Definition f_readable (f : FILE) : list Z :=
  match f_bad f with None => f_bytes f | Some n => take (Z.to_nat n) (f_bytes f) end.

Definition fread (n : Z) (f : FILE) : list Z * FILE :=
  let got := take (Z.to_nat n) (drop (Z.to_nat (f_pos f)) (f_readable f)) in
  let count := Z.of_nat (length got) in
  let hit_bad := match f_bad f with None => false | Some b => (count <? n) && (b <=? f_pos f + count) end in
  (got, f <| f_pos ::= fun p => p + count |> <| f_err ::= orb hit_bad |>).
Definition ferror (f : FILE) : bool := f_err f.
Definition fseek (offset : Z) (f : FILE) : Z * FILE :=
  if f_seekable f then (0, f <| f_pos := offset |>) else (-1, f).
Definition rewind (f : FILE) : FILE :=
  if f_seekable f then f <| f_pos := 0 |> <| f_err := false |> else f <| f_err := false |>.

(** ** elf.h *)
Definition field (bs : list Z) (off n : nat) : Z := le_value (take n (drop off bs)).

Record Elf64_Ehdr := mk_ehdr {
  e_ident : list Z; e_machine : Z; e_version : Z; e_entry : Z; e_phoff : Z; e_shoff : Z;
  e_phentsize : Z; e_phnum : Z; e_shentsize : Z; e_shnum : Z;
}.
Definition ehdr_of (bs : list Z) : Elf64_Ehdr :=
  mk_ehdr (take 16 bs) (field bs 18 2) (field bs 20 4) (field bs 24 8) (field bs 32 8) (field bs 40 8)
    (field bs 54 2) (field bs 56 2) (field bs 58 2) (field bs 60 2).

Record Elf64_Phdr := mk_phdr {
  p_type : Z; p_flags : Z; p_offset : Z; p_vaddr : Z; p_filesz : Z; p_memsz : Z;
}.
Definition phdr_of (bs : list Z) : Elf64_Phdr :=
  mk_phdr (field bs 0 4) (field bs 4 4) (field bs 8 8) (field bs 16 8) (field bs 32 8) (field bs 40 8).

Record Elf64_Shdr := mk_shdr { sh_type : Z; sh_offset : Z; sh_size : Z; sh_link : Z; sh_entsize : Z }.
Definition shdr_of (bs : list Z) : Elf64_Shdr :=
  mk_shdr (field bs 4 4) (field bs 24 8) (field bs 32 8) (field bs 40 4) (field bs 56 8).

Record Elf64_Sym := mk_sym { st_name : Z; st_info : Z; st_value : Z; st_size : Z }.
Definition sym_of (bs : list Z) : Elf64_Sym := mk_sym (field bs 0 4) (field bs 4 1) (field bs 8 8) (field bs 16 8).

Definition EHDR_SIZE : Z := 64.
Definition PHDR_SIZE : Z := 56.
Definition SHDR_SIZE : Z := 64.
Definition SYM_SIZE : Z := 24.
Definition SELFMAG : Z := 4.
Definition ELFMAG : list Z := [0x7f; 0x45; 0x4c; 0x46].
Definition EI_CLASS : nat := 4.
Definition ELFCLASS64 : Z := 2.
Definition EM_RISCV : Z := 243.
Definition EV_CURRENT : Z := 1.
Definition PN_XNUM : Z := 0xffff.
Definition PT_LOAD : Z := 1.
Definition PF_X : Z := 1.
Definition SHT_SYMTAB : Z := 2.
Definition SHT_DYNSYM : Z := 11.
Definition LONG_MAX : Z := 0x7fffffffffffffff.

(** ** loader.c *)
Inductive elf_probe_result_t := NOT_ELF | BAD_ELF | ELF_HEADER_OK | IO_ERROR | BAD_FILE.
#[export] Instance probe_eq_dec : EqDecision elf_probe_result_t.
Proof. solve_decision. Defined.

(** The checks on a complete header. *)
Definition check_ehdr (ehdr : Elf64_Ehdr) : elf_probe_result_t :=
  if negb (e_machine ehdr =? EM_RISCV) then BAD_ELF
  else if negb (nth EI_CLASS (e_ident ehdr) 0 =? ELFCLASS64) then BAD_ELF
  else if negb (e_version ehdr =? EV_CURRENT) then BAD_ELF
  else if (e_phoff ehdr =? 0) || (e_phnum ehdr =? 0) then BAD_ELF
  else if PN_XNUM <=? e_phnum ehdr then BAD_ELF
  else ELF_HEADER_OK.

Definition probe_elf (fp : FILE) : elf_probe_result_t * Elf64_Ehdr * FILE :=
  let '(bs, fp) := fread EHDR_SIZE fp in
  let count := Z.of_nat (length bs) in
  let ehdr := ehdr_of bs in
  let r :=
    if ferror fp then IO_ERROR
    else if count <? SELFMAG then BAD_FILE
    else if negb (bool_decide (take 4 (e_ident ehdr) = ELFMAG)) then NOT_ELF
    else if count <? EHDR_SIZE then BAD_ELF
    else check_ehdr ehdr in
  (r, ehdr, fp).

(** [fread] into [memory->data + off]. *)
Definition fread_into (memory : memory_t) (off n : Z) (fp : FILE) : Z * memory_t * FILE :=
  let '(bs, fp) := fread n fp in (Z.of_nat (length bs), mem_store memory off bs, fp).

(** The body of [load_binary_segment] for a [memory_t] whose [data] points [off]
    bytes into the store and whose [size] is [size]. *)
Definition load_binary_at (off size : Z) (memory : memory_t) (fp : FILE) : Z * memory_t * FILE :=
  let '(count, memory, fp) := fread_into memory off size fp in
  if ferror fp then (-1, memory, fp)
  else
    let '(extra, fp) := fread 1 fp in
    if bool_decide (length extra = 1%nat) then (-1, memory, fp)
    else if ferror fp then (-1, memory, fp)
    else (0, memory, fp).

Definition load_binary_segment (memory : memory_t) (fp : FILE) : Z * memory_t * FILE :=
  load_binary_at 0 (mem_size memory) memory fp.

Definition elf_seek (fp : FILE) (offset : Z) : Z * FILE :=
  if LONG_MAX <? offset then (-1, fp)
  else
    let '(r, fp) := fseek offset fp in
    if negb (r =? 0) then (-1, fp) else (0, fp).

Definition memory_fread (memory : memory_t) (start_addr size : Z) (fp : FILE) : Z * memory_t * FILE :=
  let offset := sub64 start_addr (mem_base memory) in
  if negb (check_addr_range start_addr size (mem_base memory) (mem_size memory)) then (-1, memory, fp)
  else
    let '(count, memory, fp) := fread_into memory offset size fp in
    if negb (count =? size) then (-1, memory, fp) else (0, memory, fp).

(** One program header of type PT_LOAD. *)
Definition load_segment (memory : memory_t) (fp : FILE) (phdr : Elf64_Phdr) : Z * memory_t * FILE :=
  if p_memsz phdr <? p_filesz phdr then (-1, memory, fp)
  else
    let '(r, fp) := elf_seek fp (p_offset phdr) in
    if negb (r =? 0) then (-1, memory, fp)
    else
      let '(r, memory, fp) := memory_fread memory (p_vaddr phdr) (p_filesz phdr) fp in
      if negb (r =? 0) then (-1, memory, fp)
      else
        match memory_set memory (add64 (p_vaddr phdr) (p_filesz phdr)) 0 (sub64 (p_memsz phdr) (p_filesz phdr)) with
        | None => (-1, memory, fp)
        | Some memory => (0, memory, fp)
        end.

Definition entry_in (entry : Z) (phdr : Elf64_Phdr) : bool :=
  negb (Z.land (p_flags phdr) PF_X =? 0) && (p_vaddr phdr <=? entry) && (sub64 entry (p_vaddr phdr) <? p_memsz phdr).

(** The loop over the program headers, [n] of them left. *)
Fixpoint load_phdrs (n : nat) (next_phoff : Z) (ehdr : Elf64_Ehdr) (memory : memory_t) (fp : FILE)
    (loaded valid_entry : bool) : Z * memory_t * FILE * bool * bool :=
  match n with
  | O => (0, memory, fp, loaded, valid_entry)
  | S n =>
      let '(r, fp) := elf_seek fp next_phoff in
      if negb (r =? 0) then (-1, memory, fp, loaded, valid_entry)
      else
        let '(bs, fp) := fread PHDR_SIZE fp in
        if negb (Z.of_nat (length bs) =? PHDR_SIZE) then (-1, memory, fp, loaded, valid_entry)
        else
          let phdr := phdr_of bs in
          let next_phoff := add64 next_phoff (e_phentsize ehdr) in
          if p_type phdr =? PT_LOAD then
            let '(r, memory, fp) := load_segment memory fp phdr in
            if negb (r =? 0) then (-1, memory, fp, loaded, valid_entry)
            else load_phdrs n next_phoff ehdr memory fp true (valid_entry || entry_in (e_entry ehdr) phdr)
          else load_phdrs n next_phoff ehdr memory fp loaded valid_entry
  end.

(** The last component is the value stored in [*entry_point], if any. *)
Definition load_elf_segments (memory : memory_t) (fp : FILE) (ehdr : Elf64_Ehdr) : Z * memory_t * FILE * option Z :=
  let '(r, memory, fp, loaded, valid_entry) :=
    load_phdrs (Z.to_nat (e_phnum ehdr)) (e_phoff ehdr) ehdr memory fp false false in
  if negb (r =? 0) then (-1, memory, fp, None)
  else if negb loaded then (-1, memory, fp, None)
  else if negb valid_entry then (-1, memory, fp, None)
  else (0, memory, fp, Some (e_entry ehdr)).

(** *** The symbol table

    The host decides the allocations; [None] is undefined behaviour: the division
    by a zero [sh_entsize], a name that runs out of the string table, a read into a
    NULL buffer, an addition to a freed table. *)
Record load_host := mk_load_host {
  h_malloc : Z -> bool;     (* by size *)
  h_realloc : Z -> bool;    (* by the number of symbols *)
  h_strdup : Z -> bool;
  h_junk : symbol_t;
}.

(** The C string at an offset of a buffer. *)
Fixpoint cstr (bs : list Z) : option (list Z) :=
  match bs with
  | [] => None
  | b :: bs => if b =? 0 then Some [] else s ← cstr bs; Some (b :: s)
  end.

Definition ELF64_ST_TYPE (info : Z) : Z := Z.land info 0xf.

Section symbols.
Context (h : load_host).

Fixpoint add_symbols (n : nat) (syms strtab : list Z) (table : symbol_table_t) : option symbol_table_t :=
  match n with
  | O => Some table
  | S n =>
      let sym := sym_of syms in
      let rest := drop (Z.to_nat SYM_SIZE) syms in
      let type := ELF64_ST_TYPE (st_info sym) in
      if (type =? STT_FUNC) || (type =? STT_NOTYPE) then
        fun_name ← cstr (drop (Z.to_nat (st_name sym)) strtab);
        '(_, table) ← symbol_table_add table type (st_value sym) (st_size sym) fun_name
                        (h_realloc h (sym_count table)) (h_strdup h (sym_count table)) (h_junk h);
        add_symbols n rest strtab table
      else add_symbols n rest strtab table
  end.

(** One section header of type SHT_SYMTAB or SHT_DYNSYM; the result 1 stands for
    [goto cleanup]. *)
Definition load_symbols (ehdr : Elf64_Ehdr) (shdr : Elf64_Shdr) (fp : FILE) (table : symbol_table_t)
    : option (Z * FILE * symbol_table_t) :=
  if sh_entsize shdr =? 0 then None
  else
    let num_symbols := s64 (sh_size shdr / sh_entsize shdr) in
    let '(r, fp) := elf_seek fp (add64 (e_shoff ehdr) (w32 (sh_link shdr * e_shentsize ehdr))) in
    if negb (r =? 0) then Some (-1, fp, table)
    else
      let '(bs, fp) := fread SHDR_SIZE fp in
      let shdr_strtab := shdr_of bs in
      if negb (Z.of_nat (length bs) =? SHDR_SIZE) then Some (-1, fp, table)
      else if negb (sh_entsize shdr =? SYM_SIZE) then Some (-1, fp, table)
      else if negb (h_malloc h (sh_size shdr)) then Some (-1, fp, table)
      else
        let '(r, fp) := elf_seek fp (sh_offset shdr) in
        if negb (r =? 0) then Some (-1, fp, table)
        else
          let '(syms, fp) := fread (sh_size shdr) fp in
          if negb (Z.of_nat (length syms) =? sh_size shdr) then Some (-1, fp, table)
          else
            let strtab_null := negb (h_malloc h (sh_size shdr_strtab)) in
            let '(r, fp) := elf_seek fp (sh_offset shdr_strtab) in
            if negb (r =? 0) then Some (-1, fp, table)
            else if strtab_null && negb (sh_size shdr_strtab =? 0) then None
            else
              let '(strtab, fp) := fread (sh_size shdr_strtab) fp in
              if negb (Z.of_nat (length strtab) =? sh_size shdr_strtab) then Some (-1, fp, table)
              else table ← add_symbols (Z.to_nat num_symbols) syms strtab table; Some (0, fp, table).

Fixpoint load_shdrs (n : nat) (next_shoff : Z) (ehdr : Elf64_Ehdr) (fp : FILE) (table : symbol_table_t)
    : option (Z * FILE * symbol_table_t) :=
  match n with
  | O => Some (0, fp, table)
  | S n =>
      let '(r, fp) := elf_seek fp next_shoff in
      if negb (r =? 0) then Some (-1, fp, table)
      else
        let '(bs, fp) := fread SHDR_SIZE fp in
        if negb (Z.of_nat (length bs) =? SHDR_SIZE) then Some (-1, fp, table)
        else
          let shdr := shdr_of bs in
          let next_shoff := add64 next_shoff (e_shentsize ehdr) in
          if negb (sh_type shdr =? SHT_SYMTAB) && negb (sh_type shdr =? SHT_DYNSYM)
          then load_shdrs n next_shoff ehdr fp table
          else
            '(r, fp, table) ← load_symbols ehdr shdr fp table;
            if negb (r =? 0) then Some (-1, fp, table) else load_shdrs n next_shoff ehdr fp table
  end.

Definition load_symbol_table (fp : FILE) (ehdr : Elf64_Ehdr) (table : symbol_table_t)
    : option (Z * FILE * symbol_table_t) :=
  load_shdrs (Z.to_nat (e_shnum ehdr)) (e_shoff ehdr) ehdr fp table.

(** [trace]: the symbols are read, and the outcome ignored. *)
Definition load_trace (trace : bool) (fp : FILE) (ehdr : Elf64_Ehdr) (table : symbol_table_t) : option symbol_table_t :=
  if trace then '(_, _, table) ← load_symbol_table fp ehdr table; Some table else Some table.

(** [file] is what [fopen] yields; the result is the return value, the memory, the
    entry point if stored, the symbol table. *)
Definition load_result : Type := Z * memory_t * option Z * symbol_table_t.

Definition memory_load_binary (memory : memory_t) (file : option FILE) : Z * memory_t :=
  match file with
  | None => (-1, memory)
  | Some fp => let '(r, memory, _) := load_binary_segment memory fp in (r, memory)
  end.

Definition memory_load_elf (memory : memory_t) (file : option FILE) (trace : bool) (table : symbol_table_t)
    : option load_result :=
  match file with
  | None => Some (-1, memory, None, table)
  | Some fp =>
      let '(probe, ehdr, fp) := probe_elf fp in
      match probe with
      | BAD_FILE | IO_ERROR | NOT_ELF | BAD_ELF => Some (-1, memory, None, table)
      | ELF_HEADER_OK =>
          let '(r, memory, fp, entry) := load_elf_segments memory fp ehdr in
          table ← load_trace trace fp ehdr table; Some (r, memory, entry, table)
      end
  end.

Definition memory_load_auto (memory : memory_t) (file : option FILE) (trace : bool) (table : symbol_table_t)
    : option load_result :=
  match file with
  | None => Some (-1, memory, None, table)
  | Some fp =>
      let '(probe, ehdr, fp) := probe_elf fp in
      match probe with
      | BAD_FILE | IO_ERROR | BAD_ELF => Some (-1, memory, None, table)
      | ELF_HEADER_OK =>
          let '(r, memory, fp, entry) := load_elf_segments memory fp ehdr in
          table ← load_trace trace fp ehdr table; Some (r, memory, entry, table)
      | NOT_ELF => let '(r, memory, _) := load_binary_segment memory (rewind fp) in Some (r, memory, None, table)
      end
  end.
End symbols.

(** ** Reading the file *)

Definition FILE_ok (f : FILE) : Prop := Forall byte_ok (f_bytes f) /\ 0 <= f_pos f.

(** The bytes of a file from an offset. *)
Definition slice (f : FILE) (off n : Z) : list Z := take (Z.to_nat n) (drop (Z.to_nat off) (f_bytes f)).

Lemma fread_frame n f :
  f_bytes (fread n f).2 = f_bytes f /\ (FILE_ok f -> FILE_ok (fread n f).2 /\ Forall byte_ok (fread n f).1).
Proof.
  split; [done|]. intros [Hb Hp]. split.
  - split; [done|]. cbn. lia.
  - cbn. apply Forall_take, Forall_drop. unfold f_readable. destruct (f_bad f); [by apply Forall_take|done].
Qed.

(** A complete read is the slice of the file. *)
Lemma fread_full n f :
  0 <= n -> length (fread n f).1 = Z.to_nat n -> (fread n f).1 = slice f (f_pos f) n.
Proof.
  intros Hn. cbn. unfold f_readable, slice. destruct (f_bad f) as [b|]; [|done].
  rewrite length_take, length_drop, length_take. intros Hl. apply list_eq. intros i.
  destruct (decide (i < Z.to_nat n)%nat) as [Hi|Hi].
  - rewrite !lookup_take_lt, !lookup_drop, lookup_take_lt by lia. done.
  - rewrite !lookup_take_ge by lia. done.
Qed.

Lemma elf_seek_ok fp off fp' :
  elf_seek fp off = (0, fp') -> fp' = fp <| f_pos := off |> /\ off <= LONG_MAX.
Proof.
  unfold elf_seek, fseek. destruct (Z.ltb_spec LONG_MAX off); [done|]. destruct (f_seekable fp); [|done].
  cbn. intros [= <-]. by split.
Qed.

Lemma elf_seek_good fp off : 0 <= off -> FILE_ok fp -> FILE_ok (elf_seek fp off).2 /\ f_bytes (elf_seek fp off).2 = f_bytes fp.
Proof.
  intros Ho [Hb Hp]. unfold elf_seek, fseek. destruct (_ <? _); [done|]. by destruct (f_seekable fp).
Qed.

(** ** Memory safety: every byte stored lies inside the region *)

Definition in_bounds (m : memory_t) : Prop := forall i b, mem_data m !! i = Some b -> 0 <= i < mem_size m.

(** What loading keeps, whatever the file holds and however it ends. *)
Record loads (m m' : memory_t) : Prop := {
  ld_base : mem_base m' = mem_base m;
  ld_size : mem_size m' = mem_size m;
  ld_wf : memory_wf m -> memory_wf m';
  ld_bounds : in_bounds m -> in_bounds m';
}.

#[export] Instance loads_preorder : PreOrder loads.
Proof.
  split; [by constructor|]. intros m1 m2 m3 [B1 S1 W1 D1] [B2 S2 W2 D2].
  constructor; [by rewrite B2|by rewrite S2|auto..].
Qed.

Lemma mem_store_loads m off bs :
  0 <= off -> off + Z.of_nat (length bs) <= mem_size m -> Forall byte_ok bs -> loads m (mem_store m off bs).
Proof.
  intros Ho Hl Hb. constructor; [done|done|intros; by apply mem_store_wf|].
  intros Hin i b. cbn. rewrite store_bytes_lookup. destruct (Z.leb_spec off i), (Z.ltb_spec i (off + Z.of_nat (length bs)));
    cbn [andb]; try apply Hin. intros _. cbn. lia.
Qed.

Section safety.
Variable region : memory_t.
Hypothesis region_wf : memory_wf region.

Definition good (m : memory_t) : Prop := loads region m.

Lemma good_store m off bs :
  good m -> 0 <= off -> off + Z.of_nat (length bs) <= mem_size region -> Forall byte_ok bs -> good (mem_store m off bs).
Proof. unfold good. intros Hm ? ? ?. etransitivity; [exact Hm|]. apply mem_store_loads; [done|by rewrite (ld_size _ _ Hm)|done]. Qed.

Lemma check_range_good m addr n :
  good m -> is_u 64 addr -> is_u 64 n -> check_addr_range addr n (mem_base m) (mem_size m) = true ->
  sub64 addr (mem_base m) = addr - mem_base region /\ mem_base region <= addr /\ addr + n <= mem_base region + mem_size region.
Proof.
  intros Hm Ha Hn. rewrite (ld_base _ _ Hm), (ld_size _ _ Hm). pose proof (mwf_base _ region_wf). pose proof (mwf_size _ region_wf).
  intros Hr%check_addr_range_iff; [|done..]. split; [|lia]. unfold sub64. by rewrite w64_small by lia.
Qed.

Lemma fread_length n f : 0 <= n -> Z.of_nat (length (fread n f).1) <= n.
Proof. intros. cbn. rewrite length_take. lia. Qed.

Lemma memory_fread_good m addr size fp :
  good m -> FILE_ok fp -> is_u 64 addr -> is_u 64 size ->
  let '(r, m', fp') := memory_fread m addr size fp in good m' /\ FILE_ok fp' /\ f_bytes fp' = f_bytes fp.
Proof.
  intros Hm Hf Ha Hs. unfold memory_fread, fread_into.
  destruct (check_addr_range _ _ _ _) eqn:E; cbn [negb]; [|done].
  destruct (check_range_good _ _ _ Hm Ha Hs E) as (-> & H1 & H2).
  pose proof (fread_frame size fp) as [Hb Hok]. destruct (Hok Hf) as [Hf' Hbs].
  pose proof (fread_length size fp ltac:(lia)). destruct (fread size fp) as [bs fp']. cbn [fst snd] in *.
  assert (good (mem_store m (addr - mem_base region) bs)) by (apply good_store; (done || lia)).
  by destruct (negb _).
Qed.

Lemma memory_set_good m addr c n m' :
  good m -> is_u 64 addr -> is_u 64 n -> memory_set m addr c n = Some m' -> good m'.
Proof.
  intros Hm Ha Hn. unfold memory_set. destruct (check_addr_range _ _ _ _) eqn:E; cbn [negb]; [|done].
  destruct (check_range_good _ _ _ Hm Ha Hn E) as (-> & H1 & H2). intros [= <-].
  apply good_store; [done|lia|rewrite length_replicate; lia|]. apply Forall_replicate. apply w8_u.
Qed.

Lemma field_u bs off n : Forall byte_ok bs -> is_u (8 * Z.of_nat n) (field bs off n).
Proof.
  intros Hb. unfold field. apply (u_weaken (8 * Z.of_nat (length (take n (drop off bs))))).
  - rewrite length_take. lia.
  - apply le_value_u. by apply Forall_take, Forall_drop.
Qed.

(** The headers hold fields of their width. *)
Record phdr_ok (p : Elf64_Phdr) : Prop := {
  po_offset : is_u 64 (p_offset p); po_vaddr : is_u 64 (p_vaddr p);
  po_filesz : is_u 64 (p_filesz p); po_memsz : is_u 64 (p_memsz p);
}.
Lemma phdr_of_ok bs : Forall byte_ok bs -> phdr_ok (phdr_of bs).
Proof. intros Hb. constructor; by apply (field_u bs _ 8). Qed.

Lemma load_segment_good m fp p :
  good m -> FILE_ok fp -> phdr_ok p ->
  let '(r, m', fp') := load_segment m fp p in good m' /\ FILE_ok fp' /\ f_bytes fp' = f_bytes fp.
Proof.
  intros Hm Hf [Ho Hv Hfs Hms]. unfold load_segment. destruct (_ <? _); [done|].
  destruct (elf_seek_good fp (p_offset p) ltac:(lia) Hf) as [Hf1 Hb1].
  destruct (elf_seek fp (p_offset p)) as [r fp1]. cbn [snd] in *. destruct (negb _); [done|].
  pose proof (memory_fread_good m (p_vaddr p) (p_filesz p) fp1 Hm Hf1 Hv Hfs) as H.
  destruct (memory_fread _ _ _ _) as [[r2 m2] fp2]. destruct H as (H1 & H2 & H3). rewrite Hb1 in H3.
  destruct (negb _); [done|]. destruct (memory_set _ _ _ _) as [m3|] eqn:E; [|done].
  split; [|done]. eapply memory_set_good; [exact H1| | |exact E]; apply w64_u.
Qed.

Lemma load_phdrs_good n off ehdr m fp l v :
  0 <= off -> good m -> FILE_ok fp -> good (load_phdrs n off ehdr m fp l v).1.1.1.2.
Proof.
  revert off m fp l v. induction n as [|n IH]; intros off m fp l v Ho Hm Hf; [done|]. cbn [load_phdrs].
  destruct (elf_seek_good fp off Ho Hf) as [Hf1 _]. destruct (elf_seek fp off) as [r fp1]. cbn [snd] in *.
  destruct (negb _); [done|]. destruct (fread_frame PHDR_SIZE fp1) as [_ Hr]. destruct (Hr Hf1) as [Hf2 Hb].
  destruct (fread PHDR_SIZE fp1) as [bs fp2]. cbn [fst snd] in *. destruct (negb _); [done|]. cbv zeta.
  assert (0 <= add64 off (e_phentsize ehdr)) by apply add64_u. destruct (_ =? PT_LOAD); [|by apply IH].
  pose proof (load_segment_good m fp2 (phdr_of bs) Hm Hf2 (phdr_of_ok bs Hb)) as Hs.
  destruct (load_segment _ _ _) as [[r2 m2] fp3]. destruct Hs as (H1 & H2 & _). destruct (negb _); [done|]. by apply IH.
Qed.

Lemma load_elf_segments_good m fp ehdr :
  0 <= e_phoff ehdr -> good m -> FILE_ok fp -> good (load_elf_segments m fp ehdr).1.1.2.
Proof.
  intros Ho Hm Hf. unfold load_elf_segments.
  pose proof (load_phdrs_good (Z.to_nat (e_phnum ehdr)) (e_phoff ehdr) ehdr m fp false false Ho Hm Hf) as H.
  destruct (load_phdrs _ _ _ _ _ _ _) as [[[[r m1] fp1] l] v]. cbn [fst snd] in H.
  by repeat (destruct (negb _); [done|]).
Qed.

Lemma load_binary_at_good off size m fp :
  good m -> FILE_ok fp -> 0 <= off -> 0 <= size -> off + Z.of_nat (length (fread size fp).1) <= mem_size region ->
  good (load_binary_at off size m fp).1.2.
Proof.
  intros Hm Hf Ho Hs Hfit. unfold load_binary_at, fread_into. destruct (fread_frame size fp) as [_ Hr].
  destruct (Hr Hf) as [Hf1 Hb]. destruct (fread size fp) as [bs fp1]. cbn [fst snd] in *.
  assert (good (mem_store m off bs)) by (apply good_store; (done || lia)).
  destruct (ferror fp1); [done|]. destruct (fread 1 fp1) as [ex fp2]. destruct (bool_decide _); [done|].
  by destruct (ferror fp2).
Qed.

Lemma load_binary_good m fp : good m -> FILE_ok fp -> good (load_binary_segment m fp).1.2.
Proof.
  intros Hm Hf. pose proof (ld_size _ _ Hm) as Hsz. pose proof (mwf_size _ region_wf).
  pose proof (fread_length (mem_size m) fp ltac:(lia)). apply load_binary_at_good; (done || lia).
Qed.

Lemma probe_elf_frame fp :
  FILE_ok fp -> FILE_ok (probe_elf fp).2 /\ f_bytes (probe_elf fp).2 = f_bytes fp /\ 0 <= e_phoff (probe_elf fp).1.2.
Proof.
  intros Hf. unfold probe_elf. destruct (fread_frame EHDR_SIZE fp) as [Hb Hr]. destruct (Hr Hf) as [Hf1 Hbs].
  destruct (fread EHDR_SIZE fp) as [bs fp1]. cbn [fst snd] in *. split; [done|]. split; [done|].
  by apply (field_u bs 32 8).
Qed.

(** C34: no image can make the loader write outside the memory it loads into: for
    every file, whatever its bytes and wherever reading fails, each loading function
    that returns leaves a memory of the same base and size, with bytes in it, and
    stores inside it only. *)
Theorem loader_memory_safe h file trace table :
  (forall fp, file = Some fp -> FILE_ok fp) ->
  loads region (memory_load_binary region file).2 /\
  (forall r m e t, memory_load_elf h region file trace table = Some (r, m, e, t) -> loads region m) /\
  (forall r m e t, memory_load_auto h region file trace table = Some (r, m, e, t) -> loads region m).
Proof.
  intros Hfile. assert (good region) as H0 by (unfold good; reflexivity).
  unfold memory_load_binary, memory_load_elf, memory_load_auto. destruct file as [fp|].
  2:{ split; [done|]. split; intros ? ? ? ? [= _ <- _ _]; done. }
  specialize (Hfile fp eq_refl). split.
  { pose proof (load_binary_good region fp H0 Hfile) as H. by destruct (load_binary_segment _ _) as [[r m] fp']. }
  destruct (probe_elf_frame fp Hfile) as (Hf & _ & Ho). destruct (probe_elf fp) as [[probe ehdr] fp1]. cbn [fst snd] in *.
  pose proof (load_elf_segments_good region fp1 ehdr Ho H0 Hf) as Hs.
  assert (FILE_ok (rewind fp1)) as Hrw by (destruct Hf; unfold rewind; by destruct (f_seekable fp1)).
  pose proof (load_binary_good region (rewind fp1) H0 Hrw) as Hbin.
  destruct (load_elf_segments _ _ _) as [[[r m] fp2] e], (load_binary_segment _ _) as [[r3 m3] fp3]. cbn [fst snd] in *.
  split; intros ? ? ? ?; (destruct probe; [..|]; try by intros [= _ <- _ _]);
    destruct (load_trace _ _ _ _ _); cbn; try done; by intros [= _ <- _ _].
Qed.
End safety.

(** ** The entry point *)

(** The file starts with the magic number; the entry its header names. *)
Definition is_elf (fp : FILE) : bool := bool_decide (take 4 (f_bytes fp) = ELFMAG).
Definition elf_entry (fp : FILE) : Z := field (f_bytes fp) 24 8.

Lemma elf_entry_u fp : FILE_ok fp -> is_u 64 (elf_entry fp).
Proof. intros [Hb _]. exact (field_u (f_bytes fp) 24 8 Hb). Qed.

(** What is read from the start of a file is a prefix of it. *)
Lemma fread_prefix n f : f_pos f = 0 -> exists rest, f_bytes f = (fread n f).1 ++ rest.
Proof.
  intros Hp. cbn. rewrite Hp, drop_0. unfold f_readable. destruct (f_bad f) as [b|].
  - rewrite take_take. eexists. symmetry. apply take_drop.
  - eexists. symmetry. apply take_drop.
Qed.
Lemma field_prefix bs rest off n : (off + n <= length bs)%nat -> field (bs ++ rest) off n = field bs off n.
Proof. intros H. unfold field. rewrite drop_app_le, take_app_le by (rewrite ?length_drop; lia). done. Qed.

(** The header that passes the probe is the file's; a file is taken for something
    else only when it does not start with the magic number. *)
Lemma probe_elf_header fp :
  f_pos fp = 0 ->
  let '(r, ehdr, _) := probe_elf fp in
  (r = ELF_HEADER_OK -> is_elf fp = true /\ e_entry ehdr = elf_entry fp) /\ (r = NOT_ELF -> is_elf fp = false).
Proof.
  intros Hp. destruct (fread_prefix EHDR_SIZE fp Hp) as [rest E]. unfold probe_elf, is_elf, elf_entry. rewrite E.
  destruct (fread EHDR_SIZE fp) as [bs fp1]. cbn [fst]. destruct (ferror fp1); [done|].
  destruct (Z.ltb_spec (Z.of_nat (length bs)) SELFMAG) as [|H4]; [done|]. unfold SELFMAG in H4.
  rewrite take_app_le by lia. change (e_ident (ehdr_of bs)) with (take 16 bs). rewrite take_take. change (4 `min` 16)%nat with 4%nat.
  destruct (bool_decide _); cbn [negb]; [|done].
  destruct (Z.ltb_spec (Z.of_nat (length bs)) EHDR_SIZE) as [|H64]; [done|]. unfold EHDR_SIZE in H64.
  split; [|unfold check_ehdr; by repeat case_match]. intros _. split; [done|]. by rewrite field_prefix by lia.
Qed.

Lemma load_elf_segments_entry m fp ehdr :
  let '(r, _, _, e) := load_elf_segments m fp ehdr in r = 0 -> e = Some (e_entry ehdr).
Proof.
  unfold load_elf_segments. destruct (load_phdrs _ _ _ _ _ _ _) as [[[[r m1] fp1] l] v].
  by repeat (destruct (negb _); [done|]).
Qed.

(** A successful load leaves the entry of the file in [*entry_point]; a raw image
    leaves it alone. *)
Lemma load_elf_entry h m fp trace t m' e t' :
  f_pos fp = 0 -> memory_load_elf h m (Some fp) trace t = Some (0, m', e, t') -> e = Some (elf_entry fp).
Proof.
  intros Hp%probe_elf_header. unfold memory_load_elf. destruct (probe_elf fp) as [[p ehdr] fp1].
  pose proof (load_elf_segments_entry m fp1 ehdr) as He. destruct (load_elf_segments _ _ _) as [[[r m1] fp2] e1].
  destruct p; try done. destruct (load_trace _ _ _ _ _); [|done]. cbn. intros [= -> _ <- _].
  rewrite (He eq_refl). f_equal. by apply (proj1 Hp).
Qed.
Lemma load_auto_entry h m fp trace t m' e t' :
  f_pos fp = 0 -> memory_load_auto h m (Some fp) trace t = Some (0, m', e, t') ->
  e = if is_elf fp then Some (elf_entry fp) else None.
Proof.
  intros Hp%probe_elf_header. unfold memory_load_auto. destruct (probe_elf fp) as [[p ehdr] fp1].
  pose proof (load_elf_segments_entry m fp1 ehdr) as He. destruct (load_elf_segments _ _ _) as [[[r m1] fp2] e1].
  destruct p; try done.
  - destruct (load_binary_segment _ _) as [[r3 m3] fp3]. intros [= _ _ <- _]. by rewrite (proj2 Hp).
  - destruct (load_trace _ _ _ _ _); [|done]. cbn. intros [= -> _ <- _]. destruct (proj1 Hp eq_refl) as [-> <-]. by apply He.
Qed.

(** ** What a loaded ELF image is *)

(** The loadable segments that the header table of a file describes. *)
Fixpoint segments (bytes : list Z) (n : nat) (off entsize : Z) : list Elf64_Phdr :=
  match n with
  | O => []
  | S n =>
      let p := phdr_of (take (Z.to_nat PHDR_SIZE) (drop (Z.to_nat off) bytes)) in
      let rest := segments bytes n (add64 off entsize) entsize in
      if p_type p =? PT_LOAD then p :: rest else rest
  end.

Definition covers (p : Elf64_Phdr) (a : Z) : bool := (p_vaddr p <=? a) && (a <? p_vaddr p + p_memsz p).
(** A segment's byte: from the file, then zero. *)
Definition segment_byte (bytes : list Z) (p : Elf64_Phdr) (a : Z) : Z :=
  if a - p_vaddr p <? p_filesz p then nth (Z.to_nat (p_offset p + (a - p_vaddr p))) bytes 0 else 0.
(** Memory after the segments, in order, by address. *)
Definition image (bytes : list Z) (ps : list Elf64_Phdr) (old : Z -> Z) : Z -> Z :=
  foldl (fun g p a => if covers p a then segment_byte bytes p a else g a) old ps.

(** A segment lies in the memory, and its contents in the file. *)
Definition fits (m : memory_t) (bytes : list Z) (p : Elf64_Phdr) : Prop :=
  p_filesz p <= p_memsz p /\ mem_base m <= p_vaddr p /\ p_vaddr p + p_memsz p <= mem_base m + mem_size m /\
  (p_filesz p = 0 \/ p_offset p + p_filesz p <= Z.of_nat (length bytes)).

Lemma image_ext bytes ps g g' : (forall a, g a = g' a) -> forall a, image bytes ps g a = image bytes ps g' a.
Proof.
  unfold image. revert g g'. induction ps as [|p ps IH]; intros g g' Hg a; [apply Hg|]. cbn. apply IH.
  intros b. by rewrite Hg.
Qed.

Section image.
Variable region : memory_t.
Hypothesis region_wf : memory_wf region.
Hypothesis region_end : mem_base region + mem_size region < 2 ^ 64.

(** Memory as seen at addresses. *)
Definition at_addr (m : memory_t) (a : Z) : Z := mem_byte m (a - mem_base region).

Lemma load_segment_image m fp p m' fp' :
  good region m -> FILE_ok fp -> phdr_ok p -> load_segment m fp p = (0, m', fp') ->
  fits region (f_bytes fp) p /\
  (forall a, at_addr m' a = if covers p a then segment_byte (f_bytes fp) p a else at_addr m a).
Proof.
  intros Hm Hf [Ho Hv Hfs Hms]. unfold load_segment. destruct (Z.ltb_spec (p_memsz p) (p_filesz p)); [done|].
  destruct (elf_seek_good fp (p_offset p) ltac:(lia) Hf) as [Hf1 Hb1].
  destruct (elf_seek fp (p_offset p)) as [r fp1] eqn:Es. cbn [snd] in *.
  destruct (Z.eqb_spec r 0) as [->|]; cbn [negb]; [|done]. apply elf_seek_ok in Es as [Efp _].
  unfold memory_fread, fread_into. destruct (check_addr_range _ _ _ _) eqn:E; cbn [negb]; [|done].
  destruct (check_range_good region region_wf _ _ _ Hm Hv Hfs E) as (-> & H1 & H2).
  pose proof (fread_full (p_filesz p) fp1 ltac:(lia)) as Hfull.
  destruct (fread_frame (p_filesz p) fp1) as [_ Hr]. destruct (Hr Hf1) as [_ Hbs].
  destruct (fread (p_filesz p) fp1) as [bs fp2]. cbn [fst snd] in *.
  destruct (Z.eqb_spec (Z.of_nat (length bs)) (p_filesz p)) as [El|]; cbn [negb]; [|done].
  set (m1 := mem_store m _ bs). assert (good region m1) as Hm1 by (apply good_store; (done || lia)).
  clear E. destruct (memory_set _ _ _ _) as [m2|] eqn:Eset; [|done]. intros [= <- _]. revert Eset. unfold memory_set.
  destruct (check_addr_range _ _ _ _) eqn:E2; cbn [negb]; [|done].
  destruct (check_range_good region region_wf _ _ _ Hm1 (add64_u _ _) (sub64_u _ _) E2) as (-> & H3 & H4).
  unfold add64, sub64 in *. rewrite w64_small in * by lia. rewrite w64_small in * by lia. intros [= <-].
  specialize (Hfull ltac:(lia)). rewrite Efp in Hfull. cbn [f_pos update] in Hfull.
  assert (length bs = length (slice fp (p_offset p) (p_filesz p))) as Hlen by (by rewrite Hfull).
  unfold slice in Hlen. rewrite length_take, length_drop in Hlen.
  split; [split_and!; lia|]. intros a. unfold at_addr, covers, segment_byte. rewrite mem_byte_store, length_replicate.
  unfold m1. rewrite mem_byte_store, El.
  zbits_split; try lia; try done; cbn [andb].
  - rewrite Hfull. unfold slice. cbn [f_bytes]. rewrite !nth_lookup, lookup_take_lt, lookup_drop by lia. do 3 f_equal. lia.
  - rewrite nth_lookup, lookup_replicate_2 by lia. done.
Qed.

Lemma load_phdrs_image n off ehdr m fp l v m' fp' l' v' :
  is_u 64 off -> good region m -> FILE_ok fp -> load_phdrs n off ehdr m fp l v = (0, m', fp', l', v') ->
  let ps := segments (f_bytes fp) n off (e_phentsize ehdr) in
  Forall (fits region (f_bytes fp)) ps /\
  (forall a, at_addr m' a = image (f_bytes fp) ps (at_addr m) a) /\
  (l' = true -> l = true \/ ps <> []) /\ (v' = true -> v = true \/ Exists (entry_in (e_entry ehdr)) ps).
Proof.
  revert off m fp l v. induction n as [|n IH]; intros off m fp l v Ho Hm Hf; cbn [load_phdrs segments].
  { intros [= <- <- <- <-]. repeat split; auto. }
  destruct (elf_seek_good fp off ltac:(lia) Hf) as [Hf1 Hb1]. destruct (elf_seek fp off) as [r fp1] eqn:Es. cbn [snd] in *.
  destruct (Z.eqb_spec r 0) as [->|]; cbn [negb]; [|done]. apply elf_seek_ok in Es as [Efp _].
  pose proof (fread_full PHDR_SIZE fp1 ltac:(done)) as Hfull.
  destruct (fread_frame PHDR_SIZE fp1) as [Hb2 Hr]. destruct (Hr Hf1) as [Hf2 Hbs].
  destruct (fread PHDR_SIZE fp1) as [bs fp2]. cbn [fst snd] in *.
  destruct (Z.eqb_spec (Z.of_nat (length bs)) PHDR_SIZE) as [El|]; cbn [negb]; [|done]. cbv zeta.
  specialize (Hfull ltac:(lia)). rewrite Efp in Hfull. cbn [f_pos update] in Hfull.
  change (slice _ _ _) with (take (Z.to_nat PHDR_SIZE) (drop (Z.to_nat off) (f_bytes fp))) in Hfull. rewrite <- Hfull.
  assert (f_bytes fp2 = f_bytes fp) as Hb by congruence.
  destruct (p_type (phdr_of bs) =? PT_LOAD).
  - pose proof (load_segment_good region region_wf m fp2 (phdr_of bs) Hm Hf2 (phdr_of_ok bs Hbs)) as Hgood.
    destruct (load_segment m fp2 (phdr_of bs)) as [[r2 m2] fp3] eqn:E2. destruct Hgood as (Hm2 & Hf3 & Hb3).
    destruct (Z.eqb_spec r2 0) as [->|]; cbn [negb]; [|done].
    destruct (load_segment_image m fp2 (phdr_of bs) m2 fp3 Hm Hf2 (phdr_of_ok bs Hbs) E2) as [Hfit Hat].
    intros E3. destruct (IH _ _ _ _ _ (add64_u _ _) Hm2 Hf3 E3) as (H1 & H2 & H3 & H4).
    rewrite Hb3, Hb in H1, H2, H3, H4. rewrite Hb in Hfit, Hat. split; [by constructor|]. split; [|split; [by right|]].
    + intros a. rewrite H2. etransitivity; [apply (image_ext _ _ _ _ Hat)|reflexivity].
    + intros Hv'. destruct (H4 Hv') as [Hv|Hv]; [|right; by apply Exists_cons_tl].
      apply orb_true_iff in Hv as [Hv|Hv]; [by left|right]. apply Exists_cons_hd. by rewrite Hv.
  - intros E3. destruct (IH _ _ _ _ _ (add64_u _ _) Hm Hf2 E3) as (H1 & H2 & H3 & H4).
    rewrite Hb in H1, H2, H3, H4. by split_and!.
Qed.

(** C33: loading an ELF file yields the image its program headers describe: every
    loadable segment lies inside the memory and inside the file, each byte of the
    last segment covering an address is the file's or, past the file size, zero, all
    other bytes are untouched, and the entry point lies in an executable segment. *)
Theorem elf_image fp ehdr m' fp' e :
  FILE_ok fp -> is_u 64 (e_phoff ehdr) -> load_elf_segments region fp ehdr = (0, m', fp', e) ->
  let ps := segments (f_bytes fp) (Z.to_nat (e_phnum ehdr)) (e_phoff ehdr) (e_phentsize ehdr) in
  e = Some (e_entry ehdr) /\ Exists (entry_in (e_entry ehdr)) ps /\ Forall (fits region (f_bytes fp)) ps /\
  (forall a, at_addr m' a = image (f_bytes fp) ps (at_addr region) a) /\
  mem_base m' = mem_base region /\ mem_size m' = mem_size region.
Proof.
  intros Hf Ho. unfold load_elf_segments.
  pose proof (load_phdrs_good region region_wf (Z.to_nat (e_phnum ehdr)) (e_phoff ehdr) ehdr region fp false false
    ltac:(lia) ltac:(unfold good; reflexivity) Hf) as Hg.
  destruct (load_phdrs _ _ _ _ _ _ _) as [[[[r m1] fp1] l] v] eqn:E. cbn [fst snd] in Hg.
  destruct (Z.eqb_spec r 0) as [->|]; cbn [negb]; [|done].
  destruct l; cbn [negb]; [|done]. destruct v; cbn [negb]; [|done]. intros [= <- <- <-].
  destruct (load_phdrs_image _ _ _ _ _ _ _ _ _ _ _ Ho ltac:(unfold good; reflexivity) Hf E) as (H1 & H2 & H3 & H4).
  split; [done|]. split; [by destruct (H4 eq_refl)|]. split; [done|]. split; [done|]. by destruct Hg.
Qed.
End image.

(** ** Examples: a file with one executable segment of 8 bytes, 16 in memory. *)
Definition elf_example : list Z :=
  ELFMAG ++ [2; 1; 1; 0] ++ replicate 8 0 ++ le_bytes 2 2 ++ le_bytes 2 EM_RISCV ++ le_bytes 4 1 ++
  le_bytes 8 0x80000100 ++ le_bytes 8 64 ++ le_bytes 8 0 ++ le_bytes 4 0 ++ le_bytes 2 64 ++ le_bytes 2 56 ++ le_bytes 2 1 ++
  le_bytes 2 64 ++ le_bytes 2 0 ++ le_bytes 2 0 ++
  le_bytes 4 PT_LOAD ++ le_bytes 4 5 ++ le_bytes 8 120 ++ le_bytes 8 0x80000100 ++ le_bytes 8 0x80000100 ++
  le_bytes 8 8 ++ le_bytes 8 16 ++ le_bytes 8 4096 ++ [0x93; 0; 0x50; 0; 0x13; 0x01; 0x10; 0].
Definition file_example : FILE := mk_file elf_example 0 None false true.

Lemma file_example_ok : FILE_ok file_example.
Proof. split; [|cbn; lia]. apply (bool_decide_unpack (Forall byte_ok elf_example)). vm_compute. exact I. Qed.

Lemma ram_example_end : mem_base ram_example + mem_size ram_example < 2 ^ 64.
Proof. reflexivity. Qed.

Definition load_host_example : load_host := mk_load_host (fun _ => true) (fun _ => true) (fun _ => true) (mk_symbol 0 0 0 None).

Lemma loader_memory_safe_witness :
  match memory_load_auto load_host_example ram_example (Some file_example) false (mk_symtab None 0 0) with
  | Some (r, m, e, _) => loads ram_example m /\ r = 0 /\ e = Some 0x80000100
  | None => False
  end.
Proof.
  destruct (memory_load_auto _ _ _ _ _) as [[[[r m] e] t]|] eqn:E; [|vm_compute in E; discriminate E].
  split.
  - refine (proj2 (proj2 (loader_memory_safe ram_example ram_example_wf load_host_example (Some file_example) false
      (mk_symtab None 0 0) _)) r m e t E).
    intros fp [= <-]. exact file_example_ok.
  - vm_compute in E. by injection E as <- _ <- _.
Defined.

Lemma elf_image_witness :
  let ehdr := (probe_elf file_example).1.2 in
  match load_elf_segments ram_example (probe_elf file_example).2 ehdr with
  | (r, m', _, e) => r = 0 /\ e = Some 0x80000100 /\
      (forall a, at_addr ram_example m' a =
         image elf_example (segments elf_example 1 64 56) (at_addr ram_example ram_example) a) /\
      (fun a => at_addr ram_example m' a) <$> [0x800000ff; 0x80000102; 0x80000108; 0x80000110] = [0xA5; 0x50; 0; 0xA5]
  end.
Proof.
  cbv zeta. destruct (load_elf_segments _ _ _) as [[[r m'] fp'] e] eqn:E.
  assert (r = 0) as -> by (vm_compute in E; by injection E).
  pose proof (elf_image ram_example ram_example_wf ram_example_end (probe_elf file_example).2 (probe_elf file_example).1.2
    m' fp' e (proj1 (probe_elf_frame file_example file_example_ok)) ltac:(vm_compute; split; congruence) E) as H.
  cbv zeta in H. destruct H as (H1 & _ & _ & H4 & _). split; [done|]. split; [exact H1|]. split; [exact H4|].
  vm_compute in E. injection E as <- _ _. vm_compute. reflexivity.
Defined.
