(* ===== verification/Main.v ===== *)
(** * The program: command line, boot, exit status

    Models [emulator/src/main.c].  [getopt_long] is the host's: the command line
    reaches [parse_arguments] as the sequence of options it reports and the
    positional arguments left over.  Opening a path is a function [bh_fs] of the
    host, whose files are open at their start ([bho_start]).  [boot] builds the
    machine, starting at [boot_pc]; [main] runs it with [Exec.cpu_exec] and turns the
    outcome into the exit status.  Messages and [memory_free]/[device_free] at exit
    are not modelled. *)
From stdpp Require Import base tactics numbers option list gmap.
From S2P Require Import Prelude CInt Memory Syscon Clint Plic Uart Bus Csr Tlb Cpu CpuInv Exec Trace Loader.

#[local] Open Scope record_scope.
#[local] Open Scope Z_scope.

Definition path : Type := list Z.

Inductive file_type_t := AUTO | BIN | ELF.
Inductive run_mode_t := RUN_BAREMETAL | RUN_RISCV_TESTS | RUN_LINUX.
Inductive boot_mode_t := BOOT_MODE_DIRECT | BOOT_MODE_BOOTROM.

Record args_t := mk_args {
  run_mode : run_mode_t;
  boot_mode : boot_mode_t; bootrom : option path; bios : option path; kernel : option path; dtb : option path;
  dram_size : Z;
  max_instruction : Z; poison_ram : bool; itrace : bool; ftrace : bool;
  format : file_type_t;
  file : option path;
}.
#[export] Instance eta_args : Eta args_t := fun a =>
  mk_args (run_mode a) (boot_mode a) (bootrom a) (bios a) (kernel a) (dtb a) (dram_size a)
    (max_instruction a) (poison_ram a) (itrace a) (ftrace a) (format a) (file a).

(** The initializer of [main]; fields it leaves out are zero. *)
Definition args_init : args_t :=
  mk_args RUN_BAREMETAL BOOT_MODE_DIRECT None None None None RAM_SIZE 0 false false false AUTO None.

(** ** parse_arguments *)

(** [strtol(s, &end, 10)]: the value (clamped with ERANGE) and whether all of [s]
    was consumed. *)
Definition is_space (c : Z) : bool := (c =? 32) || ((9 <=? c) && (c <=? 13)).
Definition is_digit (c : Z) : bool := (48 <=? c) && (c <=? 57).
Fixpoint skip_spaces (s : list Z) : list Z :=
  match s with c :: s' => if is_space c then skip_spaces s' else s | [] => [] end.
Fixpoint digits (acc : Z) (s : list Z) : Z * list Z :=
  match s with
  | c :: s' => if is_digit c then digits (10 * acc + (c - 48)) s' else (acc, s)
  | [] => (acc, [])
  end.
Definition strip_sign (s : list Z) : bool * list Z :=
  match s with 45 :: r => (true, r) | 43 :: r => (false, r) | _ => (false, s) end.
Record strtol_out := mk_strtol { sl_value : Z; sl_erange : bool; sl_end : list Z }.
Definition strtol (s : list Z) : strtol_out :=
  let body := skip_spaces s in
  let '(neg, num) := strip_sign body in
  match num with
  | c :: _ =>
      if is_digit c then
        let '(v, rest) := digits 0 num in
        let v := if neg then - v else v in
        if v <? - 2 ^ 63 then mk_strtol (- 2 ^ 63) true rest
        else if LONG_MAX <? v then mk_strtol LONG_MAX true rest
        else mk_strtol v false rest
      else mk_strtol 0 false s
  | [] => mk_strtol 0 false s
  end.

(** What [getopt_long] reports: an option with its argument, or an error. *)
Inductive opt :=
  | OPT_HELP
  | OPT_BOOTROM (optarg : path) | OPT_BIOS (optarg : path) | OPT_KERNEL (optarg : path) | OPT_DTB (optarg : path)
  | OPT_DRAM_SIZE (optarg : list Z) | OPT_MAX_INST (optarg : list Z)
  | OPT_POISON | OPT_ITRACE | OPT_FTRACE
  | OPT_FORMAT (optarg : list Z)
  | OPT_RISCV_TESTS
  | OPT_ERROR.

Definition EXIT_SUCCESS : Z := 0.
Definition EXIT_FAILURE : Z := 1.

(** "auto", "elf", "bin" *)
Definition fmt_auto : list Z := [97; 117; 116; 111].
Definition fmt_elf : list Z := [101; 108; 102].
Definition fmt_bin : list Z := [98; 105; 110].

(** [inl] is the status given to [exit].  [errno] is zero when the process starts
    and only [strtol] sets it. *)
Definition parse_opt (o : opt) (args : args_t) : Z + args_t :=
  match o with
  | OPT_HELP => inl EXIT_SUCCESS
  | OPT_BOOTROM p => inr (args <| bootrom := Some p |> <| boot_mode := BOOT_MODE_BOOTROM |> <| run_mode := RUN_LINUX |>)
  | OPT_BIOS p => inr (args <| bios := Some p |>)
  | OPT_KERNEL p => inr (args <| kernel := Some p |>)
  | OPT_DTB p => inr (args <| dtb := Some p |>)
  | OPT_DRAM_SIZE s =>
      let v := strtol s in
      if sl_erange v || negb (bool_decide (sl_end v = [])) || (sl_value v <=? 0) || (512 <? sl_value v)
      then inl EXIT_FAILURE
      else inr (args <| dram_size := mul64 (sl_value v) (1024 * 1024) |>)
  | OPT_MAX_INST s =>
      let v := strtol s in
      if sl_erange v || negb (bool_decide (sl_end v = [])) || (sl_value v <=? 0)
      then inl EXIT_FAILURE
      else inr (args <| max_instruction := sl_value v |>)
  | OPT_POISON => inr (args <| poison_ram := true |>)
  | OPT_ITRACE => inr (args <| itrace := true |>)
  | OPT_FTRACE => inr (args <| ftrace := true |>)
  | OPT_FORMAT s =>
      if bool_decide (s = fmt_auto) then inr (args <| format := AUTO |>)
      else if bool_decide (s = fmt_elf) then inr (args <| format := ELF |>)
      else if bool_decide (s = fmt_bin) then inr (args <| format := BIN |>)
      else inl EXIT_FAILURE
  | OPT_RISCV_TESTS => inr (args <| run_mode := RUN_RISCV_TESTS |>)
  | OPT_ERROR => inl EXIT_FAILURE
  end.

Fixpoint parse_opts (os : list opt) (args : args_t) : Z + args_t :=
  match os with
  | [] => inr args
  | o :: os => match parse_opt o args with inl e => inl e | inr args => parse_opts os args end
  end.

(** [argc] counts the program name; [rest] is [argv] from [optind] on. *)
Definition parse_arguments (argc : Z) (os : list opt) (rest : list path) (args : args_t) : Z + args_t :=
  if argc <? 2 then inl EXIT_FAILURE
  else
    match parse_opts os (args <| boot_mode := BOOT_MODE_DIRECT |>) with
    | inl e => inl e
    | inr args =>
        match boot_mode args with
        | BOOT_MODE_DIRECT =>
            match rest with
            | [] => inl EXIT_FAILURE
            | [p] => inr (args <| file := Some p |>)
            | _ => inl EXIT_FAILURE
            end
        | BOOT_MODE_BOOTROM => inr args
        end
    end.

(** ** boot *)
Definition DRAM_END : Z := DRAM_BASE + DRAM_SIZE.
Definition DTB_SIZE : Z := 1024 * 1024.
Definition DTB_START_ADDR : Z := DRAM_END - DTB_SIZE.
Definition KERNEL_START_ADDR : Z := 0x80200000.

(** What the host decides during [boot]. *)
Record boot_host := mk_boot_host {
  bh_fs : path -> option FILE;
  bh_calloc : bool;
  bh_devices : init_host;
  bh_load : load_host;
  bh_func_trace : bool;
}.

(** What [boot] fills in. *)
Record boot_state := mk_boot_state {
  bs_cpu : cpu_t; bs_memory : memory_t; bs_devices : dev_list_t; bs_table : symbol_table_t; bs_trace : func_trace_t;
}.
#[export] Instance eta_boot_state : Eta boot_state := fun s =>
  mk_boot_state (bs_cpu s) (bs_memory s) (bs_devices s) (bs_table s) (bs_trace s).

(** [memory_load_binary] into a [memory_t] that aliases RAM from [start] on:
    [None] when bytes land outside the allocation. *)
Definition load_alias (memory : memory_t) (start size : Z) (f : option FILE) : option (Z * memory_t) :=
  match f with
  | None => Some (-1, memory)
  | Some fp =>
      let off := start - DRAM_BASE in
      if mem_size memory <? off + Z.of_nat (length (fread size fp).1) then None
      else let '(r, memory, _) := load_binary_at off size memory fp in Some (r, memory)
  end.

Definition set_rom (m : memory_t) (d : dev_list_t) : dev_list_t := d <| bootROM ::= fun r => r <| device := m |> |>.

Section boot.
Context (h : boot_host) (args : args_t).

Definition fopen (p : option path) : option FILE := match p with Some p => bh_fs h p | None => None end.

(** [&cpu->pc] is the entry point of the direct modes. *)
Definition boot_direct (s : boot_state) : option (Z * boot_state) :=
  let put (r : load_result) :=
    let '(r, m, e, t) := r in
    (r, s <| bs_memory := m |> <| bs_table := t |> <| bs_cpu ::= fun c => c <| pc := default (pc c) e |> |>) in
  match format args with
  | AUTO => r ← memory_load_auto (bh_load h) (bs_memory s) (fopen (file args)) (ftrace args) (bs_table s); Some (put r)
  | BIN => let '(r, m) := memory_load_binary (bs_memory s) (fopen (file args)) in Some (r, s <| bs_memory := m |>)
  | ELF => r ← memory_load_elf (bh_load h) (bs_memory s) (fopen (file args)) (ftrace args) (bs_table s); Some (put r)
  end.

(** The four images of the boot-ROM mode, each adding to [result]. *)
Definition load_rom (st : Z * boot_state) : option (Z * boot_state) :=
  let '(result, s) := st in
  match bootrom args with
  | Some p =>
      '(r, m, _, t) ← memory_load_elf (bh_load h) (device (bootROM (bs_devices s))) (bh_fs h p) (ftrace args) (bs_table s);
      Some (result + r, s <| bs_devices ::= set_rom m |> <| bs_table := t |>)
  | None => Some (result + 1, s)
  end.
Definition load_dtb (st : Z * boot_state) : option (Z * boot_state) :=
  let '(result, s) := st in
  match dtb args with
  | Some p =>
      '(r, m) ← load_alias (bs_memory s) DTB_START_ADDR DTB_SIZE (bh_fs h p);
      Some (result + r, s <| bs_memory := m |>)
  | None => Some (result, s)
  end.
Definition load_bios (st : Z * boot_state) : option (Z * boot_state) :=
  let '(result, s) := st in
  match bios args with
  | Some p =>
      '(r, m, _, t) ← memory_load_elf (bh_load h) (bs_memory s) (bh_fs h p) (ftrace args) (bs_table s);
      Some (result + r, s <| bs_memory := m |> <| bs_table := t |>)
  | None => Some (result, s)
  end.
Definition load_kernel (st : Z * boot_state) : option (Z * boot_state) :=
  let '(result, s) := st in
  match kernel args with
  | Some p =>
      '(r, m) ← load_alias (bs_memory s) KERNEL_START_ADDR (DTB_START_ADDR - KERNEL_START_ADDR) (bh_fs h p);
      Some (result + r, s <| bs_memory := m |>)
  | None => Some (result, s)
  end.
Definition boot_rom (s : boot_state) : option (Z * boot_state) :=
  '(result, s) ← (st ← load_rom (0, s); st ← load_dtb st; st ← load_bios st; load_kernel st);
  Some (result, s <| bs_cpu ::= fun c => c <| pc := BootROM_BASE |> |>).

(** The outer [None] is undefined behaviour. *)
Definition boot (s : boot_state) : option (Z * boot_state) :=
  let s := s <| bs_cpu := cpu_init |> in
  let '(r, m) := memory_init (bs_memory s) (poison_ram args) (dram_size args) (bh_calloc h) in
  let s := s <| bs_memory := m |> in
  if negb (r =? 0) then Some (-1, s)
  else
    let '(r, d) := device_init (bs_devices s) (bh_devices h) in
    let s := s <| bs_devices := d |> in
    if negb (r =? 0) then Some (-1, s)
    else
      let s := if ftrace args
               then s <| bs_table := (symbol_table_init 1 (h_malloc (bh_load h) 32) (h_junk (bh_load h))).2 |> else s in
      '(result, s) ← match boot_mode args with
                     | BOOT_MODE_DIRECT => boot_direct s
                     | BOOT_MODE_BOOTROM => boot_rom s
                     end;
      if negb (result =? 0) then Some (-1, s)
      else if ftrace args then
        let '(r, f) := func_trace_init (bh_func_trace h) (bs_trace s) in
        if negb (r =? 0) then Some (-1, s <| bs_trace := f |>) else Some (0, s <| bs_trace := f |>)
      else Some (0, s).
End boot.

(** ** main *)

(** The result of [check_riscv_tests_result]: [regs[10]] as a [bool]. *)
Definition check_riscv_tests_result (cpu : cpu_t) : bool := negb (aget 0 (regs cpu) 10 =? 0).

(** The exit status, from the status of the run. *)
Definition exit_code (exec_status : CPU_EXEC_STATUS_t) (mode : run_mode_t) (cpu : cpu_t) : Z :=
  match exec_status with
  | POWEROFF | FINISH =>
      match mode with
      | RUN_LINUX => EXIT_SUCCESS
      | RUN_RISCV_TESTS => if negb (check_riscv_tests_result cpu) then EXIT_SUCCESS else EXIT_FAILURE
      | RUN_BAREMETAL => if aget 0 (regs cpu) 10 =? 0 then EXIT_SUCCESS else EXIT_FAILURE
      end
  | MEM_ERROR | CPU_ERROR | DEVICE_ERROR | TIMEOUT => EXIT_FAILURE
  end.

(** [junk] is the uninitialised machine of [main], [hs] the host inputs of the run;
    [None]: undefined behaviour in [boot], or a run longer than [hs]. *)
Definition main (argc : Z) (os : list opt) (rest : list path) (h : boot_host) (junk : boot_state) (hs : list host_input)
    : option Z :=
  match parse_arguments argc os rest args_init with
  | inl e => Some e
  | inr args =>
      '(r, s) ← boot h args junk;
      if negb (r =? 0) then Some EXIT_FAILURE
      else
        '(st, m) ← cpu_exec (itrace args) (ftrace args) (max_instruction args) hs
                     (mk_mach (bs_cpu s) (mk_bus (bs_memory s) (bs_devices s)) []);
        Some (exit_code st (run_mode args) (m_cpu m))
  end.

(** ** Booting yields a well-formed machine *)

(** The host's files hold bytes and are opened at their start; uninitialised objects
    have the sizes of their types. *)
Record boot_host_ok (h : boot_host) : Prop := {
  bho_files : forall p fp, bh_fs h p = Some fp -> FILE_ok fp;
  bho_start : forall p fp, bh_fs h p = Some fp -> f_pos fp = 0;
  bho_rom : map_Forall (fun _ b => byte_ok b) (h_rom_garbage (bh_devices h));
}.
Definition junk_ok (s : boot_state) : Prop :=
  let d := fifo_data (rx_fifo (device (uart0 (bs_devices s)))) in length d = 16%nat /\ Forall (fun b => is_u 8 b) d.

Lemma device_init_wf m d h :
  memory_wf m -> mem_base m = RAM_BASE -> map_Forall (fun _ b => byte_ok b) (h_rom_garbage h) ->
  length (fifo_data (rx_fifo (device (uart0 d)))) = 16%nat ->
  Forall (fun b => is_u 8 b) (fifo_data (rx_fifo (device (uart0 d)))) ->
  (device_init d h).1 = 0 -> bus_wf (mk_bus m (device_init d h).2).
Proof.
  intros Hm Hb Hrom Hl Hd. unfold device_init. destruct (h_rom h); [|done]. unfold bootROM_init.
  destruct (h_rom_data h); [|done]. cbn [negb Z.eqb].
  destruct (h_syscon h); [|done]. destruct (h_uart h); [|done]. destruct (h_clint h); [|done].
  destruct (h_plic h); [|done]. cbn [negb fst snd]. intros _.
  constructor; try done; cbn.
  apply plic_reset_wf.
Qed.

Lemma bus_wf_loads m m' d : loads m m' -> bus_wf (mk_bus m d) -> bus_wf (mk_bus m' d).
Proof. intros [Hb _ Hw _] []. constructor; try done; cbn in *; [auto|congruence]. Qed.

Lemma bus_wf_loads_rom m d rom :
  loads (device (bootROM d)) rom -> bus_wf (mk_bus m d) -> bus_wf (mk_bus m (set_rom rom d)).
Proof. intros [_ _ Hw _] []. constructor; try done; cbn in *; auto. Qed.

(** Where a booted machine starts: the boot ROM in that mode; in the direct modes the
    entry of the ELF file, or the reset vector for a raw image. *)
Definition boot_pc (h : boot_host) (args : args_t) : Z :=
  match boot_mode args, format args, fopen h (file args) with
  | BOOT_MODE_BOOTROM, _, _ => BootROM_BASE
  | BOOT_MODE_DIRECT, ELF, Some fp => elf_entry fp
  | BOOT_MODE_DIRECT, AUTO, Some fp => if is_elf fp then elf_entry fp else RST_VEC
  | BOOT_MODE_DIRECT, _, _ => RST_VEC
  end.

Section boot_wf.
Context (h : boot_host) (args : args_t).
Hypothesis Hhost : boot_host_ok h.

Lemma fopen_ok p fp : fopen h p = Some fp -> FILE_ok fp /\ f_pos fp = 0.
Proof. destruct p; [|done]. intros H. split; [by eapply bho_files|by eapply bho_start]. Qed.

Lemma boot_pc_u : is_u 64 (boot_pc h args).
Proof.
  unfold boot_pc. destruct (boot_mode args); [|done]. destruct (format args), (fopen h (file args)) as [fp|] eqn:E; try done.
  all: apply fopen_ok in E as [E _]; try (destruct (is_elf fp); [|done]); by apply elf_entry_u.
Qed.

(** What every step of [boot] keeps: the core apart from the pc, and the bus. *)
Definition staged (s : boot_state) : Prop :=
  (exists a, bs_cpu s = cpu_init <| pc := a |>) /\ bus_wf (mk_bus (bs_memory s) (bs_devices s)).
Definition keeps_staged (f : Z * boot_state -> option (Z * boot_state)) : Prop :=
  forall r s r' s', staged s -> f (r, s) = Some (r', s') -> staged s' /\ bs_cpu s' = bs_cpu s /\
    mem_size (bs_memory s') = mem_size (bs_memory s).

Lemma staged_memory s m t : staged s -> loads (bs_memory s) m -> staged (s <| bs_memory := m |> <| bs_table := t |>).
Proof. intros [Hc Hb] Hl. split; [done|]. by eapply bus_wf_loads. Qed.

Lemma load_elf_loads m f tr t r m' e t' :
  memory_wf m -> (forall fp, f = Some fp -> FILE_ok fp) ->
  memory_load_elf (bh_load h) m f tr t = Some (r, m', e, t') -> loads m m'.
Proof. intros Hm Hf. apply (loader_memory_safe m Hm (bh_load h) f tr t Hf). Qed.

Lemma load_alias_loads m start size f r m' :
  memory_wf m -> (forall fp, f = Some fp -> FILE_ok fp) -> DRAM_BASE <= start -> 0 <= size ->
  load_alias m start size f = Some (r, m') -> loads m m'.
Proof.
  intros Hm Hf Hst Hs. unfold load_alias. destruct f as [fp|]; [|by intros [= _ <-]].
  destruct (Z.ltb_spec (mem_size m) (start - DRAM_BASE + Z.of_nat (length (fread size fp).1))); [done|].
  pose proof (load_binary_at_good m (start - DRAM_BASE) size m fp ltac:(unfold good; reflexivity) (Hf fp eq_refl)
    ltac:(lia) Hs ltac:(lia)) as Hg.
  destruct (load_binary_at _ _ _ _) as [[r1 m1] fp1]. by intros [= _ <-].
Qed.

Lemma load_rom_staged : keeps_staged (load_rom h args).
Proof.
  intros r s r' s' [Hc Hb]. unfold load_rom. destruct (bootrom args) as [p|]; [|by intros [= <- <-]].
  destruct (memory_load_elf _ _ _ _ _) as [[[[r1 m1] e1] t1]|] eqn:E; [|done]. cbn. intros [= <- <-].
  split; [|done]. split; [done|]. apply bus_wf_loads_rom; [|done].
  eapply load_elf_loads; [apply (bwf_rom _ Hb)|apply (bho_files _ Hhost)|exact E].
Qed.

Lemma load_alias_staged start size (p : option path) r s r' s' :
  DRAM_BASE <= start -> 0 <= size -> staged s ->
  match p with
  | Some p => '(r1, m) ← load_alias (bs_memory s) start size (bh_fs h p); Some (r + r1, s <| bs_memory := m |>)
  | None => Some (r, s)
  end = Some (r', s') ->
  staged s' /\ bs_cpu s' = bs_cpu s /\ mem_size (bs_memory s') = mem_size (bs_memory s).
Proof.
  intros Hst Hs Hb. destruct p as [p|]; [|by intros [= <- <-]].
  destruct (load_alias _ _ _ _) as [[r1 m1]|] eqn:E; [|done]. cbn. intros [= <- <-].
  assert (loads (bs_memory s) m1) as Hl.
  { eapply load_alias_loads; [apply Hb|apply (bho_files _ Hhost)|exact Hst|exact Hs|exact E]. }
  split; [exact (staged_memory s m1 (bs_table s) Hb Hl)|]. split; [done|]. apply Hl.
Qed.

Lemma load_dtb_staged : keeps_staged (load_dtb h args).
Proof. intros r s r' s' Hs. by apply load_alias_staged. Qed.
Lemma load_kernel_staged : keeps_staged (load_kernel h args).
Proof. intros r s r' s' Hs. by apply load_alias_staged. Qed.

Lemma load_bios_staged : keeps_staged (load_bios h args).
Proof.
  intros r s r' s' Hs. unfold load_bios. destruct (bios args) as [p|]; [|by intros [= <- <-]].
  destruct (memory_load_elf _ _ _ _ _) as [[[[r1 m1] e1] t1]|] eqn:E; [|done]. cbn. intros [= <- <-].
  assert (loads (bs_memory s) m1) as Hl.
  { eapply load_elf_loads; [apply Hs|apply (bho_files _ Hhost)|exact E]. }
  split; [by apply staged_memory|]. split; [done|]. apply Hl.
Qed.

Lemma keeps_staged_bind f g :
  keeps_staged f -> keeps_staged g -> keeps_staged (fun st => st ← f st; g st).
Proof.
  intros Hf Hg r s r' s' Hs. destruct (f (r, s)) as [[r1 s1]|] eqn:E; [|done]. cbn.
  destruct (Hf _ _ _ _ Hs E) as (H1 & H2 & H3). intros E2. destruct (Hg _ _ _ _ H1 E2) as (H4 & H5 & H6).
  split; [done|]. by rewrite H5, H6.
Qed.

Lemma boot_rom_staged s r s' :
  staged s -> boot_rom h args s = Some (r, s') ->
  staged s' /\ pc (bs_cpu s') = BootROM_BASE /\ mem_size (bs_memory s') = mem_size (bs_memory s).
Proof.
  intros Hs. unfold boot_rom.
  pose proof (keeps_staged_bind _ _ load_rom_staged (keeps_staged_bind _ _ load_dtb_staged
    (keeps_staged_bind _ _ load_bios_staged load_kernel_staged))) as Hk. cbv beta in Hk.
  match goal with |- ?x ≫= _ = _ -> _ => destruct x as [[r1 s1]|] eqn:E; [|done] end.
  destruct (Hk _ _ _ _ Hs E) as ([[a Ha] Hb] & _ & Hsz). cbn. intros [= <- <-].
  split; [|done]. split; [|done]. exists BootROM_BASE. cbn. by rewrite Ha.
Qed.

Lemma boot_direct_staged s r s' :
  staged s -> boot_direct h args s = Some (r, s') ->
  staged s' /\ mem_size (bs_memory s') = mem_size (bs_memory s).
Proof.
  intros Hs. assert (forall fp, fopen h (file args) = Some fp -> FILE_ok fp) as Hf by (intros fp; apply fopen_ok).
  assert (memory_wf (bs_memory s)) as Hm by apply Hs.
  destruct (loader_memory_safe (bs_memory s) Hm (bh_load h) (fopen h (file args)) (ftrace args) (bs_table s) Hf)
    as (Lb & Le & La).
  assert (forall m t (e : option Z), loads (bs_memory s) m ->
    staged (s <| bs_memory := m |> <| bs_table := t |> <| bs_cpu ::= fun c => c <| pc := default (pc c) e |> |>)) as Hput.
  { intros m t e Hl. destruct (staged_memory s m t Hs Hl) as [[a Ha] Hb]. split; [|exact Hb].
    exists (default a e). cbn in Ha |- *. by rewrite Ha. }
  unfold boot_direct. destruct (format args).
  - destruct (memory_load_auto _ _ _ _ _) as [[[[r1 m1] e1] t1]|]; [|done]. cbn. intros [= <- <-].
    specialize (La _ _ _ _ eq_refl). split; [by apply Hput|]. apply La.
  - destruct (memory_load_binary _ _) as [r1 m1]. cbn in Lb. intros [= <- <-].
    split; [exact (staged_memory s m1 (bs_table s) Hs Lb)|]. apply Lb.
  - destruct (memory_load_elf _ _ _ _ _) as [[[[r1 m1] e1] t1]|]; [|done]. cbn. intros [= <- <-].
    specialize (Le _ _ _ _ eq_refl). split; [by apply Hput|]. apply Le.
Qed.

(** The pc a successful direct boot leaves. *)
Lemma boot_direct_pc s s' :
  boot_mode args = BOOT_MODE_DIRECT -> pc (bs_cpu s) = RST_VEC -> boot_direct h args s = Some (0, s') ->
  pc (bs_cpu s') = boot_pc h args.
Proof.
  intros Hd Hpc. unfold boot_direct, boot_pc. rewrite Hd. destruct (fopen h (file args)) as [fp|] eqn:E.
  2:{ by destruct (format args). }
  apply fopen_ok in E as [_ Hp]. destruct (format args).
  - destruct (memory_load_auto _ _ _ _ _) as [[[[r1 m1] e1] t1]|] eqn:El; [|done]. cbn. intros [= -> <-].
    rewrite (load_auto_entry _ _ _ _ _ _ _ _ Hp El). cbn. destruct (is_elf fp); [done|exact Hpc].
  - destruct (memory_load_binary _ _) as [r1 m1]. by intros [= _ <-].
  - destruct (memory_load_elf _ _ _ _ _) as [[[[r1 m1] e1] t1]|] eqn:El; [|done]. cbn. intros [= -> <-].
    by rewrite (load_elf_entry _ _ _ _ _ _ _ _ Hp El).
Qed.

(** The machine [main] hands to [cpu_exec]. *)
Definition booted (s : boot_state) : mach bus_t := mk_mach (bs_cpu s) (mk_bus (bs_memory s) (bs_devices s)) [].

Lemma staged_mach_ok s : staged s -> npc_ok (pc (bs_cpu s)) -> mach_ok (booted s).
Proof.
  intros [[a Ha] Hb] Hpc. split; [|done]. cbn. rewrite Ha in Hpc |- *.
  destruct (mach_reset_ok (HB := bus_laws) (mk_bus (bs_memory s) (bs_devices s)) Hb) as [[[] Hz] _]. split; [|done]. by constructor.
Qed.

(** The end of [boot]. *)
Lemma boot_tail r s2 s :
  (if negb (r =? 0) then Some (-1, s2)
   else if ftrace args then
     let '(r, f) := func_trace_init (bh_func_trace h) (bs_trace s2) in
     if negb (r =? 0) then Some (-1, s2 <| bs_trace := f |>) else Some (0, s2 <| bs_trace := f |>)
   else Some (0, s2)) = Some (0, s) ->
  r = 0 /\ bs_cpu s = bs_cpu s2 /\ bs_memory s = bs_memory s2 /\ bs_devices s = bs_devices s2.
Proof.
  destruct (Z.eqb_spec r 0); cbn [negb]; [|done]. destruct (ftrace args); [|by intros [= <-]].
  destruct (func_trace_init _ _) as [r2 f]. destruct (negb (r2 =? 0)); [done|]. by intros [= <-].
Qed.

(** Every step of a boot that succeeds. *)
Lemma boot_staged junk s :
  junk_ok junk -> is_u 64 (dram_size args) -> boot h args junk = Some (0, s) ->
  staged s /\ pc (bs_cpu s) = boot_pc h args /\ mem_size (bs_memory s) = dram_size args.
Proof.
  intros [Hjl Hjd] Hsz. unfold boot, memory_init. destruct (bh_calloc h); [|done]. cbn [negb Z.eqb].
  change (device_init _ (bh_devices h)) with (device_init (bs_devices junk) (bh_devices h)).
  destruct (device_init _ _) as [r d] eqn:Ed. destruct (Z.eqb_spec r 0) as [->|]; cbn [negb]; [|done].
  set (s1 := if ftrace args then _ else _).
  assert (staged s1 /\ pc (bs_cpu s1) = RST_VEC /\ mem_size (bs_memory s1) = dram_size args) as (Hs1 & Hpc1 & Hm1).
  { assert (bus_wf (mk_bus (mk_memory ∅ (if poison_ram args then 0xA5 else 0) RAM_BASE (dram_size args)) d)) as Hb.
    { replace d with (device_init (bs_devices junk) (bh_devices h)).2 by (change d with (0, d).2; by rewrite <- Ed).
      apply device_init_wf; [|done|apply Hhost|done|done|].
      - exact (memory_init_wf (bs_memory junk) (poison_ram args) (dram_size args) Hsz).
      - by rewrite Ed. }
    unfold s1. destruct (ftrace args); (split; [split; [by exists RST_VEC|done]|done]). }
  clearbody s1. unfold staged. destruct (boot_mode args) eqn:Em.
  - destruct (boot_direct h args s1) as [[r2 s2]|] eqn:E; [|done]. intros (-> & -> & -> & ->)%boot_tail.
    destruct (boot_direct_staged _ _ _ Hs1 E) as (H1 & H2). split; [exact H1|].
    split; [by eapply boot_direct_pc|congruence].
  - destruct (boot_rom h args s1) as [[r2 s2]|] eqn:E; [|done]. intros (-> & -> & -> & ->)%boot_tail.
    destruct (boot_rom_staged _ _ _ Hs1 E) as (H1 & H2 & H3). split; [exact H1|].
    split; [|congruence]. unfold boot_pc. by rewrite Em.
Qed.

(** C35: a boot that succeeds yields the power-on machine, whatever the image files
    hold: the core exactly as [cpu_init] leaves it with the pc of the boot mode - the
    boot ROM, the entry point in the header of the ELF file, given or detected, or
    the reset vector for a raw image -, RAM of the size asked for and the standard
    address map with every device initialised.  It is a well-formed machine exactly
    when that pc is aligned: always for a boot ROM and for a raw image, while the
    loader takes the entry point of an ELF file as it is. *)
Theorem boot_wf junk s :
  junk_ok junk -> is_u 64 (dram_size args) -> boot h args junk = Some (0, s) ->
  bs_cpu s = cpu_init <| pc := boot_pc h args |> /\ mem_size (bs_memory s) = dram_size args /\
  bus_wf (m_bus (booted s)) /\
  (mach_ok (booted s) <-> boot_pc h args mod 4 = 0) /\
  (boot_mode args = BOOT_MODE_BOOTROM \/ format args = BIN \/
   (exists fp, format args = AUTO /\ fopen h (file args) = Some fp /\ is_elf fp = false) -> mach_ok (booted s)).
Proof.
  intros Hj Hsz H. destruct (boot_staged junk s Hj Hsz H) as (Hst & Hpc & Hm).
  assert (bs_cpu s = cpu_init <| pc := boot_pc h args |>) as Ec.
  { destruct Hst as [[a Ha] _]. rewrite Ha in Hpc |- *. cbn in Hpc. by rewrite Hpc. }
  assert (mach_ok (booted s) <-> boot_pc h args mod 4 = 0) as Hok.
  { rewrite <- Hpc. split.
    - intros [[Hc _] _]. apply (mid_pc _ Hc).
    - intros Ha. apply staged_mach_ok; [done|]. split; [|done]. rewrite Hpc. apply boot_pc_u. }
  split; [done|]. split; [done|]. split; [apply Hst|]. split; [done|]. intros Hb. apply Hok. unfold boot_pc.
  destruct (boot_mode args); [|done]. destruct Hb as [|[->|(fp & -> & -> & ->)]]; done.
Qed.
End boot_wf.

(** ** The boot images stay inside RAM *)

Lemma load_alias_defined m start size f :
  0 <= size -> start - DRAM_BASE + size <= mem_size m -> is_Some (load_alias m start size f).
Proof.
  intros Hs Hfit. unfold load_alias. destruct f as [fp|]; [|by eexists].
  pose proof (fread_length size fp Hs).
  destruct (Z.ltb_spec (mem_size m) (start - DRAM_BASE + Z.of_nat (length (fread size fp).1))); [lia|].
  destruct (load_binary_at _ _ _ _) as [[r m'] fp']. by eexists.
Qed.

Lemma load_elf_defined h m f t : is_Some (memory_load_elf h m f false t).
Proof.
  unfold memory_load_elf. destruct f as [fp|]; [|by eexists]. destruct (probe_elf fp) as [[[] ehdr] fp1]; try by eexists.
  destruct (load_elf_segments m fp1 ehdr) as [[[r m'] fp2] e]. by eexists.
Qed.
Lemma load_auto_defined h m f t : is_Some (memory_load_auto h m f false t).
Proof.
  unfold memory_load_auto. destruct f as [fp|]; [|by eexists]. destruct (probe_elf fp) as [[[] ehdr] fp1]; try by eexists.
  - destruct (load_binary_segment m (rewind fp1)) as [[r m'] fp2]. by eexists.
  - destruct (load_elf_segments m fp1 ehdr) as [[[r m'] fp2] e]. by eexists.
Qed.

Lemma boot_rom_defined h args s1 :
  boot_host_ok h -> ftrace args = false -> staged s1 -> DRAM_SIZE <= mem_size (bs_memory s1) ->
  is_Some (boot_rom h args s1).
Proof.
  intros Hh Hf Hs1 Hm1. unfold boot_rom.
  assert (is_Some (load_rom h args (0, s1))) as [[r2 s2] E2].
  { unfold load_rom. destruct (bootrom args) as [p|]; [|by eexists]. rewrite Hf.
    destruct (load_elf_defined (bh_load h) (device (bootROM (bs_devices s1))) (bh_fs h p) (bs_table s1)) as [[[[? ?] ?] ?] ->]. by eexists. }
  rewrite E2. cbn [mbind option_bind]. destruct (load_rom_staged h args Hh _ _ _ _ Hs1 E2) as (Hs2 & _ & Hm2).
  assert (is_Some (load_dtb h args (r2, s2))) as [[r3 s3] E3].
  { unfold load_dtb. destruct (dtb args) as [p|]; [|by eexists].
    destruct (load_alias_defined (bs_memory s2) DTB_START_ADDR DTB_SIZE (bh_fs h p)) as [[? ?] ->]; [done| |by eexists].
    rewrite Hm2. exact Hm1. }
  rewrite E3. cbn [mbind option_bind]. destruct (load_dtb_staged h args Hh _ _ _ _ Hs2 E3) as (Hs3 & _ & Hm3).
  assert (is_Some (load_bios h args (r3, s3))) as [[r4 s4] E4].
  { unfold load_bios. destruct (bios args) as [p|]; [|by eexists]. rewrite Hf.
    destruct (load_elf_defined (bh_load h) (bs_memory s3) (bh_fs h p) (bs_table s3)) as [[[[? ?] ?] ?] ->]. by eexists. }
  rewrite E4. cbn [mbind option_bind]. destruct (load_bios_staged h args Hh _ _ _ _ Hs3 E4) as (Hs4 & _ & Hm4).
  assert (is_Some (load_kernel h args (r4, s4))) as [[r5 s5] E5].
  { unfold load_kernel. destruct (kernel args) as [p|]; [|by eexists].
    destruct (load_alias_defined (bs_memory s4) KERNEL_START_ADDR (DTB_START_ADDR - KERNEL_START_ADDR) (bh_fs h p))
      as [[? ?] ->]; [done| |by eexists].
    rewrite Hm4, Hm3, Hm2. unfold DTB_START_ADDR, DRAM_END, DTB_SIZE, DRAM_SIZE in *. lia. }
  rewrite E5. by eexists.
Qed.

(** With the RAM of the platform's address map or more, booting has no
    undefined behaviour: the device tree and the kernel are read through pointers
    into RAM that the loader's own range check knows nothing about, and stay inside
    the allocation, whatever the images. *)
Theorem boot_images_fit h args junk :
  boot_host_ok h -> junk_ok junk -> DRAM_SIZE <= dram_size args < 2 ^ 64 -> ftrace args = false ->
  is_Some (boot h args junk).
Proof.
  intros Hh [Hjl Hjd] Hsz Hf. unfold boot, memory_init. destruct (bh_calloc h); [|by eexists]. cbn [negb Z.eqb].
  change (device_init _ (bh_devices h)) with (device_init (bs_devices junk) (bh_devices h)).
  pose proof (device_init_wf (mk_memory ∅ (if poison_ram args then 0xA5 else 0) RAM_BASE (dram_size args))
    (bs_devices junk) (bh_devices h)) as Hwf.
  destruct (device_init _ _) as [r d]. destruct (Z.eqb_spec r 0) as [->|]; cbn [negb]; [|by eexists]. rewrite Hf.
  set (s1 := junk <| bs_cpu := _ |> <| bs_memory := _ |> <| bs_devices := _ |>).
  assert (staged s1 /\ DRAM_SIZE <= mem_size (bs_memory s1)) as [Hs1 Hm1].
  { split; [|cbn; lia]. split; [by exists RST_VEC|].
    apply Hwf; [exact (memory_init_wf (bs_memory junk) (poison_ram args) (dram_size args) ltac:(unfold DRAM_SIZE in *; lia))
               |done|apply Hh|done..]. }
  clearbody s1.
  assert (is_Some (match boot_mode args with BOOT_MODE_DIRECT => boot_direct h args s1 | BOOT_MODE_BOOTROM => boot_rom h args s1 end))
    as [[r2 s2] ->].
  2:{ cbn. destruct (negb (r2 =? 0)); by eexists. }
  destruct (boot_mode args).
  - unfold boot_direct. rewrite Hf. destruct (format args).
    + destruct (load_auto_defined (bh_load h) (bs_memory s1) (fopen h (file args)) (bs_table s1)) as [[[[r2 m2] e2] t2] ->]. by eexists.
    + destruct (memory_load_binary _ _). by eexists.
    + destruct (load_elf_defined (bh_load h) (bs_memory s1) (fopen h (file args)) (bs_table s1)) as [[[[r2 m2] e2] t2] ->]. by eexists.
  - by apply boot_rom_defined.
Qed.

(** ** Findings of the command line *)

(** A file of one byte for every path, no ELF. *)
Definition boot_host_example : boot_host :=
  mk_boot_host (fun _ => Some (mk_file [1] 0 None false true)) true
    (mk_init_host true true true true true true ∅ 0) load_host_example true.
Definition junk_example : boot_state :=
  mk_boot_state cpu_init (mk_memory ∅ 0 0 0) (bus_devices bus_example) (mk_symtab None 0 0) (mk_func_trace 0 []).
Definition opts_small_dram : list opt := [OPT_BOOTROM [114]; OPT_DTB [100]; OPT_DRAM_SIZE [54; 52]].

(** [--dram-size 64] is accepted, and the device tree is then written behind the
    allocation: the address of the DTB is that of a 128 MiB RAM. *)
Lemma small_dram_overflow :
  exists args, parse_arguments 7 opts_small_dram [] args_init = inr args /\ dram_size args = 64 * 2 ^ 20 /\
    boot boot_host_example args junk_example = None.
Proof. eexists. split; [vm_compute; reflexivity|]. split; vm_compute; reflexivity. Qed.

(** ** The command line *)

Lemma strtol_range s : - 2 ^ 63 <= sl_value (strtol s) <= LONG_MAX.
Proof.
  unfold strtol. destruct (strip_sign _) as [neg num].
  destruct num as [|c r]; [done|]. destruct (is_digit c); [|done]. destruct (digits 0 (c :: r)) as [v rest].
  cbv zeta. generalize (if neg then - v else v). intros w. unfold LONG_MAX.
  destruct (Z.ltb_spec w (- 2 ^ 63)); [cbn; lia|]. destruct (Z.ltb_spec 0x7fffffffffffffff w); cbn; lia.
Qed.

(** RAM between 1 and 512 MiB, an instruction limit that fits a [long]. *)
Definition args_ok (a : args_t) : Prop :=
  (exists mib, 1 <= mib <= 512 /\ dram_size a = mib * 2 ^ 20) /\ 0 <= max_instruction a <= LONG_MAX.

Lemma parse_opt_ok o a a' : args_ok a -> parse_opt o a = inr a' -> args_ok a'.
Proof.
  intros Ha. destruct o; cbn [parse_opt]; try (by intros [= <-]); try done.
  - destruct (_ || _) eqn:E; [done|]. intros [= <-]. split; [|apply Ha]. exists (sl_value (strtol optarg)).
    rewrite !orb_false_iff, Z.leb_gt, Z.ltb_ge in E. split; [lia|]. cbn. unfold mul64. rewrite w64_small by lia. done.
  - destruct (_ || _) eqn:E; [done|]. intros [= <-]. split; [apply Ha|]. cbn.
    rewrite !orb_false_iff, Z.leb_gt in E. pose proof (strtol_range optarg). lia.
  - repeat (destruct (bool_decide _); [by intros [= <-]|]). done.
Qed.

(** Whatever the options, what [parse_arguments] lets through is sane: between
    1 and 512 MiB of RAM, an instruction limit in the range of a [long] (0 for none),
    a program file exactly when there is no boot ROM, and a boot ROM to boot from. *)
Theorem parse_arguments_sane argc os rest a :
  parse_arguments argc os rest args_init = inr a ->
  args_ok a /\
  (boot_mode a = BOOT_MODE_DIRECT -> exists p, rest = [p] /\ file a = Some p) /\
  (boot_mode a = BOOT_MODE_BOOTROM -> is_Some (bootrom a)).
Proof.
  unfold parse_arguments. destruct (argc <? 2); [done|].
  assert (forall os a1 a2, args_ok a1 -> (boot_mode a1 = BOOT_MODE_BOOTROM -> is_Some (bootrom a1)) ->
    parse_opts os a1 = inr a2 -> args_ok a2 /\ (boot_mode a2 = BOOT_MODE_BOOTROM -> is_Some (bootrom a2))) as Hall.
  { clear. intros os. induction os as [|o os IH]; intros a1 a2 H1 H2; [by intros [= <-]|]. cbn [parse_opts].
    destruct (parse_opt o a1) as [e|a3] eqn:E; [done|]. apply IH; [by eapply parse_opt_ok|].
    revert E. destruct o; cbn [parse_opt]; try (by intros [= <-]); try done.
    - destruct (_ || _); [done|]. by intros [= <-].
    - destruct (_ || _); [done|]. by intros [= <-].
    - repeat (destruct (bool_decide _); [by intros [= <-]|]). done. }
  destruct (parse_opts os _) as [e|a1] eqn:E; [done|].
  assert (args_ok (args_init <| boot_mode := BOOT_MODE_DIRECT |>)) as H0 by (split; [by exists 128|done]).
  destruct (Hall os _ a1 H0 ltac:(done) E) as [H1 H2]. destruct (boot_mode a1) eqn:Em.
  - destruct rest as [|p [|]]; [done| |done]. intros [= <-]. cbn. rewrite Em. split; [exact H1|].
    split; [intros _; by exists p|done].
  - intros [= <-]. rewrite Em. split; [done|]. by split.
Qed.

(** ** The exit status *)

(** The process succeeds exactly when the guest does: after a successful parse
    and boot it exits with success if and only if the run ended by power-off (or
    halt) and, unless Linux was booted, the guest left zero in a0; a machine that
    cannot boot, a time-out and a device error are failures. *)
Theorem main_exit_status argc os rest h junk hs args r s :
  parse_arguments argc os rest args_init = inr args -> boot h args junk = Some (r, s) ->
  (r <> 0 -> main argc os rest h junk hs = Some EXIT_FAILURE) /\
  (r = 0 -> forall st m, cpu_exec (itrace args) (ftrace args) (max_instruction args) hs (booted s) = Some (st, m) ->
     exists code, main argc os rest h junk hs = Some code /\ (code = EXIT_SUCCESS \/ code = EXIT_FAILURE) /\
       (code = EXIT_SUCCESS <->
          (st = POWEROFF \/ st = FINISH) /\ (run_mode args = RUN_LINUX \/ aget 0 (regs (m_cpu m)) 10 = 0))).
Proof.
  intros Hp Hb. unfold main. rewrite Hp, Hb. cbn [mbind option_bind]. split.
  - intros Hr. by rewrite (proj2 (Z.eqb_neq r 0) Hr).
  - intros -> st m E. change (mk_mach (bs_cpu s) _ _) with (booted s). cbn [negb Z.eqb]. rewrite E.
    cbn [mbind option_bind]. eexists. split; [reflexivity|]. unfold exit_code, check_riscv_tests_result.
    destruct (Z.eqb_spec (aget 0 (regs (m_cpu m)) 10) 0), st, (run_mode args); cbn [negb];
      (split; [by auto|]); unfold EXIT_SUCCESS, EXIT_FAILURE; naive_solver.
Qed.

(** ** Examples: a raw binary that powers the machine off at once
    (LUI x1, 0x100; ADDI x2, x0, 1; SW x2, 0(x1)). *)
Definition bin_host : boot_host :=
  mk_boot_host (fun _ => Some (mk_file (le_bytes 8 0x00100113001000B7 ++ le_bytes 4 0x0020A023) 0 None false true)) true
    (mk_init_host true true true true true true ∅ 0) load_host_example true.
Definition bin_args : args_t := args_init <| format := BIN |> <| file := Some [112] |> <| dram_size := 2 ^ 20 |>.
Definition full_args : args_t := bin_args <| dram_size := DRAM_SIZE |>.
Definition bin_opts : list opt := [OPT_FORMAT fmt_bin; OPT_DRAM_SIZE [49]].

Lemma bin_host_ok : boot_host_ok bin_host.
Proof.
  constructor; [|by intros p fp [= <-]|done]. intros p fp [= <-]. split; [|cbn; lia].
  apply (Forall_app_2 _ (le_bytes 8 _) (le_bytes 4 _)); apply le_bytes_ok.
Qed.
Lemma junk_example_ok : junk_ok junk_example.
Proof. split; [reflexivity|]. apply (bool_decide_unpack (Forall _ _)). vm_compute. exact I. Qed.

Lemma parse_arguments_sane_witness :
  match parse_arguments 4 bin_opts [[112]] args_init with
  | inr a => args_ok a /\ dram_size a = 2 ^ 20
  | inl _ => False
  end.
Proof.
  destruct (parse_arguments _ _ _ _) as [e|a] eqn:E; [vm_compute in E; discriminate E|].
  split; [exact (proj1 (parse_arguments_sane _ _ _ _ E))|]. vm_compute in E. by injection E as <-.
Defined.

Lemma bin_boots : fst <$> boot bin_host bin_args junk_example = Some 0.
Proof. vm_compute. reflexivity. Qed.

Lemma bin_runs :
  (x ← boot bin_host bin_args junk_example;
  y ← cpu_exec (itrace bin_args) (ftrace bin_args) (max_instruction bin_args) (replicate 3 idle_host) (booted x.2);
  Some (y.1, aget 0 (regs (m_cpu y.2)) 10)) = Some (POWEROFF, 0).
Proof. vm_compute. reflexivity. Qed.

(** An ELF file, detected; and one whose entry point is not aligned. *)
Definition elf_host (fp : FILE) : boot_host :=
  mk_boot_host (fun _ => Some fp) true (mk_init_host true true true true true true ∅ 0) load_host_example true.
Definition elf_args : args_t := args_init <| file := Some [112] |> <| dram_size := 2 ^ 20 |>.
Definition misaligned_file : FILE := file_example <| f_bytes := take 24 elf_example ++ [0x02] ++ drop 25 elf_example |>.

Lemma elf_host_ok fp : FILE_ok fp -> f_pos fp = 0 -> boot_host_ok (elf_host fp).
Proof. intros Hf Hp. by constructor; [intros ? ? [= <-]..|]. Qed.
Lemma misaligned_file_ok : FILE_ok misaligned_file.
Proof. split; [|cbn; lia]. apply (bool_decide_unpack (Forall byte_ok (f_bytes misaligned_file))). vm_compute. exact I. Qed.

Lemma elf_boots : fst <$> boot (elf_host file_example) elf_args junk_example = Some 0.
Proof. vm_compute. reflexivity. Qed.

(** The loader does not check the alignment of the entry point. *)
Lemma misaligned_entry_boots :
  (fun x => (x.1, pc (bs_cpu x.2))) <$> boot (elf_host misaligned_file) elf_args junk_example = Some (0, 0x80000102).
Proof. vm_compute. reflexivity. Qed.

Lemma boot_wf_witness :
  match boot bin_host bin_args junk_example, boot (elf_host file_example) elf_args junk_example with
  | Some (r1, s1), Some (r2, s2) =>
      (r1 = 0 /\ mach_ok (booted s1) /\ pc (bs_cpu s1) = RST_VEC) /\
      (r2 = 0 /\ mach_ok (booted s2) /\ pc (bs_cpu s2) = 0x80000100)
  | _, _ => False
  end.
Proof.
  pose proof bin_boots as H1. pose proof elf_boots as H2.
  destruct (boot bin_host bin_args junk_example) as [[r1 s1]|] eqn:E1; [|discriminate H1]. injection H1 as ->.
  destruct (boot (elf_host file_example) elf_args junk_example) as [[r2 s2]|] eqn:E2; [|discriminate H2]. injection H2 as ->.
  destruct (boot_wf bin_host bin_args bin_host_ok junk_example s1 junk_example_ok ltac:(vm_compute; split; congruence) E1)
    as (C1 & _ & _ & _ & K1).
  destruct (boot_wf (elf_host file_example) elf_args (elf_host_ok file_example file_example_ok eq_refl) junk_example s2
    junk_example_ok ltac:(vm_compute; split; congruence) E2) as (C2 & _ & _ & K2 & _).
  split; (split; [reflexivity|split]).
  - apply K1. right. by left.
  - rewrite C1. reflexivity.
  - apply K2. vm_compute. reflexivity.
  - rewrite C2. vm_compute. reflexivity.
Defined.

Lemma boot_images_fit_witness : is_Some (boot bin_host full_args junk_example) /\ DRAM_SIZE <= dram_size full_args < 2 ^ 64.
Proof.
  split; [|vm_compute; split; congruence].
  exact (boot_images_fit bin_host full_args junk_example bin_host_ok junk_example_ok ltac:(vm_compute; split; congruence) eq_refl).
Defined.

Lemma main_exit_status_witness :
  main 4 bin_opts [[112]] bin_host junk_example (replicate 3 idle_host) = Some EXIT_SUCCESS.
Proof.
  destruct (parse_arguments 4 bin_opts [[112]] args_init) as [e|args] eqn:Ea; [vm_compute in Ea; discriminate Ea|].
  assert (args = bin_args) as -> by (vm_compute in Ea; by injection Ea as <-).
  pose proof bin_boots as Hr. pose proof bin_runs as Hx.
  destruct (boot bin_host bin_args junk_example) as [[r s]|] eqn:Eb; [|discriminate Hr]. injection Hr as ->.
  cbn [mbind option_bind snd] in Hx.
  destruct (main_exit_status 4 bin_opts [[112]] bin_host junk_example (replicate 3 idle_host) bin_args 0 s Ea Eb) as [_ H].
  destruct (cpu_exec _ _ _ _ _) as [[st m]|] eqn:Ee; [|discriminate Hx]. injection Hx as -> Ha.
  destruct (H eq_refl POWEROFF m eq_refl) as (code & Hm & _ & Hc). rewrite Hm. f_equal. apply Hc.
  split; [by left|by right].
Defined.
